(* ===== verification/_CoqProject ===== *)
-Q . S2P
Prelude.v
BTree.v
Sha256Spec.v
SessionCrypto.v
SimdSha256.v
Cbor.v
CoseKey.v
Engagement.v
Session.v
DigestExecutor.v
Cose.v
Mso.v
X509.v
DigestPlan.v
PlanProps.v
PlanReturns.v
Mdoc.v
Messages.v
Json.v
Alpha2.v
UNSign.v
Elements.v
IsoNamespace.v
AamvaNamespace.v
NamespaceProps.v
NamespaceErrors.v
Derive.v
CodeTables.v
NamespaceExamples.v
Authentication.v
Device.v
Utils.v
DeviceProps.v
DeviceMachine.v
RequestAuth.v
Reader.v
ReaderProps.v
Protocol.v
Lifecycle.v
Network.v
Channel.v
JsonCredential.v
Concrete.v
PresentationExamples.v
ChannelExamples.v
LifecycleExamples.v
