(* ===== verification/Prelude.v ===== *)
(** * Verification of isomdl

    [isomdl] implements ISO/IEC 18013-5 mobile driving licences.  An issuer turns
    named data elements into a credential whose mobile security object commits to a
    digest of every element; a holder's device presents chosen elements of its
    credentials over an encrypted session; a verifier's reader asks for elements and
    authenticates what it receives.  This library models that program in Rocq,
    definition by definition, and proves what makes each part correct.  This file is
    its prelude; the parts and their files are the following (paths under [src/]).

    ** Parts and files

    Shared data
    - [Prelude]: results and fallible loops, byte strings and machine integers, chunks
      of slices and in-place writes, the tactics [inv_result], [bool_to_prop] and
      [solve_length] with the rewrite database [lens].
    - [BTree]: [BTreeMap], a finite map in stdpp's sense with ordered iteration.
    - [Cbor] ([cbor.rs], [definitions/helpers]): CBOR values, head encoding, the
      serialization interface [Serde] and the wrappers [ByteStr], [Tag24],
      [NonEmptyVec], [NonEmptyMap].

    Cryptography
    - [Sha256Spec]: SHA-256, HMAC and HKDF as in their standards.
    - [SessionCrypto] ([definitions/session_crypto.rs]) and [SimdSha256]
      ([simd_sha256.rs]): the streaming hasher, HMAC, HKDF and the eight-lane hasher,
      refined to [Sha256Spec].
    - [Cose] ([cose.rs], [cose/]): [COSE_Sign1] and [COSE_Mac0].
    - [X509] ([definitions/x509]): certificate chains, extension checks, trust anchors
      and the validation rulesets.
    - [Session] ([definitions/session.rs]): AEAD buffers of the native and the
      WebAssembly build, message counters, key agreement and derivation.

    Credentials
    - [CoseKey] ([definitions/device_key]), [Mso] ([definitions/mso.rs],
      [validity_info.rs], [issuer_signed.rs]): device keys with their authorizations,
      the mobile security object and issuer-signed items.
    - [DigestExecutor] ([digest_executor.rs]): the executor interface, its scalar,
      eight-lane, native and adaptive implementations and the shared worker budget.
    - [DigestPlan], [PlanProps], [PlanReturns], [Mdoc] ([issuance/mdoc.rs]): planning
      digest jobs with decoys, assembling results, the builder, single and batch
      preparation, and completion with a remote signature; what the planner makes, and
      that it returns.  Issuance calls the executor only through
      the class [DigestExecutor]; its theorems assume [DigestExecutorCorrect], which
      every implementation's theorem establishes.

    Namespaces
    - [Json] ([definitions/traits], [macros/src]): JSON input, the conversion traits and
      combinators for the code that the derive macros generate.
    - [Derive] ([macros/src]): the derive macros themselves, from the declaration of a
      struct to the conversions they emit and what these mean.
    - [Alpha2], [UNSign], [Elements], [IsoNamespace], [AamvaNamespace]
      ([definitions/namespaces]): codes, element types and the two namespaces.
    - [NamespaceProps], [NamespaceErrors], [CodeTables]: their properties;
      [NamespaceExamples]: the theorems on namespaces and macros at concrete data.

    Presentation
    - [Engagement] ([definitions/device_engagement.rs] and its directory), [Messages]
      ([definitions/device_request.rs], [device_response.rs], [device_signed.rs],
      [presentation/mod.rs]): engagement structures, QR codes, requests, responses.
    - [Authentication] ([presentation/authentication/mdoc.rs], [reader_utils.rs]):
      issuer and device authentication and the verdicts on a response.
    - [Device], [DeviceProps], [DeviceMachine] ([presentation/device.rs]): the holder's
      session manager.  [Device.SessionManager] has the fields of the Rust struct and
      each method is a function from the manager to the next manager and its result;
      [DeviceMachine] runs any sequence of a user's calls.
    - [RequestAuth]: when the device accepts a reader's signature on its request.
    - [Reader], [ReaderProps] ([presentation/reader.rs]): the verifier's session manager.
    - [Protocol]: the two managers run against each other.
    - [Lifecycle]: issuer, holder and verifier together, from the preparation of a
      credential to what the reader reports of it; [JsonCredential]: the same from a
      description of the holder in JSON.
    - [Network]: the two managers on a network that an adversary controls, as a step
      relation on both sessions and a record of what was sealed, shown, permitted,
      responded and received; an abstract pair of queues, which the runs refine.
      [Channel]: what every run guarantees.
    - [Utils] ([bin/utils.rs], [bin/x509/mod.rs]): the command-line utility, on parsed
      arguments.
    - [Concrete], [PresentationExamples], [ChannelExamples], [LifecycleExamples]: a
      byte-level codec of every message that satisfies the laws asked of the
      serializers, and the theorems at concrete data.

    ** How the code is modelled

    Fallible code returns [result]; code that may also panic returns [option] of it,
    [None] being the panic.  Integers of width w are in [Z] with the checks or the
    wrap-around of the source written out; bytes are integers below 256.  Methods
    that mutate [self] take and return the record.  Buffers that the code wipes are
    returned with the result, as they are when released.  Randomness is a generator
    passed along ([Rng]); the clock is an argument.

    Loops are folds over the data they visit.  Two use fuel: writing decimal digits
    ([digits]), where ten are enough for an [i32], and drawing a fresh digest identifier
    ([generate_digest_id_loop]), which the code does without a bound.  No bound can be
    enough for every generator, so that [RetryFuel] is a parameter of issuance that no
    theorem fixes; running out is the error [Diverges].  [PlanReturns] and
    [Mdoc.prepare_returns] show that this error only stands for a generator that draws
    taken identifiers for the whole bound, and that with a generator that draws another
    one some time the result is the same under every bound from some number on.  The
    recursions over slices ([chunks_fuel], [compress_blocks], [raw_decode]) take the
    length of the slice.

    Dates are moments with an offset.  [to_utc] panics on a year beyond 9999 in either
    direction, as the crate [time] does without its feature [large-dates]; a date has a
    text in UTC exactly when its year is between 0 and 9999 ([Rfc3339Laws]).  The
    serializer of the mobile security object writes its validity information through the
    conversion of [Mso], so that what a reader gets has its dates truncated to seconds
    and in UTC ([MsoSerde]); where that conversion fails or panics, nothing is written.

    Third-party code is an interface: [Serde] (ciborium, serde, with the round-trip law
    [SerdeLaws], or [MsoSerde] for the security object), [AeadBackend] and [WasmAead] (aws-lc-rs, aes-gcm), [Ecdh], [Sec1]
    (p256), [Verifier], [Ecdsa], [ToBeSigned] (ecdsa, coset), [Sha2] and
    [Sha256Compress] (sha2), [U32x8] (wide), [Rayon] (rayon), [Der], [Pem], [Sha1]
    (x509-cert), [Base64], [Rfc3339], [DateParse] (time), [UnicodeCase] (std's tables),
    [ProcMacro] (which texts proc_macro2 takes as identifiers), [Files] and [PrettyJson]
    (std, serde_json).
    Its laws are classes named [...Laws]; each is met by a concrete instance in a
    witness.  [Network] states the one cryptographic assumption, that of an
    authenticated cipher: a step delivers no message that opens under a key and a
    nonce without having been sealed under them in the run.  Order, repetition and
    direction are not assumed; they follow from the counters.

    ** What is proved

    - Issuance: a prepared credential commits to exactly the given elements, whatever
      executor is used, in batches as one by one; no check of a preparation fails, and it
      returns unless the generator stalls; digests are assembled independently of their
      order and nothing else is assembled; validity dates read back truncated; a
      credential is completed exactly when the remote signature verifies.
    - Sessions: initialization vectors never repeat, counters move exactly with
      success and fail closed, sequences of messages decrypt in order, both ends derive
      the same keys; what buffers and scratch space hold when they are released.
    - Hashing: both hashers and HKDF equal the standards; executors equal the oracle; the
      worker budget is conserved under every interleaving.
    - Presentation: only items that are stored, permitted and requested are disclosed;
      every request is accounted for; no sequence of calls makes the device panic;
      signing completes; linked sessions establish and complete every exchange.
    - Authentication: a response accepted without errors and a request whose reader is
      called authenticated are so exactly when the signatures, chains and transcripts
      are; the device reads no signature but that of the first document request.
    - Adversarial networks: whatever is replayed, reordered, reflected or injected,
      requests are shown and responses received in the order they were made, none
      twice; an end accepts exactly the next message and stays as it is on any other;
      what the reader receives was permitted by the user; and all this holds from the
      QR code on; of an issued credential, what arrives and what is reported is what
      the issuer gave.
    - All parties: an issued credential is accepted when its holder presents it, and
      exactly the issuer's values that are permitted and requested are disclosed and
      reported; what the namespaces write always has a form in the reader's JSON, so
      that no element of a description is lost on the way; the reader does not compare
      digests, so a holder's own values are accepted and reported under the issuer's
      signature just the same.
    - Trust: when certificate chains pass each ruleset; when signatures and responses
      verify; which elements a device key may sign.
    - Namespaces: reading JSON and writing CBOR keeps exactly the elements; all errors
      are reported, in order; dates outside the years 0 to 9999 are all that panics; code
      tables are exact; restricted texts accept exactly what they should; the derive
      macros generate the modelled readers and writers from the declarations, and agree
      on names and fields.
    - Values: which response values have a JSON form, which make the reader panic, and
      which age attestation is the nearest.

    ** Not modelled

    Benchmarks and tests, module lists and the parsing of command-line arguments are
    left out.  Display texts of errors are represented by constructors for their
    causes.  The derived readers and writers of serde are interfaces, except where the
    code writes the conversion itself.  Zeroization by drop glue of foreign types and
    [Debug] output are left out, and so are test-only observers and direct issuance,
    which exists for tests. *)

From stdpp Require Export base tactics option list numbers strings gmap sorting.
From Stdlib Require Export ZArith Lia.

(** ** Scope and notations *)

Declare Scope rust_scope.
Delimit Scope rust_scope with rust.

(** ** Fallible computations *)

(** Rust's [Result<T, E>]. *)
Inductive result (T E : Type) : Type :=
  | Ok (t : T)
  | Err (e : E).
Arguments Ok {T E} _.
Arguments Err {T E} _.

#[export] Instance result_eq_dec {T E} `{EqDecision T, EqDecision E} :
  EqDecision (result T E).
Proof. solve_decision. Defined.

Section result_ops.
Context {T U E F : Type}.

(** [r.and_then(f)], the meaning of the [?] operator. *)
Definition rbind (f : T → result U E) (r : result T E) : result U E :=
  match r with Ok t => f t | Err e => Err e end.

Definition rmap (f : T → U) (r : result T E) : result U E :=
  match r with Ok t => Ok (f t) | Err e => Err e end.

Definition map_err (f : E → F) (r : result T E) : result T F :=
  match r with Ok t => Ok t | Err e => Err (f e) end.

(** [r.ok()] *)
Definition rok (r : result T E) : option T :=
  match r with Ok t => Some t | Err _ => None end.

(** [o.ok_or(e)] *)
Definition ok_or (e : E) (o : option T) : result T E :=
  match o with Some t => Ok t | None => Err e end.

Definition is_ok (r : result T E) : bool :=
  match r with Ok _ => true | Err _ => false end.
End result_ops.

Notation "'let?' x ':=' c 'in' k" := (rbind (λ x, k) c)
  (at level 10, x pattern, c at level 200, k at level 200) : rust_scope.
Open Scope rust_scope.

(** Code that may panic as well as fail. *)
Definition obind {A B E} (f : A → option (result B E)) (c : option (result A E)) : option (result B E) :=
  r ← c; match r with Ok a => f a | Err e => Some (Err e) end.
Notation "'let*' x ':=' c 'in' k" := (obind (λ x, k) c)
  (at level 10, x pattern, c at level 200, k at level 200) : rust_scope.

Lemma obind_Ok {A B E} (f : A → option (result B E)) c b :
  obind f c = Some (Ok b) ↔ ∃ a, c = Some (Ok a) ∧ f a = Some (Ok b).
Proof.
  split.
  - destruct c as [[a|e]|]; cbn [obind mbind option_bind]; intros Hf; [by exists a|done..].
  - by intros (a & -> & Hf).
Qed.

(** [iter.map(f).collect::<Result<Vec<_>, _>>()]: the first error wins. *)
Fixpoint try_map {A B E} (f : A → result B E) (l : list A) : result (list B) E :=
  match l with
  | [] => Ok []
  | x :: l' => let? y := f x in let? ys := try_map f l' in Ok (y :: ys)
  end.

(** A [for] loop whose body may return early with an error. *)
Fixpoint try_fold {A S E} (f : S → A → result S E) (s : S) (l : list A) : result S E :=
  match l with
  | [] => Ok s
  | x :: l' => let? s' := f s x in try_fold f s' l'
  end.

(** ** Tactics *)

(** Invert a chain of [let?]s that is known to end in [Ok] (or in [Err]). *)
Ltac inv_result :=
  repeat match goal with
  | H : rbind _ ?r = Ok _ |- _ =>
      let E := fresh "Hr" in destruct r eqn:E; cbn [rbind] in H; [|discriminate H]
  | H : rmap _ ?r = Ok _ |- _ =>
      let E := fresh "Hr" in destruct r eqn:E; cbn [rmap] in H; [|discriminate H]
  | H : map_err _ ?r = Ok _ |- _ =>
      let E := fresh "Hr" in destruct r eqn:E; cbn [map_err] in H; [|discriminate H]
  | H : ok_or _ ?o = Ok _ |- _ =>
      let E := fresh "Ho" in destruct o eqn:E; cbn [ok_or] in H; [|discriminate H]
  | H : Ok _ = Ok _ |- _ => injection H as H; try subst
  | H : Err _ = Err _ |- _ => injection H as H; try subst
  | H : Ok _ = Err _ |- _ => discriminate H
  | H : Err _ = Ok _ |- _ => discriminate H
  end.

(** Split every boolean conjunction, disjunction and comparison into Props. *)
Ltac bool_to_prop :=
  repeat match goal with
  | H : andb _ _ = true |- _ => apply andb_true_iff in H as [? ?]
  | H : andb _ _ = false |- _ => apply andb_false_iff in H
  | H : orb _ _ = true |- _ => apply orb_true_iff in H
  | H : orb _ _ = false |- _ => apply orb_false_iff in H as [? ?]
  | H : negb _ = true |- _ => apply negb_true_iff in H
  | H : negb _ = false |- _ => apply negb_false_iff in H
  | H : Z.eqb _ _ = true |- _ => apply Z.eqb_eq in H
  | H : Z.eqb _ _ = false |- _ => apply Z.eqb_neq in H
  | H : Z.ltb _ _ = true |- _ => apply Z.ltb_lt in H
  | H : Z.ltb _ _ = false |- _ => apply Z.ltb_ge in H
  | H : Z.leb _ _ = true |- _ => apply Z.leb_le in H
  | H : Z.leb _ _ = false |- _ => apply Z.leb_gt in H
  | H : bool_decide _ = true |- _ => apply bool_decide_eq_true in H
  | H : bool_decide _ = false |- _ => apply bool_decide_eq_false in H
  end.

(** ** Lemmas on fallible traversals *)

Lemma try_map_Ok {A B E} (f : A → result B E) l k :
  try_map f l = Ok k ↔ Forall2 (λ x y, f x = Ok y) l k.
Proof.
  split.
  - revert k. induction l as [|x l IH]; intros k H; simpl in H; inv_result;
      constructor; auto.
  - induction 1 as [|x y l k Hx _ IH]; simpl; [done|]. by rewrite Hx, IH.
Qed.

Lemma try_map_length {A B E} (f : A → result B E) l k :
  try_map f l = Ok k → length k = length l.
Proof. intros H%try_map_Ok. symmetry. by eapply Forall2_length. Qed.

Lemma try_map_total {A B E} (f : A → result B E) (g : A → B) l :
  Forall (λ x, f x = Ok (g x)) l → try_map f l = Ok (g <$> l).
Proof. induction 1 as [|x l Hx _ IH]; simpl; [done|]. by rewrite Hx, IH. Qed.

Lemma try_map_Err {A B E} (f : A → result B E) l e :
  try_map f l = Err e ↔
  ∃ l1 x l2, l = l1 ++ x :: l2 ∧ f x = Err e ∧ Forall (λ y, is_ok (f y)) l1.
Proof.
  split.
  - induction l as [|x l IH]; simpl; intros H; [done|].
    destruct (f x) as [y|e'] eqn:Hx; simpl in H.
    + destruct (try_map f l) eqn:Hl; simpl in H; inv_result.
      destruct IH as (l1 & z & l2 & -> & Hz & Hl1); [done|].
      exists (x :: l1), z, l2. repeat split; [done|]. constructor; [by rewrite Hx|done].
    + injection H as ->. by exists [], x, l.
  - intros (l1 & x & l2 & -> & Hx & Hl1).
    induction Hl1 as [|y l1 Hy _ IH]; simpl; [by rewrite Hx|].
    destruct (f y); [|done]. simpl. by rewrite IH.
Qed.

Lemma try_fold_app {A S E} (f : S → A → result S E) s l1 l2 :
  try_fold f s (l1 ++ l2) = let? s' := try_fold f s l1 in try_fold f s' l2.
Proof.
  revert s. induction l1 as [|x l1 IH]; intros s; simpl; [done|].
  destruct (f s x); simpl; auto.
Qed.

(** Loop-invariant rule for a loop that ran to its end. *)
Lemma try_fold_inv {A S E} (f : S → A → result S E) (P : list A → S → Prop) s l s' :
  P [] s →
  (∀ done x rest s1 s2, l = done ++ x :: rest →
     P done s1 → f s1 x = Ok s2 → P (done ++ [x]) s2) →
  try_fold f s l = Ok s' → P l s'.
Proof.
  intros H0 Hstep.
  cut (∀ rest done s1, l = done ++ rest → P done s1 →
         try_fold f s1 rest = Ok s' → P l s').
  { intros Hgen. eapply (Hgen l [] s); done. }
  induction rest as [|x rest IH]; intros done s1 Hl HP Hf; simpl in Hf; inv_result.
  - by rewrite app_nil_r.
  - apply (IH (done ++ [x]) t); [by rewrite <-app_assoc| |done]. eauto.
Qed.

(** Lengths of lists: normalise them, then decide by arithmetic. *)
Create HintDb lens.
#[export] Hint Rewrite @length_app @length_take @length_drop @length_fmap @length_reverse @length_seq
  @length_replicate @length_insert : lens.
Ltac solve_length := autorewrite with lens; lia.

(** ** Byte strings and fixed-width integers *)

Abbreviation u8 := Z (only parsing).
Abbreviation u32 := Z (only parsing).
Abbreviation u64 := Z (only parsing).
Abbreviation i32 := Z (only parsing).
Abbreviation i128 := Z (only parsing).
Abbreviation usize := nat (only parsing).
Abbreviation bytes := (list Z) (only parsing).

Definition u8_max : Z := 2 ^ 8 - 1.
Definition u16_max : Z := 2 ^ 16 - 1.
Definition u32_max : Z := 2 ^ 32 - 1.
Definition u64_max : Z := 2 ^ 64 - 1.

Definition is_byte (b : Z) : Prop := (0 ≤ b < 2 ^ 8)%Z.
#[export] Instance is_byte_dec b : Decision (is_byte b).
Proof. unfold is_byte. apply _. Defined.

(** [n.checked_add(m)] on an unsigned type with the given maximum. *)
Definition checked_add (max : Z) (n m : Z) : option Z :=
  if bool_decide (n + m ≤ max)%Z then Some (n + m)%Z else None.

Definition checked_mul (max : Z) (n m : Z) : option Z :=
  if bool_decide (n * m ≤ max)%Z then Some (n * m)%Z else None.

(** [n.to_be_bytes()] for an [len]-byte unsigned integer, and its inverse. *)
Definition to_be_bytes (len : Z) (n : Z) : bytes := reverse (Z_to_little_endian len 8 n).
Definition from_be_bytes (l : bytes) : Z := little_endian_to_Z 8 (reverse l).

Lemma to_be_bytes_length len n : (0 ≤ len)%Z → Z.of_nat (length (to_be_bytes len n)) = len.
Proof. intros. unfold to_be_bytes. rewrite length_reverse. by apply length_Z_to_little_endian. Qed.

Lemma to_be_bytes_is_byte len n : (0 ≤ len)%Z → Forall is_byte (to_be_bytes len n).
Proof. intros. apply Forall_reverse, Z_to_little_endian_bound; lia. Qed.

Lemma from_to_be_bytes len n :
  (0 ≤ len)%Z → (0 ≤ n < 2 ^ (len * 8))%Z → from_be_bytes (to_be_bytes len n) = n.
Proof.
  intros Hl Hn. unfold from_be_bytes, to_be_bytes. rewrite reverse_involutive.
  rewrite little_endian_to_Z_to_little_endian by lia. by apply Z.mod_small.
Qed.

Lemma to_be_bytes_inj len n m :
  (0 ≤ len)%Z → (0 ≤ n < 2 ^ (len * 8))%Z → (0 ≤ m < 2 ^ (len * 8))%Z →
  to_be_bytes len n = to_be_bytes len m → n = m.
Proof.
  intros Hl Hn Hm Heq. rewrite <-(from_to_be_bytes len n), <-(from_to_be_bytes len m) by done.
  by rewrite Heq.
Qed.

(** ** Generic list lemmas *)

(** [slice.chunks(n)]: consecutive pieces of [n] elements, the last one shorter. *)
Fixpoint chunks_fuel {A} (fuel n : nat) (l : list A) : list (list A) :=
  match fuel, l with
  | S fuel', _ :: _ => take n l :: chunks_fuel fuel' n (drop n l)
  | _, _ => []
  end.
Definition chunks {A} (n : nat) (l : list A) : list (list A) := chunks_fuel (length l) n l.

Lemma chunks_fuel_concat {A} fuel n (l : list A) :
  0 < n → length l ≤ fuel → concat (chunks_fuel fuel n l) = l.
Proof.
  intros Hn. revert l. induction fuel as [|fuel IH]; intros [|x l] Hl; simpl in *; try done; try lia.
  rewrite IH; [apply take_drop|]. rewrite length_drop. cbn [length]. lia.
Qed.

(** Cutting a slice into chunks loses and reorders nothing. *)
Lemma chunks_concat {A} n (l : list A) : 0 < n → concat (chunks n l) = l.
Proof. intros. by apply chunks_fuel_concat. Qed.

Lemma chunks_fuel_length {A} fuel n (l : list A) :
  0 < n → length l ≤ fuel →
  (n * length (chunks_fuel fuel n l) ≤ length l + (n - 1)) ∧
  (length l ≤ n * length (chunks_fuel fuel n l)).
Proof.
  intros Hn. revert l.
  induction fuel as [|fuel IH]; intros [|x l] Hl; cbn [chunks_fuel length] in *; try lia.
  assert (length (drop n (x :: l)) ≤ fuel) as Hd by (rewrite length_drop; simpl; lia).
  destruct (IH _ Hd) as [H1 H2]. rewrite length_drop in H1, H2. cbn [length] in H1, H2.
  set (k := length (chunks_fuel fuel n (drop n (x :: l)))) in *.
  destruct (decide (n ≤ S (length l))); [nia|].
  assert (k = 0) as -> by nia. lia.
Qed.

Lemma NoDup_fmap_fst_inj {A B} (l : list (A * B)) a b1 b2 :
  NoDup (l.*1) → (a, b1) ∈ l → (a, b2) ∈ l → b1 = b2.
Proof.
  induction l as [|[a' b'] l IH]; intros Hnd H1 H2; [by apply elem_of_nil in H1|].
  rewrite fmap_cons in Hnd. apply NoDup_cons in Hnd as [Hni Hnd]. simpl in Hni.
  rewrite elem_of_cons in H1, H2. destruct H1 as [[=]|H1], H2 as [[=]|H2]; subst; try done.
  - exfalso. apply Hni, list_elem_of_fmap. by exists (a', b2).
  - exfalso. apply Hni, list_elem_of_fmap. by exists (a', b1).
  - eauto.
Qed.

Lemma chunks_fuel_ext {A} fuel1 fuel2 n (l : list A) :
  0 < n → length l ≤ fuel1 → length l ≤ fuel2 → chunks_fuel fuel1 n l = chunks_fuel fuel2 n l.
Proof.
  intros Hn. revert fuel2 l. induction fuel1 as [|fuel1 IH]; intros [|fuel2] [|x l] H1 H2;
    cbn [chunks_fuel length] in *; try done; try lia.
  f_equal. apply IH; rewrite length_drop; cbn [length]; lia.
Qed.

(** Unfolding the first chunk of a long enough slice. *)
Lemma chunks_cons {A} n (l k : list A) :
  0 < n → length l = n → chunks n (l ++ k) = l :: chunks n k.
Proof.
  intros Hn Hl. unfold chunks. rewrite length_app.
  destruct l as [|x l]; [simpl in Hl; lia|].
  cbn [length plus app chunks_fuel]. f_equal.
  - change (x :: l ++ k) with ((x :: l) ++ k). by rewrite take_app_length' by done.
  - change (x :: l ++ k) with ((x :: l) ++ k). rewrite drop_app_length' by done.
    apply chunks_fuel_ext; lia.
Qed.

Lemma chunks_app {A} n (l k : list A) :
  0 < n → (n | length l) → chunks n (l ++ k) = chunks n l ++ chunks n k.
Proof.
  intros Hn [q Hq]. revert l Hq. induction q as [|q IH]; intros l Hq.
  - destruct l; [done|]. simpl in Hq. lia.
  - rewrite <-(take_drop n l), <-app_assoc.
    assert (length (take n l) = n) by solve_length.
    rewrite (chunks_cons n _ (drop n l ++ k)), (chunks_cons n _ (drop n l)) by done.
    simpl. f_equal. apply IH. solve_length.
Qed.

(** [buf[off..off + src.len()].copy_from_slice(src)] *)
Definition write_at {A} (off : nat) (src buf : list A) : list A :=
  take off buf ++ src ++ drop (off + length src) buf.

Lemma write_at_length {A} off (src buf : list A) :
  off + length src ≤ length buf → length (write_at off src buf) = length buf.
Proof. intros. unfold write_at. solve_length. Qed.

Lemma write_at_take {A} off (src buf : list A) :
  off + length src ≤ length buf →
  take (off + length src) (write_at off src buf) = take off buf ++ src.
Proof.
  intros. unfold write_at. rewrite app_assoc. apply take_app_length'.
  solve_length.
Qed.

(** The pieces of an aligned slice, by index. *)
Lemma chunks_seq {A} n m (l : list A) :
  0 < n → length l = n * m → chunks n l = (λ k, take n (drop (n * k) l)) <$> seq 0 m.
Proof.
  intros Hn. revert l. induction m as [|m IH]; intros l Hl.
  - replace (n * 0) with 0 in Hl by lia. by apply nil_length_inv in Hl as ->.
  - rewrite <-(take_drop n l) at 1. rewrite chunks_cons by solve_length.
    rewrite <-cons_seq, fmap_cons. f_equal.
    + by rewrite Nat.mul_0_r, drop_0.
    + rewrite IH by solve_length. rewrite <-fmap_S_seq, <-list_fmap_compose.
      apply list_fmap_ext. intros i k _. simpl. rewrite drop_drop. do 2 f_equal. lia.
Qed.

Lemma take_drop_4 (l : list Z) k :
  k + 4 ≤ length l → take 4 (drop k l) = [l !!! k; l !!! (k + 1); l !!! (k + 2); l !!! (k + 3)].
Proof.
  intros Hl.
  assert (∀ i, i < 4 → drop k l !! i = Some (l !!! (k + i))) as Hi.
  { intros i Hi. rewrite lookup_drop. apply list_lookup_lookup_total_lt. lia. }
  pose proof (Hi 0) as H0. rewrite Nat.add_0_r in H0. pose proof (Hi 1). pose proof (Hi 2). pose proof (Hi 3).
  destruct (drop k l) as [|a [|b [|c [|d r]]]]; simpl in *; naive_solver lia.
Qed.

Lemma write_at_lookup {A} off (src buf : list A) i :
  off + length src ≤ length buf →
  write_at off src buf !! i =
  if decide (off ≤ i ∧ i < off + length src) then src !! (i - off) else buf !! i.
Proof.
  intros Hl. unfold write_at. destruct (decide (i < off)).
  - rewrite lookup_app_l, lookup_take_lt by solve_length.
    by rewrite decide_False by lia.
  - rewrite lookup_app_r by solve_length. rewrite length_take, Nat.min_l by lia.
    destruct (decide (i < off + length src)).
    + rewrite lookup_app_l by lia. by rewrite decide_True by lia.
    + rewrite lookup_app_r, lookup_drop by lia. rewrite decide_False by lia. f_equal. lia.
Qed.

(** Initialising a prefix of an array in index order. *)
Lemma foldl_insert_seq {A} (f : nat → A) n (l : list A) :
  n ≤ length l → foldl (λ s k, <[k := f k]> s) l (seq 0 n) = (f <$> seq 0 n) ++ drop n l.
Proof.
  induction n as [|n IH]; intros Hn; [done|].
  rewrite seq_S, foldl_app, IH, fmap_app by lia. simpl.
  rewrite insert_app_r_alt by solve_length.
  rewrite length_fmap, length_seq, Nat.sub_diag, <-app_assoc. f_equal.
  destruct (lookup_lt_is_Some_2 l n) as [x Hx]; [lia|].
  by rewrite (drop_S _ x) by done.
Qed.

(** An index loop over two arrays is a loop over the pairs. *)
Lemma foldl_zip_index {A B S} `{Inhabited A, Inhabited B} (g : S → A * B → S) s l1 l2 :
  length l1 = length l2 →
  foldl (λ s i, g s (l1 !!! i, l2 !!! i)) s (seq 0 (length l1)) = foldl g s (zip l1 l2).
Proof.
  revert s l2. induction l1 as [|a l1 IH]; intros s [|b l2] Hl; simpl in *; try done.
  rewrite <-(IH (g s (a, b)) l2), <-fmap_S_seq by lia.
  generalize (seq 0 (length l1)), (g s (a, b)). clear.
  induction l as [|i l IHl]; intros s; simpl; [done|]. apply IHl.
Qed.

(** Loop-invariant rule for a loop that cannot fail. *)
Lemma foldl_inv {A S} (f : S → A → S) (P : list A → S → Prop) s l :
  P [] s →
  (∀ done x rest s1, l = done ++ x :: rest → P done s1 → P (done ++ [x]) (f s1 x)) →
  P l (foldl f s l).
Proof.
  intros H0 Hstep. cut (∀ rest done s1, l = done ++ rest → P done s1 → P l (foldl f s1 rest)).
  { intros Hgen. by apply (Hgen l [] s). }
  induction rest as [|x rest IH]; intros done s1 Hl HP; simpl.
  - rewrite app_nil_r in Hl. by subst.
  - apply (IH (done ++ [x])); [by rewrite <-app_assoc|]. eauto.
Qed.

(** A fallible loop whose body never fails on the given items. *)
Lemma try_fold_total {A S E} (f : S → A → result S E) (g : S → A → S) s l :
  Forall (λ x, ∀ s, f s x = Ok (g s x)) l → try_fold f s l = Ok (foldl g s l).
Proof. intros Hl. revert s. induction Hl as [|x l Hx _ IH]; intros s; simpl; [done|]. rewrite Hx. apply IH. Qed.

Lemma foldl_concat {A S} (f : S → A → S) s (ls : list (list A)) :
  foldl (foldl f) s ls = foldl f s (concat ls).
Proof. revert s. induction ls as [|l ls IH]; intros s; simpl; [done|]. by rewrite foldl_app, IH. Qed.

Lemma foldl_fmap {A B S} (f : S → B → S) (g : A → B) s l :
  foldl f s (g <$> l) = foldl (λ s x, f s (g x)) s l.
Proof. revert s. induction l as [|x l IH]; intros s; simpl; [done|]. apply IH. Qed.

Lemma filter_nil_not {A} (P : A → Prop) `{∀ x, Decision (P x)} l x : filter P l = [] → x ∈ l → ¬ P x.
Proof.
  intros Hl Hx HP. assert (x ∈ filter P l) as Hin by by apply list_elem_of_filter.
  rewrite Hl in Hin. by apply elem_of_nil in Hin.
Qed.
