(* ===== verification/BTree.v ===== *)
(** * Ordered maps

    [BTreeMap<K, V>]: a finite map whose iteration visits the keys in
    increasing order.  The representation is a key-sorted association list, so
    that [map_to_list] is the iteration order of the Rust container (the order
    in which randomness is consumed and digest jobs are numbered depends on
    it).  The type is an instance of stdpp's [FinMap], hence the whole theory
    of finite maps applies to it. *)

From S2P Require Export Prelude.
From stdpp Require Export fin_maps.

(** ** Ordered keys *)

(** Rust's [Ord]. *)
Class Ord (K : Type) := cmp : K → K → comparison.
#[export] Hint Mode Ord ! : typeclass_instances.

Class OrdLaws (K : Type) `{Ord K} : Prop := {
  cmp_eq (a b : K) : cmp a b = Eq ↔ a = b;
  cmp_opp (a b : K) : cmp b a = CompOpp (cmp a b);
  cmp_lt_trans (a b c : K) : cmp a b = Lt → cmp b c = Lt → cmp a c = Lt;
}.

#[export] Instance Z_ord : Ord Z := Z.compare.
#[export] Instance Z_ord_laws : OrdLaws Z.
Proof.
  split; unfold cmp, Z_ord; intros.
  - apply Z.compare_eq_iff.
  - apply Z.compare_antisym.
  - rewrite Z.compare_lt_iff in *. lia.
Qed.

#[export] Instance nat_ord : Ord nat := Nat.compare.
#[export] Instance nat_ord_laws : OrdLaws nat.
Proof.
  split; unfold cmp, nat_ord; intros.
  - apply Nat.compare_eq_iff.
  - apply Nat.compare_antisym.
  - rewrite Nat.compare_lt_iff in *. lia.
Qed.

(** Lexicographic order on pairs, as [#[derive(Ord)]] and tuples have it. *)
#[export] Instance prod_ord {A B} `{Ord A, Ord B} : Ord (A * B) := λ p q,
  match cmp p.1 q.1 with Eq => cmp p.2 q.2 | c => c end.
#[export] Instance prod_ord_laws {A B} `{OrdLaws A, OrdLaws B} : OrdLaws (A * B).
Proof.
  split; unfold cmp, prod_ord.
  - intros [a b] [a' b']; simpl. destruct (cmp a a') eqn:E.
    + apply cmp_eq in E as ->. rewrite cmp_eq. naive_solver.
    + split; [done|]. intros [= -> ->]. assert (cmp a' a' = Eq) by by apply cmp_eq. congruence.
    + split; [done|]. intros [= -> ->]. assert (cmp a' a' = Eq) by by apply cmp_eq. congruence.
  - intros [a b] [a' b']; simpl. rewrite (cmp_opp a a').
    destruct (cmp a a'); simpl; [apply cmp_opp|done|done].
  - intros [a1 b1] [a2 b2] [a3 b3]; simpl.
    destruct (cmp a1 a2) eqn:E12; [apply cmp_eq in E12 as ->| |done].
    + destruct (cmp a2 a3) eqn:E23; [|done|done]. apply cmp_lt_trans.
    + intros _. destruct (cmp a2 a3) eqn:E23; [apply cmp_eq in E23 as <-; by rewrite E12| |done].
      by rewrite (cmp_lt_trans _ _ _ E12 E23).
Qed.

(** Strings compare bytewise. *)
Definition ascii_cmp (a b : Ascii.ascii) : comparison :=
  N.compare (Ascii.N_of_ascii a) (Ascii.N_of_ascii b).

Fixpoint string_cmp (s t : string) : comparison :=
  match s, t with
  | EmptyString, EmptyString => Eq
  | EmptyString, String _ _ => Lt
  | String _ _, EmptyString => Gt
  | String a s', String b t' =>
      match ascii_cmp a b with Eq => string_cmp s' t' | c => c end
  end.
#[export] Instance string_ord : Ord string := string_cmp.

Lemma ascii_cmp_eq a b : ascii_cmp a b = Eq ↔ a = b.
Proof.
  unfold ascii_cmp. rewrite N.compare_eq_iff. split; [|by intros ->].
  intros E. by rewrite <-(Ascii.ascii_N_embedding a), E, Ascii.ascii_N_embedding.
Qed.

#[export] Instance string_ord_laws : OrdLaws string.
Proof.
  split; unfold cmp, string_ord.
  - induction a as [|x a IH]; intros [|y b]; simpl; try done.
    destruct (ascii_cmp x y) eqn:E.
    + apply ascii_cmp_eq in E as ->. rewrite IH. naive_solver.
    + split; [done|]. intros [= -> ->]. assert (ascii_cmp y y = Eq) by by apply ascii_cmp_eq. congruence.
    + split; [done|]. intros [= -> ->]. assert (ascii_cmp y y = Eq) by by apply ascii_cmp_eq. congruence.
  - induction a as [|x a IH]; intros [|y b]; simpl; try done.
    assert (ascii_cmp y x = CompOpp (ascii_cmp x y)) as -> by apply N.compare_antisym.
    destruct (ascii_cmp x y); simpl; [apply IH|done|done].
  - induction a as [|x a IH]; intros [|y b] [|z c]; simpl; try done.
    destruct (ascii_cmp x y) eqn:Exy; [apply ascii_cmp_eq in Exy as ->| |done].
    + destruct (ascii_cmp y z); [apply IH|done|done].
    + intros _. destruct (ascii_cmp y z) eqn:Eyz; [apply ascii_cmp_eq in Eyz as <-; by rewrite Exy| |done].
      assert (ascii_cmp x z = Lt) as ->; [|done].
      unfold ascii_cmp in *. rewrite N.compare_lt_iff in *. lia.
Qed.

Section ord.
Context {K : Type} `{OrdLaws K}.

Lemma cmp_refl (a : K) : cmp a a = Eq.
Proof. by apply cmp_eq. Qed.
Lemma cmp_gt_lt (a b : K) : cmp a b = Gt ↔ cmp b a = Lt.
Proof. rewrite (cmp_opp a b). by destruct (cmp a b). Qed.
Lemma cmp_lt_ne (a b : K) : cmp a b = Lt → a ≠ b.
Proof. intros E ->. by rewrite cmp_refl in E. Qed.
Lemma cmp_gt_ne (a b : K) : cmp a b = Gt → a ≠ b.
Proof. intros E ->. by rewrite cmp_refl in E. Qed.

(** The equality test that the ordering provides. *)
#[local] Instance ord_eq_dec : EqDecision K.
Proof.
  intros a b. destruct (cmp a b) eqn:E; [left|right|right].
  - by apply cmp_eq. - by apply cmp_lt_ne. - by apply cmp_gt_ne.
Defined.
End ord.

(** ** Sorted association lists *)

Section raw.
Context {K : Type} `{OrdLaws K}.

Definition key_lt {V W} (p : K * V) (q : K * W) : Prop := cmp p.1 q.1 = Lt.

#[export] Instance key_lt_trans {V} : Transitive (@key_lt V V).
Proof. intros [a x] [b y] [c z]; unfold key_lt; simpl. apply cmp_lt_trans. Qed.

Fixpoint sortedb {V} (l : list (K * V)) : bool :=
  match l with
  | p :: ((q :: _) as l') =>
      match cmp p.1 q.1 with Lt => sortedb l' | _ => false end
  | _ => true
  end.

Lemma sortedb_spec {V} (l : list (K * V)) : sortedb l = true ↔ StronglySorted key_lt l.
Proof.
  transitivity (Sorted key_lt l).
  - induction l as [|p [|q l] IH]; [by split; constructor..|].
    change (sortedb (p :: q :: l)) with
      (match cmp p.1 q.1 with Lt => sortedb (q :: l) | _ => false end).
    split.
    + intros E. destruct (cmp p.1 q.1) eqn:C; try done.
      constructor; [by apply IH|by constructor].
    + inversion 1 as [|?? Hs Hh]; subst. inversion Hh as [|?? Hlt]; subst.
      unfold key_lt in Hlt. rewrite Hlt. by apply IH.
  - split; [apply Sorted_StronglySorted, _|apply StronglySorted_Sorted].
Qed.

Fixpoint raw_lookup {V} (k : K) (l : list (K * V)) : option V :=
  match l with
  | [] => None
  | (k', v) :: l' =>
      match cmp k k' with Eq => Some v | Lt => None | Gt => raw_lookup k l' end
  end.

Fixpoint raw_alter {V} (f : option V → option V) (k : K) (l : list (K * V)) : list (K * V) :=
  let added := match f None with Some v => [(k, v)] | None => [] end in
  match l with
  | [] => added
  | (k', v) :: l' =>
      match cmp k k' with
      | Lt => added ++ l
      | Eq => match f (Some v) with Some w => (k', w) :: l' | None => l' end
      | Gt => (k', v) :: raw_alter f k l'
      end
  end.

Lemma raw_lookup_below {V} k (l : list (K * V)) :
  Forall (λ q, cmp k q.1 = Lt) l → raw_lookup k l = None.
Proof. by destruct 1 as [|[k' v] l E _]; simpl in *; [|rewrite E]. Qed.

Lemma raw_alter_below {V} (f : option V → option V) (k b : K) l :
  cmp b k = Lt → Forall (λ q, cmp b q.1 = Lt) l →
  Forall (λ q, cmp b q.1 = Lt) (raw_alter f k l).
Proof.
  intros Hb. induction 1 as [|[k' v] l E Hl IH]; simpl.
  - destruct (f None); by repeat constructor.
  - destruct (cmp k k'); [destruct (f (Some v))|destruct (f None)|]; simpl; auto.
Qed.

Lemma raw_alter_sorted {V} (f : option V → option V) k l :
  StronglySorted key_lt l → StronglySorted key_lt (raw_alter f k l).
Proof.
  induction 1 as [|[k' v] l Hs IH Hall]; simpl.
  - destruct (f None); by repeat constructor.
  - destruct (cmp k k') eqn:E.
    + destruct (f (Some v)); [|done]. by constructor.
    + destruct (f None); simpl; [|by constructor].
      constructor; [by constructor|]. constructor; [done|].
      eapply Forall_impl; [exact Hall|]. intros q Hq. by eapply cmp_lt_trans.
    + constructor; [done|]. apply raw_alter_below; [|done]. by apply cmp_gt_lt.
Qed.

Lemma raw_lookup_alter_eq {V} (f : option V → option V) k l :
  StronglySorted key_lt l → raw_lookup k (raw_alter f k l) = f (raw_lookup k l).
Proof.
  induction 1 as [|[k' v] l Hs IH Hall]; simpl.
  - destruct (f None); simpl; [by rewrite cmp_refl|done].
  - destruct (cmp k k') eqn:E; simpl.
    + apply cmp_eq in E as ->. destruct (f (Some v)); simpl; [by rewrite cmp_refl|].
      by apply raw_lookup_below.
    + destruct (f None); simpl; [by rewrite cmp_refl|by rewrite E].
    + by rewrite E.
Qed.

Lemma raw_lookup_alter_ne {V} (f : option V → option V) k j l :
  StronglySorted key_lt l → k ≠ j → raw_lookup j (raw_alter f k l) = raw_lookup j l.
Proof.
  intros Hs Hne. assert (cmp j k ≠ Eq) as Hjk by by rewrite cmp_eq.
  induction Hs as [|[k' v] l Hs IH Hall]; simpl.
  - destruct (f None); simpl; [by destruct (cmp j k)|done].
  - destruct (cmp k k') eqn:E; simpl.
    + apply cmp_eq in E as ->. destruct (f (Some v)); simpl.
      * by destruct (cmp j k').
      * destruct (cmp j k') eqn:E'; try done.
        apply raw_lookup_below. eapply Forall_impl; [exact Hall|].
        intros q Hq. by eapply cmp_lt_trans.
    + destruct (f None); simpl; [|done].
      destruct (cmp j k) eqn:E'; [done| |done].
      by rewrite (cmp_lt_trans _ _ _ E' E).
    + by destruct (cmp j k').
Qed.

Lemma raw_ext {V} (l1 l2 : list (K * V)) :
  StronglySorted key_lt l1 → StronglySorted key_lt l2 →
  (∀ k, raw_lookup k l1 = raw_lookup k l2) → l1 = l2.
Proof.
  intros Hs1. revert l2. induction Hs1 as [|[k1 v1] l1 Hs1 IH Hall1];
    intros l2 Hs2 Heq; destruct Hs2 as [|[k2 v2] l2 Hs2 Hall2]; [done|..].
  - specialize (Heq k2). simpl in Heq. by rewrite cmp_refl in Heq.
  - specialize (Heq k1). simpl in Heq. by rewrite cmp_refl in Heq.
  - assert (k1 = k2) as <-.
    { pose proof (Heq k1) as H1. pose proof (Heq k2) as H2. simpl in H1, H2.
      rewrite cmp_refl in H1, H2. apply cmp_eq.
      destruct (cmp k1 k2) eqn:E12; [done|done|].
      apply cmp_gt_lt in E12. by rewrite E12 in H2. }
    pose proof (Heq k1) as H1. simpl in H1. rewrite cmp_refl in H1. injection H1 as <-.
    f_equal. apply IH; [done|]. intros k. specialize (Heq k). simpl in Heq.
    destruct (cmp k k1) eqn:E; [|..|done].
    + apply cmp_eq in E as ->. by rewrite !raw_lookup_below.
    + rewrite !raw_lookup_below; [done|..];
        (eapply Forall_impl; [eassumption|]; intros q Hq; by eapply cmp_lt_trans).
Qed.

Definition raw_fmap {V W} (f : V → W) (l : list (K * V)) : list (K * W) := prod_map id f <$> l.
Definition raw_omap {V W} (f : V → option W) (l : list (K * V)) : list (K * W) :=
  omap (λ p, (p.1,.) <$> f p.2) l.

Lemma raw_omap_below {V W} (f : V → option W) b l :
  Forall (λ q, cmp b q.1 = Lt) l → Forall (λ q, cmp b q.1 = Lt) (raw_omap f l).
Proof. induction 1 as [|[k v] l E _ IH]; csimpl; [done|]. destruct (f v); simpl; auto. Qed.

Lemma raw_omap_sorted {V W} (f : V → option W) l :
  StronglySorted key_lt l → StronglySorted key_lt (raw_omap f l).
Proof.
  induction 1 as [|[k v] l Hs IH Hall]; csimpl; [constructor|].
  destruct (f v); simpl; [|done]. constructor; [done|]. by apply raw_omap_below.
Qed.

Lemma raw_lookup_omap {V W} (f : V → option W) k l :
  StronglySorted key_lt l → raw_lookup k (raw_omap f l) = raw_lookup k l ≫= f.
Proof.
  induction 1 as [|[k' v] l Hs IH Hall]; csimpl; [done|].
  destruct (cmp k k') eqn:E; destruct (f v) eqn:F; csimpl; rewrite ?E, ?F; try done.
  - apply cmp_eq in E as ->. by apply raw_lookup_below, raw_omap_below.
  - apply raw_lookup_below, raw_omap_below.
    eapply Forall_impl; [exact Hall|]. intros q Hq. by eapply cmp_lt_trans.
Qed.

Lemma raw_fmap_omap {V W} (f : V → W) l : raw_fmap f l = raw_omap (Some ∘ f) l.
Proof. induction l as [|[k v] l IH]; csimpl; [done|]. by rewrite <-IH. Qed.
End raw.

(** ** The map type *)

(** The boolean well-formedness proof is normalised, so that maps with the same
    entries are equal and closed maps compute. *)
Definition canon {b : bool} : b = true → b = true :=
  match b with true => λ _, eq_refl | false => λ H, H end.

Record btree (K : Type) `{Ord K} (V : Type) : Type := BTree {
  entries : list (K * V);
  entries_sorted : sortedb entries = true;
}.
Arguments BTree {K _ V} _ _.
Arguments entries {K _ V} _.
Arguments entries_sorted {K _ V} _.

Section btree.
Context {K : Type} `{OrdLaws K, EqDecision K}.

Lemma btree_eq {V} (m1 m2 : btree K V) : entries m1 = entries m2 → m1 = m2.
Proof.
  destruct m1 as [l1 H1], m2 as [l2 H2]; simpl. intros ->. f_equal.
  apply (Eqdep_dec.UIP_dec Bool.bool_dec).
Qed.

Lemma btree_sorted {V} (m : btree K V) : StronglySorted key_lt (entries m).
Proof. apply sortedb_spec, entries_sorted. Qed.

Definition of_sorted {V} (l : list (K * V)) (Hs : StronglySorted key_lt l) : btree K V :=
  BTree l (canon (proj2 (sortedb_spec l) Hs)).

#[export] Instance btree_empty {V} : Empty (btree K V) := BTree [] eq_refl.
#[export] Instance btree_lookup {V} : Lookup K V (btree K V) := λ k m, raw_lookup k (entries m).
#[export] Instance btree_partial_alter {V} : PartialAlter K V (btree K V) := λ f k m,
  of_sorted (raw_alter f k (entries m)) (raw_alter_sorted f k _ (btree_sorted m)).
#[export] Instance btree_omap : OMap (btree K) := λ V W f m,
  of_sorted (raw_omap f (entries m)) (raw_omap_sorted f _ (btree_sorted m)).

Lemma raw_fmap_sorted {V W} (f : V → W) l :
  StronglySorted key_lt l → StronglySorted key_lt (raw_fmap f l : list (K * W)).
Proof. rewrite raw_fmap_omap. apply raw_omap_sorted. Qed.

#[export] Instance btree_fmap : FMap (btree K) := λ V W f m,
  of_sorted (raw_fmap f (entries m)) (raw_fmap_sorted f _ (btree_sorted m)).
#[export] Instance btree_fold {V} : MapFold K V (btree K V) := λ B f b m,
  foldr (λ p, f p.1 p.2) b (entries m).

Definition merge_entry {A B C} (f : option A → option B → option C)
    (m1 : btree K A) (m2 : btree K B) (acc : btree K C) (k : K) : btree K C :=
  partial_alter (λ _, diag_None f (m1 !! k) (m2 !! k)) k acc.
#[export] Instance btree_merge : Merge (btree K) := λ A B C f m1 m2,
  foldl (merge_entry f m1 m2) ∅ ((entries m1).*1 ++ (entries m2).*1).

Lemma btree_lookup_alter_eq {V} f (m : btree K V) k :
  partial_alter f k m !! k = f (m !! k).
Proof. apply raw_lookup_alter_eq, btree_sorted. Qed.
Lemma btree_lookup_alter_ne {V} f (m : btree K V) k j :
  k ≠ j → partial_alter f k m !! j = m !! j.
Proof. intros. apply raw_lookup_alter_ne; [apply btree_sorted|done]. Qed.

Lemma btree_lookup_Some_key {V} (m : btree K V) k v : m !! k = Some v → k ∈ (entries m).*1.
Proof.
  unfold lookup, btree_lookup. induction (entries m) as [|[k' v'] l IH]; simpl; [done|].
  destruct (cmp k k') eqn:E; [|done|]; rewrite elem_of_cons; auto.
  apply cmp_eq in E. auto.
Qed.

Lemma merge_entries_lookup {A B C} (f : option A → option B → option C) m1 m2 ks acc k :
  foldl (merge_entry f m1 m2) acc ks !! k =
    if decide (k ∈ ks) then diag_None f (m1 !! k) (m2 !! k) else acc !! k.
Proof.
  revert acc. induction ks as [|j ks IH]; intros acc; cbn [foldl]; [by rewrite decide_False by set_solver|].
  rewrite IH. unfold merge_entry. destruct (decide (k ∈ ks)) as [Hin|Hni].
  - by rewrite decide_True by set_solver.
  - destruct (decide (k = j)) as [->|Hne].
    + rewrite btree_lookup_alter_eq. by rewrite decide_True by set_solver.
    + rewrite btree_lookup_alter_ne by done. by rewrite decide_False by set_solver.
Qed.

Lemma btree_lookup_merge {A B C} (f : option A → option B → option C)
    (m1 : btree K A) (m2 : btree K B) k :
  merge f m1 m2 !! k = diag_None f (m1 !! k) (m2 !! k).
Proof.
  unfold merge, btree_merge. rewrite merge_entries_lookup. case_decide as Hk; [done|].
  rewrite elem_of_app in Hk.
  destruct (m1 !! k) eqn:E1; [apply btree_lookup_Some_key in E1; tauto|].
  destruct (m2 !! k) eqn:E2; [apply btree_lookup_Some_key in E2; tauto|]. done.
Qed.

Lemma entries_insert_below {V} k (v : V) (m : btree K V) :
  Forall (λ q, cmp k q.1 = Lt) (entries m) → entries (<[k:=v]> m) = (k, v) :: entries m.
Proof.
  intros Hall. change (entries (<[k:=v]> m)) with (raw_alter (λ _, Some v) k (entries m)).
  destruct Hall as [|[k' v'] l E _]; simpl in *; [done|]. by rewrite E.
Qed.

#[export] Instance btree_finmap : FinMap K (btree K).
Proof.
  split.
  - intros V m1 m2 Heq. apply btree_eq, raw_ext; [apply btree_sorted..|]. exact Heq.
  - done.
  - intros. apply btree_lookup_alter_eq.
  - intros. by apply btree_lookup_alter_ne.
  - intros A B f m k. unfold fmap, btree_fmap, lookup, btree_lookup; simpl.
    rewrite raw_fmap_omap, raw_lookup_omap by apply btree_sorted. by destruct (raw_lookup k _).
  - intros A B f m k. apply raw_lookup_omap, btree_sorted.
  - intros. apply btree_lookup_merge.
  - done.
  - intros A P Hemp Hins m.
    assert (∀ l (m : btree K A), entries m = l → P m) as Hgen; [|by eapply Hgen].
    induction l as [|[k v] l IH]; intros m' Hm.
    { replace m' with (∅ : btree K A); [done|]. by apply btree_eq. }
    pose proof (btree_sorted m') as Hs. rewrite Hm in Hs.
    inversion Hs as [|?? Hs' Hall]; subst.
    set (m0 := of_sorted l Hs').
    replace m' with (<[k:=v]> m0).
    + apply Hins; [by apply raw_lookup_below| |by apply IH].
      intros A' B f g b x. unfold map_fold, btree_fold.
      rewrite entries_insert_below; [done|]. cbn [entries fmap btree_fmap of_sorted].
      unfold raw_fmap. apply Forall_fmap. eapply Forall_impl; [exact Hall|]. by intros [].
    + apply btree_eq. by rewrite entries_insert_below, Hm.
Qed.

(** Iteration order. *)
Lemma map_to_list_entries {V} (m : btree K V) : map_to_list m = entries m.
Proof.
  unfold map_to_list, map_fold, btree_fold. induction (entries m) as [|[k v] l IH]; simpl; congruence.
Qed.

Lemma entries_lookup {V} (m : btree K V) k v : (k, v) ∈ entries m ↔ m !! k = Some v.
Proof. rewrite <-map_to_list_entries. apply elem_of_map_to_list. Qed.

Lemma entries_NoDup {V} (m : btree K V) : NoDup (entries m).*1.
Proof. rewrite <-map_to_list_entries. apply NoDup_fst_map_to_list. Qed.

(** Two maps with the same entries up to order are the same map. *)
Lemma btree_perm {V} (m1 m2 : btree K V) : entries m1 ≡ₚ entries m2 → m1 = m2.
Proof. rewrite <-!map_to_list_entries. apply map_to_list_inj. Qed.
End btree.

#[export] Instance btree_eq_decision {K V} `{Ord K, EqDecision K, EqDecision V} :
  EqDecision (btree K V).
Proof.
  intros m1 m2. destruct (decide (entries m1 = entries m2)) as [E|E].
  - left. destruct m1 as [l1 H1], m2 as [l2 H2]; simpl in *. subst. f_equal.
    apply (Eqdep_dec.UIP_dec Bool.bool_dec).
  - right. congruence.
Defined.

(** [iter.collect::<BTreeMap<_, _>>()]: a later pair replaces an earlier one. *)
Definition collect {K V} `{OrdLaws K, EqDecision K} (l : list (K * V)) : btree K V :=
  foldl (λ m p, <[p.1:=p.2]> m) ∅ l.

(** [map.is_empty()] *)
Definition is_empty {K V} `{Ord K} (m : btree K V) : bool :=
  match entries m with [] => true | _ => false end.

Section collect.
Context {K V : Type} `{OrdLaws K, EqDecision K}.
Implicit Types (l : list (K * V)) (m : btree K V).

Lemma collect_snoc l k v : collect (l ++ [(k, v)]) = <[k:=v]> (collect l).
Proof. unfold collect. by rewrite foldl_app. Qed.

Lemma collect_list_to_map l : collect l = list_to_map (reverse l).
Proof.
  induction l as [|[k v] l IH] using rev_ind; [done|].
  by rewrite collect_snoc, reverse_snoc, list_to_map_cons, IH.
Qed.

Lemma collect_NoDup l : NoDup l.*1 → collect l = list_to_map l.
Proof.
  intros. rewrite collect_list_to_map. apply list_to_map_proper.
  - by rewrite fmap_reverse, reverse_Permutation.
  - by rewrite reverse_Permutation.
Qed.

Lemma collect_lookup l k v : NoDup l.*1 → collect l !! k = Some v ↔ (k, v) ∈ l.
Proof. intros. rewrite collect_NoDup by done. symmetry. by apply elem_of_list_to_map. Qed.

Lemma collect_entries m : collect (entries m) = m.
Proof.
  rewrite collect_NoDup by apply entries_NoDup.
  by rewrite <-map_to_list_entries, list_to_map_to_list.
Qed.

Lemma collect_perm l1 l2 : NoDup l1.*1 → l1 ≡ₚ l2 → collect l1 = collect l2.
Proof.
  intros Hnd Hp. rewrite !collect_NoDup; [by apply list_to_map_proper| |done].
  by rewrite <-Hp.
Qed.

Lemma collect_dom l k : is_Some (collect l !! k) ↔ k ∈ l.*1.
Proof.
  induction l as [|[j v] l IH] using rev_ind.
  - split; [by intros [? ?]|]. intros []%elem_of_nil.
  - rewrite collect_snoc, fmap_app, elem_of_app, <-IH. csimpl.
    rewrite list_elem_of_singleton. destruct (decide (j = k)) as [->|Hne].
    + rewrite lookup_insert_eq. naive_solver.
    + rewrite lookup_insert_ne by done. naive_solver.
Qed.

Lemma collect_fresh l k : k ∉ l.*1 → collect l !! k = None.
Proof. intros Hk. apply eq_None_not_Some. by rewrite collect_dom. Qed.

Lemma is_empty_spec m : is_empty m = true ↔ m = ∅.
Proof.
  unfold is_empty. split; [|by intros ->].
  destruct (entries m) eqn:E; [|done]. intros _. by apply btree_eq.
Qed.
End collect.

(** [map.into_iter().filter_map(|(k, v)| f(k, v).map(|w| (k, w))).collect()] *)
Section filter_map.
Context {K V W : Type} `{OrdLaws K, EqDecision K} (f : K → V → option W).

Definition filter_map_entries (m : btree K V) : list (K * W) :=
  omap (λ p : K * V, w ← f p.1 p.2; Some (p.1, w)) (entries m).

Lemma filter_map_elem m k w : (k, w) ∈ filter_map_entries m ↔ ∃ v, m !! k = Some v ∧ f k v = Some w.
Proof.
  unfold filter_map_entries. rewrite list_elem_of_omap. split.
  - intros ([j v] & Hin & Hw). cbn [fst snd] in Hw. destruct (f j v) eqn:E; [|done]. simplify_option_eq.
    exists v. split; [by apply entries_lookup|done].
  - intros (v & Hv & Hw). exists (k, v). split; [by apply entries_lookup|]. cbn [fst snd]. by rewrite Hw.
Qed.

Lemma filter_map_NoDup m : NoDup (filter_map_entries m).*1.
Proof.
  unfold filter_map_entries. pose proof (entries_NoDup m) as Hnd.
  induction (entries m) as [|[k v] l IH]; [constructor|]. rewrite fmap_cons in Hnd.
  apply NoDup_cons in Hnd as [Hk Hnd]. csimpl. cbn [fst snd].
  destruct (f k v) as [w|]; cbn [mbind option_bind]; [|by apply IH].
  rewrite fmap_cons. apply NoDup_cons. split; [|by apply IH]. cbn [fst]. intros Hin. apply Hk.
  apply list_elem_of_fmap in Hin as ([j u] & Hj & Hin).
  apply list_elem_of_omap in Hin as ([j' v'] & Hv & Hu).
  cbn [fst snd] in *. subst k. destruct (f j' v'); [|done]. simplify_option_eq. apply list_elem_of_fmap. by exists (j, v').
Qed.

Lemma filter_map_lookup m k : collect (filter_map_entries m) !! k = m !! k ≫= f k.
Proof.
  apply option_eq. intros w. rewrite collect_lookup, filter_map_elem by apply filter_map_NoDup.
  destruct (m !! k) as [v|]; cbn [mbind option_bind]; naive_solver.
Qed.
End filter_map.
