(* ===== verification/Sha256Spec.v ===== *)
(** * SHA-256, HMAC and HKDF: reference definitions

    FIPS 180-4, RFC 2104 and RFC 5869 as executable definitions over the
    compression function, which the crate takes from [sha2].  [fips_compress] is
    the standard's compression function; the known answer of "abc" checks it. *)

From S2P Require Export Prelude.

(** ** The compression function of the [sha2] crate *)

(** [sha2::compress256] on one block, from eight state words to eight. *)
Class Sha256Compress := compress256 : list u32 → bytes → list u32.

Class Sha256CompressLaws `{Sha256Compress} : Prop := {
  compress256_words st block :
    length st = 8 → length block = 64 → length (compress256 st block) = 8;
}.

(** ** Reference definitions (FIPS 180-4, RFC 2104, RFC 5869) *)

Section reference.
Context `{Sha256Compress}.

Definition sha256_iv : list u32 :=
  [0x6a09_e667; 0xbb67_ae85; 0x3c6e_f372; 0xa54f_f53a;
   0x510e_527f; 0x9b05_688c; 0x1f83_d9ab; 0x5be0_cd19]%Z.

(** Compress a block-aligned message. *)
Definition sha256_run (st : list u32) (msg : bytes) : list u32 :=
  foldl compress256 st (chunks 64 msg).

(** The padded message: a one bit, zeros up to 56 modulo 64, the bit length. *)
Definition sha256_pad (msg : bytes) : bytes :=
  let zeros := if decide (length msg mod 64 < 56) then 55 - length msg mod 64
               else 119 - length msg mod 64 in
  msg ++ [0x80%Z] ++ replicate zeros 0%Z ++ to_be_bytes 8 (8 * Z.of_nat (length msg)).

Definition words_to_bytes (ws : list u32) : bytes := concat (to_be_bytes 4 <$> ws).

Definition sha256 (msg : bytes) : bytes := words_to_bytes (sha256_run sha256_iv (sha256_pad msg)).

Definition xor_with (c : Z) (l : bytes) : bytes := (λ b, Z.lxor b c) <$> l.

(** RFC 2104: the key is hashed when longer than a block, then zero-padded. *)
Definition hmac_key_block (key : bytes) : bytes :=
  let k := if decide (64 < length key) then sha256 key else key in
  k ++ replicate (64 - length k) 0%Z.

Definition hmac_sha256 (key msg : bytes) : bytes :=
  sha256 (xor_with 0x5c (hmac_key_block key) ++
          sha256 (xor_with 0x36 (hmac_key_block key) ++ msg)).

(** RFC 5869: [T(0) = ""], [T(i) = HMAC(prk, T(i-1) || info || i)]. *)
Fixpoint hkdf_t (prk info : bytes) (i : nat) : bytes :=
  match i with
  | O => []
  | S i' => hmac_sha256 prk (hkdf_t prk info i' ++ info ++ [Z.of_nat i])
  end.
Definition hkdf_expand (prk info : bytes) (len : nat) : bytes :=
  take len (concat ((λ i, hkdf_t prk info (S i)) <$> seq 0 (len `div` 32 + if decide (len mod 32 = 0) then 0 else 1))).
Definition hkdf_extract (salt ikm : bytes) : bytes := hmac_sha256 salt ikm.
Definition hkdf_sha256 (salt ikm info : bytes) (len : nat) : bytes :=
  hkdf_expand (hkdf_extract salt ikm) info len.
End reference.

Lemma to_be_bytes_8_length n : length (to_be_bytes 8 n) = 8.
Proof. apply Nat2Z.inj. by rewrite to_be_bytes_length by lia. Qed.

Lemma sha256_pad_aligned msg : (64 | length (sha256_pad msg)).
Proof.
  unfold sha256_pad. rewrite !length_app, to_be_bytes_8_length, length_replicate, length_cons.
  pose proof (Nat.div_mod_eq (length msg) 64). cbn [length].
  pose proof (Nat.mod_upper_bound (length msg) 64 ltac:(lia)).
  case_decide; [exists (length msg `div` 64 + 1)|exists (length msg `div` 64 + 2)]; lia.
Qed.

Lemma concat_length_const {A} (ls : list (list A)) n :
  Forall (λ l, length l = n) ls → length (concat ls) = length ls * n.
Proof. induction 1 as [|l ls Hl _ IH]; simpl; [done|]. rewrite length_app. lia. Qed.

Lemma sha256_pad_lookup msg k :
  k < length (sha256_pad msg) →
  sha256_pad msg !! k =
    if decide (k < length msg) then msg !! k
    else if decide (k = length msg) then Some 0x80%Z
    else if decide (k < length (sha256_pad msg) - 8) then Some 0%Z
    else to_be_bytes 8 (8 * Z.of_nat (length msg)) !! (k - (length (sha256_pad msg) - 8)).
Proof.
  unfold sha256_pad. set (zeros := if decide _ then _ else _).
  set (n := to_be_bytes 8 _). assert (length n = 8) as Hn by apply to_be_bytes_8_length.
  rewrite !length_app, length_replicate, length_cons, Hn. cbn [length]. intros Hk.
  case_decide; [by rewrite lookup_app_l by lia|]. rewrite lookup_app_r by lia.
  case_decide; [subst; by rewrite Nat.sub_diag|].
  rewrite (lookup_app_r [_]) by (simpl; lia). cbn [length]. case_decide.
  - rewrite lookup_app_l by (rewrite length_replicate; lia). apply lookup_replicate. lia.
  - rewrite lookup_app_r by (rewrite length_replicate; lia). rewrite length_replicate. f_equal. lia.
Qed.

(** ** FIPS 180-4, section 6.2.2 *)

(** ** 32-bit words *)

Definition add32 (x y : u32) : u32 := (x + y) mod 2 ^ 32.
Definition not32 (x : u32) : u32 := 2 ^ 32 - 1 - x.
Definition shr32 (x : u32) (n : Z) : u32 := Z.shiftr x n.
Definition shl32 (x : u32) (n : Z) : u32 := (Z.shiftl x n) mod 2 ^ 32.

Definition sha256_K : list u32 :=
  [0x428a_2f98; 0x7137_4491; 0xb5c0_fbcf; 0xe9b5_dba5; 0x3956_c25b; 0x59f1_11f1; 0x923f_82a4; 0xab1c_5ed5;
   0xd807_aa98; 0x1283_5b01; 0x2431_85be; 0x550c_7dc3; 0x72be_5d74; 0x80de_b1fe; 0x9bdc_06a7; 0xc19b_f174;
   0xe49b_69c1; 0xefbe_4786; 0x0fc1_9dc6; 0x240c_a1cc; 0x2de9_2c6f; 0x4a74_84aa; 0x5cb0_a9dc; 0x76f9_88da;
   0x983e_5152; 0xa831_c66d; 0xb003_27c8; 0xbf59_7fc7; 0xc6e0_0bf3; 0xd5a7_9147; 0x06ca_6351; 0x1429_2967;
   0x27b7_0a85; 0x2e1b_2138; 0x4d2c_6dfc; 0x5338_0d13; 0x650a_7354; 0x766a_0abb; 0x81c2_c92e; 0x9272_2c85;
   0xa2bf_e8a1; 0xa81a_664b; 0xc24b_8b70; 0xc76c_51a3; 0xd192_e819; 0xd699_0624; 0xf40e_3585; 0x106a_a070;
   0x19a4_c116; 0x1e37_6c08; 0x2748_774c; 0x34b0_bcb5; 0x391c_0cb3; 0x4ed8_aa4a; 0x5b9c_ca4f; 0x682e_6ff3;
   0x748f_82ee; 0x78a5_636f; 0x84c8_7814; 0x8cc7_0208; 0x90be_fffa; 0xa450_6ceb; 0xbef9_a3f7; 0xc671_78f2]%Z.

(** ** Reference: the compression function of FIPS 180-4, section 6.2.2 *)

Section fips.
Local Open Scope Z_scope.

Definition rotr (n : Z) (x : u32) : u32 := Z.lor (shr32 x n) (shl32 x (32 - n)).
Definition Ch (x y z : u32) : u32 := Z.lxor (Z.land x y) (Z.land (not32 x) z).
Definition Maj (x y z : u32) : u32 :=
  Z.lxor (Z.lxor (Z.land x y) (Z.land x z)) (Z.land y z).
Definition Sigma0 (x : u32) : u32 := Z.lxor (Z.lxor (rotr 2 x) (rotr 13 x)) (rotr 22 x).
Definition Sigma1 (x : u32) : u32 := Z.lxor (Z.lxor (rotr 6 x) (rotr 11 x)) (rotr 25 x).
Definition sigma0 (x : u32) : u32 := Z.lxor (Z.lxor (rotr 7 x) (rotr 18 x)) (shr32 x 3).
Definition sigma1 (x : u32) : u32 := Z.lxor (Z.lxor (rotr 17 x) (rotr 19 x)) (shr32 x 10).

(** The sixteen message words of a block. *)
Definition block_words (block : bytes) : list u32 := from_be_bytes <$> chunks 4 block.

(** [W_t] for [t >= 16] is appended from the words before it. *)
Definition next_word (w : list u32) : u32 :=
  let t := length w in
  add32 (add32 (add32 (sigma1 (w !!! (t - 2)%nat)) (w !!! (t - 7)%nat))
               (sigma0 (w !!! (t - 15)%nat))) (w !!! (t - 16)%nat).
Fixpoint extend_words (n : nat) (w : list u32) : list u32 :=
  match n with O => w | S n' => extend_words n' (w ++ [next_word w]) end.

Definition fips_round (st : list u32) (kw : u32 * u32) : list u32 :=
  match st with
  | [a; b; c; d; e; f; g; h] =>
      let T1 := add32 (add32 (add32 (add32 h (Sigma1 e)) (Ch e f g)) kw.1) kw.2 in
      let T2 := add32 (Sigma0 a) (Maj a b c) in
      [add32 T1 T2; a; b; c; add32 d T1; e; f; g]
  | _ => st
  end.

Definition fips_compress (st : list u32) (block : bytes) : list u32 :=
  let w := extend_words 48 (block_words block) in
  zip_with add32 st (foldl fips_round st (zip sha256_K w)).
End fips.

#[export] Instance fips_sha256 : Sha256Compress := fips_compress.

(** Known answer: the digest of the three bytes "abc". *)
Example sha256_abc :
  sha256 [0x61; 0x62; 0x63]%Z =
  concat (to_be_bytes 4 <$> [0xba78_16bf; 0x8f01_cfea; 0x4141_40de; 0x5dae_2223;
                             0xb003_61a3; 0x9617_7a9c; 0xb410_ff61; 0xf200_15ad]%Z).
Proof. vm_compute. reflexivity. Qed.


Lemma fips_round_length st kw : length (fips_round st kw) = length st.
Proof. by destruct st as [|? [|? [|? [|? [|? [|? [|? [|? [|]]]]]]]]]. Qed.

#[export] Instance fips_sha256_laws : Sha256CompressLaws.
Proof.
  constructor. intros st block Hst _. unfold compress256, fips_sha256, fips_compress.
  set (kw := zip _ _). clearbody kw.
  assert (length (foldl fips_round st kw) = 8) as Hf.
  { revert st Hst. induction kw as [|p kw IH]; intros st Hst; [done|].
    simpl. apply IH. by rewrite fips_round_length. }
  rewrite length_zip_with. lia.
Qed.
