(* ===== verification/SessionCrypto.v ===== *)
(** * Session key derivation primitives ([src/definitions/session_crypto.rs])

    The streaming SHA-256 hasher, HMAC-SHA-256 and the one-block HKDF of the
    crate, refined to the reference definitions of [Sha256Spec].  [option] models the [expect] panics on message lengths that do
    not fit the 64-bit length field. *)

From S2P Require Export Sha256Spec.

(** ** The streaming hasher *)

Definition SHA256_BLOCK_BYTES : nat := 64.
Definition SHA256_INITIAL_STATE : list u32 :=
  [0x6a09_e667; 0xbb67_ae85; 0x3c6e_f372; 0xa54f_f53a;
   0x510e_527f; 0x9b05_688c; 0x1f83_d9ab; 0x5be0_cd19]%Z.

Record SecureSha256 : Type := {
  state : list u32;
  buffer : bytes;
  buffer_len : usize;
  message_len : u64;
}.

Section hasher.
Context `{Sha256Compress}.

Definition new : SecureSha256 := {|
  state := SHA256_INITIAL_STATE;
  buffer := replicate SHA256_BLOCK_BYTES 0%Z;
  buffer_len := 0;
  message_len := 0;
|}.

Definition compress_buffer (h : SecureSha256) : SecureSha256 := {|
  state := compress256 (state h) (buffer h);
  buffer := replicate SHA256_BLOCK_BYTES 0%Z;
  buffer_len := 0;
  message_len := message_len h;
|}.

(** [while data.len() >= 64]: compress whole blocks straight from the input. *)
Fixpoint compress_blocks (fuel : nat) (st : list u32) (data : bytes) : list u32 * bytes :=
  match fuel with
  | O => (st, data)
  | S fuel' =>
      if decide (SHA256_BLOCK_BYTES ≤ length data)
      then compress_blocks fuel' (compress256 st (take SHA256_BLOCK_BYTES data))
             (drop SHA256_BLOCK_BYTES data)
      else (st, data)
  end.

(** Top up a partially filled buffer; compress it when it becomes full. *)
Definition fill_buffer (h : SecureSha256) (data : bytes) : SecureSha256 * bytes :=
  if decide (buffer_len h ≠ 0) then
    let copied := (SHA256_BLOCK_BYTES - buffer_len h) `min` length data in
    let h1 := {| state := state h;
                 buffer := write_at (buffer_len h) (take copied data) (buffer h);
                 buffer_len := buffer_len h + copied;
                 message_len := message_len h |} in
    (if decide (buffer_len h1 = SHA256_BLOCK_BYTES) then compress_buffer h1 else h1,
     drop copied data)
  else (h, data).

Definition update (h : SecureSha256) (data : bytes) : option SecureSha256 :=
  len ← checked_add u64_max (message_len h) (Z.of_nat (length data));
  let h0 := {| state := state h; buffer := buffer h; buffer_len := buffer_len h;
               message_len := len |} in
  let '(h1, data1) := fill_buffer h0 data in
  let '(st, data2) := compress_blocks (length data1) (state h1) data1 in
  Some (if decide (data2 ≠ [])
        then {| state := st; buffer := write_at 0 data2 (buffer h1);
                buffer_len := length data2; message_len := message_len h1 |}
        else {| state := st; buffer := buffer h1;
                buffer_len := buffer_len h1; message_len := message_len h1 |}).

Definition finish (h : SecureSha256) : option bytes :=
  bit_len ← checked_mul u64_max (message_len h) 8;
  let h1 := {| state := state h;
               buffer := write_at (buffer_len h) [0x80%Z] (buffer h);
               buffer_len := buffer_len h + 1;
               message_len := message_len h |} in
  let h2 := if decide (56 < buffer_len h1)
            then compress_buffer
                   {| state := state h1;
                      buffer := write_at (buffer_len h1)
                                  (replicate (64 - buffer_len h1) 0%Z) (buffer h1);
                      buffer_len := buffer_len h1;
                      message_len := message_len h1 |}
            else h1 in
  let b1 := write_at (buffer_len h2) (replicate (56 - buffer_len h2) 0%Z) (buffer h2) in
  let b2 := write_at 56 (to_be_bytes 8 bit_len) b1 in
  let h3 := compress_buffer {| state := state h2; buffer := b2;
                               buffer_len := SHA256_BLOCK_BYTES;
                               message_len := message_len h2 |} in
  Some (concat (to_be_bytes 4 <$> state h3)).

Fixpoint update_all (h : SecureSha256) (parts : list bytes) : option SecureSha256 :=
  match parts with
  | [] => Some h
  | p :: ps => h' ← update h p; update_all h' ps
  end.
End hasher.

(** ** The hasher computes SHA-256 of everything it absorbed *)

(** The hasher has absorbed [full ++ tail]: [full] is compressed into the state
    and [tail] waits in the buffer. *)
Record absorbed `{Sha256Compress} (h : SecureSha256) (full tail : bytes) : Prop := {
  absorbed_full : (64 | length full);
  absorbed_tail : length tail < 64;
  absorbed_state : state h = sha256_run sha256_iv full;
  absorbed_buffer : length (buffer h) = 64;
  absorbed_pending : take (length tail) (buffer h) = tail;
  absorbed_len : buffer_len h = length tail;
}.

Section hasher_spec.
Context `{Sha256CompressLaws}.

Lemma sha256_run_app st (l k : bytes) :
  (64 | length l) → sha256_run st (l ++ k) = sha256_run (sha256_run st l) k.
Proof. intros. unfold sha256_run. by rewrite chunks_app, foldl_app by (done || lia). Qed.

Lemma sha256_run_block st (l k : bytes) :
  length l = 64 → sha256_run st (l ++ k) = sha256_run (compress256 st l) k.
Proof. intros. unfold sha256_run. by rewrite chunks_cons by (done || lia). Qed.

Lemma sha256_run_one st (l : bytes) : length l = 64 → sha256_run st l = compress256 st l.
Proof. intros. rewrite <-(app_nil_r l) at 1. by rewrite sha256_run_block. Qed.

Lemma sha256_run_words st (l : bytes) :
  length st = 8 → (64 | length l) → length (sha256_run st l) = 8.
Proof.
  intros Hst [q Hq]. revert st l Hst Hq. induction q as [|q IH]; intros st l Hst Hq.
  - by destruct l.
  - rewrite <-(take_drop 64 l).
    assert (length (take 64 l) = 64) by (rewrite length_take; lia).
    rewrite sha256_run_block by done. apply IH; [by apply compress256_words|].
    rewrite length_drop. lia.
Qed.

Lemma compress_blocks_spec fuel st data :
  length data ≤ fuel →
  ∃ full tail, compress_blocks fuel st data = (sha256_run st full, tail) ∧
    data = full ++ tail ∧ (64 | length full) ∧ length tail < 64.
Proof.
  revert st data. induction fuel as [|fuel IH]; intros st data Hd; cbn [compress_blocks].
  - exists [], data. repeat split; simpl; [|lia]. by exists 0.
  - unfold SHA256_BLOCK_BYTES. case_decide as Hc.
    + destruct (IH (compress256 st (take 64 data)) (drop 64 data)) as (full & tail & -> & Heq & Hf & Ht).
      { rewrite length_drop. lia. }
      assert (length (take 64 data) = 64) as Hl by (rewrite length_take; lia).
      exists (take 64 data ++ full), tail. repeat split; [|..|done].
      * by rewrite sha256_run_block.
      * by rewrite <-app_assoc, <-Heq, take_drop.
      * rewrite length_app, Hl. by apply Nat.divide_add_r; [exists 1|].
    + exists [], data. repeat split; [by exists 0|lia].
Qed.

Lemma absorbed_new : absorbed new [] [].
Proof. split; simpl; try done; try lia. by exists 0. Qed.

Lemma absorbed_compress h full block :
  (64 | length full) → state h = sha256_run sha256_iv full →
  buffer h = block → length block = 64 →
  absorbed (compress_buffer h) (full ++ block) [].
Proof.
  intros Hf Hs <- Hb. split; simpl; try done; try lia.
  - rewrite length_app, Hb. apply Nat.divide_add_r; [done|by exists 1].
  - by rewrite sha256_run_app, sha256_run_one, Hs.
Qed.

Lemma fill_buffer_spec h data full tail :
  absorbed h full tail →
  ∃ full' tail' rest, (fill_buffer h data).2 = rest ∧
    absorbed (fill_buffer h data).1 full' tail' ∧
    full ++ tail ++ data = full' ++ tail' ++ rest ∧
    (tail' = [] ∨ rest = []) ∧
    message_len (fill_buffer h data).1 = message_len h.
Proof.
  intros [Hf Ht Hs Hb Hp Hl]. unfold fill_buffer, SHA256_BLOCK_BYTES. case_decide as Hc; simpl.
  2: { exists full, tail, data. split_and!; try done. left. destruct tail; [done|].
       simpl in Hl. lia. }
  set (copied := (64 - buffer_len h) `min` length data).
  assert (length (take copied data) = copied) as Hcl by (rewrite length_take; lia).
  assert (buffer_len h + length (take copied data) ≤ length (buffer h)) as Hfit by lia.
  pose proof (write_at_take _ _ _ Hfit) as Hw. pose proof (write_at_length _ _ _ Hfit) as Hwl.
  rewrite Hcl, Hl, Hp in Hw. rewrite Hl in Hwl |- *.
  case_decide as Hfull.
  - exists (full ++ tail ++ take copied data), [], (drop copied data).
    split_and!; try done; [| |by left].
    + apply absorbed_compress; simpl; [done|done| |rewrite length_app; lia].
      rewrite <-Hw. symmetry. apply take_ge. rewrite Hwl. lia.
    + simpl. by rewrite <-!app_assoc, take_drop.
  - exists full, (tail ++ take copied data), (drop copied data).
    split_and!; simpl; try done.
    + split; simpl; try done.
      * rewrite length_app. lia.
      * by rewrite Hwl.
      * by rewrite length_app, Hcl.
      * rewrite length_app. lia.
    + by rewrite <-!app_assoc, take_drop.
    + right. apply drop_ge. lia.
Qed.

(** The hasher has absorbed the message [msg]. *)
Definition absorbs (h : SecureSha256) (msg : bytes) : Prop :=
  ∃ full tail, msg = full ++ tail ∧ absorbed h full tail ∧
    message_len h = Z.of_nat (length msg).

Lemma absorbs_new : absorbs new [].
Proof. exists [], []. split_and!; [done|apply absorbed_new|done]. Qed.

Lemma update_absorbs h msg data :
  absorbs h msg → (Z.of_nat (length (msg ++ data)) ≤ u64_max)%Z →
  ∃ h', update h data = Some h' ∧ absorbs h' (msg ++ data).
Proof.
  intros (full & tail & -> & Habs & Hm) Hlen.
  unfold update, checked_add. rewrite Hm, <-Nat2Z.inj_add, <-length_app.
  rewrite bool_decide_true by done. cbn [mbind option_bind].
  set (h0 := {| state := state h; buffer := buffer h; buffer_len := buffer_len h;
                message_len := Z.of_nat (length ((full ++ tail) ++ data)) |}).
  assert (absorbed h0 full tail) as Habs0 by by destruct Habs.
  destruct (fill_buffer_spec h0 data full tail Habs0)
    as (full1 & tail1 & rest & Hrest & Habs1 & Heq & Hor & Hml).
  destruct (fill_buffer h0 data) as [h1 data1]. simpl in Hrest, Habs1, Hml. subst rest.
  destruct (compress_blocks_spec (length data1) (state h1) data1)
    as (full2 & tail2 & -> & Hd & Hf2 & Ht2); [done|].
  eexists. split; [done|]. destruct Habs1 as [Hf1 Ht1 Hs1 Hb1 Hp1 Hl1].
  rewrite <-app_assoc, Heq, Hd.
  assert ((64 | length (full1 ++ full2))) as Hf.
  { rewrite length_app. by apply Nat.divide_add_r. }
  case_decide as Hne.
  - destruct Hor as [-> | ->]; [|by destruct full2, tail2].
    exists (full1 ++ full2), tail2. split_and!; simpl.
    + by rewrite <-app_assoc.
    + split; simpl; try done.
      * by rewrite sha256_run_app, Hs1.
      * rewrite write_at_length; [done|]. lia.
      * pose proof (write_at_take 0 tail2 (buffer h1)) as Hw. simpl in Hw.
        by rewrite Hw by lia.
    + rewrite Hml. simpl. rewrite <-app_assoc, Heq, Hd. done.
  - subst tail2. rewrite app_nil_r in Hd |- *.
    assert (tail1 = [] ∨ full2 = []) as Hor' by (by destruct Hor as [? | <-]; [left|right]).
    exists (full1 ++ full2), tail1. split_and!; simpl.
    + rewrite <-app_assoc. f_equal. destruct Hor' as [-> | ->]; by rewrite ?app_nil_r.
    + split; simpl; try done. by rewrite sha256_run_app, Hs1.
    + rewrite Hml. simpl. rewrite <-app_assoc, Heq, Hd. done.
Qed.

Lemma update_all_absorbs h msg parts :
  absorbs h msg → (Z.of_nat (length (msg ++ concat parts)) ≤ u64_max)%Z →
  ∃ h', update_all h parts = Some h' ∧ absorbs h' (msg ++ concat parts).
Proof.
  revert h msg. induction parts as [|p ps IH]; intros h msg Habs Hlen; cbn [concat update_all] in *.
  - exists h. by rewrite app_nil_r.
  - destruct (update_absorbs h msg p) as (h1 & -> & Habs1); [done| |].
    + rewrite !length_app in *. lia.
    + cbn [mbind option_bind]. rewrite app_assoc. apply IH; [done|]. by rewrite <-app_assoc.
Qed.

(** The two padding layouts: everything fits in the pending block, or the
    bit length goes to a block of its own. *)
Lemma finish_absorbs h msg :
  absorbs h msg → (8 * Z.of_nat (length msg) ≤ u64_max)%Z →
  finish h = Some (sha256 msg).
Proof.
  intros (full & tail & -> & [Hf Ht Hs Hb Hp Hl] & Hm) Hlen.
  unfold finish, checked_mul. rewrite bool_decide_true by lia. cbn [mbind option_bind].
  assert (length (full ++ tail) mod 64 = length tail) as Hmod.
  { destruct Hf as [q Hq]. rewrite length_app, Hq, Nat.add_comm, Nat.Div0.mod_add.
    by apply Nat.mod_small. }
  set (n := to_be_bytes 8 (message_len h * 8)).
  assert (length n = 8) as Hn by apply to_be_bytes_8_length.
  set (b0 := write_at (buffer_len h) [0x80%Z] (buffer h)).
  assert (length b0 = 64) as Hb0 by (unfold b0; rewrite write_at_length; simpl; lia).
  assert (take (length tail + 1) b0 = tail ++ [0x80%Z]) as Hb0t.
  { pose proof (write_at_take (buffer_len h) [0x80%Z] (buffer h)) as Hw.
    simpl in Hw. rewrite Hl, Hp in Hw. unfold b0. rewrite Hl. apply Hw. lia. }
  unfold sha256, sha256_pad, words_to_bytes. rewrite Hmod.
  replace (8 * Z.of_nat (length (full ++ tail)))%Z with (message_len h * 8)%Z by lia.
  fold n. simpl. rewrite Hl. f_equal. f_equal. f_equal. rewrite <-app_assoc.
  rewrite sha256_run_app by done. rewrite <-Hs. destruct (decide (length tail < 56)) as [Hc|Hc].
  - rewrite decide_False by lia. simpl.
    rewrite sha256_run_one; [|rewrite !length_app, length_cons, length_app, length_replicate; lia].
    f_equal. unfold write_at at 1. rewrite Hn, drop_ge, app_nil_r by (rewrite write_at_length; rewrite ?length_replicate; lia).
    pose proof (write_at_take (length tail + 1) (replicate (56 - (length tail + 1)) 0%Z) b0) as Hw.
    rewrite length_replicate in Hw. replace (length tail + 1 + (56 - (length tail + 1))) with 56 in Hw by lia.
    rewrite Hw, Hb0t by lia. rewrite <-!app_assoc. simpl. by replace (56 - (length tail + 1)) with (55 - length tail) by lia.
  - rewrite decide_True by lia. simpl.
    set (z := replicate (64 - (length tail + 1)) 0%Z).
    assert (write_at (length tail + 1) z b0 = tail ++ [0x80%Z] ++ z) as Hw.
    { pose proof (write_at_take (length tail + 1) z b0) as Hw.
      unfold z in Hw at 1 2. rewrite length_replicate in Hw.
      replace (length tail + 1 + (64 - (length tail + 1))) with 64 in Hw by lia.
      rewrite take_ge, Hb0t in Hw; [rewrite Hw by lia; by rewrite <-app_assoc| ].
      rewrite write_at_length; unfold z; rewrite ?length_replicate; lia. }
    rewrite Hw.
    assert (replicate (119 - length tail) 0%Z = z ++ replicate 56 0%Z) as ->.
    { unfold z. rewrite <-replicate_add. f_equal. lia. }
    replace (tail ++ 0x80%Z :: (z ++ replicate 56 0%Z) ++ n)
      with ((tail ++ [0x80%Z] ++ z) ++ (replicate 56 0%Z ++ n)) by (by rewrite <-!app_assoc).
    rewrite sha256_run_block, sha256_run_one.
    + done.
    + by rewrite length_app, length_replicate, Hn.
    + rewrite !length_app. unfold z. rewrite length_replicate. simpl. lia.
Qed.
End hasher_spec.

(** ** HMAC and HKDF with wiped scratch space *)

(** The working memory of an HKDF computation. *)
Record HkdfScratch : Type := {
  key_block : bytes;
  inner_digest : bytes;
  prk : bytes;
}.
Definition HkdfScratch_default : HkdfScratch := {|
  key_block := replicate SHA256_BLOCK_BYTES 0%Z;
  inner_digest := replicate 32 0%Z;
  prk := replicate 32 0%Z;
|}.

(** [x.zeroize()] on each of the scratch arrays. *)
Definition zeroize (l : bytes) : bytes := (λ _, 0%Z) <$> l.
Definition HkdfScratch_zeroize (s : HkdfScratch) : HkdfScratch := {|
  key_block := zeroize (key_block s);
  inner_digest := zeroize (inner_digest s);
  prk := zeroize (prk s);
|}.

Record HmacSha256Scratch : Type := {
  hmac_key_block_scratch : bytes;
  hmac_inner_digest_scratch : bytes;
}.
Definition HmacSha256Scratch_default : HmacSha256Scratch := {|
  hmac_key_block_scratch := replicate SHA256_BLOCK_BYTES 0%Z;
  hmac_inner_digest_scratch := replicate 32 0%Z;
|}.
Definition HmacSha256Scratch_zeroize (s : HmacSha256Scratch) : HmacSha256Scratch := {|
  hmac_key_block_scratch := zeroize (hmac_key_block_scratch s);
  hmac_inner_digest_scratch := zeroize (hmac_inner_digest_scratch s);
|}.

Section hmac.
Context `{Sha256Compress}.

Definition one_shot (msg : bytes) : option bytes := h ← update new msg; finish h.

(** Returns the final contents of [key_block], [inner_digest_scratch] and
    [output]; their previous contents are wiped first. *)
Definition hmac_sha256_into (key : bytes) (message_parts : list bytes)
    (kb inner output : bytes) : option (bytes * bytes * bytes) :=
  let kb0 := zeroize kb in
  kb1 ← (if decide (SHA256_BLOCK_BYTES < length key)
         then hashed_key ← one_shot key; Some (write_at 0 hashed_key kb0)
         else Some (write_at 0 key kb0));
  let kb2 := xor_with 0x36 kb1 in
  h1 ← update new kb2;
  h2 ← update_all h1 message_parts;
  inner_digest ← finish h2;
  let inner' := write_at 0 inner_digest (zeroize inner) in
  let kb3 := xor_with (Z.lxor 0x36 0x5c) kb2 in
  o1 ← update new kb3;
  o2 ← update o1 inner';
  digest ← finish o2;
  Some (kb3, inner', write_at 0 digest (zeroize output)).

(** [after_compute] is the outcome of the caller's closure. *)
Definition hmac_sha256_with_scratch (key : bytes) (message_parts : list bytes)
    (output : bytes) (scratch : HmacSha256Scratch) (after_compute : result unit unit) :
    option (result unit unit * bytes * HmacSha256Scratch) :=
  '(kb, inner, out) ← hmac_sha256_into key message_parts
      (hmac_key_block_scratch scratch) (hmac_inner_digest_scratch scratch) (zeroize output);
  let used := {| hmac_key_block_scratch := kb; hmac_inner_digest_scratch := inner |} in
  match after_compute with
  | Err e => Some (Err e, zeroize out, HmacSha256Scratch_zeroize used)
  | Ok tt => Some (Ok tt, out, HmacSha256Scratch_zeroize used)
  end.

Definition hkdf_sha256_32_with_scratch (input_key_material salt info : bytes)
    (output : bytes) (scratch : HkdfScratch) (after_extract : result unit unit) :
    option (result unit unit * bytes * HkdfScratch) :=
  '(kb, inner, prk') ← hmac_sha256_into salt [input_key_material]
      (key_block scratch) (inner_digest scratch) (prk scratch);
  let used := {| key_block := kb; inner_digest := inner; prk := prk' |} in
  match after_extract with
  | Err e => Some (Err e, zeroize (zeroize output), HkdfScratch_zeroize used)
  | Ok tt =>
      '(kb2, inner2, out) ← hmac_sha256_into prk' [info; [1%Z]] kb inner (zeroize output);
      let used2 := {| key_block := kb2; inner_digest := inner2; prk := prk' |} in
      Some (Ok tt, out, HkdfScratch_zeroize used2)
  end.
End hmac.

Section hmac_spec.
Context `{Sha256CompressLaws}.

Lemma one_shot_sha256 msg :
  (8 * Z.of_nat (length msg) ≤ u64_max)%Z → one_shot msg = Some (sha256 msg).
Proof.
  intros Hlen. unfold one_shot.
  destruct (update_absorbs new [] msg) as (h & -> & Habs); [apply absorbs_new|simpl; lia|].
  by apply finish_absorbs.
Qed.

Lemma sha256_length msg : length (sha256 msg) = 32.
Proof.
  unfold sha256, words_to_bytes. rewrite (concat_length_const _ 4).
  - rewrite length_fmap, sha256_run_words; [done|done|apply sha256_pad_aligned].
  - apply Forall_fmap, Forall_forall. intros w _. apply Nat2Z.inj.
    apply (to_be_bytes_length 4). lia.
Qed.

Lemma zeroize_length l : length (zeroize l) = length l.
Proof. apply length_fmap. Qed.
Lemma zeroize_replicate l : zeroize l = replicate (length l) 0%Z.
Proof. induction l; simpl; by f_equal. Qed.

Lemma write_at_0_exact {A} (src buf : list A) :
  length src = length buf → write_at 0 src buf = src.
Proof. intros. unfold write_at. simpl. rewrite drop_ge, app_nil_r by lia. done. Qed.

Lemma write_at_0_zero key kb :
  length kb = 64 → length key ≤ 64 →
  write_at 0 key (zeroize kb) = key ++ replicate (64 - length key) 0%Z.
Proof.
  intros Hkb Hk. unfold write_at. simpl. by rewrite zeroize_replicate, Hkb, drop_replicate.
Qed.

Lemma xor_with_twice a b l : xor_with b (xor_with a l) = xor_with (Z.lxor a b) l.
Proof.
  unfold xor_with. rewrite <-list_fmap_compose. apply list_fmap_ext. intros i x _.
  simpl. by rewrite Z.lxor_assoc.
Qed.

Lemma hmac_key_block_length key : length (hmac_key_block key) = 64.
Proof.
  unfold hmac_key_block. rewrite length_app, length_replicate.
  case_decide; rewrite ?sha256_length; lia.
Qed.

(** The key-block preparation agrees with RFC 2104 in both key-length cases. *)
Lemma hmac_key_block_prepared key kb :
  length kb = 64 → (8 * Z.of_nat (length key) ≤ u64_max)%Z →
  (if decide (SHA256_BLOCK_BYTES < length key)
   then hashed_key ← one_shot key; Some (write_at 0 hashed_key (zeroize kb))
   else Some (write_at 0 key (zeroize kb))) = Some (hmac_key_block key).
Proof.
  intros Hkb Hlen. unfold hmac_key_block, SHA256_BLOCK_BYTES. case_decide.
  - rewrite one_shot_sha256 by done. simpl. f_equal. apply write_at_0_zero; [done|].
    rewrite sha256_length. lia.
  - f_equal. apply write_at_0_zero; [done|lia].
Qed.

Lemma update_all_two h a b : update_all h [a; b] = (h1 ← update h a; update h1 b).
Proof. simpl. destruct (update h a); simpl; [|done]. by destruct (update s b). Qed.

Lemma hash_parts parts :
  (8 * Z.of_nat (length (concat parts)) ≤ u64_max)%Z →
  (h ← update_all new parts; finish h) = Some (sha256 (concat parts)).
Proof.
  intros Hlen. destruct (update_all_absorbs new [] parts) as (h & -> & Habs);
    [apply absorbs_new|simpl; lia|]. by apply finish_absorbs.
Qed.

Lemma hmac_sha256_into_spec key parts kb inner output :
  length kb = 64 → length inner = 32 → length output = 32 →
  (8 * Z.of_nat (length key) ≤ u64_max)%Z →
  (8 * Z.of_nat (64 + length (concat parts)) ≤ u64_max)%Z →
  ∃ kb' inner', length kb' = 64 ∧ length inner' = 32 ∧
    hmac_sha256_into key parts kb inner output =
      Some (kb', inner', hmac_sha256 key (concat parts)).
Proof.
  intros Hkb Hin Hout Hkey Hparts. unfold hmac_sha256_into.
  rewrite hmac_key_block_prepared by done. cbn [mbind option_bind].
  set (ipad := xor_with 0x36 (hmac_key_block key)).
  assert (length ipad = 64) as Hi by (unfold ipad, xor_with; by rewrite length_fmap, hmac_key_block_length).
  pose proof (hash_parts (ipad :: parts)) as H1. cbn [update_all concat] in H1.
  rewrite length_app, Hi in H1. specialize (H1 Hparts).
  destruct (update new ipad) as [h1|]; [|done]. cbn [mbind option_bind] in H1 |- *.
  destruct (update_all h1 parts) as [h2|]; [|done]. cbn [mbind option_bind] in H1 |- *.
  rewrite H1. cbn [mbind option_bind]. rewrite write_at_0_exact
    by by rewrite zeroize_length, sha256_length.
  set (opad := xor_with 0x5c (hmac_key_block key)).
  assert (xor_with (Z.lxor 0x36 0x5c) ipad = opad) as -> by apply xor_with_twice.
  assert (length opad = 64) as Ho by (unfold opad, xor_with; by rewrite length_fmap, hmac_key_block_length).
  pose proof (hash_parts [opad; sha256 (ipad ++ concat parts)]) as H2.
  rewrite update_all_two in H2. cbn [concat] in H2. rewrite app_nil_r in H2.
  rewrite length_app, Ho, sha256_length in H2. specialize (H2 ltac:(unfold u64_max; lia)).
  destruct (update new opad) as [o1|]; [|done]. cbn [mbind option_bind] in H2 |- *.
  destruct (update o1 _) as [o2|]; [|done]. cbn [mbind option_bind] in H2 |- *.
  rewrite H2. cbn [mbind option_bind]. rewrite write_at_0_exact
    by by rewrite zeroize_length, sha256_length.
  eexists _, _. split_and!; [done|apply sha256_length|done].
Qed.
End hmac_spec.

(** ** Properties *)

Section properties.
Context `{Sha256CompressLaws}.

Lemma fill_buffer_message_len h data : message_len (fill_buffer h data).1 = message_len h.
Proof. unfold fill_buffer. by repeat case_decide. Qed.

Lemma update_message_len h data h' :
  update h data = Some h' → message_len h' = (message_len h + Z.of_nat (length data))%Z.
Proof.
  unfold update, checked_add. case_bool_decide; [|done]. cbn [mbind option_bind].
  set (h0 := {| state := _ |}). pose proof (fill_buffer_message_len h0 data) as Hm.
  destruct (fill_buffer h0 data) as [h1 data1]. destruct (compress_blocks _ _ _).
  intros [= <-]. cbn [fst] in Hm. by case_decide.
Qed.

Lemma update_all_message_len h parts h' :
  update_all h parts = Some h' → message_len h' = (message_len h + Z.of_nat (length (concat parts)))%Z.
Proof.
  revert h. induction parts as [|p ps IH]; intros h; cbn [update_all concat].
  - intros [= ->]. simpl. lia.
  - intros (h1 & Hu & Hs)%bind_Some. rewrite (IH _ Hs), (update_message_len _ _ _ Hu), length_app. lia.
Qed.

(** C27: However the input is cut into [update] calls, the streaming hasher
    returns the FIPS 180-4 digest of the concatenation, and it panics exactly
    when the bit length does not fit 64 bits. *)
Theorem streaming_hash parts :
  (h ← update_all new parts; finish h) =
  if decide (8 * Z.of_nat (length (concat parts)) ≤ u64_max)%Z
  then Some (sha256 (concat parts)) else None.
Proof.
  case_decide as Hlen; [by apply hash_parts|].
  destruct (update_all new parts) as [h|] eqn:Hu; [|done]. cbn [mbind option_bind].
  apply update_all_message_len in Hu. simpl in Hu. unfold finish, checked_mul.
  rewrite bool_decide_false by lia. done.
Qed.

Definition HkdfScratch_wf (s : HkdfScratch) : Prop :=
  length (key_block s) = 64 ∧ length (inner_digest s) = 32 ∧ length (prk s) = 32.
Definition HmacSha256Scratch_wf (s : HmacSha256Scratch) : Prop :=
  length (hmac_key_block_scratch s) = 64 ∧ length (hmac_inner_digest_scratch s) = 32.

Lemma zeroize_exact l n : length l = n → zeroize l = replicate n 0%Z.
Proof. intros <-. apply zeroize_replicate. Qed.

Lemma hmac_32_spec key parts output scratch after :
  HmacSha256Scratch_wf scratch → length output = 32 →
  (8 * Z.of_nat (length key) ≤ u64_max)%Z →
  (8 * Z.of_nat (64 + length (concat parts)) ≤ u64_max)%Z →
  hmac_sha256_with_scratch key parts output scratch after =
  Some (after,
        match after with Ok _ => hmac_sha256 key (concat parts) | Err _ => replicate 32 0%Z end,
        HmacSha256Scratch_default).
Proof.
  intros [Hk Hi] Ho Hkey Hparts. unfold hmac_sha256_with_scratch.
  destruct (hmac_sha256_into_spec key parts _ _ (zeroize output) Hk Hi
              ltac:(by rewrite zeroize_length) Hkey Hparts) as (kb & inner & Hkb & Hin & ->).
  cbn [mbind option_bind]. unfold HmacSha256Scratch_zeroize. cbn [hmac_key_block_scratch hmac_inner_digest_scratch].
  rewrite (zeroize_exact kb 64), (zeroize_exact inner 32) by done.
  destruct after as [[]|[]]; [done|].
  by rewrite (zeroize_exact (hmac_sha256 key (concat parts)) 32) by apply sha256_length.
Qed.

(** [hmac_sha256_with_scratch] computes RFC 2104 over the concatenated
    parts; the scratch memory is zero afterwards on both paths, and the output
    is zero when the caller's closure fails. *)
Theorem hmac_with_scratch_spec key parts output scratch after :
  HmacSha256Scratch_wf scratch → length output = 32 →
  (8 * Z.of_nat (length key) ≤ u64_max)%Z →
  (8 * Z.of_nat (64 + length (concat parts)) ≤ u64_max)%Z →
  hmac_sha256_with_scratch key parts output scratch after =
  Some (after,
        match after with Ok _ => hmac_sha256 key (concat parts) | Err _ => replicate 32 0%Z end,
        HmacSha256Scratch_default).
Proof. apply hmac_32_spec. Qed.

Lemma hkdf_sha256_one_block salt ikm info :
  hkdf_sha256 salt ikm info 32 = hmac_sha256 (hmac_sha256 salt ikm) (info ++ [1%Z]).
Proof.
  transitivity (take 32 (hmac_sha256 (hmac_sha256 salt ikm) (info ++ [1%Z]) ++ [])); [reflexivity|].
  rewrite app_nil_r.
  apply take_ge. unfold hmac_sha256. by rewrite sha256_length.
Qed.

Lemma hkdf_32_spec ikm salt info output scratch after :
  HkdfScratch_wf scratch → length output = 32 →
  (8 * Z.of_nat (length salt) ≤ u64_max)%Z →
  (8 * Z.of_nat (64 + length ikm) ≤ u64_max)%Z →
  (8 * Z.of_nat (64 + length info + 1) ≤ u64_max)%Z →
  hkdf_sha256_32_with_scratch ikm salt info output scratch after =
  Some (after,
        match after with Ok _ => hkdf_sha256 salt ikm info 32 | Err _ => replicate 32 0%Z end,
        HkdfScratch_default).
Proof.
  intros (Hk & Hi & Hp) Ho Hsalt Hikm Hinfo. unfold hkdf_sha256_32_with_scratch.
  destruct (hmac_sha256_into_spec salt [ikm] _ _ (prk scratch) Hk Hi Hp Hsalt)
    as (kb & inner & Hkb & Hin & ->); [cbn [concat]; by rewrite app_nil_r|].
  cbn [mbind option_bind]. destruct after as [[]|[]].
  - destruct (hmac_sha256_into_spec (hmac_sha256 salt (concat [ikm])) [info; [1%Z]] kb inner (zeroize output))
      as (kb2 & inner2 & Hkb2 & Hin2 & ->); try done.
    + by rewrite zeroize_length.
    + unfold hmac_sha256. rewrite sha256_length. unfold u64_max. lia.
    + cbn [concat]. rewrite app_nil_r, length_app. simpl length. lia.
    + cbn [mbind option_bind concat]. rewrite !app_nil_r, hkdf_sha256_one_block.
      unfold HkdfScratch_zeroize. cbn [key_block inner_digest prk].
      by rewrite (zeroize_exact kb2 64), (zeroize_exact inner2 32), (zeroize_exact (hmac_sha256 _ _) 32)
        by (done || apply sha256_length).
  - unfold HkdfScratch_zeroize. cbn [key_block inner_digest prk].
    by rewrite (zeroize_exact (zeroize output) 32), (zeroize_exact kb 64), (zeroize_exact inner 32),
      (zeroize_exact (hmac_sha256 _ _) 32) by (done || (by rewrite zeroize_length) || apply sha256_length).
Qed.

(** [hkdf_sha256_32_with_scratch] computes HKDF-SHA-256 (RFC 5869) with
    a 32-byte output; the scratch memory is zero afterwards on both paths, and
    the output is zero when the closure fails after the extract step. *)
Theorem hkdf_with_scratch_spec ikm salt info output scratch after :
  HkdfScratch_wf scratch → length output = 32 →
  (8 * Z.of_nat (length salt) ≤ u64_max)%Z →
  (8 * Z.of_nat (64 + length ikm) ≤ u64_max)%Z →
  (8 * Z.of_nat (64 + length info + 1) ≤ u64_max)%Z →
  hkdf_sha256_32_with_scratch ikm salt info output scratch after =
  Some (after,
        match after with Ok _ => hkdf_sha256 salt ikm info 32 | Err _ => replicate 32 0%Z end,
        HkdfScratch_default).
Proof. apply hkdf_32_spec. Qed.
End properties.

(** ** Witnesses: RFC 4231-style inputs over the FIPS 180-4 compression function *)

Lemma streaming_hash_witness :
  (h ← update_all new [[0x61]; [0x62; 0x63]]%Z; finish h) = Some (sha256 [0x61; 0x62; 0x63]%Z).
Proof. rewrite (streaming_hash [[0x61]; [0x62; 0x63]]%Z). reflexivity. Defined.

Lemma hmac_with_scratch_witness :
  hmac_sha256_with_scratch (replicate 20 0x0b%Z) [[0x48; 0x69]; [0x20]]%Z (replicate 32 7%Z)
    HmacSha256Scratch_default (Err tt) =
  Some (Err tt, replicate 32 0%Z, HmacSha256Scratch_default).
Proof.
  apply (hmac_with_scratch_spec (replicate 20 0x0b%Z) [[0x48; 0x69]; [0x20]]%Z (replicate 32 7%Z)
           HmacSha256Scratch_default (Err tt)); vm_compute; (done || by split).
Defined.

Lemma hkdf_with_scratch_witness :
  hkdf_sha256_32_with_scratch (replicate 22 0x0b%Z) [0; 1; 2]%Z [0xf0; 0xf1]%Z (replicate 32 9%Z)
    HkdfScratch_default (Ok tt) =
  Some (Ok tt, hkdf_sha256 [0; 1; 2]%Z (replicate 22 0x0b%Z) [0xf0; 0xf1]%Z 32, HkdfScratch_default).
Proof.
  apply (hkdf_with_scratch_spec (replicate 22 0x0b%Z) [0; 1; 2]%Z [0xf0; 0xf1]%Z (replicate 32 9%Z)
           HkdfScratch_default (Ok tt)); vm_compute; (done || by split).
Defined.
