(* ===== verification/SimdSha256.v ===== *)
(** * Eight-lane SHA-256 ([src/simd_sha256.rs])

    The crate's eight-lane hasher over the
    [u32x8] type of the [wide] crate, which is a class of lane-wise operations. *)

From S2P Require Export Sha256Spec.
From stdpp Require Import vector.

(** ** Constants *)

Definition LANES : usize := 8.
Definition BLOCK_BYTES : usize := 64.

Definition INITIAL_STATE : list u32 :=
  [0x6a09_e667; 0xbb67_ae85; 0x3c6e_f372; 0xa54f_f53a;
   0x510e_527f; 0x9b05_688c; 0x1f83_d9ab; 0x5be0_cd19]%Z.

Definition ROUND_CONSTANTS : list u32 :=
  [0x428a_2f98; 0x7137_4491; 0xb5c0_fbcf; 0xe9b5_dba5; 0x3956_c25b; 0x59f1_11f1; 0x923f_82a4; 0xab1c_5ed5;
   0xd807_aa98; 0x1283_5b01; 0x2431_85be; 0x550c_7dc3; 0x72be_5d74; 0x80de_b1fe; 0x9bdc_06a7; 0xc19b_f174;
   0xe49b_69c1; 0xefbe_4786; 0x0fc1_9dc6; 0x240c_a1cc; 0x2de9_2c6f; 0x4a74_84aa; 0x5cb0_a9dc; 0x76f9_88da;
   0x983e_5152; 0xa831_c66d; 0xb003_27c8; 0xbf59_7fc7; 0xc6e0_0bf3; 0xd5a7_9147; 0x06ca_6351; 0x1429_2967;
   0x27b7_0a85; 0x2e1b_2138; 0x4d2c_6dfc; 0x5338_0d13; 0x650a_7354; 0x766a_0abb; 0x81c2_c92e; 0x9272_2c85;
   0xa2bf_e8a1; 0xa81a_664b; 0xc24b_8b70; 0xc76c_51a3; 0xd192_e819; 0xd699_0624; 0xf40e_3585; 0x106a_a070;
   0x19a4_c116; 0x1e37_6c08; 0x2748_774c; 0x34b0_bcb5; 0x391c_0cb3; 0x4ed8_aa4a; 0x5b9c_ca4f; 0x682e_6ff3;
   0x748f_82ee; 0x78a5_636f; 0x84c8_7814; 0x8cc7_0208; 0x90be_fffa; 0xa450_6ceb; 0xbef9_a3f7; 0xc671_78f2]%Z.

(** ** The lanes of the [wide] crate *)

(** [wide::u32x8]: eight 32-bit words operated on lane by lane. *)
Class U32x8 := {
  u32x8 : Type;
  u32x8_new : list u32 → u32x8;
  to_array : u32x8 → list u32;
  splat : u32 → u32x8;
  vadd : u32x8 → u32x8 → u32x8;
  vand : u32x8 → u32x8 → u32x8;
  vor : u32x8 → u32x8 → u32x8;
  vxor : u32x8 → u32x8 → u32x8;
  vnot : u32x8 → u32x8;
  vshr : u32x8 → u32 → u32x8;
  vshl : u32x8 → u32 → u32x8;
}.

(** The content of one lane. *)
Definition lane `{U32x8} (i : nat) (v : u32x8) : u32 := to_array v !!! i.

(** The documented lane-wise behaviour of the operators. *)
Class U32x8Laws `{U32x8} : Prop := {
  lane_new i l : length l = LANES → i < LANES → lane i (u32x8_new l) = l !!! i;
  lane_splat i w : i < LANES → lane i (splat w) = w;
  lane_add i a b : i < LANES → lane i (vadd a b) = add32 (lane i a) (lane i b);
  lane_and i a b : i < LANES → lane i (vand a b) = Z.land (lane i a) (lane i b);
  lane_or i a b : i < LANES → lane i (vor a b) = Z.lor (lane i a) (lane i b);
  lane_xor i a b : i < LANES → lane i (vxor a b) = Z.lxor (lane i a) (lane i b);
  lane_not i a : i < LANES → lane i (vnot a) = not32 (lane i a);
  lane_shr i a n : i < LANES → lane i (vshr a n) = shr32 (lane i a) n;
  lane_shl i a n : i < LANES → lane i (vshl a n) = shl32 (lane i a) n;
}.

(** The portable implementation: an array of eight words. *)
#[export] Instance array_u32x8 : U32x8 := {|
  u32x8 := vec u32 8;
  u32x8_new l := fun_to_vec (λ i, l !!! fin_to_nat i);
  to_array v := vec_to_list v;
  splat w := vreplicate 8 w;
  vadd := vzip_with add32;
  vand := vzip_with Z.land;
  vor := vzip_with Z.lor;
  vxor := vzip_with Z.lxor;
  vnot := vmap not32;
  vshr v n := vmap (λ x, shr32 x n) v;
  vshl v n := vmap (λ x, shl32 x n) v;
|}.

Lemma array_lane i (Hi : i < LANES) (v : vec u32 8) : lane i v = v !!! nat_to_fin Hi.
Proof.
  unfold lane. apply list_lookup_total_correct. cbn [to_array array_u32x8].
  apply vlookup_lookup'. by exists Hi.
Qed.

#[export] Instance array_u32x8_laws : U32x8Laws.
Proof.
  split; intros; repeat rewrite (array_lane i H); cbn [u32x8_new splat vadd vand vor vxor vnot vshr vshl array_u32x8];
    rewrite ?vlookup_zip_with, ?vlookup_map; try done.
  - rewrite (array_lane i H0). cbn [u32x8_new array_u32x8]. rewrite lookup_fun_to_vec, fin_to_nat_to_fin. done.
  - by rewrite vlookup_replicate.
Qed.

(** ** The eight-lane hasher *)

Section simd.
Context `{U32x8}.

Definition rotate_right (value : u32x8) (count : u32) : u32x8 :=
  vor (vshr value count) (vshl value (32 - count)%Z).
Definition choose (x y z : u32x8) : u32x8 := vxor (vand x y) (vand (vnot x) z).
Definition majority (x y z : u32x8) : u32x8 := vxor (vxor (vand x y) (vand x z)) (vand y z).
Definition big_sigma_zero (value : u32x8) : u32x8 :=
  vxor (vxor (rotate_right value 2) (rotate_right value 13)) (rotate_right value 22).
Definition big_sigma_one (value : u32x8) : u32x8 :=
  vxor (vxor (rotate_right value 6) (rotate_right value 11)) (rotate_right value 25).
Definition small_sigma_zero (value : u32x8) : u32x8 :=
  vxor (vxor (rotate_right value 7) (rotate_right value 18)) (vshr value 3).
Definition small_sigma_one (value : u32x8) : u32x8 :=
  vxor (vxor (rotate_right value 17) (rotate_right value 19)) (vshr value 10).

Definition sha256_block_count (input_len : usize) : usize :=
  input_len `div` BLOCK_BYTES + (if decide (56 ≤ input_len mod BLOCK_BYTES) then 1 else 0) + 1.

Definition fill_block (input : bytes) (block_index block_count : usize) (block : bytes) : bytes :=
  let block := (λ _, 0%Z) <$> block in
  let start := block_index * BLOCK_BYTES in
  let block :=
    if decide (start < length input) then
      let byte_count := (length input - start) `min` BLOCK_BYTES in
      write_at 0 (take byte_count (drop start input)) block
    else block in
  let block :=
    if decide (start ≤ length input ∧ length input < start + BLOCK_BYTES) then
      <[length input - start := 0x80%Z]> block
    else block in
  if decide (block_index + 1 = block_count) then
    let bit_length := ((Z.of_nat (length input) * 8) mod 2 ^ 64)%Z in
    write_at (BLOCK_BYTES - 8) (to_be_bytes 8 bit_length) block
  else block.

(** The message words of one block of each lane. *)
Definition load_words (staged : list bytes) (schedule : list u32x8) : list u32x8 :=
  foldl (λ schedule word_index,
    let offset := word_index * 4 in
    <[word_index := u32x8_new ((λ block : bytes,
        from_be_bytes [block !!! offset; block !!! (offset + 1);
                       block !!! (offset + 2); block !!! (offset + 3)]) <$> staged)]> schedule)
    schedule (seq 0 16).

Definition schedule_step (schedule : list u32x8) (index : nat) : list u32x8 :=
  let at_ i := default (splat 0) (schedule !! i) in
  <[index := vadd (vadd (vadd (small_sigma_one (at_ (index - 2))) (at_ (index - 7)))
                        (small_sigma_zero (at_ (index - 15)))) (at_ (index - 16))]> schedule.

Definition simd_round (schedule : list u32x8) (st : list u32x8) (index : nat) : list u32x8 :=
  match st with
  | [a; b; c; d; e; f; g; h] =>
      let first := vadd (vadd (vadd (vadd h (big_sigma_one e)) (choose e f g))
                              (splat (ROUND_CONSTANTS !!! index)))
                        (default (splat 0) (schedule !! index)) in
      let second := vadd (big_sigma_zero a) (majority a b c) in
      [vadd first second; a; b; c; vadd d first; e; f; g]
  | _ => st
  end.

(** One iteration of the block loop, on the state and the staged blocks. *)
Definition hash_eight_block (inputs : list bytes) (block_count : usize)
    (acc : list u32x8 * list bytes) (block_index : nat) : list u32x8 * list bytes :=
  let '(state, staged) := acc in
  let staged := zip_with (λ input block, fill_block input block_index block_count block)
                         inputs staged in
  let schedule := load_words staged (replicate 64 (splat 0)) in
  let schedule := foldl schedule_step schedule (seq 16 48) in
  let final := foldl (simd_round schedule) state (seq 0 64) in
  (zip_with vadd state final, staged).

Definition hash_eight (inputs : list bytes) (block_count : usize) : list bytes :=
  let state := splat <$> INITIAL_STATE in
  let staged := replicate LANES (replicate BLOCK_BYTES 0%Z) in
  let '(state, _) := foldl (hash_eight_block inputs block_count) (state, staged)
                           (seq 0 block_count) in
  let state_words := to_array <$> state in
  (λ l, concat ((λ words : list u32, to_be_bytes 4 (words !!! l)) <$> state_words)) <$> seq 0 LANES.

(** Returns the flag and the outputs, which a refused call leaves alone. *)
Definition hash_many_same_block_count (inputs : list bytes) (outputs : list bytes) :
    bool * list bytes :=
  if bool_decide (length inputs ≠ length outputs) || bool_decide (length inputs mod LANES ≠ 0)
  then (false, outputs)
  else match inputs with
  | [] => (true, outputs)
  | first :: _ =>
      let block_count := sha256_block_count (length first) in
      if existsb (λ input, bool_decide (sha256_block_count (length input) ≠ block_count)) inputs
      then (false, outputs)
      else (true, concat ((λ group, hash_eight group block_count) <$> chunks LANES inputs))
  end.
End simd.

Example simd_abc :
  hash_many_same_block_count (replicate 8 [0x61; 0x62; 0x63]%Z) (replicate 8 []) =
  (true, replicate 8 (sha256 [0x61; 0x62; 0x63]%Z)).
Proof. vm_compute. reflexivity. Qed.

(** ** Framing: the blocks cut by [fill_block] are those of the padded message *)

Lemma sha256_block_count_pad msg : length (sha256_pad msg) = BLOCK_BYTES * sha256_block_count (length msg).
Proof.
  unfold sha256_pad, sha256_block_count, BLOCK_BYTES.
  rewrite !length_app, to_be_bytes_8_length, length_replicate, length_cons. cbn [length].
  pose proof (Nat.div_mod_eq (length msg) 64).
  pose proof (Nat.mod_upper_bound (length msg) 64 ltac:(lia)). repeat case_decide; lia.
Qed.

Lemma to_be_bytes_wrap n : to_be_bytes 8 ((n * 8) mod 2 ^ 64) = to_be_bytes 8 (8 * n).
Proof.
  assert (∀ m, to_be_bytes 8 (m mod 2 ^ 64) = to_be_bytes 8 m) as Hm.
  { intros m. unfold to_be_bytes. f_equal.
    rewrite <-(Z_to_little_endian_to_Z 8 8 (Z_to_little_endian 8 8 m)).
    - by rewrite little_endian_to_Z_to_little_endian by lia.
    - by rewrite length_Z_to_little_endian by lia.
    - lia.
    - apply Z_to_little_endian_bound; lia. }
  rewrite Hm. f_equal. lia.
Qed.

Section framing.
Context (input : bytes).
Local Abbreviation bc := (sha256_block_count (length input)).

Lemma fill_block_length block_index block_count block :
  length block = BLOCK_BYTES → length (fill_block input block_index block_count block) = BLOCK_BYTES.
Proof.
  intros Hb. unfold fill_block, BLOCK_BYTES in *.
  set (b0 := _ <$> block). assert (length b0 = 64) as H0 by (by unfold b0; rewrite length_fmap).
  set (b1 := if decide (block_index * 64 < _) then _ else _). assert (length b1 = 64) as H1.
  { unfold b1. case_decide; [|done]. rewrite write_at_length; [done|].
    rewrite length_take, length_drop. lia. }
  set (b2 := if decide (block_index * 64 ≤ _ ∧ _) then _ else _). assert (length b2 = 64) as H2.
  { unfold b2. case_decide; [|done]. by rewrite length_insert. }
  case_decide; [|done]. rewrite write_at_length; [done|]. rewrite to_be_bytes_8_length. lia.
Qed.

(** A staged block, byte by byte. *)
Lemma fill_block_lookup block_index block_count block i :
  length block = BLOCK_BYTES → i < BLOCK_BYTES →
  fill_block input block_index block_count block !! i =
    if decide (block_index + 1 = block_count ∧ 56 ≤ i)
    then to_be_bytes 8 (8 * Z.of_nat (length input)) !! (i - 56)
    else if decide (length input = BLOCK_BYTES * block_index + i) then Some 0x80%Z
    else if decide (BLOCK_BYTES * block_index + i < length input)
    then input !! (BLOCK_BYTES * block_index + i) else Some 0%Z.
Proof.
  intros Hb Hi. unfold fill_block, BLOCK_BYTES in *. rewrite to_be_bytes_wrap.
  set (b0 := _ <$> block). assert (length b0 = 64) as H0 by (by unfold b0; rewrite length_fmap).
  set (b1 := if decide (block_index * 64 < _) then _ else _). assert (length b1 = 64) as H1.
  { unfold b1. case_decide; [|done]. rewrite write_at_length; [done|].
    rewrite length_take, length_drop. lia. }
  set (b2 := if decide (block_index * 64 ≤ _ ∧ _) then _ else _).
  assert (length b2 = 64) as H2.
  { unfold b2. case_decide; [|done]. by rewrite length_insert. }
  assert (b1 !! i = if decide (64 * block_index + i < length input)
                    then input !! (64 * block_index + i) else Some 0%Z) as L1.
  { assert (b0 !! i = Some 0%Z) as L0.
    { unfold b0. rewrite list_lookup_fmap.
      destruct (lookup_lt_is_Some_2 block i) as [x ->]; [lia|done]. }
    unfold b1. case_decide; [|by rewrite decide_False by lia].
    rewrite write_at_lookup by (rewrite length_take, length_drop; lia).
    rewrite length_take, length_drop. destruct (decide (64 * block_index + i < length input)).
    - rewrite decide_True by lia. rewrite lookup_take_lt, lookup_drop by lia. f_equal. lia.
    - by rewrite decide_False by lia. }
  assert (b2 !! i = if decide (length input = 64 * block_index + i) then Some 0x80%Z else b1 !! i) as L2.
  { clear L1. unfold b2. case_decide; [|by rewrite decide_False by lia].
    rewrite list_lookup_insert. repeat case_decide; try done; lia. }
  rewrite <-L1, <-L2. clear L1 L2. case_decide; [|by rewrite decide_False by lia].
  rewrite write_at_lookup by (rewrite to_be_bytes_8_length; lia).
  rewrite to_be_bytes_8_length. change (64 - 8) with 56.
  destruct (decide (56 ≤ i)); [rewrite !decide_True by lia; done|by rewrite !decide_False by lia].
Qed.

Lemma fill_block_pad block_index block :
  length block = BLOCK_BYTES → block_index < bc →
  fill_block input block_index bc block =
  take BLOCK_BYTES (drop (BLOCK_BYTES * block_index) (sha256_pad input)).
Proof.
  intros Hb Hi. apply list_eq. intros i. destruct (decide (i < BLOCK_BYTES)) as [Hlt|Hge].
  2:{ rewrite !lookup_ge_None_2; [done| |].
      - rewrite length_take. lia.
      - rewrite fill_block_length by done. lia. }
  rewrite fill_block_lookup, lookup_take_lt, lookup_drop by done.
  rewrite sha256_pad_lookup by (rewrite sha256_block_count_pad; unfold BLOCK_BYTES in *; nia).
  rewrite sha256_block_count_pad. unfold BLOCK_BYTES in *.
  assert (bc = length input `div` 64 + (if decide (56 ≤ length input mod 64) then 1 else 0) + 1) as Hbc by done.
  pose proof (Nat.div_mod_eq (length input) 64).
  pose proof (Nat.mod_upper_bound (length input) 64 ltac:(lia)).
  repeat case_decide; try done; try lia; try (f_equal; lia).
Qed.
End framing.

(** ** Each lane computes the scalar hash *)

Section lanes.
Context `{U32x8Laws}.
Context (i : nat) (Hi : i < LANES).

Lemma lane_rotate_right v n : lane i (rotate_right v n) = rotr n (lane i v).
Proof. unfold rotate_right. by rewrite lane_or, lane_shr, lane_shl. Qed.

Ltac lanes := repeat (rewrite lane_xor || rewrite lane_and || rewrite lane_not || rewrite lane_add
  || rewrite lane_shr || rewrite lane_splat || rewrite lane_rotate_right || assumption).

Lemma lane_choose x y z : lane i (choose x y z) = Ch (lane i x) (lane i y) (lane i z).
Proof. unfold choose. by lanes. Qed.
Lemma lane_majority x y z : lane i (majority x y z) = Maj (lane i x) (lane i y) (lane i z).
Proof. unfold majority. by lanes. Qed.
Lemma lane_big_sigma_zero x : lane i (big_sigma_zero x) = Sigma0 (lane i x).
Proof. unfold big_sigma_zero. by lanes. Qed.
Lemma lane_big_sigma_one x : lane i (big_sigma_one x) = Sigma1 (lane i x).
Proof. unfold big_sigma_one. by lanes. Qed.
Lemma lane_small_sigma_zero x : lane i (small_sigma_zero x) = sigma0 (lane i x).
Proof. unfold small_sigma_zero. by lanes. Qed.
Lemma lane_small_sigma_one x : lane i (small_sigma_one x) = sigma1 (lane i x).
Proof. unfold small_sigma_one. by lanes. Qed.

Lemma lane_round schedule st index :
  lane i <$> simd_round schedule st index =
  fips_round (lane i <$> st) (ROUND_CONSTANTS !!! index, lane i (default (splat 0%Z) (schedule !! index))).
Proof.
  destruct st as [|a [|b [|c [|d [|e [|f [|g [|h [|]]]]]]]]]; try done.
  cbn [simd_round fips_round fmap list_fmap]. repeat f_equal;
    repeat (rewrite lane_add by done);
    by rewrite ?lane_big_sigma_one, ?lane_choose, ?lane_splat, ?lane_big_sigma_zero, ?lane_majority by done.
Qed.

Lemma default_lookup (ws : list u32x8) k :
  k < length ws → lane i (default (splat 0%Z) (ws !! k)) = (lane i <$> ws) !!! k.
Proof.
  intros Hk. destruct (lookup_lt_is_Some_2 ws k Hk) as [w Hw].
  rewrite Hw. symmetry. apply list_lookup_total_correct. by rewrite list_lookup_fmap, Hw.
Qed.

(** Filling the schedule in place appends the words of the reference. *)
Lemma lane_schedule n (ws zs : list u32x8) :
  16 ≤ length ws → n ≤ length zs →
  ∃ ws', foldl schedule_step (ws ++ zs) (seq (length ws) n) = ws' ++ drop n zs ∧
    lane i <$> ws' = extend_words n (lane i <$> ws).
Proof.
  revert ws zs. induction n as [|n IH]; intros ws zs Hws Hzs; [by exists ws|].
  destruct zs as [|z zs]; [simpl in Hzs; lia|]. cbn [seq foldl].
  set (w := vadd (vadd (vadd (small_sigma_one (default (splat 0%Z) (ws !! (length ws - 2))))
    (default (splat 0%Z) (ws !! (length ws - 7))))
    (small_sigma_zero (default (splat 0%Z) (ws !! (length ws - 15)))))
    (default (splat 0%Z) (ws !! (length ws - 16)))).
  assert (schedule_step (ws ++ z :: zs) (length ws) = (ws ++ [w]) ++ zs) as ->.
  { unfold schedule_step. rewrite !lookup_app_l by lia. fold w.
    rewrite insert_app_r_alt, Nat.sub_diag by lia. by rewrite <-app_assoc. }
  destruct (IH (ws ++ [w]) zs) as (ws' & Hf & Hl); [rewrite length_app; lia|simpl in Hzs; lia|].
  rewrite length_app, Nat.add_1_r in Hf. exists ws'. split; [done|]. rewrite Hl. cbn [extend_words].
  rewrite fmap_app. do 3 f_equal. cbn [fmap list_fmap]. f_equal. unfold next_word. rewrite length_fmap.
  unfold w. repeat (rewrite lane_add by done).
  by rewrite lane_small_sigma_one, lane_small_sigma_zero, !default_lookup by lia.
Qed.

Lemma lane_load_words staged schedule block :
  length staged = LANES → 16 ≤ length schedule → staged !! i = Some block → length block = BLOCK_BYTES →
  ∃ ws, load_words staged schedule = ws ++ drop 16 schedule ∧ lane i <$> ws = block_words block.
Proof.
  intros Hs Hsch Hb Hl. unfold load_words. rewrite foldl_insert_seq by done. eexists. split; [done|].
  unfold block_words. rewrite (chunks_seq 4 16) by (unfold BLOCK_BYTES in *; lia).
  rewrite <-!list_fmap_compose. apply list_fmap_ext. intros k' k [-> Hk]%lookup_seq. simpl.
  rewrite lane_new by (rewrite ?length_fmap; done).
  rewrite (list_lookup_total_correct _ i (from_be_bytes (take 4 (drop (k' * 4) block)))).
  - do 3 f_equal. lia.
  - rewrite list_lookup_fmap, Hb. simpl. by rewrite take_drop_4 by (unfold BLOCK_BYTES in *; lia).
Qed.

Lemma extend_words_length n w : length (extend_words n w) = length w + n.
Proof.
  revert w. induction n as [|n IH]; intros w; simpl; [lia|]. rewrite IH, length_app. simpl. lia.
Qed.

Lemma block_words_length block : length block = BLOCK_BYTES → length (block_words block) = 16.
Proof. intros Hb. unfold block_words. by rewrite length_fmap, (chunks_seq 4 16) by (unfold BLOCK_BYTES in *; lia). Qed.

Lemma lane_rounds schedule w st :
  length schedule = 64 → lane i <$> schedule = w →
  lane i <$> foldl (simd_round schedule) st (seq 0 64) =
  foldl fips_round (lane i <$> st) (zip ROUND_CONSTANTS w).
Proof.
  intros Hsch <-. rewrite <-foldl_zip_index by by rewrite length_fmap.
  change (length ROUND_CONSTANTS) with 64.
  assert (Forall (λ k, k < 64) (seq 0 64)) as Hk by (apply Forall_seq; lia).
  revert st Hk. generalize (seq 0 64). intros ks. induction ks as [|k ks IH]; intros st Hk; [done|].
  apply Forall_cons in Hk as [Hk Hks]. cbn [foldl]. rewrite IH, lane_round by done.
  by rewrite default_lookup by lia.
Qed.

Lemma lane_zip_add (xs ys : list u32x8) :
  lane i <$> zip_with vadd xs ys = zip_with add32 (lane i <$> xs) (lane i <$> ys).
Proof.
  revert ys. induction xs as [|x xs IH]; intros [|y ys]; try done. cbn. by rewrite lane_add, <-IH.
Qed.

(** One iteration of the block loop compresses the block of this lane. *)
Lemma lane_block inputs block_count state staged block_index input old :
  length inputs = LANES → length staged = LANES →
  inputs !! i = Some input → staged !! i = Some old → length old = BLOCK_BYTES →
  let r := hash_eight_block inputs block_count (state, staged) block_index in
  lane i <$> r.1 = fips_compress (lane i <$> state) (fill_block input block_index block_count old) ∧
  length r.2 = LANES ∧ r.2 !! i = Some (fill_block input block_index block_count old).
Proof.
  intros Hin Hst Hi1 Ho Hol. set (block := fill_block _ _ _ old). cbn [hash_eight_block].
  set (staged' := zip_with _ inputs staged).
  assert (staged' !! i = Some block) as Hb by (unfold staged'; by rewrite lookup_zip_with, Hi1; simpl; rewrite Ho).
  assert (length staged' = LANES) as Hst' by (unfold staged'; rewrite length_zip_with; lia).
  assert (length block = BLOCK_BYTES) as Hbl by by apply fill_block_length.
  cbv zeta. cbn [fst snd]. fold staged'. split; [|done].
  destruct (lane_load_words staged' (replicate 64 (splat 0%Z)) block) as (ws & -> & Hws); try done.
  { rewrite length_replicate. lia. }
  assert (length ws = 16) as Hwl by (by rewrite <-(length_fmap (lane i)), Hws, block_words_length).
  rewrite drop_replicate. change (64 - 16) with 48.
  destruct (lane_schedule 48 ws (replicate 48 (splat 0%Z))) as (ws' & Hf & Hws'); [lia|by rewrite length_replicate|].
  rewrite Hwl in Hf. rewrite Hf, drop_replicate, Nat.sub_diag, app_nil_r.
  rewrite lane_zip_add, (lane_rounds ws' (extend_words 48 (block_words block))).
  - done.
  - by rewrite <-(length_fmap (lane i)), Hws', extend_words_length, Hws, block_words_length.
  - by rewrite Hws', Hws.
Qed.
End lanes.

Section hash_eight_spec.
Context `{U32x8Laws}.

(** The block loop of one lane is the compression of its padded message. *)
Lemma lane_blocks i inputs input n :
  i < LANES → length inputs = LANES → inputs !! i = Some input →
  n ≤ sha256_block_count (length input) →
  let r := foldl (hash_eight_block inputs (sha256_block_count (length input)))
             (splat <$> INITIAL_STATE, replicate LANES (replicate BLOCK_BYTES 0%Z)) (seq 0 n) in
  lane i <$> r.1 =
    foldl fips_compress sha256_iv
      ((λ k, take BLOCK_BYTES (drop (BLOCK_BYTES * k) (sha256_pad input))) <$> seq 0 n) ∧
  length r.2 = LANES ∧ ∃ old, r.2 !! i = Some old ∧ length old = BLOCK_BYTES.
Proof.
  intros Hi Hin Hl. induction n as [|n IH]; intros Hn; cbv zeta in *.
  - cbn [seq foldl fst snd fmap list_fmap]. split_and!.
    + cbn [fmap list_fmap INITIAL_STATE]. by rewrite !lane_splat by done.
    + by rewrite length_replicate.
    + exists (replicate BLOCK_BYTES 0%Z). by rewrite lookup_replicate_2, length_replicate.
  - destruct IH as (Hst & Hlen & old & Ho & Hol); [lia|].
    rewrite seq_S, !foldl_app, fmap_app. cbn [foldl fmap list_fmap].
    destruct (foldl (hash_eight_block _ _) _ (seq 0 n)) as [state staged]. cbn [fst snd] in *.
    destruct (lane_block i Hi inputs (sha256_block_count (length input)) state staged n input old)
      as (Hs & Hlen' & Ho'); try done.
    rewrite fill_block_pad in Hs, Ho' by (done || lia). rewrite foldl_app. cbn [foldl plus].
    rewrite <-Hst. split_and!; [done|done|]. eexists. split; [done|].
    rewrite length_take, length_drop, sha256_block_count_pad. unfold BLOCK_BYTES. lia.
Qed.

Lemma hash_eight_length inputs bc : length (hash_eight inputs bc) = LANES.
Proof. unfold hash_eight. destruct (foldl _ _ _). by rewrite length_fmap. Qed.

Lemma hash_eight_spec inputs bc :
  length inputs = LANES → Forall (λ input, sha256_block_count (length input) = bc) inputs →
  hash_eight inputs bc = sha256 <$> inputs.
Proof.
  intros Hin Hbc. apply list_eq_same_length with LANES; [by rewrite length_fmap|apply hash_eight_length|].
  intros i x y Hi Hx Hy. rewrite list_lookup_fmap in Hy.
  destruct (lookup_lt_is_Some_2 inputs i) as [input Hl]; [lia|]. rewrite Hl in Hy. injection Hy as <-.
  pose proof (Forall_lookup_1 _ _ _ _ Hbc Hl) as <-. unfold hash_eight in Hx.
  destruct (lane_blocks i inputs input (sha256_block_count (length input)) Hi Hin Hl (le_n _)) as [Hst _].
  destruct (foldl _ _ _) as [state staged]. cbn [fst] in Hst.
  rewrite list_lookup_fmap, lookup_seq_lt in Hx by done. injection Hx as <-.
  unfold sha256, words_to_bytes, sha256_run.
  rewrite (chunks_seq 64 (sha256_block_count (length input))) by (rewrite ?sha256_block_count_pad; unfold BLOCK_BYTES; lia).
  transitivity (concat (to_be_bytes 4 <$> (lane i <$> state))).
  - by rewrite <-!list_fmap_compose.
  - f_equal. f_equal. exact Hst.
Qed.

Lemma hash_many_spec inputs outputs :
  hash_many_same_block_count inputs outputs =
  if decide (length inputs = length outputs ∧ (LANES | length inputs) ∧
             Forall (λ x, sha256_block_count (length x) =
                          sha256_block_count (length (default [] (head inputs)))) inputs)
  then (true, sha256 <$> inputs) else (false, outputs).
Proof.
  unfold hash_many_same_block_count.
  destruct (bool_decide (length inputs ≠ length outputs)) eqn:Hlen; bool_to_prop; cbn [orb].
  { rewrite decide_False; [done|]. by intros [? _]. }
  apply dec_stable in Hlen.
  destruct (bool_decide (length inputs mod LANES ≠ 0)) eqn:Hmod; bool_to_prop.
  { rewrite decide_False; [done|]. intros (_ & Hd & _). apply Hmod. by apply Nat.Lcm0.mod_divide. }
  apply dec_stable, Nat.Lcm0.mod_divide in Hmod.
  destruct inputs as [|first inputs']; [by destruct outputs|]. set (inputs := first :: inputs') in *.
  cbn [head default inputs]. set (bc := sha256_block_count (length first)).
  destruct (existsb _ inputs) eqn:Hex.
  - apply existsb_exists in Hex as (x & Hx & Hne). bool_to_prop. rewrite decide_False; [done|].
    intros (_ & _ & Hall). apply Hne. rewrite Forall_forall in Hall. apply Hall. by apply list_elem_of_In.
  - assert (Forall (λ x, sha256_block_count (length x) = bc) inputs) as Hall.
    { apply Forall_forall. intros x Hx%list_elem_of_In. apply dec_stable. intros Hne.
      apply not_true_iff_false in Hex. apply Hex, existsb_exists. exists x. by rewrite bool_decide_true. }
    rewrite decide_True by done. f_equal. clear Hlen Hex outputs. clearbody bc inputs. clear first inputs'.
    destruct Hmod as [q Hq]. revert inputs Hq Hall. induction q as [|q IH]; intros inputs Hq Hall.
    + by apply nil_length_inv in Hq as ->.
    + assert (length (take LANES inputs) = LANES) as Ht by (rewrite length_take; lia).
      rewrite <-(take_drop LANES inputs) in Hall |- *. apply Forall_app in Hall as [Ha Hb].
      rewrite chunks_cons, fmap_cons, fmap_app by (done || (unfold LANES; lia)). cbn [concat].
      rewrite IH by (done || rewrite length_drop; lia). by rewrite hash_eight_spec.
Qed.

(** C26: The eight-lane hasher accepts exactly the calls of its grouping
    contract (as many outputs as inputs, whole groups of eight, one padded block
    count); then every output is the scalar SHA-256 of its input, and otherwise
    it returns false with the outputs untouched. *)
Theorem hash_many_correct inputs outputs :
  hash_many_same_block_count inputs outputs =
  if decide (length inputs = length outputs ∧ (LANES | length inputs) ∧
             Forall (λ x, sha256_block_count (length x) =
                          sha256_block_count (length (default [] (head inputs)))) inputs)
  then (true, sha256 <$> inputs) else (false, outputs).
Proof. apply hash_many_spec. Qed.
End hash_eight_spec.

Lemma hash_many_correct_witness :
  hash_many_same_block_count ((λ n, replicate n 0x61%Z) <$> seq 56 8) (replicate 8 []) =
  (true, sha256 <$> ((λ n, replicate n 0x61%Z) <$> seq 56 8)).
Proof.
  rewrite hash_many_correct, decide_True; [done|].
  split_and!; [done|by exists 1|repeat (constructor; [reflexivity|]); constructor].
Defined.
