(* ===== verification/Cbor.v ===== *)
(** * CBOR values and the serialization interface ([src/cbor.rs], [src/definitions/helpers])

    The data model of [ciborium::Value]; the interface [Serde] through which the
    crate serializes its types ([cbor::to_vec], [cbor::from_slice]), with the
    round-trip law its clients rely on; and the crate's helper wrappers
    [ByteStr], [Tag24], [NonEmptyVec] and [NonEmptyMap]. *)

From S2P Require Export BTree.

(** ** [ciborium::Value] *)

#[local] Set Warnings "-register-all".

(** Floats are kept as their 64-bit patterns. *)
Inductive Value : Type :=
  | Integer (n : i128)
  | Bytes (b : bytes)
  | Float (bits : u64)
  | Text (s : string)
  | Bool (b : bool)
  | Null
  | Tag (tag : u64) (v : Value)
  | Array (l : list Value)
  | Map (l : list (Value * Value)).

Section value_ind.
Context (P : Value → Prop)
  (HInteger : ∀ n, P (Integer n)) (HBytes : ∀ b, P (Bytes b)) (HFloat : ∀ f, P (Float f))
  (HText : ∀ s, P (Text s)) (HBool : ∀ b, P (Bool b)) (HNull : P Null)
  (HTag : ∀ t v, P v → P (Tag t v)) (HArray : ∀ l, Forall P l → P (Array l))
  (HMap : ∀ l, Forall (λ kv, P kv.1 ∧ P kv.2) l → P (Map l)).

(** Structural induction that reaches the items of arrays and maps. *)
Fixpoint Value_nested_ind (v : Value) : P v :=
  match v with
  | Integer n => HInteger n | Bytes b => HBytes b | Float f => HFloat f
  | Text s => HText s | Bool b => HBool b | Null => HNull
  | Tag t v => HTag t v (Value_nested_ind v)
  | Array l => HArray l
      ((fix go l := match l return Forall P l with
        | [] => Forall_nil_2 _
        | v :: l' => Forall_cons_2 _ _ _ (Value_nested_ind v) (go l') end) l)
  | Map l => HMap l
      ((fix go l := match l return Forall (λ kv, P kv.1 ∧ P kv.2) l with
        | [] => Forall_nil_2 _
        | kv :: l' => Forall_cons_2 _ _ _
            (conj (Value_nested_ind kv.1) (Value_nested_ind kv.2)) (go l') end) l)
  end.
End value_ind.

(** ** A prefix code for values

    A self-delimiting code over integers, with its decoder.  It gives [Value]
    decidable equality, and the concrete instance of the serialization
    interface on which hypotheses are checked to be satisfiable. *)

Definition encode_string (s : string) : bytes :=
  (λ a, Z.of_N (Ascii.N_of_ascii a)) <$> String.list_ascii_of_string s.
Definition decode_string (l : bytes) : string :=
  String.string_of_list_ascii ((λ n, Ascii.ascii_of_N (Z.to_N n)) <$> l).

Lemma decode_encode_string s : decode_string (encode_string s) = s.
Proof.
  unfold decode_string, encode_string. rewrite <-list_fmap_compose.
  rewrite <-(String.string_of_list_ascii_of_string s) at 2. f_equal.
  rewrite <-(list_fmap_id (String.list_ascii_of_string s)) at 2.
  apply list_fmap_ext. intros _ a _. simpl. by rewrite N2Z.id, Ascii.ascii_N_embedding.
Qed.

Lemma encode_decode_string l : Forall is_byte l → encode_string (decode_string l) = l.
Proof.
  intros Hl. unfold decode_string, encode_string.
  rewrite String.list_ascii_of_string_of_list_ascii, <-list_fmap_compose.
  induction Hl as [|b l Hb _ IH]; [done|]. rewrite fmap_cons, IH. f_equal. simpl.
  unfold is_byte in Hb. rewrite Ascii.N_ascii_embedding; lia.
Qed.

Definition prefixed (tag : Z) (l : bytes) : bytes := tag :: Z.of_nat (length l) :: l.

Fixpoint raw_encode (v : Value) : bytes :=
  match v with
  | Integer n => [0; n]%Z
  | Bytes b => prefixed 2 b
  | Text s => prefixed 3 (encode_string s)
  | Array l => 4%Z :: Z.of_nat (length l) :: concat (raw_encode <$> l)
  | Map l => 5%Z :: Z.of_nat (length l)
      :: concat ((λ kv, raw_encode kv.1 ++ raw_encode kv.2) <$> l)
  | Tag t v => 6%Z :: t :: raw_encode v
  | Bool b => [7; if b then 1 else 0]%Z
  | Null => [8; 0]%Z
  | Float f => [9; f]%Z
  end.

(** Read [n] consecutive items with [item]. *)
Fixpoint decode_many {A} (item : bytes → option (A * bytes)) (n : nat) (l : bytes) :
    option (list A * bytes) :=
  match n with
  | O => Some ([], l)
  | S n' => '(x, l1) ← item l; '(xs, l2) ← decode_many item n' l1; Some (x :: xs, l2)
  end.

Fixpoint raw_decode (fuel : nat) (l : bytes) : option (Value * bytes) :=
  match fuel with
  | O => None
  | S fuel' =>
      match l with
      | tag :: n :: r =>
          let len := Z.to_nat n in
          match tag with
          | 0 => Some (Integer n, r)
          | 2 => Some (Bytes (take len r), drop len r)
          | 3 => Some (Text (decode_string (take len r)), drop len r)
          | 4 => '(vs, r1) ← decode_many (raw_decode fuel') len r; Some (Array vs, r1)
          | 5 => '(kvs, r1) ← decode_many (λ l, '(k, l1) ← raw_decode fuel' l;
                     '(v, l2) ← raw_decode fuel' l1; Some ((k, v), l2)) len r;
                 Some (Map kvs, r1)
          | 6 => '(v, r1) ← raw_decode fuel' r; Some (Tag n v, r1)
          | 7 => Some (Bool (bool_decide (n = 1)), r)
          | 8 => Some (Null, r)
          | 9 => Some (Float n, r)
          | _ => None
          end%Z
      | _ => None
      end
  end.

Lemma decode_many_spec {A} (item : bytes → option (A * bytes)) (enc : A → bytes) xs rest :
  Forall (λ x, ∀ rest, item (enc x ++ rest) = Some (x, rest)) xs →
  decode_many item (length xs) (concat (enc <$> xs) ++ rest) = Some (xs, rest).
Proof.
  induction 1 as [|x xs Hx _ IH]; [done|]. cbn [length fmap list_fmap concat decode_many].
  rewrite <-app_assoc, Hx. cbn [mbind option_bind]. by rewrite IH.
Qed.

Lemma concat_fmap_length_le {A} (enc : A → bytes) xs x :
  x ∈ xs → length (enc x) ≤ length (concat (enc <$> xs)).
Proof.
  induction xs as [|y xs IH]; [by intros ?%elem_of_nil|].
  rewrite elem_of_cons, fmap_cons. cbn [concat]. rewrite length_app. intros [-> | ?%IH]; lia.
Qed.

Lemma raw_decode_encode v fuel rest :
  length (raw_encode v) ≤ fuel → raw_decode fuel (raw_encode v ++ rest) = Some (v, rest).
Proof.
  revert fuel rest.
  induction v as [n|b|f|s|b| |t v IH|l IH|l IH] using Value_nested_ind; intros [|fuel] rest Hf;
    try (simpl in Hf; lia); cbn [raw_encode prefixed app raw_decode] in *; try done.
  - by rewrite Nat2Z.id, take_app_length, drop_app_length.
  - by rewrite Nat2Z.id, take_app_length, drop_app_length, decode_encode_string.
  - by destruct b.
  - cbn [length] in Hf. by rewrite IH by lia.
  - cbn [length] in Hf. rewrite Nat2Z.id, decode_many_spec; [done|].
    rewrite Forall_forall in IH |- *. intros v Hv rest'. apply IH; [done|].
    pose proof (concat_fmap_length_le raw_encode l v Hv). lia.
  - cbn [length] in Hf. rewrite Nat2Z.id.
    rewrite (decode_many_spec _ (λ kv, raw_encode kv.1 ++ raw_encode kv.2)); [done|].
    rewrite Forall_forall in IH |- *. intros [k v] Hv rest'. destruct (IH _ Hv) as [Hk Hvv].
    pose proof (concat_fmap_length_le (λ kv, raw_encode kv.1 ++ raw_encode kv.2) l _ Hv) as Hle.
    simpl in *. rewrite length_app in Hle. rewrite <-app_assoc, Hk by lia. simpl.
    by rewrite Hvv by lia.
Qed.

#[export] Instance raw_encode_inj : Inj (=) (=) raw_encode.
Proof.
  intros v w Heq. pose proof (raw_decode_encode v _ [] (le_n _)) as Hv. rewrite Heq in Hv.
  rewrite raw_decode_encode in Hv by lia. by injection Hv as ->.
Qed.

#[export] Instance Value_eq_dec : EqDecision Value.
Proof. intros v w. 
  destruct (decide (raw_encode v = raw_encode w)) as [H|H].
  - left. by apply raw_encode_inj.
  - right. by intros ->.
Defined.

(** ** The serialization interface *)

(** The errors of [coset::CoseError] that [src/cbor.rs] produces. *)
Inductive CborError : Type := EncodeFailed | DecodeFailed.
#[export] Instance CborError_eq_dec : EqDecision CborError.
Proof. solve_decision. Defined.

(** [cbor::to_vec] and [cbor::from_slice] at a type: the [serde]
    implementation of the type run by [ciborium]. *)
Class Serde (T : Type) := {
  to_vec : T → result bytes CborError;
  from_slice : bytes → result T CborError;
}.

(** What the crate relies on: a value that was written reads back. *)
Class SerdeLaws (T : Type) `{Serde T} : Prop := {
  from_slice_to_vec x b : to_vec x = Ok b → from_slice b = Ok x;
}.

(** A type that converts itself to and from [ciborium::Value]
    ([#[serde(try_from = "ciborium::Value", into = "ciborium::Value")]]). *)
Class ValueConv (T E : Type) := {
  into_value : T → Value;
  try_from_value : Value → result T E;
}.
Class ValueConvLaws (T E : Type) `{ValueConv T E} : Prop := {
  try_from_into_value (x : T) : try_from_value (into_value x) = Ok x;
}.

Definition serde_via_value T E `{ValueConv T E} `{Serde Value} : Serde T := {|
  to_vec x := to_vec (into_value x);
  from_slice b := let? v := from_slice b in map_err (λ _, DecodeFailed) (try_from_value v);
|}.

Lemma serde_via_value_laws T E `{ValueConvLaws T E} `{SerdeLaws Value} :
  @SerdeLaws T (serde_via_value T E).
Proof.
  split. intros x b Hx. cbn [to_vec from_slice serde_via_value] in *.
  rewrite (from_slice_to_vec _ _ Hx). simpl. by rewrite try_from_into_value.
Qed.

(** The interface instantiated with the prefix code. *)
Definition raw_serde : Serde Value := {|
  to_vec v := Ok (raw_encode v);
  from_slice b := match raw_decode (length b) b with
                  | Some (v, _) => Ok v | None => Err DecodeFailed end;
|}.
Lemma raw_serde_laws : @SerdeLaws Value raw_serde.
Proof.
  split. intros v b [= <-]. cbn [from_slice raw_serde].
  pose proof (raw_decode_encode v _ [] (le_n _)) as Hv. rewrite app_nil_r in Hv. by rewrite Hv.
Qed.

(** ** [ByteStr] *)

Record ByteStr : Type := { bytestr : bytes }.
#[export] Instance ByteStr_eq_dec : EqDecision ByteStr.
Proof. solve_decision. Defined.

Inductive ByteStrError : Type := NotAByteString (v : Value).
#[export] Instance ByteStr_value : ValueConv ByteStr ByteStrError := {|
  into_value b := Bytes (bytestr b);
  try_from_value v :=
    match v with Bytes b => Ok {| bytestr := b |} | _ => Err (NotAByteString v) end;
|}.
#[export] Instance ByteStr_value_laws : ValueConvLaws ByteStr ByteStrError.
Proof. split. by intros []. Qed.

(** ** [Tag24]: embedded CBOR that keeps its original bytes *)

Record Tag24 (T : Type) : Type := { inner : T; inner_bytes : bytes }.
Arguments inner {T} _.
Arguments inner_bytes {T} _.
#[export] Instance Tag24_eq_dec {T} `{EqDecision T} : EqDecision (Tag24 T).
Proof. solve_decision. Defined.

Inductive Tag24Error : Type :=
  | InvalidTag24 (v : Value)
  | NotATag24 (v : Value)
  | UnableToEncode (e : CborError)
  | UnableToDecode (e : CborError).

Section tag24.
Context {T : Type} `{Serde T}.

Definition Tag24_new (x : T) : result (Tag24 T) Tag24Error :=
  let? b := map_err UnableToEncode (to_vec x) in Ok {| inner := x; inner_bytes := b |}.

Definition Tag24_from_bytes (b : bytes) : result (Tag24 T) Tag24Error :=
  let? x := map_err UnableToDecode (from_slice b) in Ok {| inner := x; inner_bytes := b |}.

Definition Tag24_try_from (v : Value) : result (Tag24 T) Tag24Error :=
  match v with
  | Tag 24 inner_value =>
      match inner_value with
      | Bytes b =>
          let? x := map_err UnableToDecode (from_slice b) in
          Ok {| inner := x; inner_bytes := b |}
      | _ => Err (InvalidTag24 inner_value)
      end
  | _ => Err (NotATag24 v)
  end.

Definition Tag24_into_value (t : Tag24 T) : Value := Tag 24 (Bytes (inner_bytes t)).

(** The invariant of every constructor: the content is what the bytes decode to. *)
Definition Tag24_wf (t : Tag24 T) : Prop := from_slice (inner_bytes t) = Ok (inner t).

Lemma Tag24_new_wf `{!SerdeLaws T} x t : Tag24_new x = Ok t → Tag24_wf t ∧ inner t = x.
Proof. unfold Tag24_new. intros. inv_result. split; [|done]. by apply from_slice_to_vec. Qed.

Lemma Tag24_new_total x : is_ok (to_vec x) → ∃ t, Tag24_new x = Ok t.
Proof. unfold Tag24_new. destruct (to_vec x); [by eexists|done]. Qed.

Lemma Tag24_from_bytes_wf b t : Tag24_from_bytes b = Ok t → Tag24_wf t ∧ inner_bytes t = b.
Proof. unfold Tag24_from_bytes. intros. inv_result. done. Qed.

Lemma Tag24_try_from_wf v t : Tag24_try_from v = Ok t → Tag24_wf t ∧ Tag24_into_value t = v.
Proof.
  unfold Tag24_try_from. intros Ht. destruct v as [| | | | | |tag v| |]; try done.
  destruct (decide (tag = 24)%Z) as [-> |].
  - destruct v; try done. inv_result. done.
  - destruct tag as [|p|p]; try done.
    do 5 (destruct p as [p|p|]; try done).
Qed.

Lemma Tag24_into_value_try_from t : Tag24_wf t → Tag24_try_from (Tag24_into_value t) = Ok t.
Proof. intros Hwf. destruct t as [x b]. unfold Tag24_wf in Hwf. simpl in *. by rewrite Hwf. Qed.

Lemma Tag24_new_into_inner x t : Tag24_new x = Ok t → inner t = x ∧ to_vec x = Ok (inner_bytes t).
Proof. unfold Tag24_new. intros. inv_result. done. Qed.
End tag24.

(** [Tag24] serializes through its value; decoding re-reads the embedded bytes. *)
#[export] Instance Tag24_value {T} `{Serde T} : ValueConv (Tag24 T) Tag24Error := {|
  into_value := Tag24_into_value;
  try_from_value := Tag24_try_from;
|}.
#[export] Instance Tag24_serde {T} `{Serde T, Serde Value} : Serde (Tag24 T) :=
  serde_via_value (Tag24 T) Tag24Error.

(** Reading back a well-formed [Tag24] restores it byte for byte. *)
Lemma Tag24_serde_roundtrip {T} `{Serde T, SerdeLaws Value} (t : Tag24 T) b :
  Tag24_wf t → to_vec t = Ok b → from_slice b = Ok t.
Proof.
  intros Hwf Hb. cbn [to_vec from_slice Tag24_serde serde_via_value into_value try_from_value Tag24_value] in *.
  rewrite (from_slice_to_vec _ _ Hb). cbn [rbind]. by rewrite Tag24_into_value_try_from.
Qed.

(** A new [Tag24] reads back with its bytes, and with what these are read as. *)
Lemma Tag24_new_read {T} `{Serde T, SerdeLaws Value} (x y : T) t b :
  Tag24_new x = Ok t → (∀ b, to_vec x = Ok b → from_slice b = Ok y) → to_vec t = Ok b →
  from_slice b = Ok {| inner := y; inner_bytes := inner_bytes t |}.
Proof.
  intros [_ Hx]%Tag24_new_into_inner Hread Hb. apply (Tag24_serde_roundtrip {| inner := y; inner_bytes := inner_bytes t |}); [|exact Hb].
  exact (Hread _ Hx).
Qed.

(** ** [NonEmptyVec] and [NonEmptyMap] *)

(** An [unwrap] panic is [None]. *)
Record NonEmptyVec (T : Type) : Type := { nev : list T }.
Arguments nev {T} _.
#[export] Instance NonEmptyVec_eq_dec {T} `{EqDecision T} : EqDecision (NonEmptyVec T).
Proof. solve_decision. Defined.

Inductive NonEmptyError : Type := Empty.
#[export] Instance NonEmptyError_eq_dec : EqDecision NonEmptyError.
Proof. solve_decision. Defined.

Section non_empty_vec.
Context {T : Type}.

Definition NonEmptyVec_new (t : T) : NonEmptyVec T := {| nev := [t] |}.
Definition NonEmptyVec_try_from (v : list T) : result (NonEmptyVec T) NonEmptyError :=
  match v with [] => Err Empty | _ => Ok {| nev := v |} end.
Definition NonEmptyVec_maybe_new (v : list T) : option (NonEmptyVec T) :=
  rok (NonEmptyVec_try_from v).
Definition NonEmptyVec_push (v : NonEmptyVec T) (t : T) : NonEmptyVec T := {| nev := nev v ++ [t] |}.
Definition NonEmptyVec_into {T2} (f : T → T2) (v : NonEmptyVec T) : option (NonEmptyVec T2) :=
  match f <$> nev v with [] => None | w => Some {| nev := w |} end.
Definition NonEmptyVec_try_into {T2 E} (f : T → result T2 E) (v : NonEmptyVec T) :
    option (result (NonEmptyVec T2) E) :=
  match try_map f (nev v) with
  | Err e => Some (Err e)
  | Ok [] => None
  | Ok w => Some (Ok {| nev := w |})
  end.

Definition NonEmptyVec_wf (v : NonEmptyVec T) : Prop := nev v ≠ [].
End non_empty_vec.

Lemma NonEmptyVec_try_from_wf {T} (l : list T) v :
  NonEmptyVec_try_from l = Ok v → NonEmptyVec_wf v ∧ nev v = l.
Proof. destruct l; [done|]. by intros [= <-]. Qed.

Lemma NonEmptyVec_maybe_new_Some {T} (l : list T) v :
  NonEmptyVec_maybe_new l = Some v ↔ NonEmptyVec_wf v ∧ nev v = l.
Proof.
  unfold NonEmptyVec_maybe_new, NonEmptyVec_wf. destruct v as [k]. destruct l; simpl; [naive_solver|].
  split; [by intros [= <-]|]. by intros [_ ->].
Qed.

(** The [unwrap]s of the conversions never panic on a constructed vector. *)
Lemma NonEmptyVec_into_total {T T2} (f : T → T2) v :
  NonEmptyVec_wf v → ∃ w, NonEmptyVec_into f v = Some w ∧ NonEmptyVec_wf w ∧ nev w = f <$> nev v.
Proof.
  unfold NonEmptyVec_wf, NonEmptyVec_into. destruct v as [[|x l]]; simpl; [done|]. intros _.
  by eexists.
Qed.
Lemma NonEmptyVec_try_into_total {T T2 E} (f : T → result T2 E) v :
  NonEmptyVec_wf v → ∃ r, NonEmptyVec_try_into f v = Some r ∧ ∀ w, r = Ok w → NonEmptyVec_wf w.
Proof.
  unfold NonEmptyVec_try_into. intros Hv. destruct (try_map f (nev v)) as [w|e] eqn:Hw.
  - apply try_map_length in Hw. destruct w as [|y w].
    + destruct v as [[|]]; [by destruct Hv|done].
    + eexists. split; [done|]. by intros ? [= <-].
  - eexists. split; [done|]. by intros ? [=].
Qed.

Record NonEmptyMap (K V : Type) `{Ord K} : Type := { nem : btree K V }.
Arguments nem {K V _} _.

Section non_empty_map.
Context {K V : Type} `{OrdLaws K, EqDecision K}.

Definition NonEmptyMap_new (k : K) (v : V) : NonEmptyMap K V := {| nem := <[k := v]> ∅ |}.
Definition NonEmptyMap_try_from (m : btree K V) : result (NonEmptyMap K V) NonEmptyError :=
  if is_empty m then Err Empty else Ok {| nem := m |}.
Definition NonEmptyMap_maybe_new (m : btree K V) : option (NonEmptyMap K V) :=
  rok (NonEmptyMap_try_from m).
(** The updated map and the value that was replaced. *)
Definition NonEmptyMap_insert (m : NonEmptyMap K V) (k : K) (v : V) : NonEmptyMap K V * option V :=
  ({| nem := <[k := v]> (nem m) |}, nem m !! k).

Definition NonEmptyMap_wf (m : NonEmptyMap K V) : Prop := nem m ≠ ∅.

Lemma NonEmptyMap_try_from_spec m m' :
  NonEmptyMap_try_from m = Ok m' ↔ NonEmptyMap_wf m' ∧ nem m' = m.
Proof.
  unfold NonEmptyMap_try_from, NonEmptyMap_wf. destruct (is_empty m) eqn:He.
  - apply is_empty_spec in He as ->. split; [done|]. intros [Hne Hm]. by rewrite Hm in Hne.
  - assert (m ≠ ∅) as Hm by (intros ->; by rewrite (proj2 (is_empty_spec ∅)) in He).
    split; [by intros [= <-]|]. destruct m' as [m']. simpl. by intros [_ ->].
Qed.
Lemma NonEmptyMap_maybe_new_Some m m' : NonEmptyMap_maybe_new m = Some m' ↔ NonEmptyMap_wf m' ∧ nem m' = m.
Proof.
  rewrite <-NonEmptyMap_try_from_spec. unfold NonEmptyMap_maybe_new.
  destruct (NonEmptyMap_try_from m); cbn [rok]; naive_solver.
Qed.
Lemma NonEmptyMap_maybe_new_None m : NonEmptyMap_maybe_new m = None ↔ m = ∅.
Proof.
  unfold NonEmptyMap_maybe_new, NonEmptyMap_try_from. rewrite <-is_empty_spec. by destruct (is_empty m).
Qed.
Lemma NonEmptyMap_insert_wf m k v : NonEmptyMap_wf (NonEmptyMap_insert m k v).1.
Proof. apply insert_non_empty. Qed.
End non_empty_map.

(** ** Maps with integer keys *)

(** [map.into_iter().map(|(k, v)| (k.into_integer()?, v)).collect::<BTreeMap>()]:
    every key must be an integer, and a later entry replaces an earlier one. *)
Definition integer_key {E} (e : E) (kv : Value * Value) : result (Z * Value) E :=
  match kv.1 with Integer k => Ok (k, kv.2) | _ => Err e end.
Definition integer_keyed_map {E} (e : E) (entries : list (Value * Value)) : result (btree Z Value) E :=
  let? kvs := try_map (integer_key e) entries in Ok (collect kvs).

Lemma integer_key_inv {E} (e : E) entries kvs :
  try_map (integer_key e) entries = Ok kvs → entries = (λ kv, (Integer kv.1, kv.2)) <$> kvs.
Proof.
  intros H%try_map_Ok. induction H as [|[k v] [n w] l l' Hk _ IH]; [done|].
  rewrite fmap_cons, <-IH. unfold integer_key in Hk. destruct k; simplify_eq/=; done.
Qed.
Lemma integer_key_fmap {E} (e : E) kvs :
  try_map (integer_key e) ((λ kv, (Integer kv.1, kv.2)) <$> kvs) = Ok kvs.
Proof.
  induction kvs as [|[k v] kvs IH]; [done|]. rewrite fmap_cons.
  cbn [try_map integer_key rbind fst snd]. by rewrite IH.
Qed.
Lemma integer_key_Err {E} (e e' : E) entries : try_map (integer_key e) entries = Err e' → e' = e.
Proof.
  intros (l1 & [k v] & l2 & _ & Hk & _)%try_map_Err. unfold integer_key in Hk.
  destruct k; simplify_eq/=; done.
Qed.

(** The order of the entries of an integer-keyed map does not matter. *)
Lemma integer_keyed_map_perm {E} (e : E) l1 l2 :
  l1 ≡ₚ l2 → NoDup l2.*1 → integer_keyed_map e l1 = integer_keyed_map e l2.
Proof.
  intros Hp Hnd. unfold integer_keyed_map.
  destruct (try_map (integer_key e) l1) as [kvs1|e1] eqn:H1.
  - apply integer_key_inv in H1 as ->. apply symmetry, Permutation_map_inv in Hp as (kvs2 & -> & Hp).
    change (map ?f kvs2) with (f <$> kvs2).
    rewrite integer_key_fmap. cbn [rbind]. f_equal. symmetry. apply collect_perm; [|done].
    change (map ?f kvs2) with (f <$> kvs2) in Hnd.
    apply (NoDup_fmap_1 Integer). rewrite <-list_fmap_compose in Hnd. by rewrite <-list_fmap_compose.
  - destruct (try_map (integer_key e) l2) as [kvs2|e2] eqn:H2.
    + apply integer_key_inv in H2 as ->. apply Permutation_map_inv in Hp as (kvs1 & -> & Hp).
      change (map ?f kvs1) with (f <$> kvs1) in H1. by rewrite integer_key_fmap in H1.
    + apply integer_key_Err in H1 as ->. by apply integer_key_Err in H2 as ->.
Qed.
