(* ===== verification/CoseKey.v ===== *)
(** * Device keys ([src/definitions/device_key/])

    [COSE_Key] objects and their CBOR form, the conversion to SEC1 points, and
    the key authorizations of a device key. *)

From S2P Require Export Cbor.

(** ** Data *)

Inductive EC2Y : Type := EC2Y_Value (y : bytes) | SignBit (b : bool).
Inductive EC2Curve : Type := P256 | P384 | P521 | P256K.
Inductive OKPCurve : Type := X25519 | X448 | Ed25519 | Ed448.
Inductive CoseKey : Type :=
  | EC2 (crv : EC2Curve) (x : bytes) (y : EC2Y)
  | OKP (crv : OKPCurve) (x : bytes).

Inductive CoseKeyError : Type :=
  | EC2MissingX | EC2MissingY | InvalidTypeY (v : Value) | NotAMap (v : Value)
  | UnknownCurve | UnsupportedCurve | UnsupportedKeyType | InvalidCoseKey
  | UnsupportedFormat | CoseKeyCborError.

#[export] Instance EC2Y_eq_dec : EqDecision EC2Y. Proof. solve_decision. Defined.
#[export] Instance EC2Curve_eq_dec : EqDecision EC2Curve. Proof. solve_decision. Defined.
#[export] Instance OKPCurve_eq_dec : EqDecision OKPCurve. Proof. solve_decision. Defined.
#[export] Instance CoseKey_eq_dec : EqDecision CoseKey. Proof. solve_decision. Defined.

(** [coset::iana::Algorithm], the values the crate uses. *)
Inductive Algorithm : Type := ES256 | ES384 | ES512 | EdDSA | HMAC_256_256.
#[export] Instance Algorithm_eq_dec : EqDecision Algorithm. Proof. solve_decision. Defined.

(** ** Conversions *)

Definition signature_algorithm (k : CoseKey) : option Algorithm :=
  match k with
  | EC2 P256 _ _ => Some ES256
  | EC2 P384 _ _ => Some ES384
  | EC2 P521 _ _ => Some ES512
  | OKP Ed448 _ => Some EdDSA
  | OKP Ed25519 _ => Some EdDSA
  | _ => None
  end.

Definition EC2Curve_into_value (crv : EC2Curve) : Value :=
  match crv with
  | P256 => Integer 1 | P384 => Integer 2 | P521 => Integer 3 | P256K => Integer 8
  end.
Definition EC2Curve_try_from (crv_id : i128) : result EC2Curve CoseKeyError :=
  match crv_id with
  | 1 => Ok P256 | 2 => Ok P384 | 3 => Ok P521 | 8 => Ok P256K
  | _ => Err UnsupportedCurve
  end%Z.

Definition OKPCurve_into_value (crv : OKPCurve) : Value :=
  match crv with
  | X25519 => Integer 4 | X448 => Integer 5 | Ed25519 => Integer 6 | Ed448 => Integer 7
  end.
Definition OKPCurve_try_from (crv_id : i128) : result OKPCurve CoseKeyError :=
  match crv_id with
  | 4 => Ok X25519 | 5 => Ok X448 | 6 => Ok Ed25519 | 7 => Ok Ed448
  | _ => Err UnsupportedCurve
  end%Z.

Definition EC2Y_into_value (y : EC2Y) : Value :=
  match y with EC2Y_Value s => Bytes s | SignBit b => Bool b end.
Definition EC2Y_try_from (v : Value) : result EC2Y CoseKeyError :=
  match v with
  | Bytes s => Ok (EC2Y_Value s)
  | Bool b => Ok (SignBit b)
  | _ => Err (InvalidTypeY v)
  end.

Definition CoseKey_into_value (key : CoseKey) : Value :=
  match key with
  | EC2 crv x y =>
      Map [(Integer 1, Integer 2); (Integer (-1), EC2Curve_into_value crv);
           (Integer (-2), Bytes x); (Integer (-3), EC2Y_into_value y)]
  | OKP crv x =>
      Map [(Integer 1, Integer 1); (Integer (-1), OKPCurve_into_value crv);
           (Integer (-2), Bytes x)]
  end.

Definition CoseKey_try_from (v : Value) : result CoseKey CoseKeyError :=
  match v with
  | Map entries =>
      let? map := integer_keyed_map CoseKeyCborError entries in
      let kty := map !! 1%Z in
      let map := delete 1%Z map in
      let crv_id := map !! (-1)%Z in
      let map := delete (-1)%Z map in
      let x := map !! (-2)%Z in
      let map := delete (-2)%Z map in
      match kty, crv_id, x with
      | Some (Integer i), Some (Integer crv_id), Some (Bytes x) =>
          if bool_decide (i = 2)%Z then
            let? crv := EC2Curve_try_from crv_id in
            let? y := ok_or EC2MissingY (map !! (-3)%Z) in
            let? y := EC2Y_try_from y in
            Ok (EC2 crv x y)
          else if bool_decide (i = 1)%Z then
            let? crv := OKPCurve_try_from crv_id in
            Ok (OKP crv x)
          else Err UnsupportedKeyType
      | _, _, _ => Err UnsupportedKeyType
      end
  | _ => Err (NotAMap v)
  end.

#[export] Instance CoseKey_value : ValueConv CoseKey CoseKeyError := {|
  into_value := CoseKey_into_value;
  try_from_value := CoseKey_try_from;
|}.

(** [EncodedPoint::from_bytes] of the [sec1] crate. *)
Class Sec1 := {
  EncodedPoint : Type;
  EncodedPoint_from_bytes : bytes → result EncodedPoint unit;
}.

Definition EncodedPoint_try_from `{Sec1} (value : CoseKey) : result EncodedPoint CoseKeyError :=
  match value with
  | EC2 P256 x y =>
      match y with
      | EC2Y_Value y =>
          if bool_decide (length x ≠ 32) || bool_decide (length y ≠ 32) then Err InvalidCoseKey
          else map_err (λ _, InvalidCoseKey) (EncodedPoint_from_bytes ([4%Z] ++ x ++ y))
      | SignBit y =>
          if bool_decide (length x ≠ 32) then Err InvalidCoseKey
          else map_err (λ _, InvalidCoseKey)
                 (EncodedPoint_from_bytes ([if y then 3%Z else 2%Z] ++ x))
      end
  | _ => Err InvalidCoseKey
  end.

(** ** Key authorizations *)

Record KeyAuthorizations : Type := {
  namespaces : option (NonEmptyVec string);
  data_elements : option (NonEmptyMap string (NonEmptyVec string));
}.
Definition KeyAuthorizations_default : KeyAuthorizations :=
  {| namespaces := None; data_elements := None |}.

Record DeviceKeyInfo : Type := {
  device_key : CoseKey;
  key_authorizations : option KeyAuthorizations;
  key_info : option (btree Z Value);
}.

(** What the Rust types can hold: authorizations are not empty, labels are [i128]s. *)
Definition KeyAuthorizations_wf (ka : KeyAuthorizations) : Prop :=
  (∀ v, namespaces ka = Some v → NonEmptyVec_wf v) ∧
  ∀ m, data_elements ka = Some m → NonEmptyMap_wf m ∧ ∀ ns v, nem m !! ns = Some v → NonEmptyVec_wf v.
Definition DeviceKeyInfo_wf (info : DeviceKeyInfo) : Prop :=
  (∀ ka, key_authorizations info = Some ka → KeyAuthorizations_wf ka) ∧
  ∀ m label, key_info info = Some m → is_Some (m !! label) → (- 2 ^ 127 ≤ label < 2 ^ 127)%Z.

Inductive DeviceKeyError : Type := DoubleAuthorized (namespace : string).

(** [try_for_each] stops at the first namespace found on both sides. *)
Definition validate (ka : KeyAuthorizations) : result unit DeviceKeyError :=
  match data_elements ka with
  | None => Ok tt
  | Some authorized_data_elements =>
      match namespaces ka with
      | Some authorized_namespaces =>
          try_fold (λ _ namespace,
              match nem authorized_data_elements !! namespace with
              | None => Ok tt
              | Some _ => Err (DoubleAuthorized namespace)
              end) tt (nev authorized_namespaces)
      | None => Ok tt
      end
  end.

Definition permitted (ka : KeyAuthorizations) (namespace element_identifier : string) : bool :=
  match namespaces ka with
  | Some namespaces => bool_decide (namespace ∈ nev namespaces)
  | None =>
      match data_elements ka with
      | Some namespaces =>
          match nem namespaces !! namespace with
          | Some data_elements => bool_decide (element_identifier ∈ nev data_elements)
          | None => false
          end
      | None => false
      end
  end.

(** ** Properties *)

Lemma EC2Curve_roundtrip crv n : EC2Curve_into_value crv = Integer n → EC2Curve_try_from n = Ok crv.
Proof. by destruct crv; intros [= <-]. Qed.
Lemma OKPCurve_roundtrip crv n : OKPCurve_into_value crv = Integer n → OKPCurve_try_from n = Ok crv.
Proof. by destruct crv; intros [= <-]. Qed.

#[export] Instance CoseKey_value_laws : ValueConvLaws CoseKey CoseKeyError.
Proof.
  split. intros [crv x y|crv x]; cbn [into_value try_from_value CoseKey_value].
  - by destruct crv, y.
  - by destruct crv.
Qed.

Definition sec1_bytes : Sec1 := {| EncodedPoint := bytes; EncodedPoint_from_bytes b := Ok b |}.

(** A device key survives the CBOR round trip, and the order of the map
      entries does not matter: every permutation of the written map reads back as
      the key. *)
Theorem CoseKey_decode_any_order k entries l :
  CoseKey_into_value k = Map entries → l ≡ₚ entries → CoseKey_try_from (Map l) = Ok k.
Proof.
  intros Hk Hp. pose proof (try_from_into_value k) as Hrt.
  cbn [into_value try_from_value CoseKey_value] in Hrt. rewrite Hk in Hrt.
  cbn [CoseKey_try_from] in Hrt |- *.
  rewrite (integer_keyed_map_perm _ l entries); [done|done|].
  destruct k; cbn [CoseKey_into_value] in Hk; injection Hk as <-; apply (bool_decide_unpack _); by vm_compute.
Qed.

Lemma CoseKey_decode_any_order_witness :
  CoseKey_try_from (Map [(Integer (-2), Bytes [7]%Z); (Integer (-1), Integer 6); (Integer 1, Integer 1)]) =
  Ok (OKP Ed25519 [7]%Z).
Proof.
  eapply (CoseKey_decode_any_order (OKP Ed25519 [7]%Z)); [reflexivity|].
  by rewrite (Permutation_rev [_; _; _]).
Defined.

(** Only P-256 EC2 keys with 32-byte coordinates become SEC1 points; the
      point is the uncompressed or compressed encoding of the coordinates, and
      every other key is refused. *)
Theorem EncodedPoint_try_from_spec `{Sec1} k p :
  EncodedPoint_try_from k = Ok p ↔
  ∃ x y, k = EC2 P256 x y ∧ length x = 32 ∧
    match y with
    | EC2Y_Value y => length y = 32 ∧ EncodedPoint_from_bytes (4%Z :: x ++ y) = Ok p
    | SignBit b => EncodedPoint_from_bytes ((if b then 3 else 2)%Z :: x) = Ok p
    end.
Proof.
  split.
  - destruct k as [[] x [y|b]|]; cbn [EncodedPoint_try_from]; try done; intros Hp.
    + destruct (bool_decide (length x ≠ 32)) eqn:Hx, (bool_decide (length y ≠ 32)) eqn:Hy;
        cbn [orb] in Hp; try done. bool_to_prop. inv_result.
      exists x, (EC2Y_Value y). split_and!; try (apply dec_stable; done); done.
    + destruct (bool_decide (length x ≠ 32)) eqn:Hx; try done. bool_to_prop. inv_result.
      exists x, (SignBit b). split_and!; try (apply dec_stable; done); done.
  - intros (x & [y|b] & -> & Hx & Hp); cbn [EncodedPoint_try_from].
    + destruct Hp as [Hy Hp]. rewrite !bool_decide_false by (intros ?; done). cbn [orb app].
      by rewrite Hp.
    + rewrite bool_decide_false by (intros ?; done). cbn [app]. by rewrite Hp.
Qed.

(** The namespaces whose every element the key may sign. *)
Definition authorized_namespace (ka : KeyAuthorizations) (ns : string) : Prop :=
  ∃ v, namespaces ka = Some v ∧ ns ∈ nev v.
Definition authorized_elements (ka : KeyAuthorizations) (ns : string) (els : list string) : Prop :=
  ∃ m v, data_elements ka = Some m ∧ nem m !! ns = Some v ∧ nev v = els.

(** [validate] accepts exactly the authorizations in which no namespace is
      authorized both as a whole and element by element, and a refusal names such
      a namespace. *)
Theorem validate_spec ka :
  match validate ka with
  | Ok _ => ∀ ns els, authorized_namespace ka ns → ¬ authorized_elements ka ns els
  | Err (DoubleAuthorized ns) => authorized_namespace ka ns ∧ ∃ els, authorized_elements ka ns els
  end.
Proof.
  unfold validate, authorized_namespace, authorized_elements.
  destruct ka as [[v|] [m|]]; cbn [namespaces data_elements]; try naive_solver.
  cut (∀ l, match try_fold (λ _ namespace, match nem m !! namespace with
                None => Ok tt | Some _ => Err (DoubleAuthorized namespace) end) tt l with
            | Ok _ => ∀ ns, ns ∈ l → nem m !! ns = None
            | Err (DoubleAuthorized ns) => ns ∈ l ∧ is_Some (nem m !! ns)
            end).
  { intros Hl. specialize (Hl (nev v)). destruct (try_fold _ tt (nev v)) as [[]|[ns]].
    - intros ns els (? & [= <-] & Hns) (? & w & [= <-] & Hw & _). specialize (Hl ns Hns). congruence.
    - destruct Hl as [Hns [w Hw]]. split; [by exists v|]. by exists (nev w), m, w. }
  intros l. induction l as [|ns l IH]; cbn [try_fold].
  - intros ns []%elem_of_nil.
  - destruct (nem m !! ns) eqn:Hm; cbn [rbind].
    + split; [by left|by eexists].
    + destruct (try_fold _ tt l) as [[]|[ns']].
      * intros ns'. rewrite elem_of_cons. intros [-> |]; eauto.
      * destruct IH. split; [by right|done].
Qed.

(** [permitted] grants an element through its namespace, or through the
      element list when no namespaces are authorized at all: as soon as some
      namespace is authorized as a whole, the element lists of the other
      namespaces grant nothing. *)
Theorem permitted_spec ka ns el :
  permitted ka ns el = true ↔
  authorized_namespace ka ns ∨
  (namespaces ka = None ∧ ∃ els, authorized_elements ka ns els ∧ el ∈ els).
Proof.
  unfold permitted, authorized_namespace, authorized_elements.
  destruct ka as [[v|] d]; cbn [namespaces data_elements].
  - rewrite bool_decide_eq_true. naive_solver.
  - destruct d as [m|]; [|naive_solver]. destruct (nem m !! ns) as [w|] eqn:Hw; [|naive_solver].
    rewrite bool_decide_eq_true. naive_solver.
Qed.
