(* ===== verification/Engagement.v ===== *)
(** * Device engagement ([src/definitions/device_engagement.rs] and [device_engagement/])

    The device engagement structure, its retrieval methods (BLE, Wi-Fi Aware and
    NFC options) and their conversions to and from CBOR values, and the QR code
    form.  The [serde]-derived readers of nested structures and the [base64] crate
    are interfaces. *)

From S2P Require Export CoseKey.

(** ** Errors ([device_engagement/error.rs]) *)

Inductive EngagementError : Type :=
  | UnsupportedVersion | UnsupportedDRM | Unimplemented | InvalidDeviceEngagement
  | InvalidWifiOptions | InvalidNfcOptions | Malformed | EngagementCoseKeyError
  | EngagementTag24Error | EngagementCborError
  | InvalidNfcCommandDataLengthError | InvalidNfcResponseDataLengthError.
#[export] Instance EngagementError_eq_dec : EqDecision EngagementError.
Proof. solve_decision. Defined.

(** ** NFC options ([device_engagement/nfc_options.rs]) *)

(** [CommandDataLength(u16)] and [ResponseDataLength(u32)]. *)
Record CommandDataLength : Type := { cdl_get : Z }.
Record ResponseDataLength : Type := { rdl_get : Z }.
#[export] Instance CommandDataLength_eq_dec : EqDecision CommandDataLength.
Proof. solve_decision. Defined.
#[export] Instance ResponseDataLength_eq_dec : EqDecision ResponseDataLength.
Proof. solve_decision. Defined.

Definition CDL_MIN : CommandDataLength := {| cdl_get := 255 |}.
Definition CDL_MAX : CommandDataLength := {| cdl_get := 65535 |}.
Definition RDL_MIN : ResponseDataLength := {| rdl_get := 256 |}.
Definition RDL_MAX : ResponseDataLength := {| rdl_get := 65536 |}.

Definition CommandDataLength_new (v : Z) : option CommandDataLength :=
  if (cdl_get CDL_MIN <=? v)%Z && (v <=? cdl_get CDL_MAX)%Z then Some {| cdl_get := v |} else None.
Definition ResponseDataLength_new (v : Z) : option ResponseDataLength :=
  if (rdl_get RDL_MIN <=? v)%Z && (v <=? rdl_get RDL_MAX)%Z then Some {| rdl_get := v |} else None.

(** [u16::try_from(v).ok()] and [u32::try_from(v).ok()] from a wider integer. *)
Definition to_unsigned (max v : Z) : option Z :=
  if (0 <=? v)%Z && (v <=? max)%Z then Some v else None.

Definition CommandDataLength_try_from (v : Z) : result CommandDataLength EngagementError :=
  ok_or InvalidNfcCommandDataLengthError (uv ← to_unsigned u16_max v; CommandDataLength_new uv).
Definition ResponseDataLength_try_from (v : Z) : result ResponseDataLength EngagementError :=
  ok_or InvalidNfcResponseDataLengthError (uv ← to_unsigned u32_max v; ResponseDataLength_new uv).

(** The checks of the hand-written [Deserialize] implementations, after the
    integer of the field's width was read. *)
Definition CommandDataLength_deserialize (value : Z) : option CommandDataLength :=
  if (cdl_get CDL_MIN <=? value)%Z then Some {| cdl_get := value |} else None.
Definition ResponseDataLength_deserialize (value : Z) : option ResponseDataLength :=
  if (rdl_get RDL_MIN <=? value)%Z then Some {| rdl_get := value |} else None.

Record NfcOptions : Type := {
  max_len_command_data_field : CommandDataLength;
  max_len_response_data_field : ResponseDataLength;
}.
#[export] Instance NfcOptions_eq_dec : EqDecision NfcOptions. Proof. solve_decision. Defined.
Definition NfcOptions_default : NfcOptions := {|
  max_len_command_data_field := CDL_MIN;
  max_len_response_data_field := RDL_MIN;
|}.

(** [v.into_integer()?.try_into()?] for an unsigned target. *)
Definition value_to_unsigned (max : Z) (v : Value) : result Z EngagementError :=
  match v with
  | Integer n => ok_or EngagementCborError (to_unsigned max n)
  | _ => Err EngagementCborError
  end.

Definition NfcOptions_try_from (v : Value) : result NfcOptions EngagementError :=
  let? map := match v with
              | Map map => integer_keyed_map EngagementCborError map
              | _ => Err InvalidNfcOptions
              end in
  let nfc_opts := NfcOptions_default in
  let? nfc_opts :=
    (let? v := ok_or InvalidNfcOptions (map !! 0%Z) in
     let? v := value_to_unsigned u16_max v in
     if (v <? cdl_get CDL_MIN)%Z then Err InvalidNfcCommandDataLengthError
     else Ok {| max_len_command_data_field := {| cdl_get := v |};
                max_len_response_data_field := max_len_response_data_field nfc_opts |}) in
  let map := delete 0%Z map in
  let? v := ok_or InvalidNfcOptions (map !! 1%Z) in
  let? v := value_to_unsigned u32_max v in
  if (v <? rdl_get RDL_MIN)%Z then Err InvalidNfcResponseDataLengthError
  else Ok {| max_len_command_data_field := max_len_command_data_field nfc_opts;
             max_len_response_data_field := {| rdl_get := v |} |}.

Definition NfcOptions_into_value (o : NfcOptions) : Value :=
  Map [(Integer 0, Integer (cdl_get (max_len_command_data_field o)));
       (Integer 1, Integer (rdl_get (max_len_response_data_field o)))].

(** ** BLE and Wi-Fi options *)

(** A UUID is its sixteen bytes. *)
Record CentralClientMode : Type := { ccm_uuid : bytes }.
Record PeripheralServerMode : Type := { psm_uuid : bytes; ble_device_address : option ByteStr }.
Record BleOptions : Type := {
  peripheral_server_mode : option PeripheralServerMode;
  central_client_mode : option CentralClientMode;
}.
Record WifiOptions : Type := {
  pass_phrase : option string;
  channel_info_operating_class : option u64;
  channel_info_channel_number : option u64;
  band_info : option ByteStr;
}.
#[export] Instance CentralClientMode_eq_dec : EqDecision CentralClientMode. Proof. solve_decision. Defined.
#[export] Instance PeripheralServerMode_eq_dec : EqDecision PeripheralServerMode. Proof. solve_decision. Defined.
#[export] Instance BleOptions_eq_dec : EqDecision BleOptions. Proof. solve_decision. Defined.
#[export] Instance WifiOptions_eq_dec : EqDecision WifiOptions. Proof. solve_decision. Defined.

(** [<[u8; 16]>::try_from(uuid)] *)
Definition uuid_from (uuid : bytes) : result bytes EngagementError :=
  if bool_decide (length uuid = 16) then Ok uuid else Err Malformed.

Definition BleOptions_try_from (v : Value) : result BleOptions EngagementError :=
  match v with
  | Map map =>
      let? map := integer_keyed_map EngagementCborError map in
      let v1 := map !! 1%Z in
      let v2 := map !! 11%Z in
      let? ccm :=
        match v1, v2 with
        | Some (Bool true), Some (Bytes uuid) =>
            let? uuid_bytes := uuid_from uuid in Ok (Some {| ccm_uuid := uuid_bytes |})
        | Some (Bool false), _ => Ok None
        | _, _ => Err Malformed
        end in
      let? psm :=
        match map !! 0%Z, map !! 10%Z with
        | Some (Bool true), Some (Bytes uuid) =>
            let? uuid_bytes := uuid_from uuid in
            let? address :=
              match map !! 20%Z with
              | Some value => let? a := map_err (λ _, Malformed) (try_from_value value) in Ok (Some a)
              | None => Ok None
              end in
            Ok (Some {| psm_uuid := uuid_bytes; ble_device_address := address |})
        | Some (Bool false), _ => Ok None
        | _, _ => Err Malformed
        end in
      Ok {| peripheral_server_mode := psm; central_client_mode := ccm |}
  | _ => Err Malformed
  end.

Definition BleOptions_into_value (o : BleOptions) : Value :=
  Map ((match central_client_mode o with
        | Some ccm => [(Integer 1, Bool true); (Integer 11, Bytes (ccm_uuid ccm))]
        | None => [(Integer 1, Bool false)]
        end) ++
       (match peripheral_server_mode o with
        | Some psm =>
            [(Integer 0, Bool true); (Integer 10, Bytes (psm_uuid psm))] ++
            match ble_device_address psm with
            | Some address => [(Integer 20, into_value address)]
            | None => []
            end
        | None => [(Integer 0, Bool false)]
        end)).

Definition lookup_opt_string (map : btree Z Value) (idx : i128) : result (option string) EngagementError :=
  match map !! idx with
  | None => Ok None
  | Some (Text text) => Ok (Some text)
  | _ => Err InvalidWifiOptions
  end.
Definition lookup_opt_u64 (map : btree Z Value) (idx : i128) : result (option u64) EngagementError :=
  match map !! idx with
  | None => Ok None
  | Some (Integer n) => let? n := ok_or InvalidWifiOptions (to_unsigned u64_max n) in Ok (Some n)
  | _ => Err InvalidWifiOptions
  end.
Definition lookup_opt_bytestr (map : btree Z Value) (idx : i128) : result (option ByteStr) EngagementError :=
  match map !! idx with
  | None => Ok None
  | Some v => let? b := map_err (λ _, InvalidWifiOptions) (try_from_value v) in Ok (Some b)
  end.

Definition WifiOptions_try_from (v : Value) : result WifiOptions EngagementError :=
  let? map := match v with
              | Map map => integer_keyed_map EngagementCborError map
              | _ => Err InvalidWifiOptions
              end in
  let? pass := lookup_opt_string map 0 in
  let? class := lookup_opt_u64 map 1 in
  let? channel := lookup_opt_u64 map 2 in
  let? band := lookup_opt_bytestr map 3 in
  Ok {| pass_phrase := pass; channel_info_operating_class := class;
        channel_info_channel_number := channel; band_info := band |}.

Definition opt_entry {A} (k : Z) (f : A → Value) (o : option A) : list (Value * Value) :=
  match o with Some x => [(Integer k, f x)] | None => [] end.

Definition WifiOptions_into_value (o : WifiOptions) : Value :=
  Map (opt_entry 0 Text (pass_phrase o) ++
       opt_entry 1 Integer (channel_info_operating_class o) ++
       opt_entry 2 Integer (channel_info_channel_number o) ++
       opt_entry 3 into_value (band_info o)).

(** ** Retrieval methods and the device engagement *)

Inductive DeviceRetrievalMethod : Type :=
  | WIFI (opts : WifiOptions)
  | BLE (opts : BleOptions)
  | NFC (opts : NfcOptions).
#[export] Instance DeviceRetrievalMethod_eq_dec : EqDecision DeviceRetrievalMethod.
Proof. solve_decision. Defined.

Definition drm_version (drm : DeviceRetrievalMethod) : u64 := 1.
Definition transport_type (drm : DeviceRetrievalMethod) : u64 :=
  match drm with NFC _ => 1 | BLE _ => 2 | WIFI _ => 3 end.

Definition DeviceRetrievalMethod_into_value (drm : DeviceRetrievalMethod) : Value :=
  Array [Integer (transport_type drm); Integer (drm_version drm);
         match drm with
         | NFC opts => NfcOptions_into_value opts
         | BLE opts => BleOptions_into_value opts
         | WIFI opts => WifiOptions_into_value opts
         end].

Definition DeviceRetrievalMethod_try_from (value : Value) : result DeviceRetrievalMethod EngagementError :=
  match value with
  | Array [Integer t; second; methods] =>
      match second with
      | Integer v =>
          if (t =? 1)%Z && (v =? 1)%Z then
            let? nfc_options := NfcOptions_try_from methods in Ok (NFC nfc_options)
          else if (v =? 1)%Z && (t =? 2)%Z then
            let? ble_options := map_err (λ _, Malformed) (BleOptions_try_from methods) in
            Ok (BLE ble_options)
          else if (v =? 1)%Z && (t =? 3)%Z then
            let? wifi_options := map_err (λ _, Malformed) (WifiOptions_try_from methods) in
            Ok (WIFI wifi_options)
          else Err UnsupportedDRM
      | _ => Err UnsupportedDRM
      end
  | _ => Err Malformed
  end.

(** [Security(pub u64, pub EDeviceKeyBytes)] *)
Record Security : Type := { security_cipher : u64; e_device_key_bytes : Tag24 CoseKey }.
Record ServerRetrievalMethods : Type := {
  web_api : option (u64 * string * string);
  oidc : option (u64 * string * string);
}.
Record DeviceEngagement : Type := {
  version : string;
  security : Security;
  device_retrieval_methods : option (NonEmptyVec DeviceRetrievalMethod);
  server_retrieval_methods : option ServerRetrievalMethods;
  protocol_info : option Value;
}.
#[export] Instance Security_eq_dec : EqDecision Security. Proof. solve_decision. Defined.
#[export] Instance ServerRetrievalMethods_eq_dec : EqDecision ServerRetrievalMethods.
Proof. solve_decision. Defined.
#[export] Instance DeviceEngagement_eq_dec : EqDecision DeviceEngagement.
Proof. solve_decision. Defined.

Definition ServerRetrievalMethods_into_value (m : ServerRetrievalMethods) : Value :=
  let entry name (o : option (u64 * string * string)) :=
    match o with
    | Some (x, y, z) => [(Text name, Array [Integer x; Text y; Text z])]
    | None => []
    end in
  Map (entry "webApi"%string (web_api m) ++ entry "oidc"%string (oidc m)).

Definition Security_into_value (s : Security) : list Value :=
  [Integer (security_cipher s); Tag24_into_value (e_device_key_bytes s)].

Definition DeviceEngagement_into_value (de : DeviceEngagement) : Value :=
  Map ([(Integer 0, Text (version de));
        (Integer 1, Array (Security_into_value (security de)))] ++
       opt_entry 2 (λ methods, Array (DeviceRetrievalMethod_into_value <$> nev methods))
         (device_retrieval_methods de) ++
       opt_entry 3 ServerRetrievalMethods_into_value (server_retrieval_methods de)).

(** [cbor::from_value] at the types whose reader is derived by [serde]. *)
Class EngagementReaders := {
  security_from_value : Value → result Security CborError;
  methods_from_value : Value → result (NonEmptyVec DeviceRetrievalMethod) CborError;
  server_methods_from_value : Value → result ServerRetrievalMethods CborError;
}.

Definition transpose_opt {A E} (o : option (result A E)) : result (option A) E :=
  match o with None => Ok None | Some (Ok a) => Ok (Some a) | Some (Err e) => Err e end.

Definition DeviceEngagement_try_from `{EngagementReaders} (v : Value) :
    result DeviceEngagement EngagementError :=
  match v with
  | Map map =>
      let? map := integer_keyed_map EngagementCborError map in
      match map !! 0%Z with
      | Some (Text v) =>
          if bool_decide (v ≠ "1.0"%string) then Err UnsupportedVersion else
          let? sec := ok_or Malformed (map !! 1%Z) in
          let? sec := map_err (λ _, Malformed) (security_from_value sec) in
          let? drms := map_err (λ _, Malformed) (transpose_opt (methods_from_value <$> map !! 2%Z)) in
          let? srms := map_err (λ _, Malformed) (transpose_opt (server_methods_from_value <$> map !! 3%Z)) in
          Ok {| version := "1.0"; security := sec; device_retrieval_methods := drms;
                server_retrieval_methods := srms; protocol_info := map !! 4%Z |}
      | _ => Err Malformed
      end
  | _ => Err InvalidDeviceEngagement
  end.

#[export] Instance DeviceEngagement_value `{EngagementReaders} : ValueConv DeviceEngagement EngagementError := {|
  into_value := DeviceEngagement_into_value;
  try_from_value := DeviceEngagement_try_from;
|}.

(** ** The QR code *)

(** URL-safe unpadded [base64]. *)
Class Base64 := {
  base64_encode : bytes → string;
  base64_decode : string → option bytes;
}.
Class Base64Laws `{Base64} : Prop := {
  base64_decode_encode b : Forall is_byte b → base64_decode (base64_encode b) = Some b;
}.

Fixpoint strip_prefix (p s : string) : option string :=
  match p, s with
  | EmptyString, _ => Some s
  | String a p', String b s' => if Ascii.eqb a b then strip_prefix p' s' else None
  | _, EmptyString => None
  end.

Definition to_qr_code_uri `{Base64} (t : Tag24 DeviceEngagement) : string :=
  ("mdoc:" +:+ base64_encode (inner_bytes t))%string.

Inductive QrError : Type := InvalidPrefix | InvalidBase64 | InvalidEngagement (e : Tag24Error).
Definition from_qr_code_uri `{Base64, Serde DeviceEngagement} (qr_code_uri : string) :
    result (Tag24 DeviceEngagement) QrError :=
  let? encoded_de := ok_or InvalidPrefix (strip_prefix "mdoc:" qr_code_uri) in
  let? decoded_de := ok_or InvalidBase64 (base64_decode encoded_de) in
  map_err InvalidEngagement (Tag24_from_bytes decoded_de).

(** ** Well-formed options: what the Rust types guarantee *)

Definition NfcOptions_wf (o : NfcOptions) : Prop :=
  (255 ≤ cdl_get (max_len_command_data_field o) ≤ u16_max)%Z ∧
  (256 ≤ rdl_get (max_len_response_data_field o) ≤ u32_max)%Z.
Definition opt_all {A} (P : A → Prop) (o : option A) : Prop :=
  match o with Some x => P x | None => True end.
Definition is_u64 (n : Z) : Prop := (0 ≤ n ≤ u64_max)%Z.
Definition WifiOptions_wf (o : WifiOptions) : Prop :=
  opt_all is_u64 (channel_info_operating_class o) ∧ opt_all is_u64 (channel_info_channel_number o).
Definition BleOptions_wf (o : BleOptions) : Prop :=
  opt_all (λ c, length (ccm_uuid c) = 16) (central_client_mode o) ∧
  opt_all (λ p, length (psm_uuid p) = 16) (peripheral_server_mode o).
Definition DeviceRetrievalMethod_wf (drm : DeviceRetrievalMethod) : Prop :=
  match drm with WIFI o => WifiOptions_wf o | BLE o => BleOptions_wf o | NFC o => NfcOptions_wf o end.

Lemma to_unsigned_Some max v : (0 ≤ v ≤ max)%Z → to_unsigned max v = Some v.
Proof.
  intros [H1 H2]. unfold to_unsigned. apply Z.leb_le in H1, H2. by rewrite H1, H2.
Qed.
Lemma to_unsigned_inv max v w : to_unsigned max v = Some w → w = v ∧ (0 ≤ v ≤ max)%Z.
Proof.
  unfold to_unsigned. destruct (_ && _) eqn:E; [|done]. intros [= <-]. bool_to_prop. by split.
Qed.

Lemma to_unsigned_None max v : ¬ (0 ≤ v ≤ max)%Z → to_unsigned max v = None.
Proof.
  intros Hv. unfold to_unsigned. destruct (_ && _) eqn:E; [|done]. bool_to_prop. by destruct Hv.
Qed.

(** What the NFC reader does with a two-entry map, error by error. *)
Lemma NfcOptions_try_from_map c r :
  NfcOptions_try_from (Map [(Integer 0, Integer c); (Integer 1, Integer r)]) =
  if decide (0 ≤ c ≤ u16_max)%Z then
    if decide (255 ≤ c)%Z then
      if decide (0 ≤ r ≤ u32_max)%Z then
        if decide (256 ≤ r)%Z then
          Ok {| max_len_command_data_field := {| cdl_get := c |};
                max_len_response_data_field := {| rdl_get := r |} |}
        else Err InvalidNfcResponseDataLengthError
      else Err EngagementCborError
    else Err InvalidNfcCommandDataLengthError
  else Err EngagementCborError.
Proof.
  unfold NfcOptions_try_from. set (m := integer_keyed_map _ _).
  assert (∃ m', m = Ok m' ∧ m' !! 0%Z = Some (Integer c) ∧ delete 0%Z m' !! 1%Z = Some (Integer r))
    as (m' & -> & H0 & H1) by (eexists; split_and!; reflexivity).
  cbn [rbind]. rewrite H0, H1. cbn [ok_or rbind value_to_unsigned].
  destruct (decide (0 ≤ c ≤ u16_max)%Z);
    [rewrite (to_unsigned_Some _ c) by done|by rewrite (to_unsigned_None _ c)].
  cbn [ok_or rbind cdl_get CDL_MIN max_len_command_data_field].
  destruct (Z.ltb_spec c 255); [by rewrite decide_False by lia|rewrite decide_True by lia].
  cbn [rbind]. destruct (decide (0 ≤ r ≤ u32_max)%Z);
    [rewrite (to_unsigned_Some _ r) by done|by rewrite (to_unsigned_None _ r)].
  cbn [ok_or rbind rdl_get RDL_MIN max_len_command_data_field].
  destruct (Z.ltb_spec r 256); [by rewrite decide_False by lia|by rewrite decide_True by lia].
Qed.

(** The constructors of the NFC lengths enforce the standard's intervals,
      255..=65535 for commands and 256..=65536 for responses, whereas the reader of
      NFC options lets through every response length from 256 up to the largest
      [u32]. *)
Theorem nfc_length_bounds v c r :
  (is_Some (CommandDataLength_new v) ↔ (255 ≤ v ≤ 65535)%Z) ∧
  (is_Some (ResponseDataLength_new v) ↔ (256 ≤ v ≤ 65536)%Z) ∧
  (is_ok (NfcOptions_try_from (Map [(Integer 0, Integer c); (Integer 1, Integer r)])) = true ↔
   (255 ≤ c ≤ 65535)%Z ∧ (256 ≤ r ≤ 2 ^ 32 - 1)%Z).
Proof.
  assert (∀ (a b : Z) A (x : A), is_Some (if (a <=? v)%Z && (v <=? b)%Z then Some x else None) ↔ (a ≤ v ≤ b)%Z) as Hb.
  { intros. destruct (_ && _) eqn:E; bool_to_prop; [by split; [intros _|eexists]|].
    split; [by intros [? ?]|]. destruct E; bool_to_prop; lia. }
  split_and!; [apply Hb|apply Hb|]. rewrite NfcOptions_try_from_map. unfold u16_max, u32_max.
  repeat case_decide; cbn [is_ok]; split; try done; lia.
Qed.

Lemma NfcOptions_roundtrip o : NfcOptions_wf o → NfcOptions_try_from (NfcOptions_into_value o) = Ok o.
Proof.
  destruct o as [[c] [r]]. unfold NfcOptions_wf, NfcOptions_into_value.
  cbn [max_len_command_data_field cdl_get rdl_get max_len_response_data_field].
  intros [Hc Hr]. rewrite NfcOptions_try_from_map. by rewrite !decide_True by lia.
Qed.

Lemma uuid_from_ok u : length u = 16 → uuid_from u = Ok u.
Proof. intros. unfold uuid_from. by rewrite bool_decide_true. Qed.

Lemma BleOptions_roundtrip o : BleOptions_wf o → BleOptions_try_from (BleOptions_into_value o) = Ok o.
Proof.
  destruct o as [[[pu [[a]|]]|] [[cu]|]]; intros [Hc Hp]; cbn [opt_all ccm_uuid psm_uuid central_client_mode peripheral_server_mode] in Hc, Hp;
    cbv -[uuid_from]; by rewrite ?(uuid_from_ok _ Hc), ?(uuid_from_ok _ Hp).
Qed.

Lemma WifiOptions_roundtrip o : WifiOptions_wf o → WifiOptions_try_from (WifiOptions_into_value o) = Ok o.
Proof.
  destruct o as [[p|] [c|] [n|] [[b]|]]; intros [Hc Hn]; cbn [opt_all channel_info_operating_class channel_info_channel_number] in Hc, Hn;
    cbv -[to_unsigned u64_max];
    rewrite ?(to_unsigned_Some u64_max c), ?(to_unsigned_Some u64_max n) by done; reflexivity.
Qed.

Lemma DeviceRetrievalMethod_reads m :
  DeviceRetrievalMethod_wf m →
  DeviceRetrievalMethod_try_from (DeviceRetrievalMethod_into_value m) = Ok m.
Proof.
  destruct m as [o|o|o]; intros Hwf; unfold DeviceRetrievalMethod_into_value;
    cbn [DeviceRetrievalMethod_try_from transport_type drm_version Z.eqb Pos.eqb andb].
  - by rewrite WifiOptions_roundtrip.
  - by rewrite BleOptions_roundtrip.
  - by rewrite NfcOptions_roundtrip.
Qed.

(** Every device retrieval method (BLE, Wi-Fi Aware, NFC) reads back from
      its CBOR form unchanged. *)
Theorem DeviceRetrievalMethod_roundtrip drm :
  DeviceRetrievalMethod_wf drm →
  DeviceRetrievalMethod_try_from (DeviceRetrievalMethod_into_value drm) = Ok drm.
Proof. apply DeviceRetrievalMethod_reads. Qed.

Lemma DeviceRetrievalMethod_roundtrip_witness :
  let o := {| peripheral_server_mode := Some {| psm_uuid := replicate 16 1%Z; ble_device_address := None |};
              central_client_mode := None |} in
  DeviceRetrievalMethod_try_from (DeviceRetrievalMethod_into_value (BLE o)) = Ok (BLE o).
Proof. intros o. apply (DeviceRetrievalMethod_roundtrip (BLE o)). by split. Defined.

(** ** The device engagement *)

(** What [serde] documents of the derived readers: they read what was written. *)
Class EngagementReadersLaws `{Serde CoseKey, EngagementReaders} : Prop := {
  security_read s : is_u64 (security_cipher s) → Tag24_wf (e_device_key_bytes s) →
    security_from_value (Array (Security_into_value s)) = Ok s;
  methods_read ms : NonEmptyVec_wf ms →
    Forall (λ m, DeviceRetrievalMethod_try_from (DeviceRetrievalMethod_into_value m) = Ok m) (nev ms) →
    methods_from_value (Array (DeviceRetrievalMethod_into_value <$> nev ms)) = Ok ms;
  server_methods_read m :
    opt_all (λ t, is_u64 t.1.1) (web_api m) → opt_all (λ t, is_u64 t.1.1) (oidc m) →
    server_methods_from_value (ServerRetrievalMethods_into_value m) = Ok m;
}.

Section device_engagement.
Context `{EngagementReadersLaws}.

Definition DeviceEngagement_wf (de : DeviceEngagement) : Prop :=
  version de = "1.0"%string ∧
  is_u64 (security_cipher (security de)) ∧ Tag24_wf (e_device_key_bytes (security de)) ∧
  opt_all (λ ms, NonEmptyVec_wf ms ∧ Forall DeviceRetrievalMethod_wf (nev ms)) (device_retrieval_methods de) ∧
  opt_all (λ m, opt_all (λ t, is_u64 t.1.1) (web_api m) ∧ opt_all (λ t, is_u64 t.1.1) (oidc m))
    (server_retrieval_methods de).

Definition without_protocol_info (de : DeviceEngagement) : DeviceEngagement := {|
  version := version de; security := security de;
  device_retrieval_methods := device_retrieval_methods de;
  server_retrieval_methods := server_retrieval_methods de;
  protocol_info := None;
|}.

Lemma DeviceEngagement_reads de :
  DeviceEngagement_wf de →
  DeviceEngagement_try_from (DeviceEngagement_into_value de) = Ok (without_protocol_info de).
Proof.
  intros (Hv & Hu & Ht & Hm & Hs). destruct de as [v sec ms srv info].
  cbn [version security device_retrieval_methods server_retrieval_methods] in *. subst v.
  unfold DeviceEngagement_try_from, DeviceEngagement_into_value.
  cbn [version security device_retrieval_methods server_retrieval_methods].
  set (m := integer_keyed_map _ _).
  assert (∃ m', m = Ok m' ∧ m' !! 0%Z = Some (Text "1.0") ∧
            m' !! 1%Z = Some (Array (Security_into_value sec)) ∧
            m' !! 2%Z = (λ ms, Array (DeviceRetrievalMethod_into_value <$> nev ms)) <$> ms ∧
            m' !! 3%Z = ServerRetrievalMethods_into_value <$> srv ∧ m' !! 4%Z = None)
    as (m' & -> & H0' & H1' & H2' & H3' & H4').
  { destruct ms, srv; eexists; split_and!; reflexivity. }
  cbn [rbind]. rewrite H0', H1', H2', H3', H4'. rewrite bool_decide_false by (intros Hne; by apply Hne).
  cbn [ok_or rbind]. rewrite security_read by done. cbn [map_err rbind].
  assert (map_err (λ _, Malformed) (transpose_opt (methods_from_value <$>
    ((λ ms, Array (DeviceRetrievalMethod_into_value <$> nev ms)) <$> ms))) = Ok ms) as ->.
  { destruct ms as [ms|]; [|done]. destruct Hm as [Hne Hall]. cbn. rewrite methods_read; [done|done|].
    eapply Forall_impl; [exact Hall|]. apply DeviceRetrievalMethod_reads. }
  cbn [rbind].
  assert (map_err (λ _, Malformed) (transpose_opt (server_methods_from_value <$>
    (ServerRetrievalMethods_into_value <$> srv))) = Ok srv) as ->.
  { destruct srv as [m1|]; [|done]. destruct Hs. cbn [fmap option_fmap option_map]. by rewrite server_methods_read. }
  done.
Qed.

(** C32: A version 1.0 device engagement with well-formed options reads back from
      its CBOR form, except that its [protocol_info] is dropped when it is written. *)
Theorem DeviceEngagement_roundtrip de :
  DeviceEngagement_wf de →
  DeviceEngagement_try_from (DeviceEngagement_into_value de) = Ok (without_protocol_info de).
Proof. apply DeviceEngagement_reads. Qed.

(** A device engagement map that names another version is refused, whatever
      else it holds, and no accepted engagement has another version. *)
Theorem DeviceEngagement_version v de :
  DeviceEngagement_try_from v = Ok de →
  version de = "1.0"%string ∧
  ∃ entries m, v = Map entries ∧ integer_keyed_map EngagementCborError entries = Ok m ∧
    m !! 0%Z = Some (Text "1.0") ∧ protocol_info de = m !! 4%Z.
Proof.
  destruct v as [| | | | | | | |entries]; try done. cbn [DeviceEngagement_try_from].
  destruct (integer_keyed_map _ entries) as [m|] eqn:Hm; [|done]. cbn [rbind].
  destruct (m !! 0%Z) as [[| | |s| | | | |]|] eqn:H0'; try done.
  case_bool_decide as Hs; [done|]. subst s. intros Hd. inv_result.
  split; [done|]. by exists entries, m.
Qed.
End device_engagement.

Lemma strip_prefix_app p s : strip_prefix p (p +:+ s)%string = Some s.
Proof. induction p as [|a p IH]; [done|].
  change ((String a p +:+ s)%string) with (String a (p +:+ s)). cbn [strip_prefix].
  by rewrite Ascii.eqb_refl.
Qed.

Lemma qr_code_reads `{Base64Laws, Serde DeviceEngagement} (t : Tag24 DeviceEngagement) :
  Tag24_wf t → Forall is_byte (inner_bytes t) → from_qr_code_uri (to_qr_code_uri t) = Ok t.
Proof.
  intros Hwf Hb. unfold from_qr_code_uri, to_qr_code_uri. rewrite strip_prefix_app.
  cbn [ok_or rbind]. rewrite base64_decode_encode by done. cbn [ok_or rbind].
  unfold Tag24_from_bytes. rewrite Hwf. by destruct t.
Qed.

(** A QR code URI gives back the engagement bytes it was made from, with the
      engagement they decode to. *)
Theorem qr_code_roundtrip `{Base64Laws, Serde DeviceEngagement} (t : Tag24 DeviceEngagement) :
  Tag24_wf t → Forall is_byte (inner_bytes t) → from_qr_code_uri (to_qr_code_uri t) = Ok t.
Proof. apply qr_code_reads. Qed.

(** ** Witnesses: concrete readers *)

Definition read_entry (v : Value) : option (u64 * string * string) :=
  match v with Array [Integer x; Text y; Text z] => Some (x, y, z) | _ => None end.
Definition find_entry (name : string) (l : list (Value * Value)) : option (u64 * string * string) :=
  kv ← list_find (λ kv, kv.1 = Text name) l; read_entry kv.2.2.

Definition direct_readers `{Serde CoseKey} : EngagementReaders := {|
  security_from_value v :=
    match v with
    | Array [Integer n; t] =>
        match Tag24_try_from t with Ok t => Ok {| security_cipher := n; e_device_key_bytes := t |}
        | Err _ => Err DecodeFailed end
    | _ => Err DecodeFailed end;
  methods_from_value v :=
    match v with
    | Array vs => let? ms := map_err (λ _, DecodeFailed) (try_map DeviceRetrievalMethod_try_from vs) in
                  map_err (λ _, DecodeFailed) (NonEmptyVec_try_from ms)
    | _ => Err DecodeFailed end;
  server_methods_from_value v :=
    match v with
    | Map l => Ok {| web_api := find_entry "webApi" l; oidc := find_entry "oidc" l |}
    | _ => Err DecodeFailed end;
|}.

Lemma direct_readers_laws `{Serde CoseKey} : EngagementReadersLaws (H0 := direct_readers).
Proof.
  split.
  - intros [n t] _ Hwf. cbn [security_cipher e_device_key_bytes] in *.
    cbn [security_from_value direct_readers Security_into_value security_cipher e_device_key_bytes].
    by rewrite Tag24_into_value_try_from.
  - intros [ms] Hne Hall. cbn [nev methods_from_value direct_readers] in *.
    assert (try_map DeviceRetrievalMethod_try_from (DeviceRetrievalMethod_into_value <$> ms) = Ok ms) as ->.
    { apply try_map_Ok, Forall2_fmap_l. by apply Forall_Forall2_diag. }
    by destruct ms.
  - by intros [[[[? ?] ?]|] [[[? ?] ?]|]] _ _.
Qed.

#[local] Instance cose_key_raw : Serde CoseKey := @serde_via_value CoseKey CoseKeyError _ raw_serde.
#[local] Existing Instance direct_readers.

Definition example_engagement : DeviceEngagement := {|
  version := "1.0";
  security := {| security_cipher := 1;
                 e_device_key_bytes := {| inner := OKP X25519 [9%Z];
                   inner_bytes := raw_encode (CoseKey_into_value (OKP X25519 [9%Z])) |} |};
  device_retrieval_methods := Some {| nev := [NFC NfcOptions_default] |};
  server_retrieval_methods := Some {| web_api := Some (1%Z, "url", "token")%string; oidc := None |};
  protocol_info := Some Null;
|}.

Lemma example_engagement_wf : DeviceEngagement_wf example_engagement.
Proof.
  split_and!; try done. split; [done|]. constructor; [|constructor]. by vm_compute.
Qed.

Lemma DeviceEngagement_roundtrip_witness :
  DeviceEngagement_try_from (DeviceEngagement_into_value example_engagement) =
  Ok (without_protocol_info example_engagement).
Proof.
  exact (@DeviceEngagement_roundtrip _ _ (direct_readers_laws (H := cose_key_raw)) _ example_engagement_wf).
Defined.

Lemma DeviceEngagement_version_witness :
  ∃ de, DeviceEngagement_try_from (DeviceEngagement_into_value example_engagement) = Ok de ∧
        version de = "1.0"%string.
Proof.
  exists (without_protocol_info example_engagement). split; [reflexivity|].
  eapply (DeviceEngagement_version (DeviceEngagement_into_value example_engagement)). reflexivity.
Defined.

(** A one-character-per-byte stand-in for [base64]. *)
#[local] Instance latin1_base64 : Base64 := {|
  base64_encode := decode_string;
  base64_decode s := Some (encode_string s);
|}.
#[local] Instance latin1_base64_laws : Base64Laws.
Proof. split. intros b Hb. change (Some (encode_string (decode_string b)) = Some b). by rewrite encode_decode_string. Qed.

Lemma qr_code_roundtrip_witness :
  let k := OKP X25519 [9%Z] in
  let e := {| version := "1.0"; device_retrieval_methods := None; server_retrieval_methods := None;
              security := {| security_cipher := 1; e_device_key_bytes := {| inner := k; inner_bytes := [6]%Z |} |};
              protocol_info := None |} in
  let serde := {| to_vec _ := Ok [1; 2]%Z; from_slice _ := Ok e |} in
  let t := {| inner := e; inner_bytes := [1; 2]%Z |} in
  from_qr_code_uri (H0 := serde) (to_qr_code_uri t) = Ok t.
Proof.
  intros k e serde t. apply (qr_code_roundtrip (H1 := serde) t); [reflexivity|].
  repeat (constructor; [done|]). constructor.
Defined.
