(* ===== verification/Session.v ===== *)
(** * Session establishment and encryption ([src/definitions/session.rs])

    Session messages and status codes, the AES-256-GCM buffers, the per-direction
    message counters and initialization vectors, key agreement and session key
    derivation.  The AEAD and elliptic curve crates are interfaces. *)

From S2P Require Export Engagement SessionCrypto.

(** ** Messages *)

Inductive Status : Type := SessionEncryptionError | CborDecodingError | SessionTermination.
#[export] Instance Status_eq_dec : EqDecision Status. Proof. solve_decision. Defined.

Definition Status_into_u64 (s : Status) : u64 :=
  match s with
  | SessionEncryptionError => 10
  | CborDecodingError => 11
  | SessionTermination => 20
  end.
Definition Status_try_from (n : u64) : result Status unit :=
  match n with
  | 10 => Ok SessionEncryptionError
  | 11 => Ok CborDecodingError
  | 20 => Ok SessionTermination
  | _ => Err tt
  end%Z.

Record SessionEstablishment : Type := { e_reader_key : Tag24 CoseKey; se_data : ByteStr }.
Record SessionData : Type := { sd_data : option ByteStr; sd_status : option Status }.

Inductive Handover : Type :=
  | QR
  | NFCHandover (select : ByteStr) (request : option ByteStr)
  | OID4VP (s1 s2 : string).

(** [SessionTranscript180135(DeviceEngagementBytes, Tag24<EReaderKey>, Handover)] *)
Record SessionTranscript180135 : Type := {
  st_engagement : Tag24 DeviceEngagement;
  st_reader_key : Tag24 CoseKey;
  st_handover : Handover;
}.

(** ** AEAD buffers *)

(** The AES-256-GCM keys of [aws_lc_rs].  The operations work in place: they
    return their outcome with the buffer they leave, also when they fail; sealing grows
    a vector, and leaves it with its contents and its spare capacity. *)
Class AeadBackend := {
  LessSafeKey : Type;
  UnboundKey_new : bytes → result LessSafeKey unit;
  seal_in_place_append_tag : LessSafeKey → bytes → bytes → result unit unit * (bytes * bytes);
  open_in_place : LessSafeKey → bytes → bytes → result usize unit * bytes;
}.

(** What decryption promises: a sealed buffer opens to the plaintext. *)
Class AeadBackendLaws `{AeadBackend} : Prop := {
  open_seal k nonce p c spare :
    seal_in_place_append_tag k nonce p = (Ok tt, (c, spare)) →
    ∃ len buf, open_in_place k nonce c = (Ok len, buf) ∧ take len buf = p;
}.

(** The initialized bytes of a [Vec], and what the memory of its spare capacity holds. *)
Record SensitiveAeadBuffer : Type := { sab_bytes : bytes; sab_spare : bytes }.
Definition capacity (s : SensitiveAeadBuffer) : nat := length (sab_bytes s) + length (sab_spare s).

(** [to_vec] allocates no more than it copies. *)
Definition copied_from (b : bytes) : SensitiveAeadBuffer := {| sab_bytes := b; sab_spare := [] |}.
(** [std::mem::take]: the caller gets the vector, an empty one stays behind. *)
Definition into_vec (s : SensitiveAeadBuffer) : bytes * SensitiveAeadBuffer :=
  (sab_bytes s, {| sab_bytes := []; sab_spare := [] |}).

(** [Vec::resize] within the capacity, [fill], and [zeroize], which clears the vector and
    overwrites the spare capacity too. *)
Definition vec_resize (new_len : nat) (value : Z) (s : SensitiveAeadBuffer) : SensitiveAeadBuffer := {|
  sab_bytes := take new_len (sab_bytes s) ++ replicate (new_len - length (sab_bytes s)) value;
  sab_spare := drop new_len (sab_bytes s) ++ drop (new_len - length (sab_bytes s)) (sab_spare s);
|}.
Definition vec_fill (value : Z) (s : SensitiveAeadBuffer) : SensitiveAeadBuffer := {|
  sab_bytes := replicate (length (sab_bytes s)) value;
  sab_spare := sab_spare s;
|}.
Definition vec_zeroize (s : SensitiveAeadBuffer) : SensitiveAeadBuffer := {|
  sab_bytes := [];
  sab_spare := zeroize (sab_bytes s ++ sab_spare s);
|}.
Definition drop_buffer (s : SensitiveAeadBuffer) : SensitiveAeadBuffer :=
  vec_zeroize (vec_fill 0 (vec_resize (capacity s) 0 s)).

(** How an operation ends early: with an error, or unwinding from a panic. *)
Inductive AeadFailure : Type := AeadError | Unwinding.

Section aead.
Context `{AeadBackend}.

Record NativeSessionAeadKey : Type := { native_key : LessSafeKey }.

Definition NativeSessionAeadKey_new (key_bytes : bytes) : result NativeSessionAeadKey unit :=
  let? key := UnboundKey_new key_bytes in Ok {| native_key := key |}.

(** The outcome, and the memory of the buffer as it is when it is released: at the end of
    the scope, by an early return or by unwinding from a panic of the closure. *)
Definition seal_with_post_copy (k : NativeSessionAeadKey) (nonce plaintext : bytes)
    (post_copy : bytes → result unit AeadFailure * bytes) : result bytes AeadFailure * SensitiveAeadBuffer :=
  let output := copied_from plaintext in
  let '(r, b) := post_copy (sab_bytes output) in
  let output := {| sab_bytes := b; sab_spare := sab_spare output |} in
  match r with
  | Err e => (Err e, drop_buffer output)
  | Ok _ =>
      let '(r, (b, spare)) := seal_in_place_append_tag (native_key k) nonce (sab_bytes output) in
      let output := {| sab_bytes := b; sab_spare := spare |} in
      match r with
      | Err _ => (Err AeadError, drop_buffer output)
      | Ok _ => let '(v, rest) := into_vec output in (Ok v, drop_buffer rest)
      end
  end.

Definition seal (k : NativeSessionAeadKey) (nonce plaintext : bytes) :
    result bytes AeadFailure * SensitiveAeadBuffer :=
  seal_with_post_copy k nonce plaintext (λ b, (Ok tt, b)).

Definition open (k : NativeSessionAeadKey) (nonce ciphertext : bytes) :
    result bytes AeadFailure * SensitiveAeadBuffer :=
  let output := copied_from ciphertext in
  let '(r, b) := open_in_place (native_key k) nonce (sab_bytes output) in
  let output := {| sab_bytes := b; sab_spare := sab_spare output |} in
  match r with
  | Err _ => (Err AeadError, drop_buffer output)
  | Ok plaintext_len =>
      let output := {| sab_bytes := take plaintext_len b;
                       sab_spare := drop plaintext_len b ++ sab_spare output |} in
      let '(v, rest) := into_vec output in (Ok v, drop_buffer rest)
  end.

(** The closure of [seal] does not panic. *)
Definition encrypt_with_backend (session_key nonce plaintext : bytes) : result bytes unit :=
  let? k := NativeSessionAeadKey_new session_key in map_err (λ _, tt) (seal k nonce plaintext).1.
Definition decrypt_with_backend (session_key nonce ciphertext : bytes) : result bytes unit :=
  let? k := NativeSessionAeadKey_new session_key in map_err (λ _, tt) (open k nonce ciphertext).1.
End aead.

(** *** The WebAssembly build *)

(** The AES-256-GCM of the [aes_gcm] crate, whose keys need no preparation that
    may fail.  The operations work in place: they return their outcome with the
    contents and the spare capacity of the vector they leave. *)
Class WasmAead := {
  Aes256Gcm : Type;
  Aes256Gcm_new : bytes → Aes256Gcm;
  encrypt_in_place : Aes256Gcm → bytes → bytes → result unit unit * (bytes * bytes);
  decrypt_in_place : Aes256Gcm → bytes → bytes → result unit unit * (bytes * bytes);
}.

Section wasm.
Context `{WasmAead}.

Record WasmSessionAeadKey : Type := { wasm_key : Aes256Gcm }.

Definition WasmSessionAeadKey_new (key_bytes : bytes) : WasmSessionAeadKey :=
  {| wasm_key := Aes256Gcm_new key_bytes |}.

Definition wasm_seal_with_post_copy (k : WasmSessionAeadKey) (nonce plaintext : bytes)
    (post_copy : bytes → result unit AeadFailure * bytes) : result bytes AeadFailure * SensitiveAeadBuffer :=
  let output := copied_from plaintext in
  let '(r, b) := post_copy (sab_bytes output) in
  let output := {| sab_bytes := b; sab_spare := sab_spare output |} in
  match r with
  | Err e => (Err e, drop_buffer output)
  | Ok _ =>
      let '(r, (b, spare)) := encrypt_in_place (wasm_key k) nonce (sab_bytes output) in
      let output := {| sab_bytes := b; sab_spare := spare |} in
      match r with
      | Err _ => (Err AeadError, drop_buffer output)
      | Ok _ => let '(v, rest) := into_vec output in (Ok v, drop_buffer rest)
      end
  end.
Definition wasm_seal (k : WasmSessionAeadKey) (nonce plaintext : bytes) : result bytes AeadFailure * SensitiveAeadBuffer :=
  wasm_seal_with_post_copy k nonce plaintext (λ b, (Ok tt, b)).
Definition wasm_open (k : WasmSessionAeadKey) (nonce ciphertext : bytes) : result bytes AeadFailure * SensitiveAeadBuffer :=
  let output := copied_from ciphertext in
  let '(r, (b, spare)) := decrypt_in_place (wasm_key k) nonce (sab_bytes output) in
  let output := {| sab_bytes := b; sab_spare := spare |} in
  match r with
  | Err _ => (Err AeadError, drop_buffer output)
  | Ok _ => let '(v, rest) := into_vec output in (Ok v, drop_buffer rest)
  end.

Definition wasm_encrypt_with_backend (session_key nonce plaintext : bytes) : result bytes unit :=
  map_err (λ _, tt) (wasm_seal (WasmSessionAeadKey_new session_key) nonce plaintext).1.
Definition wasm_decrypt_with_backend (session_key nonce ciphertext : bytes) : result bytes unit :=
  map_err (λ _, tt) (wasm_open (WasmSessionAeadKey_new session_key) nonce ciphertext).1.
End wasm.

(** ** Message counters *)

(** Operations on [message_count: &mut u32] return its final value first. *)
Definition get_initialization_vector (message_count : u32) (reader : bool) : u32 * result bytes unit :=
  match checked_add u32_max message_count 1 with
  | None => (message_count, Err tt)
  | Some message_count =>
      let counter := to_be_bytes 4 message_count in
      let identifier := if reader then [0; 0; 0; 0; 0; 0; 0; 0]%Z else [0; 0; 0; 0; 0; 0; 0; 1]%Z in
      (message_count, Ok (identifier ++ counter))
  end.

Section encryption.
Context `{AeadBackend}.

Definition encrypt (session_key plaintext : bytes) (message_count : u32) (reader : bool) :
    u32 * result bytes unit :=
  let previous_message_count := message_count in
  match get_initialization_vector message_count reader with
  | (message_count, Err e) => (message_count, Err e)
  | (message_count, Ok initialization_vector) =>
      match encrypt_with_backend session_key initialization_vector plaintext with
      | Ok ciphertext => (message_count, Ok ciphertext)
      | Err error => (previous_message_count, Err error)
      end
  end.

Definition decrypt (session_key ciphertext : bytes) (message_count : u32) (reader : bool) :
    u32 * result bytes unit :=
  let previous_message_count := message_count in
  match get_initialization_vector message_count reader with
  | (message_count, Err e) => (message_count, Err e)
  | (message_count, Ok initialization_vector) =>
      match decrypt_with_backend session_key initialization_vector ciphertext with
      | Ok plaintext => (message_count, Ok plaintext)
      | Err error => (previous_message_count, Err error)
      end
  end.

Definition encrypt_device_data sk_device plaintext message_count :=
  encrypt sk_device plaintext message_count false.
Definition encrypt_reader_data sk_reader plaintext message_count :=
  encrypt sk_reader plaintext message_count true.
Definition decrypt_device_data sk_device ciphertext message_count :=
  decrypt sk_device ciphertext message_count false.
Definition decrypt_reader_data sk_reader ciphertext message_count :=
  decrypt sk_reader ciphertext message_count true.
End encryption.

(** ** Key agreement *)

(** P-256 keys and Diffie-Hellman of the [p256] crate.  [sec1_point] is the
    coordinates of the uncompressed point of a public key. *)
Class Ecdh `{Sec1} := {
  SecretKey : Type;
  PublicKey : Type;
  public_key : SecretKey → PublicKey;
  sec1_point : PublicKey → option bytes * option bytes;
  from_sec1_point : EncodedPoint → option PublicKey;
  diffie_hellman : SecretKey → PublicKey → bytes;
}.
Class EcdhLaws `{Ecdh} : Prop := {
  diffie_hellman_comm a b : diffie_hellman a (public_key b) = diffie_hellman b (public_key a);
  diffie_hellman_length a p : length (diffie_hellman a p) = 32;
  sec1_point_read p x y : sec1_point p = (Some x, Some y) →
    length x = 32 ∧ length y = 32 ∧
    ∃ e, EncodedPoint_from_bytes (4%Z :: x ++ y) = Ok e ∧ from_sec1_point e = Some p;
}.

Inductive SessionError : Type :=
  | SessionUnsupportedCurve | SharedSecretError | SessionKeyError | EphemeralKeyError.
Inductive SharedSecretFailure : Type := BadCoseKey (e : CoseKeyError) | BadPoint.
Inductive DeriveError : Type := TranscriptEncoding (e : CborError) | ExpandFailed.

Section key_agreement.
Context `{Ecdh}.

(** [private_key] is what [SecretKey::generate] returned. *)
Definition create_p256_ephemeral_keys (private_key : SecretKey) :
    result (SecretKey * CoseKey) SessionError :=
  let encoded_point := sec1_point (public_key private_key) in
  let? x_coordinate := ok_or EphemeralKeyError encoded_point.1 in
  let? y_coordinate := ok_or EphemeralKeyError encoded_point.2 in
  let? crv := map_err (λ _, EphemeralKeyError) (EC2Curve_try_from 1) in
  Ok (private_key, EC2 crv x_coordinate (EC2Y_Value y_coordinate)).

Definition get_shared_secret (cose_key : CoseKey) (e_device_key_priv : SecretKey) :
    result bytes SharedSecretFailure :=
  let? encoded_point := map_err BadCoseKey (EncodedPoint_try_from cose_key) in
  let? public_key := ok_or BadPoint (from_sec1_point encoded_point) in
  Ok (diffie_hellman e_device_key_priv public_key).
End key_agreement.

(** [b"SKReader"] and [b"SKDevice"] *)
Definition session_info (reader : bool) : bytes :=
  encode_string (if reader then "SKReader" else "SKDevice").

Section derivation.
Context {T : Type} `{Serde T, Serde Value, Sha256Compress}.

(** [None] is an [expect] panic of the hasher. *)
Definition derive_session_key (shared_secret : bytes) (session_transcript : Tag24 T) (reader : bool) :
    option (result bytes DeriveError) :=
  match to_vec session_transcript with
  | Err e => Some (Err (TranscriptEncoding e))
  | Ok transcript =>
      h ← update new transcript;
      salt ← finish h;
      let okm := replicate 32 0%Z in
      let info := session_info reader in
      '(r, okm, _) ← hkdf_sha256_32_with_scratch shared_secret salt info okm HkdfScratch_default (Ok tt);
      Some (let? _ := map_err (λ _, ExpandFailed) r in Ok okm)
  end.
End derivation.

(** ** Properties of the counters and initialization vectors *)

Definition is_u32 (n : Z) : Prop := (0 ≤ n ≤ u32_max)%Z.

Lemma get_iv_spec c reader :
  get_initialization_vector c reader =
  if decide (c + 1 ≤ u32_max)%Z
  then ((c + 1)%Z, Ok ((if reader then [0; 0; 0; 0; 0; 0; 0; 0]%Z else [0; 0; 0; 0; 0; 0; 0; 1]%Z)
                        ++ to_be_bytes 4 (c + 1)))
  else (c, Err tt).
Proof.
  unfold get_initialization_vector, checked_add. case_decide.
  - by rewrite bool_decide_true.
  - by rewrite bool_decide_false.
Qed.

Lemma get_iv_inj c1 c2 r1 r2 n1 n2 iv :
  is_u32 c1 → is_u32 c2 →
  get_initialization_vector c1 r1 = (n1, Ok iv) → get_initialization_vector c2 r2 = (n2, Ok iv) →
  c1 = c2 ∧ r1 = r2.
Proof.
  unfold is_u32, u32_max. rewrite !get_iv_spec. unfold u32_max. intros Hc1 Hc2 H1 H2.
  case_decide; [|done]. case_decide; [|done]. injection H1 as <- <-. injection H2 as <- Hiv.
  apply app_inj_1 in Hiv as [Hid Hb]; [|by destruct r1, r2].
  apply to_be_bytes_inj in Hb; [|lia..]. split; [lia|]. by destruct r1, r2.
Qed.

(** Two initialization vectors are equal only when they come from the same
      counter value and the same direction, so a device message and a reader
      message never share one. *)
Theorem initialization_vector_injective c1 c2 r1 r2 n1 n2 iv :
  is_u32 c1 → is_u32 c2 →
  get_initialization_vector c1 r1 = (n1, Ok iv) → get_initialization_vector c2 r2 = (n2, Ok iv) →
  c1 = c2 ∧ r1 = r2.
Proof. apply get_iv_inj. Qed.

Lemma initialization_vector_injective_witness :
  let iv := [0; 0; 0; 0; 0; 0; 0; 1; 0; 0; 0; 8]%Z in
  get_initialization_vector 7 false = (8%Z, Ok iv) ∧ (7 = 7 ∧ false = false)%Z.
Proof.
  intros iv. split; [reflexivity|].
  apply (initialization_vector_injective 7 7 false false 8 8 iv); done.
Defined.

Section counters.
Context `{AeadBackend}.

(** Encryption and decryption advance the message counter by one exactly when
      they succeed; every failure, exhaustion included, leaves it where it was,
      and at the largest [u32] both fail without calling the cipher. *)
Theorem message_counter_discipline key text c reader :
  let e := encrypt key text c reader in
  let d := decrypt key text c reader in
  e.1 = (if is_ok e.2 then c + 1 else c)%Z ∧
  d.1 = (if is_ok d.2 then c + 1 else c)%Z ∧
  (c = u32_max → e = (c, Err tt) ∧ d = (c, Err tt)).
Proof.
  cbv zeta. unfold encrypt, decrypt. rewrite get_iv_spec. split_and!.
  - case_decide; [|done]. by destruct (encrypt_with_backend _ _ _).
  - case_decide; [|done]. by destruct (decrypt_with_backend _ _ _).
  - intros ->. by rewrite decide_False by lia.
Qed.

(** One side's use of a key: encrypt the messages in order, carrying on after
    a failed one.  The initialization vectors of the successful calls. *)
Fixpoint used_ivs (key : bytes) (reader : bool) (c : u32) (msgs : list bytes) : list bytes :=
  match msgs with
  | [] => []
  | m :: msgs' =>
      let '(c', r) := encrypt key m c reader in
      match r, (get_initialization_vector c reader).2 with
      | Ok _, Ok iv => iv :: used_ivs key reader c' msgs'
      | _, _ => used_ivs key reader c' msgs'
      end
  end.

Lemma encrypt_result key m c reader :
  encrypt key m c reader = (c, Err tt) ∨
  ∃ iv ct, get_initialization_vector c reader = ((c + 1)%Z, Ok iv) ∧ (c + 1 ≤ u32_max)%Z ∧
    encrypt_with_backend key iv m = Ok ct ∧ encrypt key m c reader = ((c + 1)%Z, Ok ct).
Proof.
  unfold encrypt. rewrite get_iv_spec. case_decide; [|by left].
  set (iv := _ ++ _). destruct (encrypt_with_backend key iv m) as [ct|[]] eqn:E; [right|by left].
  by exists iv, ct.
Qed.

Lemma encrypt_succeeds key m c reader :
  (c + 1 ≤ u32_max)%Z → (∀ iv, is_ok (encrypt_with_backend key iv m)) →
  ∃ ct, encrypt key m c reader = ((c + 1)%Z, Ok ct).
Proof.
  intros Hc Hs. unfold encrypt. rewrite get_iv_spec, decide_True by done.
  set (iv := _ ++ _). specialize (Hs iv). destruct (encrypt_with_backend key iv m) as [ct|]; [|done]. by exists ct.
Qed.

Lemma decrypt_result key ct c reader :
  decrypt key ct c reader = (c, Err tt) ∨
  ∃ iv m, get_initialization_vector c reader = ((c + 1)%Z, Ok iv) ∧ (c + 1 ≤ u32_max)%Z ∧
    decrypt_with_backend key iv ct = Ok m ∧ decrypt key ct c reader = ((c + 1)%Z, Ok m).
Proof.
  unfold decrypt. rewrite get_iv_spec. case_decide; [|by left].
  set (iv := _ ++ _). destruct (decrypt_with_backend key iv ct) as [m|[]] eqn:E; [right|by left].
  by exists iv, m.
Qed.

(** What every operation on a counter guarantees. *)
Definition counter_step (c c' : u32) : Prop := (c ≤ c')%Z ∧ (is_u32 c → is_u32 c').

Lemma encrypt_counter key m c reader : counter_step c (encrypt key m c reader).1.
Proof.
  destruct (encrypt_result key m c reader) as [->|(? & ? & _ & ? & _ & ->)]; unfold counter_step, is_u32; cbn [fst]; lia.
Qed.
Lemma decrypt_counter key ct c reader : counter_step c (decrypt key ct c reader).1.
Proof.
  destruct (decrypt_result key ct c reader) as [->|(? & ? & _ & ? & _ & ->)]; unfold counter_step, is_u32; cbn [fst]; lia.
Qed.

Lemma used_ivs_later key reader c msgs iv :
  iv ∈ used_ivs key reader c msgs →
  ∃ c', (c ≤ c' ≤ u32_max)%Z ∧ get_initialization_vector c' reader = ((c' + 1)%Z, Ok iv).
Proof.
  revert c. induction msgs as [|m msgs IH]; intros c; cbn [used_ivs]; [by intros ?%elem_of_nil|].
  destruct (encrypt_result key m c reader) as [->|(iv' & ct & Hiv & Hc & _ & ->)]; [apply IH|].
  rewrite Hiv. cbn [snd]. rewrite elem_of_cons. intros [->|Hin].
  - exists c. split; [lia|done].
  - apply IH in Hin as (c' & Hc' & Hg). exists c'. split; [lia|done].
Qed.

(** C16: No initialization vector is ever used twice under a session key: over any
      run of encryptions, failures included, the vectors of the successful ones
      are pairwise distinct. *)
Theorem initialization_vectors_unique key reader c msgs :
  is_u32 c → NoDup (used_ivs key reader c msgs).
Proof.
  revert c. induction msgs as [|m msgs IH]; intros c Hc; cbn [used_ivs]; [apply NoDup_nil_2|].
  destruct (encrypt_result key m c reader) as [->|(iv & ct & Hiv & Hc1 & _ & ->)]; [by apply IH|].
  rewrite Hiv. cbn [snd]. apply NoDup_cons. unfold is_u32 in *. split; [|apply IH; lia].
  intros (c' & Hc' & Hg)%used_ivs_later.
  destruct (get_iv_inj c c' reader reader (c + 1) (c' + 1) iv) as [? _]; unfold is_u32; try done; lia.
Qed.

Fixpoint encrypt_all (key : bytes) (reader : bool) (c : u32) (msgs : list bytes) : u32 * result (list bytes) unit :=
  match msgs with
  | [] => (c, Ok [])
  | m :: msgs' =>
      let '(c', r) := encrypt key m c reader in
      match r with
      | Err e => (c', Err e)
      | Ok ct => let '(c'', r') := encrypt_all key reader c' msgs' in
                 (c'', let? cts := r' in Ok (ct :: cts))
      end
  end.
Fixpoint decrypt_all (key : bytes) (reader : bool) (c : u32) (cts : list bytes) : u32 * result (list bytes) unit :=
  match cts with
  | [] => (c, Ok [])
  | ct :: cts' =>
      let '(c', r) := decrypt key ct c reader in
      match r with
      | Err e => (c', Err e)
      | Ok m => let '(c'', r') := decrypt_all key reader c' cts' in
                (c'', let? ms := r' in Ok (m :: ms))
      end
  end.

Context `{!AeadBackendLaws}.

Lemma backend_roundtrip key iv m ct :
  encrypt_with_backend key iv m = Ok ct → decrypt_with_backend key iv ct = Ok m.
Proof.
  unfold encrypt_with_backend, decrypt_with_backend.
  destruct (NativeSessionAeadKey_new key) as [k|]; [|done]. cbn [rbind].
  unfold seal, seal_with_post_copy, open. cbn [copied_from sab_bytes sab_spare].
  destruct (seal_in_place_append_tag _ iv m) as [[[]|] [c spare]] eqn:Hs; [|done].
  cbn [into_vec fst sab_bytes map_err]. intros [= ->].
  destruct (open_seal _ _ _ _ _ Hs) as (len & buf & -> & <-). done.
Qed.

Lemma encrypt_decrypt key m c reader c' ct :
  encrypt key m c reader = (c', Ok ct) → decrypt key ct c reader = (c', Ok m).
Proof.
  destruct (encrypt_result key m c reader) as [->|(iv & ct' & Hiv & Hc & Hb & ->)]; [done|].
  intros [= <- <-]. unfold decrypt. rewrite Hiv. by rewrite (backend_roundtrip _ _ _ _ Hb).
Qed.

(** Two sides whose counters agree stay in step: a sequence of messages
      encrypted by one decrypts in order to the same messages at the other, and
      their counters end up equal. *)
Theorem message_sequence_roundtrip key reader c msgs c' cts :
  encrypt_all key reader c msgs = (c', Ok cts) → decrypt_all key reader c cts = (c', Ok msgs).
Proof.
  revert c c' cts. induction msgs as [|m msgs IH]; intros c c' cts; cbn [encrypt_all].
  - by intros [= <- <-].
  - destruct (encrypt key m c reader) as [c1 [ct|]] eqn:E; [|done].
    destruct (encrypt_all key reader c1 msgs) as [c2 [cts'|]] eqn:Ea; [|done].
    intros [= <- <-]. cbn [decrypt_all]. rewrite (encrypt_decrypt _ _ _ _ _ _ E).
    by rewrite (IH _ _ _ Ea).
Qed.
End counters.

Section wiping.
Context `{AeadBackend, WasmAead}.

(** The memory is released with zeros only, over its whole capacity. *)
Definition wiped (s final : SensitiveAeadBuffer) : Prop :=
  sab_bytes final = [] ∧ sab_spare final = replicate (capacity s) 0%Z.

Lemma drop_buffer_wiped s : wiped s (drop_buffer s).
Proof.
  split; [done|]. unfold drop_buffer, vec_zeroize, vec_fill, vec_resize, capacity, zeroize. cbn [sab_bytes sab_spare].
  rewrite (drop_ge (sab_bytes s)), drop_ge, app_nil_r by lia. rewrite (take_ge (sab_bytes s)) by lia.
  rewrite fmap_replicate, length_app, length_replicate. f_equal. lia.
Qed.

(** What the native build releases: nothing when the vector is handed to the caller, and
    otherwise zeros over all the memory that the closure or the cipher had left, also
    when the closure panics. *)
Lemma aead_buffers_wiped k nonce text post_copy :
  (let '(r, b) := post_copy text in
   let '(c, (b', spare)) := seal_in_place_append_tag (native_key k) nonce b in
   let '(outcome, final) := seal_with_post_copy k nonce text post_copy in
   match r, c with
   | Err e, _ => outcome = Err e ∧ wiped {| sab_bytes := b; sab_spare := [] |} final
   | Ok _, Err _ => outcome = Err AeadError ∧ wiped {| sab_bytes := b'; sab_spare := spare |} final
   | Ok _, Ok _ => outcome = Ok b' ∧ capacity final = 0
   end) ∧
  (let '(r, b) := open_in_place (native_key k) nonce text in
   let '(outcome, final) := open k nonce text in
   match r with
   | Err _ => outcome = Err AeadError ∧ wiped {| sab_bytes := b; sab_spare := [] |} final
   | Ok len => outcome = Ok (take len b) ∧ capacity final = 0
   end).
Proof.
  unfold seal_with_post_copy, open. cbn [copied_from sab_bytes sab_spare]. split.
  - destruct (post_copy text) as [[|e] b]; destruct (seal_in_place_append_tag _ _ b) as [[|] [b' spare]];
      (split; [done|]); (done || apply drop_buffer_wiped).
  - destruct (open_in_place _ _ _) as [[|] b]; (split; [done|]); (done || apply drop_buffer_wiped).
Qed.

(** The two builds give the same results over ciphers that do. *)
Lemma backends_agree key :
  (∀ k nonce b, UnboundKey_new key = Ok k →
    rmap (λ _, (seal_in_place_append_tag k nonce b).2.1) (seal_in_place_append_tag k nonce b).1 =
      rmap (λ _, (encrypt_in_place (Aes256Gcm_new key) nonce b).2.1) (encrypt_in_place (Aes256Gcm_new key) nonce b).1 ∧
    rmap (λ len, take len (open_in_place k nonce b).2) (open_in_place k nonce b).1 =
      rmap (λ _, (decrypt_in_place (Aes256Gcm_new key) nonce b).2.1) (decrypt_in_place (Aes256Gcm_new key) nonce b).1) →
  is_ok (UnboundKey_new key) = true →
  ∀ nonce text,
    encrypt_with_backend key nonce text = wasm_encrypt_with_backend key nonce text ∧
    decrypt_with_backend key nonce text = wasm_decrypt_with_backend key nonce text.
Proof.
  unfold encrypt_with_backend, decrypt_with_backend, wasm_encrypt_with_backend, wasm_decrypt_with_backend,
    NativeSessionAeadKey_new, seal, wasm_seal, seal_with_post_copy, wasm_seal_with_post_copy, open, wasm_open.
  intros Hagree Hk nonce text. destruct (UnboundKey_new key) as [k|]; [|done]. cbn [rbind native_key].
  destruct (Hagree k nonce text eq_refl) as [He Hd]. cbn in *. split.
  - destruct (seal_in_place_append_tag _ _ _) as [[[]|[]] [b sp]], (encrypt_in_place _ _ _) as [[[]|[]] [b' s]]; naive_solver.
  - destruct (open_in_place _ _ _) as [[len|[]] b], (decrypt_in_place _ _ _) as [[[]|[]] [b' s]]; naive_solver.
Qed.
End wiping.

(** Status codes survive the round trip through their wire numbers, and only
      10, 11 and 20 are status codes. *)
Theorem status_codes s n :
  (Status_into_u64 s = n ↔ Status_try_from n = Ok s) ∧
  (is_ok (Status_try_from n) = true ↔ n ∈ [10; 11; 20]%Z).
Proof.
  assert (∀ n s, Status_try_from n = Ok s → Status_into_u64 s = n) as Hinv.
  { intros n' s' Hs. unfold Status_try_from in Hs.
    repeat match type of Hs with context [match ?x with _ => _ end] => destruct x; try discriminate Hs end;
      injection Hs as <-; done. }
  split; split.
  - intros <-. by destruct s.
  - apply Hinv.
  - destruct (Status_try_from n) as [s'|] eqn:E; [|done]. intros _. apply Hinv in E as <-.
    destruct s'; set_solver.
  - rewrite !elem_of_cons, elem_of_nil. intros [->|[->|[->|[]]]]; done.
Qed.

(** ** Properties of key agreement and derivation *)

Section agreement.
Context `{EcdhLaws}.

Lemma create_p256_ephemeral_keys_point sk sk' k :
  create_p256_ephemeral_keys sk = Ok (sk', k) →
  sk' = sk ∧ ∃ e, EncodedPoint_try_from k = Ok e ∧ from_sec1_point e = Some (public_key sk).
Proof.
  unfold create_p256_ephemeral_keys. destruct (sec1_point (public_key sk)) as [[x|] [y|]] eqn:Hp; try done.
  cbn. intros [= <- <-]. split; [done|].
  destruct (sec1_point_read _ _ _ Hp) as (Hx & Hy & e & He & Hf). exists e. split; [|done].
  cbn [EncodedPoint_try_from]. rewrite !bool_decide_false by (intros ?; done). cbn [orb app]. by rewrite He.
Qed.

Lemma ephemeral_secrets_agree sk_d sk_r a b k_d k_r :
  create_p256_ephemeral_keys sk_d = Ok (a, k_d) → create_p256_ephemeral_keys sk_r = Ok (b, k_r) →
  ∃ secret, get_shared_secret k_r sk_d = Ok secret ∧ get_shared_secret k_d sk_r = Ok secret.
Proof.
  intros (_ & ed & Hed & Hpd)%create_p256_ephemeral_keys_point
         (_ & er & Her & Hpr)%create_p256_ephemeral_keys_point.
  exists (diffie_hellman sk_d (public_key sk_r)). unfold get_shared_secret.
  rewrite Hed, Her. cbn [map_err rbind]. rewrite Hpd, Hpr. cbn [ok_or rbind].
  split; [done|]. by rewrite diffie_hellman_comm.
Qed.

(** The device and the reader compute the same shared secret from each
      other's ephemeral public keys. *)
Theorem shared_secrets_agree sk_d sk_r a b k_d k_r :
  create_p256_ephemeral_keys sk_d = Ok (a, k_d) → create_p256_ephemeral_keys sk_r = Ok (b, k_r) →
  ∃ secret, get_shared_secret k_r sk_d = Ok secret ∧ get_shared_secret k_d sk_r = Ok secret.
Proof. apply ephemeral_secrets_agree. Qed.
End agreement.

Lemma session_info_length reader : length (session_info reader) = 8.
Proof. by destruct reader. Qed.

Section derivation_spec.
Context {T : Type} `{Serde T, Serde Value, Sha256CompressLaws}.

Lemma derive_session_key_value secret (st : Tag24 T) tr reader :
  to_vec st = Ok tr →
  (8 * Z.of_nat (length tr) ≤ u64_max)%Z → (8 * Z.of_nat (64 + length secret) ≤ u64_max)%Z →
  derive_session_key secret st reader =
  Some (Ok (hkdf_sha256 (sha256 tr) secret (session_info reader) 32)).
Proof.
  intros Htr Hlt Hls. unfold derive_session_key. rewrite Htr.
  pose proof (one_shot_sha256 tr Hlt) as Hh. unfold one_shot in Hh.
  destruct (update new tr) as [h|]; [|done]. cbn [mbind option_bind] in Hh |- *. rewrite Hh.
  cbn [mbind option_bind]. rewrite hkdf_32_spec.
  - done.
  - done.
  - by rewrite length_replicate.
  - rewrite sha256_length. unfold u64_max. lia.
  - done.
  - rewrite session_info_length. unfold u64_max. lia.
Qed.

(** [derive_session_key] is HKDF-SHA-256 of the shared secret, salted with the
      SHA-256 digest of the encoded session transcript, under the label "SKReader"
      or "SKDevice"; it never panics on data that fits the hash, and it fails only
      when the transcript cannot be encoded. *)
Theorem derive_session_key_spec secret (st : Tag24 T) reader :
  (8 * Z.of_nat (64 + length secret) ≤ u64_max)%Z →
  (∀ tr, to_vec st = Ok tr → (8 * Z.of_nat (length tr) ≤ u64_max)%Z) →
  derive_session_key secret st reader =
  Some (match to_vec st with
        | Ok tr => Ok (hkdf_sha256 (sha256 tr) secret
                    (encode_string (if reader then "SKReader" else "SKDevice")) 32)
        | Err e => Err (TranscriptEncoding e)
        end).
Proof.
  intros Hs Htr. destruct (to_vec st) as [tr|e] eqn:E.
  - by apply derive_session_key_value; [|apply Htr|].
  - unfold derive_session_key. by rewrite E.
Qed.
End derivation_spec.

(** ** Witnesses: a toy cipher and a toy group *)

(** Append the nonce and the key as an authentication tag. *)
#[local] Instance toy_aead : AeadBackend := {|
  LessSafeKey := bytes;
  UnboundKey_new k := if bool_decide (length k = 32) then Ok k else Err tt;
  seal_in_place_append_tag k nonce p := (Ok tt, (p ++ nonce ++ k, []));
  open_in_place k nonce c :=
    let len := length c - length (nonce ++ k) in
    (if bool_decide (drop len c = nonce ++ k) then Ok len else Err tt, c);
|}.
#[local] Instance toy_aead_laws : AeadBackendLaws.
Proof.
  split. intros k nonce p c spare [= <- <-]. cbn [open_in_place toy_aead].
  assert (length (p ++ nonce ++ k) - length (nonce ++ k) = length p) as -> by (rewrite !length_app; lia).
  rewrite drop_app_length, bool_decide_true by done.
  eexists _, _. split; [done|]. by rewrite take_app_length.
Qed.

Lemma initialization_vectors_unique_witness :
  NoDup (used_ivs (replicate 32 1%Z) true 0 [[1]; [2]; [3]]%Z).
Proof. apply (initialization_vectors_unique (replicate 32 1%Z) true 0 [[1]; [2]; [3]]%Z). done. Defined.

Lemma message_sequence_roundtrip_witness :
  let key := replicate 32 1%Z in
  ∃ cts, encrypt_all key false 0 [[1]; [2; 3]]%Z = (2%Z, Ok cts) ∧
         decrypt_all key false 0 cts = (2%Z, Ok [[1]; [2; 3]]%Z).
Proof.
  intros key. eexists. split; [reflexivity|].
  apply (message_sequence_roundtrip key false 0 [[1]; [2; 3]]%Z). reflexivity.
Defined.

#[local] Instance toy_sec1 : Sec1 := sec1_bytes.
(** The additive group of the integers modulo 2^256, with generator one. *)
#[local] Instance toy_ecdh : Ecdh := {|
  SecretKey := Z;
  PublicKey := Z;
  public_key sk := (sk mod 2 ^ 256)%Z;
  sec1_point p := if decide (0 ≤ p < 2 ^ 512)%Z
    then (Some (to_be_bytes 32 (p mod 2 ^ 256)), Some (to_be_bytes 32 (p / 2 ^ 256))) else (None, None);
  from_sec1_point e := Some (from_be_bytes (take 32 (drop 1 e)) + 2 ^ 256 * from_be_bytes (drop 32 (drop 1 e)))%Z;
  diffie_hellman sk p := to_be_bytes 32 ((sk * p) mod 2 ^ 256);
|}.
#[local] Instance toy_ecdh_laws : EcdhLaws.
Proof.
  split.
  - intros a b. cbn. f_equal. rewrite !Z.mul_mod_idemp_r by lia. f_equal. lia.
  - intros a p. cbn. apply Nat2Z.inj. by rewrite to_be_bytes_length by lia.
  - intros p x y. cbn [sec1_point toy_ecdh]. case_decide as Hp; [|done]. intros [= <- <-].
    assert (∀ n, length (to_be_bytes 32 n) = 32) as Hl by (intros; apply Nat2Z.inj; by rewrite to_be_bytes_length by lia).
    split_and!; [apply Hl|apply Hl|]. eexists. split; [done|]. cbn [from_sec1_point toy_ecdh drop]. f_equal.
    rewrite drop_0.
    rewrite (take_app_length' (to_be_bytes 32 _)), (drop_app_length' (to_be_bytes 32 _)) by (symmetry; apply Hl).
    rewrite !from_to_be_bytes.
    + pose proof (Z.div_mod p (2 ^ 256) ltac:(lia)). lia.
    + lia.
    + split; [apply Z.div_pos; lia|]. apply Z.div_lt_upper_bound; lia.
    + lia.
    + apply Z.mod_pos_bound. lia.
Qed.

Definition toy_key (n : Z) : SecretKey := n.

Lemma shared_secrets_agree_witness :
  ∃ k_d k_r secret,
    create_p256_ephemeral_keys (toy_key 5) = Ok (toy_key 5, k_d) ∧
    create_p256_ephemeral_keys (toy_key 7) = Ok (toy_key 7, k_r) ∧
    get_shared_secret k_r (toy_key 5) = Ok secret ∧ get_shared_secret k_d (toy_key 7) = Ok secret.
Proof.
  eexists _, _.
  destruct (shared_secrets_agree (toy_key 5) (toy_key 7) (toy_key 5) (toy_key 7) _ _ eq_refl eq_refl)
    as (secret & H1 & H2).
  exists secret. split; [reflexivity|]. split; [reflexivity|]. exact (conj H1 H2).
Defined.

#[local] Existing Instance raw_serde.

Lemma derive_session_key_spec_witness :
  let transcript := {| inner := Null; inner_bytes := [8; 0]%Z |} in
  derive_session_key (replicate 32 3%Z) transcript true =
  Some (Ok (hkdf_sha256 (sha256 [6; 24; 2; 2; 8; 0]%Z) (replicate 32 3%Z) (encode_string "SKReader") 32)).
Proof.
  intros transcript.
  rewrite (derive_session_key_spec (replicate 32 3%Z) transcript true).
  - change (to_vec transcript) with (Ok (E:=CborError) [6; 24; 2; 2; 8; 0]%Z). reflexivity.
  - by vm_compute.
  - intros tr [= <-]. by vm_compute.
Defined.
