(* ===== verification/DigestExecutor.v ===== *)
(** * Digest executors ([src/digest_executor.rs])

    The executor interface, the scalar oracle, the eight-lane executor, the
    bounded native pool with its shared worker budget, and the adaptive policy.
    The [sha2] crate's digests, the [rayon] pool and the host's parallelism are
    interfaces; the compare-and-swap protocol of the budget is a step relation. *)

From S2P Require Export SimdSha256 SessionCrypto BTree.

(** ** Jobs and results *)

Inductive DigestAlgorithm : Type := SHA256 | SHA384 | SHA512.
#[export] Instance DigestAlgorithm_eq_dec : EqDecision DigestAlgorithm.
Proof. solve_decision. Defined.

Record DigestJob : Type := {
  dj_credential_id : u64;
  dj_job_id : u64;
  dj_ordinal : usize;
  dj_algorithm : DigestAlgorithm;
  dj_input : bytes;
}.
Record DigestResult : Type := {
  dr_credential_id : u64;
  dr_job_id : u64;
  dr_ordinal : usize;
  dr_digest : bytes;
}.
Inductive DigestExecutionError : Type := DigestExecutionFailed.

#[export] Instance DigestJob_eq_dec : EqDecision DigestJob. Proof. solve_decision. Defined.
#[export] Instance DigestResult_eq_dec : EqDecision DigestResult. Proof. solve_decision. Defined.
#[export] Instance DigestExecutionError_eq_dec : EqDecision DigestExecutionError.
Proof. solve_decision. Defined.
#[export] Instance DigestJob_inhabited : Inhabited DigestJob :=
  populate {| dj_credential_id := 0; dj_job_id := 0; dj_ordinal := 0; dj_algorithm := SHA256; dj_input := [] |}.

(** The digests of the [sha2] crate. *)
Class Sha2 := {
  Sha256_digest : bytes → bytes;
  Sha384_digest : bytes → bytes;
  Sha512_digest : bytes → bytes;
}.
Class Sha2Laws `{Sha2} : Prop := {
  Sha256_digest_fips input : Sha256_digest input = sha256 input;
  Sha256_digest_length input : length (Sha256_digest input) = 32;
  Sha384_digest_length input : length (Sha384_digest input) = 48;
  Sha512_digest_length input : length (Sha512_digest input) = 64;
}.

Definition digest_length (algorithm : DigestAlgorithm) : usize :=
  match algorithm with SHA256 => 32 | SHA384 => 48 | SHA512 => 64 end.

Section jobs.
Context `{Sha2}.

Definition digest (algorithm : DigestAlgorithm) (input : bytes) : bytes :=
  match algorithm with
  | SHA256 => Sha256_digest input
  | SHA384 => Sha384_digest input
  | SHA512 => Sha512_digest input
  end.

Definition digest_result (job : DigestJob) (d : bytes) : DigestResult := {|
  dr_credential_id := dj_credential_id job;
  dr_job_id := dj_job_id job;
  dr_ordinal := dj_ordinal job;
  dr_digest := d;
|}.

Definition execute_digest_job (job : DigestJob) : DigestResult :=
  digest_result job (digest (dj_algorithm job) (dj_input job)).
End jobs.

(** ** The executor interface *)

(** [trait DigestExecutor], with the contract of its documentation: a successful
    execution returns exactly one correct result per job, in any order. *)
Class DigestExecutor (E : Type) :=
  execute : E → list DigestJob → result (list DigestResult) DigestExecutionError.
Class DigestExecutorCorrect (E : Type) `{DigestExecutor E, Sha2} : Prop :=
  execute_correct e jobs results :
    execute e jobs = Ok results → results ≡ₚ (execute_digest_job <$> jobs).

(** ** The scalar oracle *)

Inductive SerialDigestExecutor : Type := Serial.
#[export] Instance serial_execute `{Sha2} : DigestExecutor SerialDigestExecutor :=
  λ _ jobs, Ok (execute_digest_job <$> jobs).

(** ** The eight-lane executor *)

Section simd_executor.
Context `{Sha2, U32x8}.

(** [None] entries of [results] are jobs without a result yet. *)
Definition group_jobs (jobs : list DigestJob) :
    list (option DigestResult) * btree nat (list nat) :=
  foldl (λ acc p,
      let '(results, sha256_groups) := acc in
      let '(index, job) := p in
      if decide (dj_algorithm job = SHA256) then
        let key := sha256_block_count (length (dj_input job)) in
        (results, <[key := default [] (sha256_groups !! key) ++ [index]]> sha256_groups)
      else (<[index := Some (execute_digest_job job)]> results, sha256_groups))
    (replicate (length jobs) None, ∅) (imap pair jobs).

(** One group: whole eights in lanes, the remainder on the scalar oracle. *)
Definition execute_group (jobs : list DigestJob) (results : list (option DigestResult))
    (indices : list nat) : result (list (option DigestResult)) DigestExecutionError :=
  let simd_job_count := length indices / LANES * LANES in
  let? results :=
    (if decide (simd_job_count ≠ 0) then
      let inputs := (λ index, dj_input (jobs !!! index)) <$> take simd_job_count indices in
      match hash_many_same_block_count inputs (replicate simd_job_count (replicate 32 0%Z)) with
      | (false, _) => Err DigestExecutionFailed
      | (true, digests) =>
          Ok (foldl (λ results p, <[p.1 := Some (digest_result (jobs !!! p.1) p.2)]> results)
                results (zip (take simd_job_count indices) digests))
      end
    else Ok results) in
  Ok (foldl (λ results index, <[index := Some (execute_digest_job (jobs !!! index))]> results)
        results (drop simd_job_count indices)).

Definition execute_simd_digest_jobs (jobs : list DigestJob) :
    result (list DigestResult) DigestExecutionError :=
  let '(results, sha256_groups) := group_jobs jobs in
  let? results := try_fold (execute_group jobs) results (entries sha256_groups).*2 in
  ok_or DigestExecutionFailed (mapM id results).
End simd_executor.

(** [simd_target]: x86-64 and AArch64 builds. *)
Record SimdDigestExecutor : Type := { simd_target : bool }.
Definition sha256_lane_width (e : SimdDigestExecutor) : usize := if simd_target e then 8 else 1.
#[export] Instance simd_execute `{Sha2, U32x8} : DigestExecutor SimdDigestExecutor := λ e jobs,
  if simd_target e then execute_simd_digest_jobs jobs else execute Serial jobs.

(** ** The native pool *)

Definition MAX_PARALLEL_DIGEST_WORKERS : usize := 8.

(** The budget counter as one uncontended caller sees it: the new counter. *)
Definition try_acquire (capacity available worker_count : usize) : option usize :=
  if decide (worker_count < 2 ∨ capacity < worker_count) then None
  else if decide (available < worker_count) then None
  else Some (available - worker_count).

Definition NativeDigestPool_new (build : usize → bool) (worker_count : usize) : option usize :=
  if decide (worker_count = 0 ∨ MAX_PARALLEL_DIGEST_WORKERS < worker_count) then None
  else if build worker_count then Some worker_count else None.

(** The once-initialized slot: its content afterwards, and the pool handed out. *)
Definition get_or_initialize_native_digest_pool {P} (pool_slot : option P) (initialize : option P) :
    option P * option P :=
  match pool_slot with
  | Some pool => (Some pool, Some pool)
  | None => match initialize with
            | None => (None, None)
            | Some pool => (Some pool, Some pool)
            end
  end.

Definition static_chunk_size (job_count worker_count : usize) : usize :=
  job_count / worker_count + (if decide (job_count mod worker_count = 0) then 0 else 1).

(** [rayon]: run one computation per chunk on the pool and collect the outputs in
    order; [None] is a worker panic caught by [catch_unwind]. *)
Class Rayon := collect_chunks : list (list DigestResult) → option (list DigestResult).
Class RayonLaws `{Rayon} : Prop := {
  collect_chunks_ordered css rs : collect_chunks css = Some rs → rs = concat css;
}.

(** What a call finds: the pool (its thread count), the budget counter at the
    time of the acquisition, and the host's parallelism. *)
Record Host : Type := {
  host_pool : option usize;
  host_budget : usize;
  host_parallelism : usize;
}.

Record NativeParallelDigestExecutor : Type := {
  worker_count : usize;
  native_host : Host;
}.
Definition NativeParallelDigestExecutor_new (workers : usize) (h : Host) : NativeParallelDigestExecutor :=
  {| worker_count := workers `min` MAX_PARALLEL_DIGEST_WORKERS; native_host := h |}.

Section native.
Context `{Sha2, Rayon}.

Definition execute_with_pool (e : NativeParallelDigestExecutor) (jobs : list DigestJob)
    (pool_workers : usize) : result (list DigestResult) DigestExecutionError :=
  let workers := (worker_count e `min` pool_workers) `min` length jobs in
  match try_acquire pool_workers (host_budget (native_host e)) workers with
  | None => Ok (map execute_digest_job jobs)
  | Some _ =>
      let chunk_size := static_chunk_size (length jobs) workers in
      match collect_chunks (map (map execute_digest_job) (chunks chunk_size jobs)) with
      | None => Err DigestExecutionFailed
      | Some results =>
          if decide (length results = length jobs) then Ok results else Err DigestExecutionFailed
      end
  end.

#[export] Instance native_execute : DigestExecutor NativeParallelDigestExecutor := λ e jobs,
  if decide (length jobs < 2 ∨ worker_count e < 2) then Ok (map execute_digest_job jobs)
  else match host_pool (native_host e) with
       | None => Err DigestExecutionFailed
       | Some pool_workers => execute_with_pool e jobs pool_workers
       end.
End native.

(** ** The adaptive policy *)

Definition ADAPTIVE_PARALLEL_MIN_DIGEST_JOBS : usize := 512.
Definition ADAPTIVE_PARALLEL_MIN_INPUT_BYTES : Z := 2 * 1024 * 1024.
Definition ADAPTIVE_PARALLEL_MAX_WORKERS : usize := 4.
Definition u128_max : Z := 2 ^ 128 - 1.

Inductive AdaptiveDigestExecutionMode : Type :=
  | ModeSerial
  | ModeNativeParallel (worker_count : usize).

(** [fold] with [saturating_add] on [u128]. *)
Definition input_bytes (jobs : list DigestJob) : Z :=
  foldl (λ total job, Z.min u128_max (total + Z.of_nat (length (dj_input job)))) 0%Z jobs.

Definition select_adaptive_digest_execution_mode (jobs : list DigestJob)
    (available_parallelism : usize) : AdaptiveDigestExecutionMode :=
  if decide (length jobs < ADAPTIVE_PARALLEL_MIN_DIGEST_JOBS) then ModeSerial else
  let total_input_bytes := input_bytes jobs in
  if decide (total_input_bytes < ADAPTIVE_PARALLEL_MIN_INPUT_BYTES)%Z then ModeSerial else
  let workers := (available_parallelism `min` ADAPTIVE_PARALLEL_MAX_WORKERS) `min` length jobs in
  if decide (workers < 2) then ModeSerial else
  let chunk_size := static_chunk_size (length jobs) workers in
  let largest_chunk_bytes := foldr Z.max 0%Z (input_bytes <$> chunks chunk_size jobs) in
  let half_total_rounded_up := (total_input_bytes / 2 + total_input_bytes mod 2)%Z in
  if decide (half_total_rounded_up < largest_chunk_bytes)%Z then ModeSerial
  else ModeNativeParallel workers.

Record AdaptiveDigestExecutor : Type := { adaptive_host : Host }.
#[export] Instance adaptive_execute `{Sha2, Rayon} : DigestExecutor AdaptiveDigestExecutor := λ e jobs,
  match select_adaptive_digest_execution_mode jobs (host_parallelism (adaptive_host e)) with
  | ModeSerial => execute Serial jobs
  | ModeNativeParallel w => execute (NativeParallelDigestExecutor_new w (adaptive_host e)) jobs
  end.

(** [parallel_feature]: builds with the [parallel] feature. *)
Record DefaultDigestExecutor : Type := { parallel_feature : bool; default_host : Host }.
#[export] Instance default_execute `{Sha2, Rayon} : DigestExecutor DefaultDigestExecutor := λ e jobs,
  if parallel_feature e then execute {| adaptive_host := default_host e |} jobs
  else execute Serial jobs.

(** ** The shared worker budget under concurrency *)

(** One caller of [try_acquire]: before the call, in the compare-and-swap loop
    with the value it last observed, holding a lease, or refused. *)
Inductive CallerState : Type :=
  | CIdle
  | CLoop (worker_count observed : usize)
  | CLease (worker_count : usize)
  | CRefused.

Record Budget : Type := { b_available : usize; b_callers : list CallerState }.

Inductive budget_step (capacity : usize) : Budget → Budget → Prop :=
  | step_refuse_size a cs i wc :
      cs !! i = Some CIdle → (wc < 2 ∨ capacity < wc) →
      budget_step capacity {| b_available := a; b_callers := cs |}
        {| b_available := a; b_callers := <[i := CRefused]> cs |}
  | step_load a cs i wc :
      cs !! i = Some CIdle → ¬ (wc < 2 ∨ capacity < wc) →
      budget_step capacity {| b_available := a; b_callers := cs |}
        {| b_available := a; b_callers := <[i := CLoop wc a]> cs |}
  | step_refuse_low a cs i wc observed :
      cs !! i = Some (CLoop wc observed) → observed < wc →
      budget_step capacity {| b_available := a; b_callers := cs |}
        {| b_available := a; b_callers := <[i := CRefused]> cs |}
  | step_exchange a cs i wc observed :
      cs !! i = Some (CLoop wc observed) → ¬ observed < wc → a = observed →
      budget_step capacity {| b_available := a; b_callers := cs |}
        {| b_available := observed - wc; b_callers := <[i := CLease wc]> cs |}
  | step_exchange_fails a cs i wc observed :
      (** a weak exchange may also fail when the values agree *)
      cs !! i = Some (CLoop wc observed) → ¬ observed < wc →
      budget_step capacity {| b_available := a; b_callers := cs |}
        {| b_available := a; b_callers := <[i := CLoop wc a]> cs |}
  | step_drop a cs i wc :
      cs !! i = Some (CLease wc) →
      budget_step capacity {| b_available := a; b_callers := cs |}
        {| b_available := a + wc; b_callers := <[i := CIdle]> cs |}
  | step_again a cs i :
      cs !! i = Some CRefused →
      budget_step capacity {| b_available := a; b_callers := cs |}
        {| b_available := a; b_callers := <[i := CIdle]> cs |}.

Definition leased (c : CallerState) : usize := match c with CLease wc => wc | _ => 0 end.
Definition budget_init (capacity callers : usize) : Budget :=
  {| b_available := capacity; b_callers := replicate callers CIdle |}.

(** ** The eight-lane executor agrees with the oracle *)

Section simd_correct.
Context `{Sha2Laws, U32x8Laws}.
Context (jobs : list DigestJob).

(** Store the correct result of each listed job. *)
Definition set_all (results : list (option DigestResult)) (indices : list nat) :
    list (option DigestResult) :=
  foldl (λ results index, <[index := Some (execute_digest_job (jobs !!! index))]> results)
    results indices.

Lemma set_all_lookup results indices i :
  i < length results →
  set_all results indices !! i =
  if decide (i ∈ indices) then Some (Some (execute_digest_job (jobs !!! i))) else results !! i.
Proof.
  revert results. induction indices as [|j l IH]; intros results Hi; cbn [set_all foldl].
  - rewrite decide_False; [done|]. apply not_elem_of_nil.
  - rewrite IH by by rewrite length_insert. rewrite list_lookup_insert.
    destruct (decide (i ∈ l)); [by rewrite decide_True by by right|].
    destruct (decide (j = i ∧ j < length results)) as [[-> _]|Hne].
    + by rewrite decide_True by left.
    + rewrite decide_False; [done|]. rewrite elem_of_cons. intros [->|]; [|done]. by apply Hne.
Qed.

Definition groupable (key : nat) (i : nat) : Prop :=
  ∃ job, jobs !! i = Some job ∧ dj_algorithm job = SHA256 ∧
    sha256_block_count (length (dj_input job)) = key.

Lemma groupable_total key i :
  groupable key i → dj_algorithm (jobs !!! i) = SHA256 ∧
    sha256_block_count (length (dj_input (jobs !!! i))) = key.
Proof. intros (job & Hj & Ha & Hk). by rewrite (list_lookup_total_correct _ _ _ Hj). Qed.

(** The lanes store exactly the scalar results. *)
Lemma execute_group_set_all key results indices :
  Forall (groupable key) indices →
  execute_group jobs results indices = Ok (set_all results indices).
Proof.
  intros Hg. unfold execute_group. set (n := length indices / LANES * LANES).
  assert (n ≤ length indices) as Hn by (unfold n, LANES; pose proof (Nat.div_mod_eq (length indices) 8); lia).
  assert (Forall (groupable key) (take n indices)) as Hgt by by apply Forall_take.
  set (l := take n indices) in *.
  assert (length l = n) as Hl by (unfold l; rewrite length_take; lia).
  set (r := if decide (n ≠ 0) then _ else _). cut (r = Ok (set_all results l)).
  { intros ->. cbn [rbind]. unfold set_all, l. f_equal. by rewrite <-foldl_app, take_drop. }
  unfold r. clear r. case_decide as Hz.
  2:{ destruct l; [done|]. simpl in Hl. lia. }
  rewrite (hash_many_spec (H := H1)). rewrite decide_True.
  - f_equal. unfold set_all. clear Hl Hn. clearbody l. revert results.
    induction Hgt as [|i l Hi Hl IH]; intros results; [done|]. cbn [fmap list_fmap zip zip_with foldl fst snd].
    rewrite IH. do 3 f_equal. unfold execute_digest_job, digest.
    by rewrite (proj1 (groupable_total _ _ Hi)), Sha256_digest_fips.
  - rewrite length_fmap, length_replicate, Hl. split_and!; [done|by exists (length indices / LANES)|].
    apply Forall_fmap. destruct Hgt as [|i l' Hi Hl']; [constructor|].
    change (default [] (head ((λ index, dj_input (jobs !!! index)) <$> i :: l'))) with (dj_input (jobs !!! i)).
    rewrite (proj2 (groupable_total _ _ Hi)).
    constructor; [by apply groupable_total|]. eapply Forall_impl; [exact Hl'|].
    intros j Hj. by apply groupable_total.
Qed.

Definition scalar_first (k : nat) (i : nat) : option (option DigestResult) :=
  job ← jobs !! i;
  Some (if decide (i < k ∧ dj_algorithm job ≠ SHA256) then Some (execute_digest_job job) else None).

(** One more job is a result when it is not grouped, and a member of its group when it is. *)
Lemma scalar_first_S k job i :
  jobs !! k = Some job →
  scalar_first (S k) i =
  if decide (i = k ∧ dj_algorithm job ≠ SHA256) then Some (Some (execute_digest_job job)) else scalar_first k i.
Proof.
  intros Hjob. unfold scalar_first. case_decide as Hc.
  - destruct Hc as [-> Hne]. rewrite Hjob. cbn [mbind option_bind]. by rewrite decide_True by (split; [lia|done]).
  - destruct (jobs !! i) as [j|] eqn:Hj; cbn [mbind option_bind]; [|done]. f_equal. apply decide_ext.
    split; [|intros [? ?]; split; [lia|done]]. intros [Hi Hne]. split; [|done].
    destruct (decide (i = k)) as [->|]; [|lia]. rewrite Hjob in Hj. injection Hj as <-. by destruct Hc.
Qed.
Lemma groupable_S k job key i :
  jobs !! k = Some job →
  (groupable key i ∧ i < S k) ↔
  (groupable key i ∧ i < k) ∨ (i = k ∧ dj_algorithm job = SHA256 ∧ sha256_block_count (length (dj_input job)) = key).
Proof.
  intros Hjob. split.
  - intros [Hg Hi]. destruct (decide (i = k)) as [->|]; [right|left; split; [done|lia]].
    destruct Hg as (j & Hj & ? & ?). rewrite Hjob in Hj. by injection Hj as <-.
  - intros [[? ?]|(-> & ? & ?)]; [split; [done|lia]|]. split; [by exists job|lia].
Qed.

(** The first [k] jobs have been sorted. *)
Definition grouped (k : nat) (acc : list (option DigestResult) * btree nat (list nat)) : Prop :=
  (∀ i, acc.1 !! i = scalar_first k i) ∧ (∀ key i, i ∈ default [] (acc.2 !! key) ↔ groupable key i ∧ i < k).

Lemma grouped_start : grouped 0 (replicate (length jobs) None, ∅).
Proof.
  split; cbn [fst snd].
  - intros i. unfold scalar_first. destruct (jobs !! i) as [job|] eqn:Hj; cbn [mbind option_bind].
    + rewrite decide_False by lia. apply lookup_replicate. split; [done|]. by eapply lookup_lt_Some.
    + apply lookup_ge_None in Hj. apply lookup_ge_None. by rewrite length_replicate.
  - intros key i. rewrite lookup_empty. simpl. split; [by intros ?%elem_of_nil|]. intros [_ ?]. lia.
Qed.
Lemma grouped_lane k job results groups :
  jobs !! k = Some job → dj_algorithm job = SHA256 → grouped k (results, groups) →
  let key := sha256_block_count (length (dj_input job)) in
  grouped (S k) (results, <[key := default [] (groups !! key) ++ [k]]> groups).
Proof.
  intros Hjob Ha [Hr Hg]. cbv zeta. split; cbn [fst snd] in *.
  - intros i. rewrite Hr, (scalar_first_S k job) by done. rewrite decide_False; [done|]. by intros [_ ?].
  - intros key i. rewrite (groupable_S k job key i Hjob), <-Hg.
    destruct (decide (key = sha256_block_count (length (dj_input job)))) as [->|Hk].
    + rewrite lookup_insert_eq. cbn [default option_map from_option id]. rewrite elem_of_app, list_elem_of_singleton.
      naive_solver.
    + rewrite lookup_insert_ne by done. naive_solver.
Qed.
Lemma grouped_scalar k job results groups :
  jobs !! k = Some job → dj_algorithm job ≠ SHA256 → grouped k (results, groups) →
  grouped (S k) (<[k := Some (execute_digest_job job)]> results, groups).
Proof.
  intros Hjob Ha [Hr Hg]. split; cbn [fst snd] in *.
  - intros i. rewrite list_lookup_insert, (scalar_first_S k job) by done. case_decide as Hc.
    + destruct Hc as [<- _]. by rewrite decide_True.
    + rewrite decide_False; [apply Hr|]. intros [-> _]. apply Hc. split; [done|].
      rewrite <-(lookup_lt_is_Some results), Hr. unfold scalar_first. by rewrite Hjob.
  - intros key i. rewrite (groupable_S k job key i Hjob), Hg. naive_solver.
Qed.

Lemma group_jobs_spec :
  (∀ i, (group_jobs jobs).1 !! i = scalar_first (length jobs) i) ∧
  (∀ key i, i ∈ default [] ((group_jobs jobs).2 !! key) ↔ groupable key i).
Proof.
  assert (grouped (length (imap pair jobs)) (group_jobs jobs)) as [HP1 HP2].
  { unfold group_jobs. apply (foldl_inv _ (λ done acc, grouped (length done) acc)); [apply grouped_start|].
    intros done [index job] rest [results groups] Hsplit Hacc.
    assert (index = length done ∧ jobs !! index = Some job) as [-> Hjob].
    { pose proof (list_lookup_middle done rest (index, job) _ eq_refl) as Hm. rewrite <-Hsplit in Hm.
      rewrite list_lookup_imap in Hm. destruct (jobs !! length done) eqn:E; simplify_eq/=. done. }
    rewrite length_app. cbn [length]. rewrite Nat.add_1_r. case_decide as Ha; [by apply grouped_lane|by apply grouped_scalar]. }
  rewrite length_imap in HP1, HP2. split; [done|]. intros key i. rewrite HP2. split; [by intros [? _]|].
  intros Hg. split; [done|]. destruct Hg as (job & Hj & _). by eapply lookup_lt_Some.
Qed.
End simd_correct.

Section simd_total.
Context `{Sha2Laws, U32x8Laws}.

Lemma mapM_id_all {A} (l : list (option A)) (k : list A) :
  l = Some <$> k → mapM id l = Some k.
Proof. intros ->. induction k as [|x k IH]; [done|]. cbn. cbn in IH. by rewrite IH. Qed.

Lemma simd_jobs_total jobs : execute_simd_digest_jobs jobs = Ok (execute_digest_job <$> jobs).
Proof.
  unfold execute_simd_digest_jobs. destruct (group_jobs_spec jobs) as [Hr Hg].
  destruct (group_jobs jobs) as [results groups]. cbn [fst snd] in *.
  rewrite (try_fold_total _ (set_all jobs)).
  2:{ apply Forall_fmap, Forall_forall. intros [key indices] Hin s. cbn. apply execute_group_set_all with key.
      apply Forall_forall. intros i Hi. apply Hg.
      apply entries_lookup in Hin. by rewrite Hin. }
  cbn [rbind]. unfold set_all. rewrite foldl_concat. fold (set_all jobs results (concat (entries groups).*2)).
  rewrite (mapM_id_all _ (execute_digest_job <$> jobs)); [done|].
  assert (length results = length jobs) as Hlen.
  { apply (anti_symm (≤)); apply Nat.nlt_ge; intros Hlt.
    - apply (lookup_lt_is_Some_2 results) in Hlt as [? Hx]. rewrite Hr in Hx. unfold scalar_first in Hx.
      by rewrite lookup_ge_None_2 in Hx by done.
    - pose proof (lookup_lt_is_Some_2 jobs _ Hlt) as [? Hx]. specialize (Hr (length results)).
      unfold scalar_first in Hr. rewrite Hx in Hr. by rewrite lookup_ge_None_2 in Hr by done. }
  apply list_eq. intros i. rewrite !list_lookup_fmap. destruct (jobs !! i) as [job|] eqn:Hj.
  - rewrite set_all_lookup by (rewrite Hlen; by eapply lookup_lt_Some).
    rewrite (list_lookup_total_correct _ _ _ Hj). case_decide as Hi; [done|].
    rewrite Hr. unfold scalar_first. rewrite Hj. cbn [mbind option_bind].
    rewrite decide_True; [done|]. split; [by eapply lookup_lt_Some|]. intros Ha. apply Hi.
    apply list_elem_of_In, in_concat.
    set (key := sha256_block_count (length (dj_input job))).
    assert (i ∈ default [] (groups !! key)) as Hin by (apply Hg; by exists job).
    destruct (groups !! key) as [indices|] eqn:Hk; [|by apply elem_of_nil in Hin].
    exists indices. split; [|by apply list_elem_of_In].
    apply list_elem_of_In, list_elem_of_fmap. exists (key, indices). split; [done|]. by apply entries_lookup.
  - simpl. apply lookup_ge_None. rewrite lookup_ge_None in Hj. rewrite <-Hlen in Hj.
    etrans; [|exact Hj]. apply Nat.eq_le_incl. unfold set_all. clear. revert results.
    induction (concat _) as [|j l IH]; intros results; simpl; [done|]. by rewrite IH, length_insert.
Qed.

(** The eight-lane executor returns exactly what the scalar oracle returns, in
      the same order, for every batch of jobs; it never fails. *)
Theorem simd_executor_equivalent target jobs :
  execute {| simd_target := target |} jobs = execute Serial jobs ∧
  execute Serial jobs = Ok (execute_digest_job <$> jobs).
Proof. split; [|done]. unfold execute, simd_execute. destruct target; [apply simd_jobs_total|done]. Qed.
End simd_total.

(** ** The native pool and the adaptive policy *)

Lemma static_chunk_size_pos n w : 0 < n → 0 < w → 0 < static_chunk_size n w.
Proof.
  intros Hn Hw. unfold static_chunk_size. case_decide as Hm; [|lia].
  pose proof (Nat.div_mod_eq n w). destruct (n / w) eqn:E; [nia|lia].
Qed.

Lemma static_chunk_size_chunks {A} (l : list A) w :
  0 < length l → 0 < w → length (chunks (static_chunk_size (length l) w) l) ≤ w.
Proof.
  intros Hl Hw. pose proof (static_chunk_size_pos _ _ Hl Hw) as Hc.
  set (c := static_chunk_size (length l) w) in *.
  destruct (chunks_fuel_length (length l) c l Hc (le_n _)) as [Hle _].
  fold (chunks c l) in Hle. assert (length l ≤ c * w) as Hcw.
  { unfold c, static_chunk_size. pose proof (Nat.div_mod_eq (length l) w).
    pose proof (Nat.mod_upper_bound (length l) w ltac:(lia)). case_decide; nia. }
  nia.
Qed.

Lemma try_acquire_Some capacity available w rest :
  try_acquire capacity available w = Some rest → 2 ≤ w ∧ w ≤ capacity ∧ available = w + rest.
Proof.
  unfold try_acquire. case_decide; [done|]. case_decide; [done|]. intros [= <-]. lia.
Qed.

Section native_correct.
Context `{Sha2, RayonLaws}.

Lemma map_chunks n (f : DigestJob → DigestResult) jobs :
  0 < n → concat (map (map f) (chunks n jobs)) = map f jobs.
Proof. intros Hn. rewrite <-concat_map. f_equal. by apply chunks_concat. Qed.

Lemma native_ordered (e : NativeParallelDigestExecutor) jobs rs :
  execute e jobs = Ok rs → rs = execute_digest_job <$> jobs.
Proof.
  unfold execute, native_execute. case_decide as Hsmall; [by intros [= <-]|].
  destruct (host_pool (native_host e)) as [n|]; [|done]. unfold execute_with_pool.
  set (w := (worker_count e `min` n) `min` length jobs).
  destruct (try_acquire n _ w) as [a|] eqn:Ha; [|by intros [= <-]].
  assert (2 ≤ w) as Hw.
  { by apply try_acquire_Some in Ha as [? _]. }
  destruct (collect_chunks _) as [results|] eqn:Hc; [|done]. case_decide; [|done]. intros [= <-].
  apply collect_chunks_ordered in Hc as ->. apply map_chunks. apply static_chunk_size_pos; lia.
Qed.

Lemma adaptive_ordered (e : AdaptiveDigestExecutor) jobs rs :
  execute e jobs = Ok rs → rs = execute_digest_job <$> jobs.
Proof.
  unfold execute at 1, adaptive_execute. destruct (select_adaptive_digest_execution_mode _ _) as [|w].
  - by intros [= <-].
  - apply native_ordered.
Qed.

Lemma default_ordered (e : DefaultDigestExecutor) jobs rs :
  execute e jobs = Ok rs → rs = execute_digest_job <$> jobs.
Proof.
  unfold execute at 1, default_execute. destruct (parallel_feature e).
  - apply adaptive_ordered.
  - by intros [= <-].
Qed.

#[export] Instance serial_correct : DigestExecutorCorrect SerialDigestExecutor.
Proof. by intros e jobs rs [= <-]. Qed.
#[export] Instance native_correct : DigestExecutorCorrect NativeParallelDigestExecutor.
Proof. by intros e jobs rs ->%native_ordered. Qed.
#[export] Instance adaptive_correct : DigestExecutorCorrect AdaptiveDigestExecutor.
Proof. by intros e jobs rs ->%adaptive_ordered. Qed.
#[export] Instance default_correct : DigestExecutorCorrect DefaultDigestExecutor.
Proof. by intros e jobs rs ->%default_ordered. Qed.

(** C28: Whatever the pool, the budget and the host's parallelism, the native, the
      adaptive and the default executor return the scalar oracle's results in the
      order of the jobs when they succeed; they fail only when the pool could not be
      created or a worker panicked, and calls with fewer than two jobs or workers,
      or refused by the budget, never fail. *)
Theorem native_executors_equivalent (e : NativeParallelDigestExecutor) (h : Host) jobs :
  (∀ rs, execute e jobs = Ok rs → execute Serial jobs = Ok rs) ∧
  (∀ rs, execute {| adaptive_host := h |} jobs = Ok rs → execute Serial jobs = Ok rs) ∧
  (∀ f rs, execute {| parallel_feature := f; default_host := h |} jobs = Ok rs → execute Serial jobs = Ok rs) ∧
  (∀ err, execute e jobs = Err err →
     2 ≤ length jobs ∧ 2 ≤ worker_count e ∧
     (host_pool (native_host e) = None ∨
      ∃ n, host_pool (native_host e) = Some n ∧
        is_Some (try_acquire n (host_budget (native_host e)) ((worker_count e `min` n) `min` length jobs)) ∧
        collect_chunks (map (map execute_digest_job)
          (chunks (static_chunk_size (length jobs) ((worker_count e `min` n) `min` length jobs)) jobs)) = None)).
Proof.
  split_and!.
  - by intros rs ->%native_ordered.
  - by intros rs ->%adaptive_ordered.
  - by intros f rs ->%default_ordered.
  - intros err. unfold execute, native_execute. case_decide as Hsmall; [done|]. intros He.
    split_and!; [lia..|].
    destruct (host_pool (native_host e)) as [n|]; [right; exists n|by left]. split; [done|].
    unfold execute_with_pool in He.
    destruct (try_acquire n _ _) as [a|] eqn:Ha; [|done]. split; [by eexists|].
    destruct (collect_chunks _) as [rs|] eqn:Hc; [|done]. exfalso.
    apply collect_chunks_ordered in Hc. subst rs. rewrite map_chunks, length_map in He.
    + by rewrite decide_True in He.
    + apply try_acquire_Some in Ha as [? _]. apply static_chunk_size_pos; lia.
Qed.
End native_correct.

(** The adaptive policy goes parallel only on the workloads it documents: at
      least 512 jobs and 2 MiB of input, between two and four workers and no more
      than the host offers; the jobs are then cut into at most that many contiguous
      chunks, which together are all the jobs in order, and none of them holds more
      than half of the bytes, rounded up. *)
Theorem adaptive_policy jobs parallelism w :
  select_adaptive_digest_execution_mode jobs parallelism = ModeNativeParallel w →
  let parts := chunks (static_chunk_size (length jobs) w) jobs in
  512 ≤ length jobs ∧ (2097152 ≤ input_bytes jobs)%Z ∧ 2 ≤ w ≤ 4 ∧ w ≤ parallelism ∧
  length parts ≤ w ∧ concat parts = jobs ∧
  Forall (λ part, (2 * input_bytes part ≤ input_bytes jobs + 1)%Z) parts.
Proof.
  unfold select_adaptive_digest_execution_mode, ADAPTIVE_PARALLEL_MIN_DIGEST_JOBS,
    ADAPTIVE_PARALLEL_MIN_INPUT_BYTES, ADAPTIVE_PARALLEL_MAX_WORKERS.
  case_decide as Hjobs; [done|]. case_decide as Hbytes; [done|].
  set (w' := (parallelism `min` 4) `min` length jobs). case_decide as Hw; [done|].
  case_decide as Hhalf; [done|]. intros [= <-].
  set (parts := chunks _ jobs) in *.
  split_and!; try lia.
  - apply static_chunk_size_chunks; lia.
  - apply chunks_concat, static_chunk_size_pos; lia.
  - apply Forall_forall. intros part Hp.
    assert (input_bytes part ≤ foldr Z.max 0 (input_bytes <$> parts))%Z as Hle.
    { clear -Hp. induction parts as [|q qs IH]; [by apply elem_of_nil in Hp|].
      rewrite fmap_cons. cbn [foldr]. apply elem_of_cons in Hp as [->|Hp]; [lia|]. specialize (IH Hp). lia. }
    pose proof (Z.div_mod (input_bytes jobs) 2 ltac:(lia)).
    pose proof (Z.mod_pos_bound (input_bytes jobs) 2 ltac:(lia)). lia.
Qed.

(** ** The worker budget *)

Lemma sum_leased_insert cs i c d :
  cs !! i = Some c → sum_list_with leased (<[i := d]> cs) + leased c = sum_list_with leased cs + leased d.
Proof.
  revert i. induction cs as [|e cs IH]; intros [|i] Hi; simpl in *; simplify_eq; [lia|].
  specialize (IH _ Hi). lia.
Qed.

Lemma sum_list_with_replicate_leased n : sum_list_with leased (replicate n CIdle) = 0.
Proof. induction n; [done|]. done. Qed.

(** C29: In every interleaving of acquisitions and releases, the counter and the
      leased workers add up to the capacity; so the leases never exceed it, the
      counter never underflows, and a release never pushes it past the capacity. *)
Theorem budget_conserved capacity callers b :
  rtc (budget_step capacity) (budget_init capacity callers) b →
  b_available b + sum_list_with leased (b_callers b) = capacity ∧
  (∀ i wc, b_callers b !! i = Some (CLease wc) → 2 ≤ wc ≤ capacity ∧ b_available b ≤ capacity - wc).
Proof.
  intros Hreach.
  assert (b_available b + sum_list_with leased (b_callers b) = capacity ∧
    Forall (λ c, match c with CLoop wc _ | CLease wc => 2 ≤ wc | _ => True end) (b_callers b)) as [Hsum Hall].
  { remember (budget_init capacity callers) as b0 eqn:Hb0.
    assert (b_available b0 + sum_list_with leased (b_callers b0) = capacity ∧
      Forall (λ c, match c with CLoop wc _ | CLease wc => 2 ≤ wc | _ => True end) (b_callers b0)) as Hinit.
    { subst. cbn. split; [|by apply Forall_replicate]. rewrite sum_list_with_replicate_leased. lia. }
    clear Hb0. induction Hreach as [|b0 b1 b2 Hstep _ IH]; [done|]. apply IH. clear IH.
    destruct Hinit as [Hsum Hall].
    destruct Hstep as [a cs i wc Hi Hw|a cs i wc Hi Hw|a cs i wc o Hi Ho|a cs i wc o Hi Ho ->|a cs i wc o Hi Ho|a cs i wc Hi|a cs i Hi];
      cbn [b_available b_callers] in *;
      pose proof (Forall_lookup_1 _ _ _ _ Hall Hi) as Hc; cbn in Hc;
      (split; [|apply Forall_insert; [done|lia || done]]);
      match goal with |- context [<[_ := ?d]> cs] => pose proof (sum_leased_insert cs i _ d Hi) as Hs end;
      cbn [leased] in Hs; lia. }
  split; [done|]. intros i wc Hi. pose proof (Forall_lookup_1 _ _ _ _ Hall Hi) as Hc. cbn in Hc.
  pose proof (sum_leased_insert _ i _ CIdle Hi) as Hs. cbn [leased] in Hs. lia.
Qed.

(** ** Witnesses *)

(** SHA-256 itself; fixed-length stand-ins for the longer digests. *)
#[local] Instance toy_sha2 : Sha2 := {|
  Sha256_digest := sha256;
  Sha384_digest m := take 48 (sha256 m ++ sha256 (0%Z :: m));
  Sha512_digest m := sha256 m ++ sha256 (0%Z :: m);
|}.
#[local] Instance toy_sha2_laws : Sha2Laws.
Proof.
  split; intros m; cbn [Sha256_digest Sha384_digest Sha512_digest toy_sha2];
    rewrite ?length_take, ?length_app, ?sha256_length; done.
Qed.
#[local] Instance ordered_rayon : Rayon := λ css, Some (concat css).
#[local] Instance ordered_rayon_laws : RayonLaws.
Proof. split. by intros css rs [= <-]. Qed.

Definition example_job (n : nat) : DigestJob := {|
  dj_credential_id := 7; dj_job_id := Z.of_nat n; dj_ordinal := n; dj_algorithm := SHA256;
  dj_input := replicate n 0x61%Z;
|}.

Lemma simd_executor_equivalent_witness :
  execute {| simd_target := true |} (example_job <$> seq 0 9) =
  execute Serial (example_job <$> seq 0 9).
Proof. apply (simd_executor_equivalent true (example_job <$> seq 0 9)). Defined.

Lemma native_executors_equivalent_witness :
  let h := {| host_pool := Some 4; host_budget := 4; host_parallelism := 4 |} in
  execute (NativeParallelDigestExecutor_new 2 h) (example_job <$> seq 0 3) =
    Ok (execute_digest_job <$> (example_job <$> seq 0 3)) ∧
  execute Serial (example_job <$> seq 0 3) = Ok (execute_digest_job <$> (example_job <$> seq 0 3)).
Proof.
  intros h. split; [reflexivity|].
  apply (proj1 (native_executors_equivalent (NativeParallelDigestExecutor_new 2 h) h (example_job <$> seq 0 3))).
  reflexivity.
Defined.

Definition big_job : DigestJob := {|
  dj_credential_id := 1; dj_job_id := 1; dj_ordinal := 0; dj_algorithm := SHA256;
  dj_input := replicate 4096 0%Z;
|}.
Lemma adaptive_policy_witness :
  length (chunks (static_chunk_size 512 4) (replicate 512 big_job)) ≤ 4.
Proof.
  assert (select_adaptive_digest_execution_mode (replicate 512 big_job) 16 = ModeNativeParallel 4) as Hm
    by (vm_compute; reflexivity).
  destruct (adaptive_policy (replicate 512 big_job) 16 4 Hm) as (_ & _ & _ & _ & Hl & _).
  rewrite length_replicate in Hl. exact Hl.
Defined.

Lemma budget_conserved_witness :
  let b := {| b_available := 1; b_callers := [CLease 3; CIdle] |} in
  rtc (budget_step 4) (budget_init 4 2) b ∧ b_available b + sum_list_with leased (b_callers b) = 4.
Proof.
  intros b.
  assert (rtc (budget_step 4) (budget_init 4 2) b) as Hr.
  { eapply rtc_l; [apply (step_load 4 4 [CIdle; CIdle] 0 3); [done|lia]|].
    eapply rtc_l; [apply (step_exchange_fails 4 4 [CLoop 3 4; CIdle] 0 3 4); [done|lia]|].
    eapply rtc_l; [apply (step_exchange 4 4 [CLoop 3 4; CIdle] 0 3 4); [done|lia|done]|].
    apply rtc_refl. }
  split; [exact Hr|]. apply (budget_conserved 4 2 b Hr).
Defined.
