(* ===== verification/Cose.v ===== *)
(** * COSE messages ([src/cose.rs], [src/cose/sign1.rs], [src/cose/mac0.rs])

    [COSE_Sign1] and [COSE_Mac0] messages prepared for a remote signer, finalized
    and verified, the optional CBOR tag around them and the wrapper that passes them
    through serde ([src/cose/serialized_as_cbor_value.rs]).  The message types are
    those of the [coset] crate, with the fields the code uses; the to-be-signed
    structures and the signature schemes are interfaces. *)

From S2P Require Export CoseKey SessionCrypto.

(** ** The message types of [coset] *)

Inductive RegisteredAlgorithm : Type :=
  | Assigned (a : Algorithm)
  | PrivateUse (n : Z)
  | AlgorithmText (s : string).
Inductive Label : Type := LabelInt (n : Z) | LabelText (s : string).
#[export] Instance RegisteredAlgorithm_eq_dec : EqDecision RegisteredAlgorithm.
Proof. solve_decision. Defined.
#[export] Instance Label_eq_dec : EqDecision Label. Proof. solve_decision. Defined.

Record Header : Type := { hdr_alg : option RegisteredAlgorithm; hdr_rest : list (Label * Value) }.
#[export] Instance Header_eq_dec : EqDecision Header. Proof. solve_decision. Defined.
Definition Header_default : Header := {| hdr_alg := None; hdr_rest := [] |}.

Record CoseSign1 : Type := {
  s1_protected : Header;
  s1_unprotected : Header;
  s1_payload : option bytes;
  s1_signature : bytes;
}.
Record CoseMac0 : Type := {
  m0_protected : Header;
  m0_unprotected : Header;
  m0_payload : option bytes;
  m0_tag : bytes;
}.
#[export] Instance CoseSign1_eq_dec : EqDecision CoseSign1. Proof. solve_decision. Defined.
#[export] Instance CoseMac0_eq_dec : EqDecision CoseMac0. Proof. solve_decision. Defined.

(** [coset::sig_structure_data] and [coset::mac_structure_data] for a protected
    header, external data and a payload. *)
Class ToBeSigned := {
  sig_structure_data : Header → bytes → bytes → bytes;
  mac_structure_data : Header → bytes → bytes → bytes;
}.

(** A signature scheme: how signatures parse and what the verifier accepts. *)
Class Verifier (V S : Type) := {
  verifier_algorithm : V → Algorithm;
  signature_try_from : bytes → result S unit;
  verifier_verify : V → bytes → S → result unit unit;
}.

(** ** Optional tags ([src/cose.rs]) *)

Record MaybeTagged (T : Type) : Type := { tagged : bool; message : T }.
Arguments tagged {T} _.
Arguments message {T} _.
#[export] Instance MaybeTagged_eq_dec {T} `{EqDecision T} : EqDecision (MaybeTagged T).
Proof. solve_decision. Defined.

(** [AsCborValue] and [TaggedCborSerializable]. *)
Class AsCborValue (T : Type) := {
  cose_tag : u64;
  to_cbor_value : T → result Value CborError;
  from_cbor_value : Value → result T CborError;
}.
Class AsCborValueLaws (T : Type) `{AsCborValue T} : Prop := {
  from_to_cbor_value (x : T) v : to_cbor_value x = Ok v → from_cbor_value v = Ok x;
  to_cbor_value_untagged (x : T) v t w : to_cbor_value x = Ok v → v ≠ Tag t w;
}.

Section maybe_tagged.
Context {T : Type} `{AsCborValue T}.

Definition MaybeTagged_new (tagged : bool) (inner : T) : MaybeTagged T := {| tagged := tagged; message := inner |}.
(** If it is serialized as tagged. *)
Definition is_tagged (m : MaybeTagged T) : bool := tagged m.
Definition set_tagged (m : MaybeTagged T) : MaybeTagged T := {| tagged := true; message := message m |}.

(** [ciborium::tag::Captured]: an item with its outer tag, if it has one. *)
Definition captured_serialize (tag : option u64) (v : Value) : Value :=
  match tag with Some t => Tag t v | None => v end.
Definition captured_deserialize (v : Value) : option u64 * Value :=
  match v with Tag t w => (Some t, w) | _ => (None, v) end.

(** The wrapper of [src/cose/serialized_as_cbor_value.rs]: what is handed to the serializer, and
    what is made of the value that a deserializer gives. *)
Record SerializedAsCborValue : Type := { serialized_value : T }.
Definition SerializedAsCborValue_serialize (x : SerializedAsCborValue) : result Value CborError :=
  to_cbor_value (serialized_value x).
Definition SerializedAsCborValue_deserialize (v : Value) : result SerializedAsCborValue CborError :=
  rmap Build_SerializedAsCborValue (from_cbor_value v).

Definition MaybeTagged_serialize (m : MaybeTagged T) : result Value CborError :=
  let tag := if tagged m then Some cose_tag else None in
  let? v := SerializedAsCborValue_serialize {| serialized_value := message m |} in Ok (captured_serialize tag v).

Inductive TagError : Type := UnexpectedTag | BadMessage (e : CborError).

Definition MaybeTagged_deserialize (v : Value) : result (MaybeTagged T) TagError :=
  let '(tag, w) := captured_deserialize v in
  let? x := map_err BadMessage (SerializedAsCborValue_deserialize w) in
  let? is_tagged :=
    match tag with
    | Some t => if bool_decide (t = cose_tag) then Ok true else Err UnexpectedTag
    | None => Ok false
    end in
  Ok {| tagged := is_tagged; message := serialized_value x |}.
End maybe_tagged.

(** ** [COSE_Sign1] ([src/cose/sign1.rs]) *)

Inductive CoseError : Type :=
  | DoublePayload | NoPayload | MalformedSignature | AlreadySigned | Signing
  | UnableToDeserializeIntoClaimsSet.
#[export] Instance CoseError_eq_dec : EqDecision CoseError. Proof. solve_decision. Defined.

Inductive FailureReason : Type := AlgorithmMismatch | NotAuthentic.
#[export] Instance FailureReason_eq_dec : EqDecision FailureReason. Proof. solve_decision. Defined.
Inductive VerificationResult : Type :=
  | Success
  | Failure (reason : FailureReason)
  | VerificationError (e : CoseError).
#[export] Instance VerificationResult_eq_dec : EqDecision VerificationResult.
Proof. solve_decision. Defined.

Definition is_success (r : VerificationResult) : bool :=
  match r with Success => true | _ => false end.
Definition into_result (r : VerificationResult) : result unit (FailureReason + CoseError) :=
  match r with
  | Success => Ok tt
  | Failure reason => Err (inl reason)
  | VerificationError e => Err (inr e)
  end.
Definition into_error (r : VerificationResult) : option CoseError :=
  match r with VerificationError e => Some e | _ => None end.

(** Exactly one of the attached and the detached payload. *)
Definition select_payload (attached detached : option bytes) : result bytes CoseError :=
  match attached, detached with
  | Some _, Some _ => Err DoublePayload
  | None, None => Err NoPayload
  | Some payload, None => Ok payload
  | None, Some payload => Ok payload
  end.

(** A registered algorithm in the protected header that is not the verifier's. *)
Definition algorithm_mismatch (protected : Header) (a : Algorithm) : bool :=
  match hdr_alg protected with
  | Some (Assigned alg) => bool_decide (a ≠ alg)
  | _ => false
  end.

Record PreparedCoseSign1 : Type := {
  cose_sign1 : MaybeTagged CoseSign1;
  ps1_signature_payload : bytes;
}.

Section sign1.
Context `{ToBeSigned}.

Definition PreparedCoseSign1_new (built : CoseSign1) (detached_payload aad : option bytes) (tagged : bool) :
    result PreparedCoseSign1 CoseError :=
  let? payload := select_payload (s1_payload built) detached_payload in
  Ok {| cose_sign1 := {| tagged := tagged; message := built |};
        ps1_signature_payload := sig_structure_data (s1_protected built) (default [] aad) payload |}.

Definition prepared_algorithm (p : PreparedCoseSign1) : option Algorithm :=
  match hdr_alg (s1_protected (message (cose_sign1 p))) with
  | Some (Assigned algorithm) => Some algorithm
  | _ => None
  end.

Definition finalize (p : PreparedCoseSign1) (signature : bytes) : MaybeTagged CoseSign1 :=
  let m := message (cose_sign1 p) in
  {| tagged := tagged (cose_sign1 p);
     message := {| s1_protected := s1_protected m; s1_unprotected := s1_unprotected m;
                   s1_payload := s1_payload m; s1_signature := signature |} |}.

Definition Sign1_verify {V S} `{Verifier V S} (m : MaybeTagged CoseSign1) (verifier : V)
    (detached_payload external_aad : option bytes) : VerificationResult :=
  let c := message m in
  if algorithm_mismatch (s1_protected c) (verifier_algorithm verifier) then Failure AlgorithmMismatch else
  match select_payload (s1_payload c) detached_payload with
  | Err e => VerificationError e
  | Ok payload =>
      match signature_try_from (s1_signature c) with
      | Err _ => VerificationError MalformedSignature
      | Ok signature =>
          let signature_payload := sig_structure_data (s1_protected c) (default [] external_aad) payload in
          match verifier_verify verifier signature_payload signature with
          | Ok _ => Success
          | Err _ => Failure NotAuthentic
          end
      end
  end.

(** [ClaimsSet::from_slice] is the argument. *)
Definition Sign1_claims_set {C} (from_slice : bytes → result C unit) (m : MaybeTagged CoseSign1) :
    result (option C) CoseError :=
  match s1_payload (message m) with
  | None => Ok None
  | Some payload =>
      match from_slice payload with
      | Err _ => Err UnableToDeserializeIntoClaimsSet
      | Ok c => Ok (Some c)
      end
  end.
End sign1.

(** ** [COSE_Mac0] ([src/cose/mac0.rs]) *)

(** The bytes of the key and the spare capacity of their vector. *)
Record SecretMacKey : Type := { secret_bytes : bytes; secret_spare : bytes }.
(** [drop]: grow to the capacity, fill with zeros, then [Vec::zeroize], which
    also empties the vector. *)
Definition SecretMacKey_drop (k : SecretMacKey) : SecretMacKey :=
  let bytes := zeroize (secret_bytes k ++ secret_spare k) in
  {| secret_bytes := []; secret_spare := zeroize bytes |}.

Record HmacSha256Key : Type := { mac_key : bytes }.
Definition HmacSha256Key_new (key : bytes) : HmacSha256Key := {| mac_key := key |}.

Record PreparedCoseMac0 : Type := { cose_mac0 : MaybeTagged CoseMac0; tag_payload : bytes }.

Section mac0.
Context `{Sha256Compress, ToBeSigned}.

(** [None] is a panic of the hasher or of [expect]. *)
Definition mac_tag (k : HmacSha256Key) (payload : bytes) : option bytes :=
  '(r, output, _) ← hmac_sha256_with_scratch (mac_key k) [payload] (replicate 32 0%Z)
                      HmacSha256Scratch_default (Ok tt);
  match r with Ok _ => Some output | Err _ => None end.

Definition verify_payload (k : HmacSha256Key) (payload tag : bytes) : option bool :=
  '(r, output, _) ← hmac_sha256_with_scratch (mac_key k) [payload] (replicate 32 0%Z)
                      HmacSha256Scratch_default (Ok tt);
  match r with
  | Ok _ => Some (bool_decide (length tag = length output) && bool_decide (output = tag))
  | Err _ => None
  end.

Definition PreparedCoseMac0_new (built : CoseMac0) (detached_payload aad : option bytes) (tagged : bool) :
    result PreparedCoseMac0 CoseError :=
  let? payload := select_payload (m0_payload built) detached_payload in
  Ok {| cose_mac0 := {| tagged := tagged; message := built |};
        tag_payload := mac_structure_data (m0_protected built) (default [] aad) payload |}.

Definition Mac0_finalize (p : PreparedCoseMac0) (tag : bytes) : MaybeTagged CoseMac0 :=
  let m := message (cose_mac0 p) in
  {| tagged := tagged (cose_mac0 p);
     message := {| m0_protected := m0_protected m; m0_unprotected := m0_unprotected m;
                   m0_payload := m0_payload m; m0_tag := tag |} |}.

Definition Mac0_verify (m : MaybeTagged CoseMac0) (verifier : HmacSha256Key)
    (detached_payload external_aad : option bytes) : option VerificationResult :=
  let c := message m in
  if algorithm_mismatch (m0_protected c) HMAC_256_256 then Some (Failure AlgorithmMismatch) else
  match select_payload (m0_payload c) detached_payload with
  | Err e => Some (VerificationError e)
  | Ok payload =>
      let tag_payload := mac_structure_data (m0_protected c) (default [] external_aad) payload in
      ok ← verify_payload verifier tag_payload (m0_tag c);
      Some (if ok : bool then Success else Failure NotAuthentic)
  end.

Definition Mac0_claims_set {C} (from_slice : bytes → result C unit) (m : MaybeTagged CoseMac0) :
    result (option C) CoseError :=
  match m0_payload (message m) with
  | None => Ok None
  | Some payload =>
      match from_slice payload with
      | Err _ => Err UnableToDeserializeIntoClaimsSet
      | Ok c => Ok (Some c)
      end
  end.
End mac0.

(** ** Properties *)

(** The algorithm of a protected header admits another algorithm: it names no
    registered one, or that one. *)
Definition algorithm_admits (h : Header) (a : Algorithm) : Prop :=
  match hdr_alg h with Some (Assigned alg) => a = alg | _ => True end.

Lemma mismatch_false h a : algorithm_mismatch h a = false ↔ algorithm_admits h a.
Proof.
  unfold algorithm_mismatch, algorithm_admits. destruct (hdr_alg h) as [[alg|n|s]|]; try done.
  rewrite bool_decide_eq_false. destruct (decide (a = alg)); naive_solver.
Qed.

Section sign1_props.
Context `{ToBeSigned} {V S : Type} `{Verifier V S}.

Lemma Sign1_verify_success m v detached aad :
  Sign1_verify m v detached aad = Success ↔
  algorithm_admits (s1_protected (message m)) (verifier_algorithm v) ∧
  ∃ payload signature,
    select_payload (s1_payload (message m)) detached = Ok payload ∧
    signature_try_from (s1_signature (message m)) = Ok signature ∧
    verifier_verify v (sig_structure_data (s1_protected (message m)) (default [] aad) payload) signature = Ok tt.
Proof.
  rewrite <-mismatch_false. unfold Sign1_verify. cbv zeta.
  destruct (algorithm_mismatch _ _); [split; [done|by intros [? _]]|].
  destruct (select_payload _ _) as [p|e]; [|split; [done|by intros (_ & ? & ? & ? & _)]].
  destruct (signature_try_from _) as [s|e]; [|split; [done|by intros (_ & ? & ? & _ & ? & _)]].
  destruct (verifier_verify _ _ s) as [[]|[]] eqn:Hv.
  - split; [intros _; split; [done|]; by exists p, s|done].
  - split; [done|]. intros (_ & p' & s' & [= <-] & [= <-] & Hs). congruence.
Qed.

(** A [COSE_Sign1] verifies exactly when its protected algorithm (if it is a
      registered one) is the verifier's, exactly one of the attached and detached
      payloads is present, and the scheme accepts the signature over the protected
      header, the external data and that payload; so a signature made over the
      prepared payload verifies once it is filled in. *)
Theorem sign1_verify_spec m v detached aad :
  (Sign1_verify m v detached aad = Success ↔
   algorithm_admits (s1_protected (message m)) (verifier_algorithm v) ∧
   ∃ payload signature,
     select_payload (s1_payload (message m)) detached = Ok payload ∧
     signature_try_from (s1_signature (message m)) = Ok signature ∧
     verifier_verify v (sig_structure_data (s1_protected (message m)) (default [] aad) payload) signature = Ok tt) ∧
  (∀ built is_tagged p raw signature,
     PreparedCoseSign1_new built detached aad is_tagged = Ok p →
     algorithm_admits (s1_protected built) (verifier_algorithm v) →
     signature_try_from raw = Ok signature →
     verifier_verify v (ps1_signature_payload p) signature = Ok tt →
     Sign1_verify (finalize p raw) v detached aad = Success).
Proof.
  split; [apply Sign1_verify_success|]. unfold PreparedCoseSign1_new. intros built is_tagged p raw signature Hp Ha Hs Hv.
  inv_result. apply Sign1_verify_success. split; [exact Ha|]. by exists t, signature.
Qed.
End sign1_props.

(** A dropped key leaves zeros in the whole of its allocation. *)
Lemma SecretMacKey_drop_wipes k :
  secret_bytes (SecretMacKey_drop k) = [] ∧
  secret_spare (SecretMacKey_drop k) = replicate (length (secret_bytes k) + length (secret_spare k)) 0%Z.
Proof.
  split; [done|]. unfold SecretMacKey_drop, zeroize. cbn [secret_spare]. rewrite <-length_app.
  induction (secret_bytes k ++ secret_spare k) as [|x l IH]; [done|]. rewrite !fmap_cons, IH. done.
Qed.

Section mac0_props.
Context `{Sha256CompressLaws, ToBeSigned}.

Definition mac_bounded (k : HmacSha256Key) (payload : bytes) : Prop :=
  (8 * Z.of_nat (length (mac_key k)) ≤ u64_max)%Z ∧ (8 * Z.of_nat (64 + length payload) ≤ u64_max)%Z.

Lemma hmac_single k payload :
  mac_bounded k payload →
  hmac_sha256_with_scratch (mac_key k) [payload] (replicate 32 0%Z) HmacSha256Scratch_default (Ok tt) =
  Some (Ok tt, hmac_sha256 (mac_key k) payload, HmacSha256Scratch_default).
Proof.
  intros [Hk Hp]. rewrite hmac_32_spec; [|by split|by rewrite length_replicate|done|].
  - cbn [concat]. by rewrite app_nil_r.
  - cbn [concat]. by rewrite app_nil_r.
Qed.

Lemma verify_payload_spec k payload tag :
  mac_bounded k payload →
  verify_payload k payload tag = Some (bool_decide (tag = hmac_sha256 (mac_key k) payload)).
Proof.
  intros Hb. unfold verify_payload. rewrite hmac_single by done. cbn [mbind option_bind]. f_equal.
  destruct (decide (tag = hmac_sha256 (mac_key k) payload)) as [->|Hne]; [by rewrite !bool_decide_true|].
  rewrite (bool_decide_false (_ = tag)), (bool_decide_false (tag = _)) by congruence. by rewrite andb_false_r.
Qed.

(** The whole verdict, given that the MAC structure fits the hash. *)
Lemma Mac0_verify_value m k detached aad :
  (∀ payload, mac_bounded k (mac_structure_data (m0_protected (message m)) (default [] aad) payload)) →
  Mac0_verify m k detached aad = Some (
    if algorithm_mismatch (m0_protected (message m)) HMAC_256_256 then Failure AlgorithmMismatch
    else match select_payload (m0_payload (message m)) detached with
         | Err e => VerificationError e
         | Ok payload => if bool_decide (m0_tag (message m) = hmac_sha256 (mac_key k)
             (mac_structure_data (m0_protected (message m)) (default [] aad) payload))
           then Success else Failure NotAuthentic
         end).
Proof.
  intros Hb. unfold Mac0_verify. cbv zeta. destruct (algorithm_mismatch _ _); [done|].
  destruct (select_payload _ _); [|done]. by rewrite verify_payload_spec.
Qed.

Lemma Mac0_verify_success m k detached aad :
  (∀ payload, mac_bounded k (mac_structure_data (m0_protected (message m)) (default [] aad) payload)) →
  Mac0_verify m k detached aad = Some Success ↔
  algorithm_admits (m0_protected (message m)) HMAC_256_256 ∧
  ∃ payload, select_payload (m0_payload (message m)) detached = Ok payload ∧
    m0_tag (message m) =
    hmac_sha256 (mac_key k) (mac_structure_data (m0_protected (message m)) (default [] aad) payload).
Proof.
  intros Hb. rewrite Mac0_verify_value by done. rewrite <-mismatch_false.
  destruct (algorithm_mismatch _ _); [split; [done|by intros [? _]]|].
  destruct (select_payload _ _) as [payload|e]; [|split; [done|by intros (_ & ? & ? & _)]].
  case_bool_decide as Ht.
  - split; [intros _; split; [done|]; by exists payload|done].
  - split; [done|]. intros (_ & p' & [= <-] & Hp). by destruct Ht.
Qed.

(** A [COSE_Mac0] verifies exactly when its protected algorithm (if registered)
      is HMAC 256/256, exactly one payload is present, and its tag is the full
      HMAC-SHA-256 of the MAC structure; verification never panics, and the tag
      computed over the prepared payload verifies under the same key. *)
Theorem mac0_verify_spec m k detached aad :
  (∀ payload, mac_bounded k (mac_structure_data (m0_protected (message m)) (default [] aad) payload)) →
  is_Some (Mac0_verify m k detached aad) ∧
  (Mac0_verify m k detached aad = Some Success ↔
   algorithm_admits (m0_protected (message m)) HMAC_256_256 ∧
   ∃ payload, select_payload (m0_payload (message m)) detached = Ok payload ∧
     m0_tag (message m) =
     hmac_sha256 (mac_key k) (mac_structure_data (m0_protected (message m)) (default [] aad) payload)) ∧
  (∀ p tag, PreparedCoseMac0_new (message m) detached aad (tagged m) = Ok p →
     algorithm_admits (m0_protected (message m)) HMAC_256_256 →
     mac_tag k (tag_payload p) = Some tag →
     Mac0_verify (Mac0_finalize p tag) k detached aad = Some Success).
Proof.
  intros Hb. split_and!; [rewrite Mac0_verify_value by done; by eexists|by apply Mac0_verify_success|].
  unfold PreparedCoseMac0_new. intros p tag Hp Ha Ht. inv_result. cbn [tag_payload] in Ht.
  unfold mac_tag in Ht. rewrite hmac_single in Ht by apply Hb. injection Ht as <-.
  apply Mac0_verify_success; [exact Hb|]. split; [exact Ha|]. eauto.
Qed.
End mac0_props.

(** A possibly tagged message reads back from its CBOR form with the same tag
      state, and a message under any other tag is refused. *)
Theorem MaybeTagged_roundtrip {T} `{AsCborValueLaws T} (m : MaybeTagged T) v t w :
  MaybeTagged_serialize m = Ok v →
  MaybeTagged_deserialize v = Ok m ∧
  (t ≠ cose_tag → ∀ m', MaybeTagged_deserialize (Tag t w) ≠ Ok m').
Proof.
  unfold MaybeTagged_serialize, MaybeTagged_deserialize, SerializedAsCborValue_serialize, SerializedAsCborValue_deserialize.
  cbn [serialized_value]. intros Hv. split.
  - inv_result. destruct m as [[] x]; cbn [tagged message] in *; cbn [captured_serialize].
    + cbn [captured_deserialize]. rewrite (from_to_cbor_value _ _ Hr). cbn [map_err rbind].
      by rewrite bool_decide_true.
    + assert (captured_deserialize t0 = (None, t0)) as ->.
      { destruct t0; try done. by destruct (to_cbor_value_untagged _ _ tag t0 Hr). }
      rewrite (from_to_cbor_value _ _ Hr). done.
  - intros Ht m'. cbn [captured_deserialize]. destruct (from_cbor_value w); [|done].
    cbn [map_err rbind]. by rewrite bool_decide_false.
Qed.

(** ** Witnesses *)

(** A to-be-signed structure that lists its parts, and a scheme that signs by copying. *)
#[local] Instance toy_tbs : ToBeSigned := {|
  sig_structure_data h aad payload := Z.of_nat (length (hdr_rest h)) :: aad ++ payload;
  mac_structure_data h aad payload := firstn 64 (aad ++ payload);
|}.
#[local] Instance toy_verifier : Verifier Algorithm bytes := {|
  verifier_algorithm v := v;
  signature_try_from b := Ok b;
  verifier_verify v m s := if bool_decide (m = s) then Ok tt else Err tt;
|}.

Definition example_header : Header := {| hdr_alg := Some (Assigned ES256); hdr_rest := [] |}.
Definition example_sign1 : CoseSign1 := {|
  s1_protected := example_header; s1_unprotected := Header_default;
  s1_payload := Some [1; 2]%Z; s1_signature := [];
|}.
Lemma sign1_verify_spec_witness :
  ∃ p, PreparedCoseSign1_new example_sign1 None None true = Ok p ∧
       Sign1_verify (finalize p [0; 1; 2]%Z) ES256 None None = Success.
Proof.
  eexists. split; [reflexivity|].
  apply (proj2 (sign1_verify_spec {| tagged := true; message := example_sign1 |} ES256 None None)
    example_sign1 true _ [0; 1; 2]%Z [0; 1; 2]%Z); reflexivity.
Defined.

Definition example_mac0 : CoseMac0 := {|
  m0_protected := {| hdr_alg := Some (Assigned HMAC_256_256); hdr_rest := [] |};
  m0_unprotected := Header_default; m0_payload := None; m0_tag := [];
|}.
Lemma mac0_verify_spec_witness :
  is_Some (Mac0_verify {| tagged := false; message := example_mac0 |} {| mac_key := [7]%Z |} (Some [1]%Z) None).
Proof.
  apply (mac0_verify_spec {| tagged := false; message := example_mac0 |} {| mac_key := [7]%Z |} (Some [1]%Z) None).
  intros payload. split; [done|]. cbn [mac_structure_data toy_tbs]. pose proof (firstn_le_length 64 (default [] None ++ payload)).
  unfold u64_max. lia.
Defined.

#[local] Instance toy_message : AsCborValue Z := {|
  cose_tag := 18;
  to_cbor_value n := Ok (Integer n);
  from_cbor_value v := match v with Integer n => Ok n | _ => Err DecodeFailed end;
|}.
#[local] Instance toy_message_laws : AsCborValueLaws Z.
Proof. split; [by intros x v [= <-]|by intros x v t w [= <-]]. Qed.
Lemma MaybeTagged_roundtrip_witness :
  MaybeTagged_deserialize (Tag 18 (Integer 4)) = Ok {| tagged := true; message := 4%Z |}.
Proof.
  apply (MaybeTagged_roundtrip {| tagged := true; message := 4%Z |} (Tag 18 (Integer 4)) 0 Null). reflexivity.
Defined.
