(* ===== verification/Mso.v ===== *)
(** * The mobile security object ([src/definitions/mso.rs], [validity_info.rs], [issuer_signed.rs])

    Digest identifiers, validity information and its CBOR form, the security
    object, and issuer-signed items with the reader of the optional disclosure
    map.  Dates are moments with an offset; RFC 3339 text is an interface, and so is the
    serializer of the security object, over the conversions written here. *)

From S2P Require Export Cose DigestExecutor.

(** ** Dates of the [time] crate *)

(** Nanoseconds since the epoch, and the offset the date is shown in. *)
Record OffsetDateTime : Type := { odt_nanos : Z; odt_offset : Z }.
#[export] Instance OffsetDateTime_eq_dec : EqDecision OffsetDateTime.
Proof. solve_decision. Defined.

Definition nanos_per_second : Z := 1000000000.
(** The second of a date, and the moments that have a year between -9999 and 9999 in UTC,
    which is what the crate represents without its feature [large-dates], or between 0 and
    9999, which is what RFC 3339 can write. *)
Definition unix_second (d : OffsetDateTime) : Z := odt_nanos d / nanos_per_second.
Definition representable (d : OffsetDateTime) : Prop := (-377705116800 ≤ unix_second d ≤ 253402300799)%Z.
Definition writable (d : OffsetDateTime) : Prop := (-62167219200 ≤ unix_second d ≤ 253402300799)%Z.
#[export] Instance representable_dec d : Decision (representable d). Proof. apply _. Defined.
#[export] Instance writable_dec d : Decision (writable d). Proof. apply _. Defined.

Class Rfc3339 := {
  rfc3339_format : OffsetDateTime → result string unit;
  rfc3339_parse : string → result OffsetDateTime unit;
}.
(** Whole-second UTC dates read back from their text; a UTC date has a text
    exactly when its year has four digits. *)
Class Rfc3339Laws `{Rfc3339} : Prop := {
  rfc3339_roundtrip d s :
    odt_offset d = 0%Z → (odt_nanos d mod nanos_per_second = 0)%Z →
    rfc3339_format d = Ok s → rfc3339_parse s = Ok d;
  rfc3339_formats d : odt_offset d = 0%Z → is_ok (rfc3339_format d) = bool_decide (writable d);
}.

(** [date.replace_millisecond(0)]: clears everything below the second. *)
Definition replace_millisecond_0 (d : OffsetDateTime) : OffsetDateTime :=
  {| odt_nanos := odt_nanos d - odt_nanos d mod nanos_per_second; odt_offset := odt_offset d |}.
(** [date.to_offset(UtcOffset::UTC)] panics when the year in UTC is out of range. *)
Definition to_utc (d : OffsetDateTime) : option OffsetDateTime :=
  if bool_decide (representable d) then Some {| odt_nanos := odt_nanos d; odt_offset := 0 |} else None.

(** ** Validity information *)

Record ValidityInfo : Type := {
  signed : OffsetDateTime;
  valid_from : OffsetDateTime;
  valid_until : OffsetDateTime;
  expected_update : option OffsetDateTime;
}.
#[export] Instance ValidityInfo_eq_dec : EqDecision ValidityInfo. Proof. solve_decision. Defined.

Inductive ValidityError : Type :=
  | MissingField (key : string) | ValidityNotAMap (v : Value) | NotATextString (v : Value)
  | NotATag (tag : u64) (v : Value) | UnableToFormatDate | UnableToParseDate | ValidityCborError.

Section validity_info.
Context `{Rfc3339}.

(** The [insert_date!] macro; [None] is the panic of [to_offset]. *)
Definition insert_date (d : OffsetDateTime) (name : string) : option (result (Value * Value) ValidityError) :=
  utc ← to_utc (replace_millisecond_0 d);
  Some (let? s := map_err (λ _, UnableToFormatDate) (rfc3339_format utc) in Ok (Text name, Tag 0 (Text s))).

Definition ValidityInfo_into_value (v : ValidityInfo) : option (result Value ValidityError) :=
  let* e1 := insert_date (signed v) "signed" in
  let* e2 := insert_date (valid_from v) "validFrom" in
  let* e3 := insert_date (valid_until v) "validUntil" in
  match expected_update v with
  | Some d => let* e4 := insert_date d "expectedUpdate" in Some (Ok (Map [e1; e2; e3; e4]))
  | None => Some (Ok (Map [e1; e2; e3]))
  end.

Definition cbor_to_datetime (v : Value) : result OffsetDateTime ValidityError :=
  match v with
  | Tag t inner =>
      if bool_decide (t = 0)%Z then
        match inner with
        | Text date_str => map_err (λ _, UnableToParseDate) (rfc3339_parse date_str)
        | _ => Err (NotATextString inner)
        end
      else Err (NotATag 0 v)
  | _ => Err (NotATag 0 v)
  end.

Definition text_key (kv : Value * Value) : result (string * Value) ValidityError :=
  match kv.1 with Text k => Ok (k, kv.2) | _ => Err ValidityCborError end.

(** The [extract_date!] macro. *)
Definition extract_date (map : btree string Value) (name : string) : result OffsetDateTime ValidityError :=
  let? v := ok_or (MissingField name) (map !! name) in cbor_to_datetime v.

Definition ValidityInfo_try_from (v : Value) : result ValidityInfo ValidityError :=
  match v with
  | Map entries =>
      let? kvs := try_map text_key entries in
      let map : btree string Value := collect kvs in
      let? signed := extract_date map "signed" in
      let? valid_from := extract_date map "validFrom" in
      let? valid_until := extract_date map "validUntil" in
      let? expected_update :=
        match map !! "expectedUpdate"%string with
        | None => Ok None
        | Some v => let? d := cbor_to_datetime v in Ok (Some d)
        end in
      Ok {| signed := signed; valid_from := valid_from; valid_until := valid_until;
            expected_update := expected_update |}
  | _ => Err (ValidityNotAMap v)
  end.
End validity_info.

(** What is written: whole seconds, in UTC. *)
Definition trimmed (d : OffsetDateTime) : OffsetDateTime :=
  {| odt_nanos := nanos_per_second * unix_second d; odt_offset := 0 |}.
Definition ValidityInfo_trimmed (v : ValidityInfo) : ValidityInfo := {|
  signed := trimmed (signed v);
  valid_from := trimmed (valid_from v);
  valid_until := trimmed (valid_until v);
  expected_update := trimmed <$> expected_update v;
|}.

(** ** Digest identifiers and the security object *)

Definition i32_min : Z := - 2 ^ 31.
Definition i32_max : Z := 2 ^ 31 - 1.
Definition is_i32 (i : Z) : Prop := (i32_min ≤ i ≤ i32_max)%Z.

(** [DigestId(i32)] is its number.  [-i] wraps around, as in builds without
    overflow checks. *)
Definition wrap_i32 (i : Z) : i32 := (i + 2 ^ 31) mod 2 ^ 32 - 2 ^ 31.
Definition DigestId_new (i : i32) : i32 := if (i <? 0)%Z then wrap_i32 (- i) else i.

Abbreviation DigestIds := (btree Z ByteStr).

Record Mso : Type := {
  mso_version : string;
  digest_algorithm : DigestAlgorithm;
  value_digests : btree string DigestIds;
  device_key_info : DeviceKeyInfo;
  mso_doc_type : string;
  validity_info : ValidityInfo;
}.

Definition with_validity (v : ValidityInfo) (m : Mso) : Mso := {|
  mso_version := mso_version m; digest_algorithm := digest_algorithm m; value_digests := value_digests m;
  device_key_info := device_key_info m; mso_doc_type := mso_doc_type m; validity_info := v;
|}.

(** What the fields of the Rust type can hold. *)
Definition Mso_wf (m : Mso) : Prop :=
  DeviceKeyInfo_wf (device_key_info m) ∧
  ∀ ns digests id d, value_digests m !! ns = Some digests → digests !! id = Some d → is_i32 id.

(** The derived serializer writes the validity information through its conversion to a
    value and succeeds only if that does; the derived reader reads every field back, and
    the validity information through its conversion from that value. *)
Class MsoSerde `{Serde Mso, Rfc3339} : Prop := {
  mso_writes m v :
    Mso_wf m → ValidityInfo_into_value (validity_info m) = Some (Ok v) → is_ok (to_vec m);
  mso_reads m b :
    Mso_wf m → to_vec m = Ok b →
    ∃ v, ValidityInfo_into_value (validity_info m) = Some (Ok v) ∧
      ∀ w, ValidityInfo_try_from v = Ok w → from_slice b = Ok (with_validity w m);
}.

(** ** Issuer-signed items *)

Record IssuerSignedItem : Type := {
  digest_id : i32;
  random : ByteStr;
  element_identifier : string;
  element_value : Value;
}.
#[export] Instance IssuerSignedItem_eq_dec : EqDecision IssuerSignedItem.
Proof. solve_decision. Defined.

Abbreviation IssuerNamespaces := (NonEmptyMap string (NonEmptyVec (Tag24 IssuerSignedItem))).

Record IssuerSigned : Type := {
  is_namespaces : option IssuerNamespaces;
  issuer_auth : MaybeTagged CoseSign1;
}.

(** [decoded] is what the reader of [Option<BTreeMap<String, Vec<_>>>] returned. *)
Definition deserialize_optional_issuer_namespaces {E}
    (decoded : result (option (btree string (list (Tag24 IssuerSignedItem)))) E) :
    result (option IssuerNamespaces) (E + NonEmptyError) :=
  let? decoded := map_err inl decoded in
  match decoded with
  | None => Ok None
  | Some namespaces =>
      if is_empty namespaces then Ok None else
      let? namespaces := try_map (λ p : string * list (Tag24 IssuerSignedItem),
          let? items := map_err inr (NonEmptyVec_try_from p.2) in Ok (p.1, items)) (entries namespaces) in
      let? m := map_err inr (NonEmptyMap_try_from (collect namespaces)) in
      Ok (Some m)
  end.

(** ** Properties *)

Section validity_props.
Context `{Rfc3339Laws}.

Lemma second_of_multiple n : (nanos_per_second * n / nanos_per_second = n)%Z.
Proof. by rewrite Z.mul_comm, Z.div_mul. Qed.
Lemma trimmed_second d : unix_second (trimmed d) = unix_second d.
Proof. apply second_of_multiple. Qed.
Lemma trimmed_shown d :
  to_utc (replace_millisecond_0 d) = if bool_decide (representable d) then Some (trimmed d) else None.
Proof.
  assert (odt_nanos d - odt_nanos d mod nanos_per_second = nanos_per_second * unix_second d)%Z as Heq.
  { unfold unix_second. pose proof (Z.div_mod (odt_nanos d) nanos_per_second). unfold nanos_per_second in *. lia. }
  assert (representable (replace_millisecond_0 d) ↔ representable d) as Hd.
  { unfold representable, replace_millisecond_0. unfold unix_second at 1 2. cbn [odt_nanos]. by rewrite Heq, second_of_multiple. }
  unfold to_utc. rewrite (bool_decide_ext _ _ Hd). unfold trimmed. by rewrite <-Heq.
Qed.
Lemma shown_trimmed d utc : to_utc d = Some utc → replace_millisecond_0 utc = trimmed d.
Proof.
  unfold to_utc. case_bool_decide; [|done]. intros [= <-]. unfold replace_millisecond_0, trimmed, unix_second. cbn [odt_nanos odt_offset].
  f_equal. pose proof (Z.div_mod (odt_nanos d) nanos_per_second). unfold nanos_per_second in *. lia.
Qed.
Lemma trimmed_formats d : is_ok (rfc3339_format (trimmed d)) = bool_decide (writable d).
Proof. rewrite rfc3339_formats by done. apply bool_decide_ext. unfold writable. by rewrite trimmed_second. Qed.

(** One date: what is written reads back, and when nothing is. *)
Lemma insert_date_read d name kv :
  insert_date d name = Some (Ok kv) → ∃ w, kv = (Text name, w) ∧ cbor_to_datetime w = Ok (trimmed d).
Proof.
  unfold insert_date. rewrite trimmed_shown. case_bool_decide; [|done]. cbn [mbind option_bind]. intros [= Hd]. inv_result.
  eexists. split; [done|]. cbn [cbor_to_datetime]. rewrite bool_decide_true by done.
  rewrite (rfc3339_roundtrip (trimmed d) t); [done|done| |done].
  cbn [trimmed odt_nanos]. by rewrite Z.mul_comm, Z_mod_mult.
Qed.
Lemma insert_date_outcome d name :
  match insert_date d name with
  | Some (Ok _) => writable d
  | Some (Err e) => e = UnableToFormatDate ∧ representable d ∧ ¬ writable d
  | None => ¬ representable d
  end.
Proof.
  unfold insert_date. rewrite trimmed_shown. case_bool_decide as Hd; [|done]. cbn [mbind option_bind].
  pose proof (trimmed_formats d) as Hf. destruct (rfc3339_format (trimmed d)); cbn [map_err rbind is_ok] in *.
  - by apply eq_sym, bool_decide_eq_true in Hf.
  - by apply eq_sym, bool_decide_eq_false in Hf.
Qed.

Definition validity_dates (v : ValidityInfo) : list OffsetDateTime :=
  [signed v; valid_from v; valid_until v] ++ match expected_update v with Some d => [d] | None => [] end.

Ltac solve_dates := cbn [app]; repeat first [apply Forall_nil_2 | apply Forall_cons_2; [assumption|]].

(** Which of the dates decides. *)
Lemma ValidityInfo_dates_outcome v :
  match ValidityInfo_into_value v with
  | Some (Ok _) => Forall writable (validity_dates v)
  | Some (Err e) => e = UnableToFormatDate ∧ ∃ l d k, validity_dates v = l ++ d :: k ∧ Forall writable l ∧
      representable d ∧ ¬ writable d
  | None => ∃ l d k, validity_dates v = l ++ d :: k ∧ Forall writable l ∧ ¬ representable d
  end.
Proof.
  unfold ValidityInfo_into_value, validity_dates.
  pose proof (insert_date_outcome (signed v) "signed") as H1.
  destruct (insert_date (signed v) _) as [[e1|e1]|]; cbn [obind mbind option_bind].
  2:{ destruct H1 as (-> & ?). split; [done|]. eexists [], _, _. split; [done|]. split; [solve_dates|done]. }
  2:{ eexists [], _, _. split; [done|]. split; [solve_dates|done]. }
  pose proof (insert_date_outcome (valid_from v) "validFrom") as H2.
  destruct (insert_date (valid_from v) _) as [[e2|e2]|]; cbn [obind mbind option_bind].
  2:{ destruct H2 as (-> & ?). split; [done|]. eexists [_], _, _. split; [done|]. split; [solve_dates|done]. }
  2:{ eexists [_], _, _. split; [done|]. split; [solve_dates|done]. }
  pose proof (insert_date_outcome (valid_until v) "validUntil") as H3.
  destruct (insert_date (valid_until v) _) as [[e3|e3]|]; cbn [obind mbind option_bind].
  2:{ destruct H3 as (-> & ?). split; [done|]. eexists [_; _], _, _. split; [done|]. split; [solve_dates|done]. }
  2:{ eexists [_; _], _, _. split; [done|]. split; [solve_dates|done]. }
  destruct (expected_update v) as [d|]; [|solve_dates].
  pose proof (insert_date_outcome d "expectedUpdate") as H4.
  destruct (insert_date d _) as [[e4|e4]|]; cbn [obind mbind option_bind].
  - solve_dates.
  - destruct H4 as (-> & ?). split; [done|]. eexists [_; _; _], _, []. split; [done|]. split; [solve_dates|done].
  - eexists [_; _; _], _, []. split; [done|]. split; [solve_dates|done].
Qed.

Lemma ValidityInfo_reads v entries l :
  ValidityInfo_into_value v = Some (Ok (Map entries)) → l ≡ₚ entries →
  ValidityInfo_try_from (Map l) = Ok (ValidityInfo_trimmed v).
Proof.
  intros Hv Hp.
  assert (∃ w1 w2 w3 wo, entries = (λ kv : string * Value, (Text kv.1, kv.2)) <$>
      ([("signed", w1); ("validFrom", w2); ("validUntil", w3)]%string ++
       match wo with Some w => [("expectedUpdate"%string, w)] | None => [] end) ∧
    cbor_to_datetime w1 = Ok (trimmed (signed v)) ∧ cbor_to_datetime w2 = Ok (trimmed (valid_from v)) ∧
    cbor_to_datetime w3 = Ok (trimmed (valid_until v)) ∧
    match wo, expected_update v with
    | Some w, Some d => cbor_to_datetime w = Ok (trimmed d) | None, None => True | _, _ => False end)
    as (w1 & w2 & w3 & wo & -> & H1 & H2 & H3 & Ho).
  { unfold ValidityInfo_into_value in Hv.
    apply obind_Ok in Hv as (e1 & (w1 & -> & ?)%insert_date_read & Hv).
    apply obind_Ok in Hv as (e2 & (w2 & -> & ?)%insert_date_read & Hv).
    apply obind_Ok in Hv as (e3 & (w3 & -> & ?)%insert_date_read & Hv).
    exists w1, w2, w3. destruct (expected_update v) as [d|].
    - apply obind_Ok in Hv as (e4 & (w4 & -> & ?)%insert_date_read & Hv). injection Hv as <-. by exists (Some w4).
    - injection Hv as <-. by exists None. }
  set (kvs := [_; _; _] ++ _) in Hp. apply Permutation_map_inv in Hp as (kvs' & -> & Hkvs).
  change (map ?f kvs') with (f <$> kvs'). cbn [ValidityInfo_try_from].
  assert (try_map text_key ((λ kv : string * Value, (Text kv.1, kv.2)) <$> kvs') = Ok kvs') as ->.
  { clear. induction kvs' as [|[k w] kvs IH]; [done|]. rewrite fmap_cons.
    cbn [try_map text_key rbind fst snd]. by rewrite IH. }
  cbn [rbind]. rewrite <-(collect_perm kvs kvs'); [| |done].
  2:{ unfold kvs. destruct wo; apply (bool_decide_unpack _); by vm_compute. }
  unfold ValidityInfo_trimmed, extract_date.
  assert (∀ name w, (name, w) ∈ kvs → collect kvs !! name = Some w) as Hlk.
  { intros name w Hin. apply collect_lookup; [|done].
    unfold kvs. destruct wo; apply (bool_decide_unpack _); by vm_compute. }
  rewrite (Hlk "signed"%string w1), (Hlk "validFrom"%string w2), (Hlk "validUntil"%string w3)
    by (unfold kvs; set_solver).
  cbn [ok_or rbind]. rewrite H1. cbn [rbind]. rewrite H2. cbn [rbind]. rewrite H3. cbn [rbind].
  destruct wo as [w4|], (expected_update v) as [d|]; try done.
  rewrite (Hlk "expectedUpdate"%string w4) by (unfold kvs; set_solver). by rewrite Ho.
Qed.

(** C39: Validity information is written exactly when every date has, in UTC, a year between
    0 and 9999; otherwise the first date without one decides: the conversion fails to
    format it, or panics when the crate cannot show it in UTC at all. What is written reads
    back, in whatever order the reader finds the entries, with every date in UTC and
    truncated to its second: earlier than the given date by less than one. *)
Theorem ValidityInfo_roundtrip v :
  match ValidityInfo_into_value v with
  | Some (Ok _) => Forall writable (validity_dates v)
  | Some (Err e) => e = UnableToFormatDate ∧ ∃ l d k, validity_dates v = l ++ d :: k ∧ Forall writable l ∧
      representable d ∧ ¬ writable d
  | None => ∃ l d k, validity_dates v = l ++ d :: k ∧ Forall writable l ∧ ¬ representable d
  end ∧
  (∀ entries l, ValidityInfo_into_value v = Some (Ok (Map entries)) → l ≡ₚ entries →
     ValidityInfo_try_from (Map l) = Ok (ValidityInfo_trimmed v)) ∧
  Forall2 (λ d t, odt_offset t = 0 ∧ odt_nanos t mod nanos_per_second = 0 ∧
      odt_nanos t ≤ odt_nanos d < odt_nanos t + nanos_per_second)%Z
    (validity_dates v) (validity_dates (ValidityInfo_trimmed v)).
Proof.
  split; [apply ValidityInfo_dates_outcome|]. split; [apply ValidityInfo_reads|].
  assert (∀ d, (odt_offset (trimmed d) = 0 ∧ odt_nanos (trimmed d) mod nanos_per_second = 0 ∧
    odt_nanos (trimmed d) ≤ odt_nanos d < odt_nanos (trimmed d) + nanos_per_second)%Z) as Hd.
  { intros d. split; [done|]. cbn [trimmed odt_nanos]. split; [by rewrite Z.mul_comm, Z_mod_mult|].
    unfold unix_second, nanos_per_second. pose proof (Z.div_mod (odt_nanos d) 1000000000).
    pose proof (Z.mod_pos_bound (odt_nanos d) 1000000000). lia. }
  unfold validity_dates. cbn [ValidityInfo_trimmed signed valid_from valid_until expected_update].
  repeat (constructor; [apply Hd|]). destruct (expected_update v); repeat constructor; apply Hd.
Qed.

Lemma ValidityInfo_written v :
  Forall writable (validity_dates v) → ∃ value, ValidityInfo_into_value v = Some (Ok value).
Proof.
  intros Hall. pose proof (ValidityInfo_dates_outcome v) as Hv.
  assert (∀ l d k, validity_dates v = l ++ d :: k → writable d ∧ representable d) as Hd.
  { intros l d k Heq. rewrite Heq, Forall_app, Forall_cons in Hall. destruct Hall as (_ & Hd & _). split; [done|].
    unfold representable, writable in *. lia. }
  destruct (ValidityInfo_into_value v) as [[value|e]|]; [by exists value|exfalso..].
  - destruct Hv as (_ & l & d & k & Heq & _ & _ & Hn). by apply Hn, (Hd _ _ _ Heq).
  - destruct Hv as (l & d & k & Heq & _ & Hn). by apply Hn, (Hd _ _ _ Heq).
Qed.
Lemma Mso_writable `{Serde Mso, !MsoSerde} m :
  Mso_wf m → Forall writable (validity_dates (validity_info m)) → is_ok (to_vec m).
Proof. intros Hm [v Hv]%ValidityInfo_written. by apply (mso_writes m v). Qed.

(** What the reader of a security object gets is the written one with its dates trimmed. *)
Lemma Mso_reads_trimmed `{Serde Mso, !MsoSerde} m b :
  Mso_wf m → to_vec m = Ok b → from_slice b = Ok (with_validity (ValidityInfo_trimmed (validity_info m)) m).
Proof.
  intros Hwf (v & Hv & Hread)%mso_reads; [|done]. apply Hread. pose proof Hv as Hmap. unfold ValidityInfo_into_value in Hmap.
  apply obind_Ok in Hmap as (? & _ & (? & _ & (? & _ & Hmap)%obind_Ok)%obind_Ok).
  destruct (expected_update _); [apply obind_Ok in Hmap as (? & _ & Hmap)|]; injection Hmap as <-;
    by apply (ValidityInfo_reads _ _ _ Hv).
Qed.
End validity_props.

(** [DigestId::new] lands in the documented range [0, 2^31) for every input
      except the smallest [i32], whose negation overflows back to itself; on the
      range it is the absolute value, so two inputs share an identifier only when
      they are opposite. *)
Theorem DigestId_new_range i j :
  is_i32 i → is_i32 j →
  ((0 ≤ DigestId_new i < 2 ^ 31)%Z ↔ i ≠ i32_min) ∧
  (i ≠ i32_min → DigestId_new i = Z.abs i) ∧
  DigestId_new i32_min = i32_min ∧
  (DigestId_new i = DigestId_new j → i = j ∨ i = (- j)%Z).
Proof.
  unfold is_i32, i32_min, i32_max. intros Hi Hj.
  assert (∀ k, (- 2 ^ 31 ≤ k ≤ 2 ^ 31 - 1)%Z →
    DigestId_new k = if decide (k = - 2 ^ 31)%Z then (- 2 ^ 31)%Z else Z.abs k) as Hnew.
  { intros k Hk. unfold DigestId_new, wrap_i32. destruct (Z.ltb_spec k 0).
    - case_decide as Hm; [by subst|]. rewrite Z.mod_small by lia. lia.
    - rewrite decide_False by lia. lia. }
  rewrite !Hnew by lia. split_and!; repeat case_decide; lia.
Qed.

(** ** Witnesses *)

(** Texts for whole seconds: the epoch as in RFC 3339, all others as their number in
    binary digits, lowest first; besides them three texts with an offset are read. *)
Fixpoint bits (p : positive) : string :=
  match p with xH => "1"%string | xO p => "0" +:+ bits p | xI p => "1" +:+ bits p end%string.
Fixpoint read_bits (s : string) : option positive :=
  match s with
  | EmptyString => None
  | String c s' =>
      if bool_decide (Ascii.N_of_ascii c = 48)%N then xO <$> read_bits s'
      else if bool_decide (Ascii.N_of_ascii c = 49)%N then
        match s' with EmptyString => Some xH | _ => xI <$> read_bits s' end
      else None
  end.
Lemma read_bits_bits p : read_bits (bits p) = Some p.
Proof.
  assert (∀ p, bits p ≠ EmptyString) as Hne by by intros [].
  induction p as [p IH|p IH|]; [| |done].
  - change (match bits p with EmptyString => Some xH | _ => xI <$> read_bits (bits p) end = Some (xI p)).
    specialize (Hne p). rewrite IH. by destruct (bits p).
  - change (xO <$> read_bits (bits p) = Some (xO p)). by rewrite IH.
Qed.
Definition first_year : Z := 62167219201.
Definition epoch_text : string := "1970-01-01T00:00:00Z".
Definition known_texts : list (string * OffsetDateTime) := [
  (epoch_text, {| odt_nanos := 0; odt_offset := 0 |});
  ("1970-01-01T01:00:00+01:00", {| odt_nanos := 0; odt_offset := 3600 |});
  ("0000-01-01T00:00:00+01:00", {| odt_nanos := -62167222800 * nanos_per_second; odt_offset := 3600 |});
  ("9999-12-31T23:59:59-01:00", {| odt_nanos := 253402304399 * nanos_per_second; odt_offset := -3600 |})]%string%Z.
#[local] Instance example_rfc3339 : Rfc3339 := {|
  rfc3339_format d :=
    if bool_decide (writable d) then
      Ok (if bool_decide (unix_second d = 0)%Z then epoch_text else bits (Z.to_pos (unix_second d + first_year)))
    else Err tt;
  rfc3339_parse s :=
    match list_find (λ p : string * OffsetDateTime, p.1 = s) known_texts with
    | Some (_, (_, d)) => Ok d
    | None =>
        let? p := ok_or tt (read_bits s) in
        Ok {| odt_nanos := nanos_per_second * (Zpos p - first_year); odt_offset := 0 |}
    end;
|}.
Lemma parse_bits p :
  rfc3339_parse (bits p) = Ok {| odt_nanos := nanos_per_second * (Zpos p - first_year); odt_offset := 0 |}.
Proof.
  cbn [rfc3339_parse example_rfc3339]. destruct (list_find _ _) as [[i [t d]]|] eqn:Hf; [|by rewrite read_bits_bits].
  apply list_find_Some in Hf as (Hi & Ht & _). cbn [fst] in Ht. subst t. exfalso.
  assert (Forall (λ q : string * OffsetDateTime, read_bits q.1 = None) known_texts) as Hnone by by repeat constructor.
  pose proof (Forall_lookup_1 _ _ _ _ Hnone Hi) as Hp. cbn [fst] in Hp. by rewrite read_bits_bits in Hp.
Qed.
#[local] Instance example_rfc3339_laws : Rfc3339Laws.
Proof.
  split.
  - intros [n o] s Ho Hn. cbn [odt_offset] in Ho. subst o. cbn [rfc3339_format example_rfc3339].
    case_bool_decide as Hw; [|done]. intros Hs.
    assert (n = nanos_per_second * unix_second {| odt_nanos := n; odt_offset := 0 |})%Z as Hmul.
    { unfold unix_second. cbn [odt_nanos] in *. rewrite <-Z_div_exact_2; done. }
    case_bool_decide as H0.
    + injection Hs as <-. rewrite H0 in Hmul. by rewrite Hmul.
    + injection Hs as <-. rewrite parse_bits. unfold writable in Hw. unfold first_year.
      rewrite Z2Pos.id by lia. f_equal. f_equal. rewrite Hmul at 2. lia.
  - intros d _. cbn [rfc3339_format example_rfc3339]. by case_bool_decide.
Qed.

Definition example_validity : ValidityInfo := {|
  signed := {| odt_nanos := 7; odt_offset := 3600 |};
  valid_from := {| odt_nanos := 0; odt_offset := 0 |};
  valid_until := {| odt_nanos := 999; odt_offset := 0 |};
  expected_update := None;
|}.
Lemma ValidityInfo_roundtrip_witness :
  (∃ entries, ValidityInfo_into_value example_validity = Some (Ok (Map entries)) ∧
    ValidityInfo_try_from (Map (reverse entries)) = Ok (ValidityInfo_trimmed example_validity)) ∧
  ValidityInfo_trimmed example_validity ≠ example_validity.
Proof.
  split; [|vm_compute; discriminate]. eexists. split; [vm_compute; reflexivity|].
  apply (ValidityInfo_roundtrip example_validity) with (2 := reverse_Permutation _). vm_compute. reflexivity.
Defined.

Lemma DigestId_new_range_witness : (0 ≤ DigestId_new (-7) < 2 ^ 31)%Z ∧ DigestId_new i32_min = i32_min.
Proof.
  split.
  - apply (DigestId_new_range (-7) 3); by vm_compute.
  - apply (DigestId_new_range 1 1); by vm_compute.
Defined.
