(* ===== verification/X509.v ===== *)
(** * Certificates and trust ([src/definitions/x509])

    Certificate chains and their COSE header form, public keys, names, the
    extension checks of ISO 18013-5 Annex B and the three validation rulesets.
    Certificates carry the fields the code reads; DER decoding, SHA-1 and ECDSA
    over the NIST curves are interfaces. *)

From S2P Require Export Cose DigestExecutor.

(** ** Certificates *)

(** An object identifier by its arcs. *)
Abbreviation ObjectIdentifier := (list Z) (only parsing).

Inductive StringTag : Type := PrintableString | Utf8String | Ia5String | TeletexString | OtherTag (n : Z).
Record AttributeValue : Type := { av_tag : StringTag; av_value : bytes }.
Record Attribute : Type := { attr_oid : ObjectIdentifier; attr_value : AttributeValue }.
(** A distinguished name: a sequence of sets of attributes. *)
Abbreviation Name := (list (list Attribute)) (only parsing).

Record Extension : Type := { extn_id : ObjectIdentifier; critical : bool; extn_value : bytes }.
Record SubjectPublicKeyInfo : Type := {
  spki_algorithm : ObjectIdentifier;
  spki_parameters : option bytes;
  spki_unused_bits : Z;
  spki_raw_bytes : bytes;
}.
Record Certificate : Type := {
  subject : Name;
  issuer : Name;
  not_before : u64;
  not_after : u64;
  extensions : option (list Extension);
  subject_public_key_info : SubjectPublicKeyInfo;
  signature_raw_bytes : bytes;
}.
#[export] Instance StringTag_eq_dec : EqDecision StringTag. Proof. solve_decision. Defined.
#[export] Instance AttributeValue_eq_dec : EqDecision AttributeValue. Proof. solve_decision. Defined.
#[export] Instance Attribute_eq_dec : EqDecision Attribute. Proof. solve_decision. Defined.
#[export] Instance Extension_eq_dec : EqDecision Extension. Proof. solve_decision. Defined.
#[export] Instance SubjectPublicKeyInfo_eq_dec : EqDecision SubjectPublicKeyInfo. Proof. solve_decision. Defined.
#[export] Instance Certificate_eq_dec : EqDecision Certificate. Proof. solve_decision. Defined.

(** [certificate.tbs_certificate.extensions.iter().flatten()] *)
Definition extension_list (c : Certificate) : list Extension := default [] (extensions c).

(** *** Decoded extension values of [x509_cert::ext::pkix] *)

(** Key usages as a flag set in the bit order of RFC 5280. *)
Definition DigitalSignature : Z := 2 ^ 0.
Definition KeyCertSign : Z := 2 ^ 5.
Definition CRLSign : Z := 2 ^ 6.

Record BasicConstraints : Type := { ca : bool; path_len_constraint : option Z }.
Inductive GeneralName : Type :=
  | Rfc822Name (s : string) | UniformResourceIdentifier (s : string) | OtherGeneralName (b : bytes).
Inductive DistributionPointName : Type :=
  | FullName (names : list GeneralName) | NameRelativeToCRLIssuer (rdn : list Attribute).
Record DistributionPoint : Type := {
  distribution_point : option DistributionPointName;
  reasons : option Z;
  crl_issuer : option (list GeneralName);
}.

(** PEM armour ([pem_rfc7468], and [der]'s PEM form of certificates). *)
Class Pem := {
  pem_decode : bytes → result bytes unit;
  Certificate_from_pem : string → result Certificate unit;
  Certificate_to_pem : Certificate → result string unit;
}.

(** The DER codec at the types the code decodes. *)
Class Der := {
  Certificate_from_der : bytes → result Certificate unit;
  Certificate_to_der : Certificate → result bytes unit;
  tbs_to_der : Certificate → result bytes unit;
  oid_from_der : bytes → result ObjectIdentifier unit;
  SubjectKeyIdentifier_from_der : bytes → result bytes unit;
  AuthorityKeyIdentifier_from_der : bytes → result (option bytes) unit;
  KeyUsage_from_der : bytes → result Z unit;
  BasicConstraints_from_der : bytes → result BasicConstraints unit;
  CrlDistributionPoints_from_der : bytes → result (list DistributionPoint) unit;
  IssuerAltName_from_der : bytes → result (list GeneralName) unit;
  ExtendedKeyUsage_from_der : bytes → result (list ObjectIdentifier) unit;
  string_from_der : StringTag → bytes → option string;
}.
Class DerLaws `{Der} : Prop := {
  Certificate_der_roundtrip c b : Certificate_to_der c = Ok b → Certificate_from_der b = Ok c;
}.

(** [Sha1::digest] *)
Class Sha1 := Sha1_digest : bytes → bytes.

(** ECDSA over the supported named curves: SEC1 public keys, signatures in their
    fixed-width and DER forms, and verification of a prehashed message. *)
Inductive Curve : Type := NistP256 | NistP384 | NistP521.
#[export] Instance Curve_eq_dec : EqDecision Curve. Proof. solve_decision. Defined.
Class Ecdsa (VK Sig : Type) := {
  PublicKey_from_sec1_bytes : Curve → bytes → result VK unit;
  Signature_from_slice : Curve → bytes → result Sig unit;
  Signature_from_der : bytes → result Sig unit;
  verify_prehashed : Curve → VK → bytes → Sig → result unit unit;
}.

(** *** Well-known object identifiers *)

Definition ID_EC_PUBLIC_KEY : ObjectIdentifier := [1; 2; 840; 10045; 2; 1]%Z.
Definition SECP_256_R_1 : ObjectIdentifier := [1; 2; 840; 10045; 3; 1; 7]%Z.
Definition SECP_384_R_1 : ObjectIdentifier := [1; 3; 132; 0; 34]%Z.
Definition SECP_521_R_1 : ObjectIdentifier := [1; 3; 132; 0; 35]%Z.
Definition COMMON_NAME : ObjectIdentifier := [2; 5; 4; 3]%Z.
Definition COUNTRY_NAME : ObjectIdentifier := [2; 5; 4; 6]%Z.
Definition STATE_OR_PROVINCE_NAME : ObjectIdentifier := [2; 5; 4; 8]%Z.
Definition id_ce (n : Z) : ObjectIdentifier := [2; 5; 29; n]%Z.
Definition SubjectKeyIdentifier_OID := id_ce 14.
Definition KeyUsage_OID := id_ce 15.
Definition IssuerAltName_OID := id_ce 18.
Definition BasicConstraints_OID := id_ce 19.
Definition NameConstraints_OID := id_ce 30.
Definition CrlDistributionPoints_OID := id_ce 31.
Definition PolicyMappings_OID := id_ce 33.
Definition AuthorityKeyIdentifier_OID := id_ce 35.
Definition PolicyConstraints_OID := id_ce 36.
Definition ExtendedKeyUsage_OID := id_ce 37.
Definition FreshestCrl_OID := id_ce 46.
Definition InhibitAnyPolicy_OID := id_ce 54.

Definition CURVE_OID (c : Curve) : ObjectIdentifier :=
  match c with NistP256 => SECP_256_R_1 | NistP384 => SECP_384_R_1 | NistP521 => SECP_521_R_1 end.

(** ** Public keys and names ([util.rs]) *)

Inductive PublicKeyError : Type :=
  | NotEcPublicKey | MissingCurveParameters | ParametersNotAnOid | UnexpectedNamedCurve
  | UnusedBits | InvalidSec1Key.
#[export] Instance PublicKeyError_eq_dec : EqDecision PublicKeyError. Proof. solve_decision. Defined.

Section util.
Context `{Der} {VK Sig : Type} `{Ecdsa VK Sig}.

Definition public_key_with_oid (curve : Curve) (c : Certificate) (expected_curve_oid : ObjectIdentifier) :
    result VK PublicKeyError :=
  let spki := subject_public_key_info c in
  if decide (spki_algorithm spki ≠ ID_EC_PUBLIC_KEY) then Err NotEcPublicKey else
  let? parameters := ok_or MissingCurveParameters (spki_parameters spki) in
  let? curve_oid := map_err (λ _, ParametersNotAnOid) (oid_from_der parameters) in
  if decide (curve_oid ≠ expected_curve_oid) then Err UnexpectedNamedCurve else
  if decide (spki_unused_bits spki ≠ 0)%Z then Err UnusedBits else
  map_err (λ _, InvalidSec1Key) (PublicKey_from_sec1_bytes curve (spki_raw_bytes spki)).

Definition public_key (curve : Curve) (c : Certificate) : result VK PublicKeyError :=
  public_key_with_oid curve c (CURVE_OID curve).

Definition attribute_value_to_str (av : AttributeValue) : option string :=
  match av_tag av with
  | OtherTag _ => None
  | tag => string_from_der tag (av_value av)
  end.

Definition common_name (c : Certificate) : option string :=
  head (omap (λ a, if decide (attr_oid a = COMMON_NAME) then attribute_value_to_str (attr_value a) else None)
         (concat (subject c))).
Definition common_name_or_unknown (c : Certificate) : string := default "Unknown"%string (common_name c).

(** ** Certificate chains ([x5chain.rs]) *)

Definition X5CHAIN_COSE_HEADER_LABEL : Z := 0x21.

Record CertificateWithDer : Type := { cert_inner : Certificate; cert_der : bytes }.
Record X5Chain : Type := { x5chain_certs : NonEmptyVec CertificateWithDer }.
Inductive X5ChainError : Type := UnableToParseCertificate | NotABytestring (v : Value) | NoCertificate.

Definition CertificateWithDer_from_der (b : bytes) : result CertificateWithDer X5ChainError :=
  let? c := map_err (λ _, UnableToParseCertificate) (Certificate_from_der b) in
  Ok {| cert_inner := c; cert_der := b |}.
Definition CertificateWithDer_from_cert (c : Certificate) : result CertificateWithDer X5ChainError :=
  let? b := map_err (λ _, UnableToParseCertificate) (Certificate_to_der c) in
  Ok {| cert_inner := c; cert_der := b |}.

Definition CertificateWithDer_from_pem `{Pem} (b : bytes) : result CertificateWithDer X5ChainError :=
  let? b := map_err (λ _, UnableToParseCertificate) (pem_decode b) in CertificateWithDer_from_der b.

(** The builder is the list of its certificates. *)
Definition with_certificate_and_der (certs : list CertificateWithDer) (x509 : CertificateWithDer) :
    list CertificateWithDer := certs ++ [x509].
Definition with_pem_certificate `{Pem} (certs : list CertificateWithDer) (data : bytes) :
    result (list CertificateWithDer) X5ChainError :=
  let? x509 := CertificateWithDer_from_pem data in Ok (certs ++ [x509]).
Definition with_der_certificate (certs : list CertificateWithDer) (data : bytes) :
    result (list CertificateWithDer) X5ChainError :=
  let? x509 := CertificateWithDer_from_der data in Ok (certs ++ [x509]).
Definition with_certificate (certs : list CertificateWithDer) (c : Certificate) :
    result (list CertificateWithDer) X5ChainError :=
  let? x509 := CertificateWithDer_from_cert c in Ok (certs ++ [x509]).
Definition build (certs : list CertificateWithDer) : result X5Chain X5ChainError :=
  let? v := map_err (λ _, NoCertificate) (NonEmptyVec_try_from certs) in Ok {| x5chain_certs := v |}.

Definition X5Chain_into_cbor (x : X5Chain) : Value :=
  match nev (x5chain_certs x) with
  | [cert] => Bytes (cert_der cert)
  | certs => Array ((λ x509, Bytes (cert_der x509)) <$> certs)
  end.

Definition X5Chain_from_cbor (cbor : Value) : result X5Chain X5ChainError :=
  match cbor with
  | Bytes b => let? certs := with_der_certificate [] b in build certs
  | Array x509s =>
      let? certs := try_fold (λ certs x509,
          match x509 with
          | Bytes b => with_der_certificate certs b
          | _ => Err (NotABytestring x509)
          end) [] x509s in
      build certs
  | _ => Err (NotABytestring cbor)
  end.

(** [None] is the index panic of [self.0[0]]. *)
Definition end_entity_certificate (x : X5Chain) : option Certificate :=
  cert_inner <$> head (nev (x5chain_certs x)).
Definition end_entity_public_key_with_oid (curve : Curve) (x : X5Chain) (expected_curve_oid : ObjectIdentifier) :
    option (result VK PublicKeyError) :=
  c ← end_entity_certificate x; Some (public_key_with_oid curve c expected_curve_oid).
Definition end_entity_public_key (curve : Curve) (x : X5Chain) : option (result VK PublicKeyError) :=
  c ← end_entity_certificate x; Some (public_key curve c).
Definition end_entity_common_name (x : X5Chain) : option string :=
  c ← end_entity_certificate x; Some (common_name_or_unknown c).

(** Every certificate of the chain is what its bytes decode to. *)
Definition X5Chain_wf (x : X5Chain) : Prop :=
  NonEmptyVec_wf (x5chain_certs x) ∧
  Forall (λ c, Certificate_from_der (cert_der c) = Ok (cert_inner c)) (nev (x5chain_certs x)).
End util.

(** ** Names ([validation/names.rs]) *)

Inductive NameError : Type :=
  | MissingName (certificate_common_name : string) (oid : ObjectIdentifier)
  | MultipleNames (certificate_common_name : string) (oid : ObjectIdentifier)
  | NameMismatch (oid : ObjectIdentifier) (this that : string).

Definition get_rdns (c : Certificate) (oid : ObjectIdentifier) : list AttributeValue :=
  omap (λ a, if decide (attr_oid a = oid) then Some (attr_value a) else None) (concat (subject c)).
Definition has_rdn (c : Certificate) (oid : ObjectIdentifier) : bool :=
  match get_rdns c oid with [] => false | _ => true end.

Section names.
Context `{Der}.

(** [country_name] is the expected value. *)
Definition country_name_is (c : Certificate) (expected_country_name : string) : option NameError :=
  match get_rdns c COUNTRY_NAME with
  | [] => Some (MissingName (common_name_or_unknown c) COUNTRY_NAME)
  | _ :: _ :: _ => Some (MultipleNames (common_name_or_unknown c) COUNTRY_NAME)
  | [av] =>
      let s := default "unknown"%string (attribute_value_to_str av) in
      if decide (s ≠ expected_country_name) then Some (NameMismatch COUNTRY_NAME s expected_country_name)
      else None
  end.

Definition name_matches (name_oid : ObjectIdentifier) (this that : Certificate) : option NameError :=
  match get_rdns this name_oid with
  | [] => Some (MissingName (common_name_or_unknown this) name_oid)
  | this_c :: this_cs =>
      match get_rdns that name_oid with
      | [] => Some (MissingName (common_name_or_unknown that) name_oid)
      | that_c :: that_cs =>
          if decide (this_cs ≠ []) then Some (MultipleNames (common_name_or_unknown that) name_oid) else
          if decide (that_cs ≠ []) then Some (MultipleNames (common_name_or_unknown this) name_oid) else
          if decide (this_c ≠ that_c) then
            Some (NameMismatch name_oid (default "Unknown"%string (attribute_value_to_str this_c))
                    (default "Unknown"%string (attribute_value_to_str that_c)))
          else None
      end
  end.
Definition country_name_matches := name_matches COUNTRY_NAME.
Definition state_or_province_name_matches := name_matches STATE_OR_PROVINCE_NAME.
End names.

(** ** Extensions ([validation/extensions]) *)

(** The implementations of [trait ExtensionValidator], with their fields. *)
Inductive ExtensionValidator : Type :=
  | SubjectKeyIdentifierValidator (subject_public_key_bitstring_raw_bytes : bytes)
  | KeyUsageValidator (expected_flagset : Z)
  | BasicConstraintsValidator
  | CrlDistributionPointsValidator
  | IssuerAlternativeNameValidator
  | ExtendedKeyUsageValidator (expected_oid : ObjectIdentifier).
#[export] Instance ExtensionValidator_eq_dec : EqDecision ExtensionValidator.
Proof. solve_decision. Defined.

Inductive CheckError : Type :=
  | FailedToDecode
  | DigestDidNotMatch
  | UnexpectedUsage (usage : Z)
  | NotCaWithPathLenZero (bc : BasicConstraints)
  | NoDistributionPoint
  | CrlIssuerSet (point : DistributionPoint)
  | ReasonsSet (point : DistributionPoint)
  | PointInvalid (point : DistributionPoint)
  | InvalidGeneralName (names : list GeneralName)
  | UnexpectedExtendedUsage (found : list ObjectIdentifier).

Definition validator_oid (v : ExtensionValidator) : ObjectIdentifier :=
  match v with
  | SubjectKeyIdentifierValidator _ => SubjectKeyIdentifier_OID
  | KeyUsageValidator _ => KeyUsage_OID
  | BasicConstraintsValidator => BasicConstraints_OID
  | CrlDistributionPointsValidator => CrlDistributionPoints_OID
  | IssuerAlternativeNameValidator => IssuerAltName_OID
  | ExtendedKeyUsageValidator _ => ExtendedKeyUsage_OID
  end.
Definition ext_name (v : ExtensionValidator) : string :=
  match v with
  | SubjectKeyIdentifierValidator _ => "SubjectKeyIdentifier"
  | KeyUsageValidator _ => "KeyUsage"
  | BasicConstraintsValidator => "BasicConstraints"
  | CrlDistributionPointsValidator => "CrlDistributionPoints"
  | IssuerAlternativeNameValidator => "IssuerAlternativeName"
  | ExtendedKeyUsageValidator _ => "ExtendedKeyUsage"
  end.

Definition check_key_usage (expected_flagset ku : Z) : option CheckError :=
  if decide (ku ≠ expected_flagset) then Some (UnexpectedUsage ku) else None.

Definition check_basic_constraints (bc : BasicConstraints) : option CheckError :=
  if (match path_len_constraint bc with None => true | Some path_len => bool_decide (path_len ≠ 0)%Z end)
     || negb (ca bc)
  then Some (NotCaWithPathLenZero bc) else None.

Definition is_uri (gn : GeneralName) : bool :=
  match gn with UniformResourceIdentifier _ => true | _ => false end.
Definition point_has_uri (point : DistributionPoint) : bool :=
  match distribution_point point with
  | Some (FullName names) => existsb is_uri names
  | Some (NameRelativeToCRLIssuer _) => false
  | None => false
  end.
Definition check_point (point : DistributionPoint) : list CheckError :=
  (match crl_issuer point with Some _ => [CrlIssuerSet point] | None => [] end) ++
  (match reasons point with Some _ => [ReasonsSet point] | None => [] end) ++
  (if point_has_uri point then [] else [PointInvalid point]).
Definition check_crl_distribution_points (points : list DistributionPoint) : list CheckError :=
  match points with
  | [] => [NoDistributionPoint]
  | _ => concat (check_point <$> points)
  end.

Definition check_issuer_alternative_name (ian : list GeneralName) : option CheckError :=
  if forallb (λ gn, match gn with Rfc822Name _ | UniformResourceIdentifier _ => true | _ => false end) ian
  then None else Some (InvalidGeneralName ian).

Definition check_extended_key_usage (expected_oid : ObjectIdentifier) (eku : list ObjectIdentifier) :
    option CheckError :=
  if negb (forallb (λ oid, bool_decide (oid = expected_oid)) eku) then Some (UnexpectedExtendedUsage eku)
  else match eku with [] => Some (UnexpectedExtendedUsage []) | _ => None end.

Section extensions.
Context `{Der, Sha1}.

Definition check_subject_key_identifier (raw ski : bytes) : option CheckError :=
  if decide (Sha1_digest raw ≠ ski) then Some DigestDidNotMatch else None.

(** Decode, then check. *)
Definition decoded {A} (r : result A unit) (check : A → list CheckError) : list CheckError :=
  match r with Ok x => check x | Err _ => [FailedToDecode] end.

(** [ExtensionValidator::validate] *)
Definition validate_extension (v : ExtensionValidator) (e : Extension) : list CheckError :=
  match v with
  | SubjectKeyIdentifierValidator raw =>
      decoded (SubjectKeyIdentifier_from_der (extn_value e)) (λ ski, option_list (check_subject_key_identifier raw ski))
  | KeyUsageValidator expected =>
      decoded (KeyUsage_from_der (extn_value e)) (λ ku, option_list (check_key_usage expected ku))
  | BasicConstraintsValidator =>
      decoded (BasicConstraints_from_der (extn_value e)) (λ bc, option_list (check_basic_constraints bc))
  | CrlDistributionPointsValidator =>
      decoded (CrlDistributionPoints_from_der (extn_value e)) check_crl_distribution_points
  | IssuerAlternativeNameValidator =>
      decoded (IssuerAltName_from_der (extn_value e)) (λ ian, option_list (check_issuer_alternative_name ian))
  | ExtendedKeyUsageValidator expected =>
      decoded (ExtendedKeyUsage_from_der (extn_value e)) (λ eku, option_list (check_extended_key_usage expected eku))
  end.

Inductive ExtensionError : Type :=
  | CheckFailed (name : string) (e : CheckError)
  | UnknownCriticalExtension (oid : ObjectIdentifier)
  | RequiredExtensionNotFound (name : string)
  | ExtensionNotAllowed (oid : ObjectIdentifier).

Record RequiredExtension : Type := { found : bool; validator : ExtensionValidator }.

(** One turn of the loop over the extensions. *)
Definition validate_step (acc : list RequiredExtension * list ExtensionError) (ext : Extension) :
    list RequiredExtension * list ExtensionError :=
  let '(validators, validation_errors) := acc in
  match list_find (λ r, validator_oid (validator r) = extn_id ext) validators with
  | Some (i, r) =>
      (<[i := {| found := true; validator := validator r |}]> validators,
       validation_errors ++ (CheckFailed (ext_name (validator r)) <$> validate_extension (validator r) ext))
  | None =>
      (validators,
       validation_errors ++ (if critical ext then [UnknownCriticalExtension (extn_id ext)] else []))
  end.

Definition validate_extensions (validators : list ExtensionValidator) (exts : list Extension) :
    list ExtensionError :=
  let '(validators, validation_errors) :=
    foldl validate_step ((λ v, {| found := false; validator := v |}) <$> validators, []) exts in
  validation_errors ++
  ((λ r, RequiredExtensionNotFound (ext_name (validator r))) <$> filter (λ r, found r = false) validators).

Definition disallowed_extensions : list ObjectIdentifier :=
  [PolicyMappings_OID; NameConstraints_OID; PolicyConstraints_OID; InhibitAnyPolicy_OID; FreshestCrl_OID].
Definition check_for_disallowed_x509_extensions (exts : list Extension) : list ExtensionError :=
  omap (λ id, if decide (id ∈ disallowed_extensions) then Some (ExtensionNotAllowed id) else None)
    (extn_id <$> exts).

Definition document_signer_extended_key_usage_oid : ObjectIdentifier := [1; 0; 18013; 5; 1; 2]%Z.
Definition mdoc_reader_extended_key_usage_oid : ObjectIdentifier := [1; 0; 18013; 5; 1; 6]%Z.

Definition ski_validator (c : Certificate) : ExtensionValidator :=
  SubjectKeyIdentifierValidator (spki_raw_bytes (subject_public_key_info c)).

Definition iaca_validators (c : Certificate) : list ExtensionValidator :=
  [ski_validator c; KeyUsageValidator (Z.lor CRLSign KeyCertSign); BasicConstraintsValidator;
   CrlDistributionPointsValidator; IssuerAlternativeNameValidator].
Definition document_signer_validators (c : Certificate) : list ExtensionValidator :=
  [ski_validator c; ExtendedKeyUsageValidator document_signer_extended_key_usage_oid;
   KeyUsageValidator DigitalSignature; CrlDistributionPointsValidator; IssuerAlternativeNameValidator].
Definition mdoc_reader_validators (c : Certificate) : list ExtensionValidator :=
  [ski_validator c; ExtendedKeyUsageValidator mdoc_reader_extended_key_usage_oid;
   KeyUsageValidator DigitalSignature; CrlDistributionPointsValidator; IssuerAlternativeNameValidator].

Definition validate_iaca_extensions (c : Certificate) : list ExtensionError :=
  check_for_disallowed_x509_extensions (extension_list c) ++
  validate_extensions (iaca_validators c) (extension_list c).
Definition validate_document_signer_certificate_extensions (c : Certificate) : list ExtensionError :=
  check_for_disallowed_x509_extensions (extension_list c) ++
  validate_extensions (document_signer_validators c) (extension_list c).
Definition validate_mdoc_reader_certificate_extensions (c : Certificate) : list ExtensionError :=
  check_for_disallowed_x509_extensions (extension_list c) ++
  validate_extensions (mdoc_reader_validators c) (extension_list c).

Definition key_identifier_check (issuer_extensions subject_extensions : list Extension) : bool :=
  let issuer_skis := omap (λ ext, if decide (extn_id ext = SubjectKeyIdentifier_OID)
      then rok (SubjectKeyIdentifier_from_der (extn_value ext)) else None) issuer_extensions in
  let akis := omap (λ ext, if decide (extn_id ext = AuthorityKeyIdentifier_OID)
      then rok (AuthorityKeyIdentifier_from_der (extn_value ext)) else None) subject_extensions in
  existsb (λ ki, existsb (λ ski, bool_decide (ki = ski)) issuer_skis) (omap id akis).
End extensions.

(** ** Signatures, validity periods and rulesets ([validation]) *)

Inductive ValidityPeriodError : Type := Expired | NotYetValid.

(** [now] is [OffsetDateTime::now_utc().unix_timestamp()]. *)
Definition check_validity_period (now : Z) (c : Certificate) : list ValidityPeriodError :=
  let now := (now mod 2 ^ 64)%Z in
  (if (not_after c <? now)%Z then [Expired] else []) ++
  (if (now <? not_before c)%Z then [NotYetValid] else []).

(** The two purposes of a trust anchor. *)
Inductive TrustPurpose : Type := Iaca | ReaderCa.
#[export] Instance TrustPurpose_eq_dec : EqDecision TrustPurpose. Proof. solve_decision. Defined.
Record TrustAnchor : Type := { certificate : Certificate; purpose : TrustPurpose }.
Record TrustAnchorRegistry : Type := { anchors : list TrustAnchor }.

(** The PEM form of an anchor, and registries built from it: the index of the first
    certificate that does not parse is reported. *)
Record PemTrustAnchor : Type := { certificate_pem : string; pem_purpose : TrustPurpose }.
Definition PemTrustAnchor_try_from `{Pem} (value : TrustAnchor) : result PemTrustAnchor unit :=
  let? pem := Certificate_to_pem (certificate value) in
  Ok {| certificate_pem := pem; pem_purpose := purpose value |}.
Definition TrustAnchor_try_from `{Pem} (value : PemTrustAnchor) : result TrustAnchor unit :=
  let? c := Certificate_from_pem (certificate_pem value) in
  Ok {| certificate := c; purpose := pem_purpose value |}.
Definition from_pem_certificates `{Pem} (certs : list PemTrustAnchor) : result TrustAnchorRegistry nat :=
  let? anchors := try_map (λ p : nat * PemTrustAnchor, map_err (λ _, p.1) (TrustAnchor_try_from p.2))
    (imap pair certs) in
  Ok {| anchors := anchors |}.

Inductive ErrorContext : Type :=
  | CtxComparison | CtxDocumentSigner | CtxIaca | CtxReader | CtxReaderCa.
Inductive ValidationProblem : Type :=
  | NameProblem (e : NameError)
  | PeriodProblem (e : ValidityPeriodError)
  | ExtensionProblem (e : ExtensionError)
  | NoValidTrustAnchor.
Record ErrorWithContext : Type := { err_context : ErrorContext; err_error : ValidationProblem }.
Definition with_context (ctx : ErrorContext) (p : ValidationProblem) : ErrorWithContext :=
  {| err_context := ctx; err_error := p |}.

Record ValidationOutcome : Type := { errors : list ErrorWithContext }.
Definition success (o : ValidationOutcome) : bool := match errors o with [] => true | _ => false end.
Definition add_errors (es : list ErrorWithContext) (o : ValidationOutcome) : ValidationOutcome :=
  {| errors := errors o ++ es |}.

Inductive ValidationRuleset : Type := Mdl | AamvaMdl | MdlReaderOneStep.

Section validation.
Context `{Der, Sha1, Sha2} {VK Sig : Type} `{Ecdsa VK Sig} (now : Z).

(** [src/definitions/x509/validation/signature.rs] *)
Definition issuer_signed_subject (subject issuer : Certificate) : bool :=
  match public_key_with_oid NistP256 issuer SECP_256_R_1 with
  | Err _ => false
  | Ok issuer_public_key =>
      match Signature_from_der (signature_raw_bytes subject) with
      | Err _ => false
      | Ok sig =>
          match tbs_to_der subject with
          | Err _ => false
          | Ok tbs =>
              let digest := Sha256_digest tbs in
              is_ok (verify_prehashed NistP256 issuer_public_key digest sig)
          end
      end
  end.

Definition find_trust_anchor_candidates (subject : Certificate) (trust_anchors : TrustAnchorRegistry)
    (trust_purpose : TrustPurpose) : list Certificate :=
  let candidates := omap (λ anchor, if decide (trust_purpose = purpose anchor) then Some (certificate anchor) else None)
    (anchors trust_anchors) in
  let candidates := filter (λ candidate, X509.subject candidate = issuer subject) candidates in
  let candidates := filter (λ candidate,
    key_identifier_check (extension_list candidate) (extension_list subject) = true) candidates in
  let candidates := filter (λ candidate, issuer_signed_subject subject candidate = true) candidates in
  filter (λ candidate, check_validity_period now candidate = []) candidates.

Definition mdl_validate_inner (document_signer : Certificate) (trust_anchors : TrustAnchorRegistry) :
    result (ValidationOutcome * Certificate * Certificate) ValidationOutcome :=
  let outcome := {| errors := [] |} in
  let outcome := add_errors (with_context CtxDocumentSigner ∘ PeriodProblem <$>
    check_validity_period now document_signer) outcome in
  let outcome := add_errors (with_context CtxDocumentSigner ∘ ExtensionProblem <$>
    validate_document_signer_certificate_extensions document_signer) outcome in
  match find_trust_anchor_candidates document_signer trust_anchors Iaca with
  | [] => Err (add_errors [with_context CtxIaca NoValidTrustAnchor] outcome)
  | iaca :: _ =>
      let outcome := add_errors (with_context CtxComparison ∘ NameProblem <$>
        option_list (country_name_matches document_signer iaca)) outcome in
      let outcome := add_errors (with_context CtxIaca ∘ ExtensionProblem <$>
        validate_iaca_extensions iaca) outcome in
      Ok (outcome, document_signer, iaca)
  end.

Definition state_or_province_errors (ds iaca : Certificate) : list ErrorWithContext :=
  with_context CtxComparison ∘ NameProblem <$> option_list (state_or_province_name_matches ds iaca).

Definition mdl_validate (ds : Certificate) (trust_anchors : TrustAnchorRegistry) : ValidationOutcome :=
  match mdl_validate_inner ds trust_anchors with
  | Ok (outcome, ds, iaca) =>
      if has_rdn ds STATE_OR_PROVINCE_NAME || has_rdn iaca STATE_OR_PROVINCE_NAME
      then add_errors (state_or_province_errors ds iaca) outcome else outcome
  | Err outcome => outcome
  end.

Definition aamva_mdl_validate (ds : Certificate) (trust_anchors : TrustAnchorRegistry) : ValidationOutcome :=
  match mdl_validate_inner ds trust_anchors with
  | Ok (outcome, ds, iaca) => add_errors (state_or_province_errors ds iaca) outcome
  | Err outcome => outcome
  end.

Definition mdl_reader_one_step_validate (reader : Certificate) (trust_anchors : TrustAnchorRegistry) :
    ValidationOutcome :=
  let outcome := {| errors := [] |} in
  let outcome := add_errors (with_context CtxReader ∘ PeriodProblem <$>
    check_validity_period now reader) outcome in
  let outcome := add_errors (with_context CtxReader ∘ ExtensionProblem <$>
    validate_mdoc_reader_certificate_extensions reader) outcome in
  match find_trust_anchor_candidates reader trust_anchors ReaderCa with
  | [] => add_errors [with_context CtxReaderCa NoValidTrustAnchor] outcome
  | _ :: _ => outcome
  end.

(** [ValidationRuleset::validate]: only the end-entity certificate of the chain is read. *)
Definition validate_x5chain (ruleset : ValidationRuleset) (x5chain : X5Chain) (trust_anchors : TrustAnchorRegistry) :
    option ValidationOutcome :=
  leaf ← end_entity_certificate x5chain;
  Some match ruleset with
       | Mdl => mdl_validate leaf trust_anchors
       | AamvaMdl => aamva_mdl_validate leaf trust_anchors
       | MdlReaderOneStep => mdl_reader_one_step_validate leaf trust_anchors
       end.
End validation.

(** ** Properties *)

(** *** Extension checks *)

Section extension_props.
Context `{Der, Sha1}.

(** What a list of validators requires of the extensions of a certificate. *)
Definition extension_ok (vs : list ExtensionValidator) (ext : Extension) : Prop :=
  (∀ v, v ∈ vs → validator_oid v = extn_id ext → validate_extension v ext = []) ∧
  ((∀ v, v ∈ vs → validator_oid v ≠ extn_id ext) → critical ext = false).
Definition extensions_ok (vs : list ExtensionValidator) (exts : list Extension) : Prop :=
  (∀ ext, ext ∈ exts → extension_ok vs ext) ∧
  (∀ v, v ∈ vs → ∃ ext, ext ∈ exts ∧ extn_id ext = validator_oid v).

Lemma fmap_nil_iff {A B} (f : A → B) l : f <$> l = [] ↔ l = [].
Proof. by destruct l. Qed.
Lemma app_nil_iff {A} (l k : list A) : l ++ k = [] ↔ l = [] ∧ k = [].
Proof. destruct l; simpl; naive_solver. Qed.

(** The loop invariant: which validators were met, and whether an error was found. *)
Definition validate_inv (vs : list ExtensionValidator) (done : list Extension)
    (acc : list RequiredExtension * list ExtensionError) : Prop :=
  validator <$> acc.1 = vs ∧
  (∀ r, r ∈ acc.1 → found r = true ↔ ∃ ext, ext ∈ done ∧ extn_id ext = validator_oid (validator r)) ∧
  (acc.2 = [] ↔ ∀ ext, ext ∈ done → extension_ok vs ext).

Lemma found_insert vs rs i r (ext : Extension) (done : list Extension) :
  NoDup (validator_oid <$> vs) → validator <$> rs = vs →
  rs !! i = Some r → validator_oid (validator r) = extn_id ext →
  (∀ r, r ∈ rs → found r = true ↔ ∃ ext, ext ∈ done ∧ extn_id ext = validator_oid (validator r)) →
  ∀ r', r' ∈ <[i := {| found := true; validator := validator r |}]> rs →
    found r' = true ↔ ∃ e, e ∈ done ++ [ext] ∧ extn_id e = validator_oid (validator r').
Proof.
  intros Hnd Hvs Hi Hoid Hinv r' [j Hj]%list_elem_of_lookup. rewrite list_lookup_insert in Hj.
  case_decide as Hd.
  - destruct Hd as [-> _]. injection Hj as <-. cbn [found validator]. split; [|done]. intros _.
    exists ext. split; [set_solver|done].
  - assert (i ≠ j) as Hne by (intros ->; apply Hd; split; [done|]; by eapply lookup_lt_Some).
    rewrite (Hinv r') by by eapply list_elem_of_lookup_2.
    split; [intros (e & He & Hee); exists e; set_solver|]. intros (e & He & Hee).
    apply elem_of_app in He as [He|He%list_elem_of_singleton]; [by exists e|]. subst e. exfalso. apply Hne.
    apply (NoDup_lookup _ _ _ (validator_oid (validator r)) Hnd); subst vs;
      rewrite !list_lookup_fmap; [by rewrite Hi|]. rewrite Hj. simpl. congruence.
Qed.

Lemma validate_step_inv vs done ext acc :
  NoDup (validator_oid <$> vs) → validate_inv vs done acc →
  validate_inv vs (done ++ [ext]) (validate_step acc ext).
Proof.
  intros Hnd (Hvs & Hfound & Herr). destruct acc as [rs es]. cbn [fst snd] in *.
  assert (∀ P : Prop, (P ↔ extension_ok vs ext) →
    ((es = [] ∧ P) ↔ ∀ e, e ∈ done ++ [ext] → extension_ok vs e)) as Hall.
  { intros P ->. rewrite Herr. setoid_rewrite elem_of_app. setoid_rewrite list_elem_of_singleton. naive_solver. }
  unfold validate_step. destruct (list_find _ rs) as [[i r]|] eqn:Hf.
  - apply list_find_Some in Hf as (Hi & Hoid & _). split_and!; cbn [fst snd].
    + rewrite list_fmap_insert, Hvs. apply list_insert_id. subst vs. by rewrite list_lookup_fmap, Hi.
    + by eapply found_insert.
    + rewrite app_nil_iff, fmap_nil_iff. apply Hall. unfold extension_ok.
      assert (validator r ∈ vs) as Hin by (subst vs; apply list_elem_of_fmap; exists r; split; [done|by eapply list_elem_of_lookup_2]).
      split; [|intros [Hv _]; by apply Hv]. intros Hv. split; [|intros Hno; exfalso; by eapply Hno].
      intros v Hvin Hveq. assert (v = validator r) as ->; [|done].
      apply list_elem_of_lookup in Hvin as [j Hj].
      assert (i = j) as <-.
      { apply (NoDup_lookup _ _ _ (extn_id ext) Hnd); subst vs; rewrite !list_lookup_fmap.
        - rewrite Hi. simpl. congruence.
        - rewrite list_lookup_fmap in Hj. rewrite Hj. simpl. congruence. }
      subst vs. rewrite list_lookup_fmap, Hi in Hj. by injection Hj.
  - apply list_find_None in Hf. rewrite Forall_forall in Hf. split_and!; cbn [fst snd]; [done| |].
    + intros r Hr. rewrite (Hfound r Hr). split; [intros (e & He & Hee); exists e; set_solver|].
      intros (e & [He|He%list_elem_of_singleton]%elem_of_app & Hee); [by exists e|]. subst e.
      exfalso. by apply (Hf r Hr).
    + rewrite app_nil_iff. apply Hall. unfold extension_ok.
      assert (∀ v, v ∈ vs → validator_oid v ≠ extn_id ext) as Hno.
      { subst vs. intros v (r & -> & Hr)%list_elem_of_fmap. by apply Hf. }
      destruct (critical ext); split; try done.
      * intros [_ Hc]. by discriminate (Hc Hno).
      * intros _. split; [|done]. intros v Hv Hveq. exfalso. by eapply Hno.
Qed.

Lemma validate_extensions_spec vs exts :
  NoDup (validator_oid <$> vs) → validate_extensions vs exts = [] ↔ extensions_ok vs exts.
Proof.
  intros Hnd. unfold validate_extensions.
  set (init := ((λ v, {| found := false; validator := v |}) <$> vs, [])).
  assert (validate_inv vs exts (foldl validate_step init exts)) as (Hvs & Hfound & Herr).
  { apply foldl_inv.
    - unfold validate_inv, init. cbn [fst snd]. split_and!.
      + rewrite <-list_fmap_compose. apply list_fmap_id.
      + intros r (v & -> & _)%list_elem_of_fmap. cbn [found validator]. split; [done|].
        intros (? & []%elem_of_nil & _).
      + split; [|done]. intros _ ext []%elem_of_nil.
    - intros. by apply validate_step_inv. }
  destruct (foldl validate_step init exts) as [rs es]. cbn [fst snd] in *.
  rewrite app_nil_iff, fmap_nil_iff, Herr. unfold extensions_ok.
  enough (filter (λ r, found r = false) rs = [] ↔ ∀ v, v ∈ vs → ∃ ext, ext ∈ exts ∧ extn_id ext = validator_oid v)
    as -> by done.
  split.
  - intros Hnil v Hv. subst vs. apply list_elem_of_fmap in Hv as (r & -> & Hr).
    apply (Hfound r Hr). destruct (found r) eqn:E; [done|]. exfalso.
    eapply (filter_nil_not_elem_of _ rs r Hnil); done.
  - intros Hreq. destruct (filter _ rs) as [|r l] eqn:E; [done|]. exfalso.
    assert (r ∈ filter (λ r, found r = false) rs) as Hr by (rewrite E; left).
    apply list_elem_of_filter in Hr as [Hf Hr].
    assert (found r = true); [|congruence]. apply (Hfound r Hr), Hreq. subst vs.
    apply list_elem_of_fmap. by exists r.
Qed.

Lemma check_disallowed_spec exts :
  check_for_disallowed_x509_extensions exts = [] ↔
  ∀ ext, ext ∈ exts → extn_id ext ∉ disallowed_extensions.
Proof.
  unfold check_for_disallowed_x509_extensions. induction exts as [|e l IH]; csimpl.
  - split; [|done]. intros _ ? []%elem_of_nil.
  - destruct (decide (extn_id e ∈ disallowed_extensions)) as [Hd|Hd].
    + split; [done|]. intros Hl. exfalso. by apply (Hl e); [left|].
    + rewrite IH. split; [|intros Hl ext Hext; apply Hl; by right].
      intros Hl ext [->|Hext]%elem_of_cons; [done|]. by apply Hl.
Qed.

(** The extensions of a certificate satisfy a profile of Annex B. *)
Definition profile_ok (vs : list ExtensionValidator) (c : Certificate) : Prop :=
  (∀ ext, ext ∈ extension_list c → extn_id ext ∉ disallowed_extensions) ∧
  extensions_ok vs (extension_list c).

Lemma profile_spec vs c :
  NoDup (validator_oid <$> vs) →
  check_for_disallowed_x509_extensions (extension_list c) ++ validate_extensions vs (extension_list c) = [] ↔
  profile_ok vs c.
Proof. intros. rewrite app_nil_iff, check_disallowed_spec, validate_extensions_spec by done. done. Qed.

Lemma iaca_extensions_spec c : validate_iaca_extensions c = [] ↔ profile_ok (iaca_validators c) c.
Proof. apply profile_spec. apply (bool_decide_unpack _). by vm_compute. Qed.
Lemma document_signer_extensions_spec c :
  validate_document_signer_certificate_extensions c = [] ↔ profile_ok (document_signer_validators c) c.
Proof. apply profile_spec. apply (bool_decide_unpack _). by vm_compute. Qed.
Lemma mdoc_reader_extensions_spec c :
  validate_mdoc_reader_certificate_extensions c = [] ↔ profile_ok (mdoc_reader_validators c) c.
Proof. apply profile_spec. apply (bool_decide_unpack _). by vm_compute. Qed.
End extension_props.

(** *** Names, trust anchors and rulesets *)

Section validation_props.
Context `{Der, Sha1, Sha2} {VK Sig : Type} `{Ecdsa VK Sig} (now : Z).

(** Both subjects carry the name exactly once, with the same value. *)
Definition same_single_name (oid : ObjectIdentifier) (this that : Certificate) : Prop :=
  ∃ v, get_rdns this oid = [v] ∧ get_rdns that oid = [v].

Lemma name_matches_spec oid this that :
  name_matches oid this that = None ↔ same_single_name oid this that.
Proof.
  unfold name_matches, same_single_name.
  destruct (get_rdns this oid) as [|v vs], (get_rdns that oid) as [|w ws];
    [split; [done|by intros (? & ? & ?)]..|].
  destruct (decide (vs ≠ [])) as [Hv|Hv%dec_stable]; [split; [done|by intros (? & [= ->] & ?)]|].
  destruct (decide (ws ≠ [])) as [Hw|Hw%dec_stable]; [split; [done|by intros (? & ? & [= ->])]|].
  subst. destruct (decide (v ≠ w)) as [Hne|<-%dec_stable].
  - split; [done|]. intros (u & [= ->] & [= ->]). done.
  - split; [|done]. by exists v.
Qed.

(** A certificate of the registry that may vouch for [leaf]: an anchor with the
    purpose, named by the leaf's issuer, with a matching key identifier, whose
    P-256 key verifies the signature over the leaf's contents, and in its validity
    period. *)
Definition trusted_issuer (p : TrustPurpose) (leaf : Certificate) (registry : TrustAnchorRegistry)
    (c : Certificate) : Prop :=
  {| certificate := c; purpose := p |} ∈ anchors registry ∧
  subject c = issuer leaf ∧
  key_identifier_check (extension_list c) (extension_list leaf) = true ∧
  (∃ vk sig tbs,
     public_key_with_oid NistP256 c SECP_256_R_1 = Ok vk ∧
     Signature_from_der (signature_raw_bytes leaf) = Ok sig ∧
     tbs_to_der leaf = Ok tbs ∧
     verify_prehashed NistP256 vk (Sha256_digest tbs) sig = Ok tt) ∧
  check_validity_period now c = [].

Lemma issuer_signed_spec leaf c :
  issuer_signed_subject leaf c = true ↔
  ∃ vk sig tbs,
    public_key_with_oid NistP256 c SECP_256_R_1 = Ok vk ∧
    Signature_from_der (signature_raw_bytes leaf) = Ok sig ∧
    tbs_to_der leaf = Ok tbs ∧
    verify_prehashed NistP256 vk (Sha256_digest tbs) sig = Ok tt.
Proof.
  unfold issuer_signed_subject. split.
  - destruct (public_key_with_oid _ _ _) as [vk|]; [|done].
    destruct (Signature_from_der _) as [sig|]; [|done]. destruct (tbs_to_der _) as [tbs|]; [|done].
    destruct (verify_prehashed _ _ _ _) as [[]|] eqn:E; [|done]. intros _. by exists vk, sig, tbs.
  - intros (vk & sig & tbs & -> & -> & -> & Hv). by rewrite Hv.
Qed.

Lemma candidates_spec leaf registry p c :
  c ∈ find_trust_anchor_candidates now leaf registry p ↔ trusted_issuer p leaf registry c.
Proof.
  unfold find_trust_anchor_candidates, trusted_issuer. rewrite !list_elem_of_filter, issuer_signed_spec.
  assert (c ∈ omap (λ anchor, if decide (p = purpose anchor) then Some (certificate anchor) else None)
    (anchors registry) ↔ {| certificate := c; purpose := p |} ∈ anchors registry) as ->.
  { rewrite list_elem_of_omap. split.
    - intros ([c' p'] & Hin & Hs). cbn [purpose certificate] in Hs. case_decide; [|done].
      injection Hs as ->. by subst.
    - intros Hin. eexists. split; [done|]. cbn [purpose certificate]. by rewrite decide_True. }
  naive_solver.
Qed.

(** What each ruleset requires of the leaf and of the trust anchor it chose. *)
Definition ruleset_purpose (r : ValidationRuleset) : TrustPurpose :=
  match r with MdlReaderOneStep => ReaderCa | _ => Iaca end.
Definition leaf_validators (r : ValidationRuleset) : Certificate → list ExtensionValidator :=
  match r with MdlReaderOneStep => mdoc_reader_validators | _ => document_signer_validators end.
Definition in_validity_period (c : Certificate) : Prop :=
  (not_before c ≤ now mod 2 ^ 64 ≤ not_after c)%Z.
Definition issuer_requirements (r : ValidationRuleset) (leaf root : Certificate) : Prop :=
  let states := same_single_name STATE_OR_PROVINCE_NAME leaf root in
  match r with
  | MdlReaderOneStep => True
  | _ => profile_ok (iaca_validators root) root ∧ same_single_name COUNTRY_NAME leaf root ∧
         match r with
         | AamvaMdl => states
         | _ => (has_rdn leaf STATE_OR_PROVINCE_NAME = false ∧
                 has_rdn root STATE_OR_PROVINCE_NAME = false) ∨ states
         end
  end.

Lemma validity_spec c : check_validity_period now c = [] ↔ in_validity_period c.
Proof.
  unfold check_validity_period, in_validity_period. cbv zeta.
  destruct (Z.ltb_spec (not_after c) (now mod 2 ^ 64)), (Z.ltb_spec (now mod 2 ^ 64) (not_before c)); simpl;
    split; intros; try done; lia.
Qed.

Lemma option_list_nil {A} (o : option A) : option_list o = [] ↔ o = None.
Proof. by destruct o. Qed.

Lemma success_nil o : success o = true ↔ errors o = [].
Proof. unfold success. by destruct (errors o). Qed.

Lemma inner_spec leaf registry :
  match mdl_validate_inner now leaf registry with
  | Err o => find_trust_anchor_candidates now leaf registry Iaca = [] ∧ errors o ≠ []
  | Ok (o, ds, root) =>
      ds = leaf ∧ (∃ rest, find_trust_anchor_candidates now leaf registry Iaca = root :: rest) ∧
      (errors o = [] ↔ in_validity_period leaf ∧ profile_ok (document_signer_validators leaf) leaf ∧
         profile_ok (iaca_validators root) root ∧ same_single_name COUNTRY_NAME leaf root)
  end.
Proof.
  unfold mdl_validate_inner. cbv zeta.
  destruct (find_trust_anchor_candidates _ _ _ _) as [|root rest]; unfold add_errors; cbn [errors].
  - split; [done|]. rewrite app_nil_iff. by intros [_ ?].
  - split_and!; [done|by exists rest|].
    rewrite !app_nil_iff, !fmap_nil_iff, option_list_nil. unfold country_name_matches.
    rewrite name_matches_spec, validity_spec, document_signer_extensions_spec, iaca_extensions_spec.
    naive_solver.
Qed.

Lemma state_errors_nil leaf root :
  state_or_province_errors leaf root = [] ↔ same_single_name STATE_OR_PROVINCE_NAME leaf root.
Proof.
  unfold state_or_province_errors. rewrite fmap_nil_iff, option_list_nil. apply name_matches_spec.
Qed.

(** [validate_x5chain] by the requirements on the end-entity certificate and the trust anchors. *)
Lemma chain_validation ruleset x registry o leaf :
  end_entity_certificate x = Some leaf →
  validate_x5chain now ruleset x registry = Some o →
  (success o = true ↔
   in_validity_period leaf ∧ profile_ok (leaf_validators ruleset leaf) leaf ∧
   ∃ root rest,
     find_trust_anchor_candidates now leaf registry (ruleset_purpose ruleset) = root :: rest ∧
     issuer_requirements ruleset leaf root) ∧
  (∀ root, root ∈ find_trust_anchor_candidates now leaf registry (ruleset_purpose ruleset) ↔
           trusted_issuer (ruleset_purpose ruleset) leaf registry root).
Proof.
  intros Hleaf Ho. split; [|intros; apply candidates_spec].
  unfold validate_x5chain in Ho. rewrite Hleaf in Ho. injection Ho as <-.
  rewrite success_nil. pose proof (inner_spec leaf registry) as Hi.
  destruct ruleset; cbn [leaf_validators ruleset_purpose issuer_requirements].
  - unfold mdl_validate. destruct (mdl_validate_inner _ _ _) as [[[o ds] root]|o].
    + destruct Hi as (-> & (rest & Hc) & He).
      destruct (has_rdn leaf _ || has_rdn root _) eqn:Hh; unfold add_errors; cbn [errors];
        rewrite ?app_nil_iff, He, ?state_errors_nil.
      * apply orb_true_iff in Hh. rewrite Hc. split; [naive_solver|].
        intros (? & ? & ? & ? & [= <- <-] & ? & ? & [[? ?]|?]); [|done]. exfalso. destruct Hh; congruence.
      * apply orb_false_iff in Hh as [? ?]. rewrite Hc. naive_solver.
    + destruct Hi as [-> He]. naive_solver.
  - unfold aamva_mdl_validate. destruct (mdl_validate_inner _ _ _) as [[[o ds] root]|o].
    + destruct Hi as (-> & (rest & Hc) & He). unfold add_errors; cbn [errors].
      rewrite app_nil_iff, He, state_errors_nil, Hc. naive_solver.
    + destruct Hi as [-> He]. naive_solver.
  - clear Hi. unfold mdl_reader_one_step_validate. cbv zeta.
    destruct (find_trust_anchor_candidates _ _ _ _) as [|root rest]; unfold add_errors; cbn [errors];
      rewrite !app_nil_iff, ?fmap_nil_iff, ?validity_spec, ?mdoc_reader_extensions_spec; naive_solver.
Qed.

(** C18: A certificate chain passes a ruleset exactly when its end-entity certificate is
      in its validity period and satisfies the extension profile of its role, some
      registry anchor with the role's purpose vouches for it (name, key identifier,
      P-256 signature and validity), and, for the issuer rulesets, the first such
      anchor satisfies the IACA profile and agrees on the country and on the state
      or province as the ruleset demands; the rest of the chain is not read. *)
Theorem x5chain_validation_spec ruleset x registry o leaf :
  end_entity_certificate x = Some leaf →
  validate_x5chain now ruleset x registry = Some o →
  (success o = true ↔
   in_validity_period leaf ∧ profile_ok (leaf_validators ruleset leaf) leaf ∧
   ∃ root rest,
     find_trust_anchor_candidates now leaf registry (ruleset_purpose ruleset) = root :: rest ∧
     issuer_requirements ruleset leaf root) ∧
  (∀ root, root ∈ find_trust_anchor_candidates now leaf registry (ruleset_purpose ruleset) ↔
           trusted_issuer (ruleset_purpose ruleset) leaf registry root).
Proof. apply chain_validation. Qed.
End validation_props.

(** *** Chains *)

Section chain_props.
Context `{Der}.

Lemma from_der_all (ders : list bytes) certs acc :
  Forall2 (λ b c, CertificateWithDer_from_der b = Ok c) ders certs →
  try_fold (λ certs x509,
    match x509 with Bytes b => with_der_certificate certs b | _ => Err (NotABytestring x509) end)
    acc (Bytes <$> ders) = Ok (acc ++ certs).
Proof.
  intros Hall. revert acc. induction Hall as [|b c ders certs Hb _ IH]; intros acc.
  - csimpl. by rewrite app_nil_r.
  - assert (with_der_certificate acc b = Ok (acc ++ [c])) as Hw by (unfold with_der_certificate; by rewrite Hb).
    rewrite fmap_cons. cbn [try_fold]. rewrite Hw. cbn [rbind]. rewrite IH. by rewrite <-app_assoc.
Qed.

Lemma from_der_wf b c : CertificateWithDer_from_der b = Ok c → Certificate_from_der (cert_der c) = Ok (cert_inner c).
Proof. unfold CertificateWithDer_from_der. intros. inv_result. done. Qed.

Lemma from_der_fold_wf x509s acc certs :
  try_fold (λ certs x509,
    match x509 with Bytes b => with_der_certificate certs b | _ => Err (NotABytestring x509) end)
    acc x509s = Ok certs →
  Forall (λ c, Certificate_from_der (cert_der c) = Ok (cert_inner c)) acc →
  Forall (λ c, Certificate_from_der (cert_der c) = Ok (cert_inner c)) certs.
Proof.
  revert acc. induction x509s as [|v l IH]; intros acc Hf Hacc; simpl in Hf; [by injection Hf as <-|].
  inv_result. eapply IH; [done|]. destruct v; try done. unfold with_der_certificate in Hr. inv_result.
  apply Forall_app; split; [done|]. constructor; [by eapply from_der_wf|done].
Qed.

Lemma X5Chain_from_cbor_wf v y :
  X5Chain_from_cbor v = Ok y → X5Chain_wf y ∧ is_Some (end_entity_certificate y).
Proof.
  intros Hy. assert (∃ certs, build certs = Ok y ∧
    Forall (λ c, Certificate_from_der (cert_der c) = Ok (cert_inner c)) certs) as (certs & Hb & Hall).
  { destruct v; try done; cbn [X5Chain_from_cbor] in Hy.
    - destruct (with_der_certificate [] b) as [certs|] eqn:E; [|done]. exists certs. split; [done|].
      apply (from_der_fold_wf [Bytes b] []); [cbn [try_fold]; by rewrite E|done].
    - destruct (try_fold _ _ _) as [certs|] eqn:E; [|done]. exists certs. split; [done|].
      by eapply from_der_fold_wf. }
  unfold build in Hb. inv_result. apply NonEmptyVec_try_from_wf in Hr0 as [Hne Hnev].
  unfold X5Chain_wf, end_entity_certificate. cbn [x5chain_certs]. split; [split; [done|by rewrite Hnev]|].
  unfold NonEmptyVec_wf in Hne. destruct (nev t); [done|]. by eexists.
Qed.

(** A certificate chain written into a COSE header reads back as the same chain,
      bytes included, whether it has one certificate or several; every chain that is
      read is non-empty and holds the decoding of its bytes. *)
Theorem X5Chain_roundtrip x :
  (X5Chain_wf x → X5Chain_from_cbor (X5Chain_into_cbor x) = Ok x) ∧
  (∀ v y, X5Chain_from_cbor v = Ok y → X5Chain_wf y ∧ is_Some (end_entity_certificate y)).
Proof.
  split.
  - intros [Hne Hall]. destruct x as [[certs]]. unfold NonEmptyVec_wf in Hne. cbn [x5chain_certs nev] in *.
    assert (Forall2 (λ b c, CertificateWithDer_from_der b = Ok c) (cert_der <$> certs) certs) as H2.
    { clear Hne. induction Hall as [|c l Hc _ IH]; constructor; [|done].
      unfold CertificateWithDer_from_der. rewrite Hc. by destruct c. }
    unfold X5Chain_into_cbor. cbn [x5chain_certs nev]. destruct certs as [|c [|c2 l]]; [done| |].
    + inversion H2 as [|? ? ? ? Hb _]; subst. cbn [X5Chain_from_cbor with_der_certificate].
      unfold with_der_certificate. by rewrite Hb.
    + cbn [X5Chain_from_cbor]. change ((λ x509, Bytes (cert_der x509)) <$> c :: c2 :: l)
        with (Bytes ∘ cert_der <$> c :: c2 :: l).
      rewrite list_fmap_compose, (from_der_all _ _ [] H2). done.
  - apply X5Chain_from_cbor_wf.
Qed.
End chain_props.

(** ** Witnesses *)

(** A codec in which extension values are their own contents, and a scheme that
    accepts empty signatures. *)
Section x509_witnesses.
#[local] Instance toy_der : Der := {|
  Certificate_from_der _ := Err tt;
  Certificate_to_der _ := Err tt;
  tbs_to_der _ := Ok [];
  oid_from_der b := Ok b;
  SubjectKeyIdentifier_from_der b := Ok b;
  AuthorityKeyIdentifier_from_der b := Ok (Some b);
  KeyUsage_from_der b := Ok (hd 0%Z b);
  BasicConstraints_from_der _ := Ok {| ca := true; path_len_constraint := Some 0%Z |};
  CrlDistributionPoints_from_der _ :=
    Ok [{| distribution_point := Some (FullName [UniformResourceIdentifier "http://crl"]);
           reasons := None; crl_issuer := None |}];
  IssuerAltName_from_der _ := Ok [];
  ExtendedKeyUsage_from_der b := Ok [b];
  string_from_der _ b := Some (decode_string b);
|}.
#[local] Instance toy_sha1 : Sha1 := id.
#[local] Instance toy_sha : Sha2 := {| Sha256_digest := id; Sha384_digest := id; Sha512_digest := id |}.
#[local] Instance toy_ecdsa : Ecdsa bytes bytes := {|
  PublicKey_from_sec1_bytes _ b := Ok b;
  Signature_from_slice _ b := Ok b;
  Signature_from_der b := Ok b;
  verify_prehashed _ _ _ s := match s with [] => Ok tt | _ => Err tt end;
|}.

Definition example_extension (oid : list Z) (value : bytes) : Extension :=
  {| extn_id := oid; critical := true; extn_value := value |}.
Definition example_name : list (list Attribute) :=
  [[{| attr_oid := COUNTRY_NAME; attr_value := {| av_tag := PrintableString; av_value := [85; 83]%Z |} |};
    {| attr_oid := STATE_OR_PROVINCE_NAME; attr_value := {| av_tag := Utf8String; av_value := [78; 89]%Z |} |}]].
Definition example_certificate (key : bytes) (exts : list Extension) : Certificate := {|
  subject := example_name; issuer := example_name; not_before := 10; not_after := 90;
  extensions := Some (exts ++ [example_extension SubjectKeyIdentifier_OID key;
    example_extension CrlDistributionPoints_OID []; example_extension IssuerAltName_OID []]);
  subject_public_key_info := {| spki_algorithm := ID_EC_PUBLIC_KEY; spki_parameters := Some SECP_256_R_1;
    spki_unused_bits := 0; spki_raw_bytes := key |};
  signature_raw_bytes := [];
|}.
Definition example_root : Certificate := example_certificate [1]%Z
  [example_extension KeyUsage_OID [96]%Z; example_extension BasicConstraints_OID []].
Definition example_signer : Certificate := example_certificate [2]%Z
  [example_extension KeyUsage_OID [1]%Z;
   example_extension ExtendedKeyUsage_OID document_signer_extended_key_usage_oid;
   {| extn_id := AuthorityKeyIdentifier_OID; critical := false; extn_value := [1]%Z |}].
Definition example_chain : X5Chain :=
  {| x5chain_certs := {| nev := [{| cert_inner := example_signer; cert_der := [] |}] |} |}.
Definition example_registry : TrustAnchorRegistry :=
  {| anchors := [{| certificate := example_root; purpose := ReaderCa |};
                 {| certificate := example_root; purpose := Iaca |}] |}.

Lemma x5chain_validation_spec_witness :
  trusted_issuer 50 Iaca example_signer example_registry example_root ∧
  in_validity_period 50 example_signer.
Proof.
  assert (∃ o, validate_x5chain 50 AamvaMdl example_chain example_registry = Some o ∧ success o = true)
    as (o & Ho & Hs) by (eexists; split; [reflexivity|reflexivity]).
  destruct (x5chain_validation_spec 50 AamvaMdl example_chain example_registry o example_signer
    eq_refl Ho) as [Hiff Hroot].
  split; [|apply Hiff, Hs]. apply Hroot.
  replace (find_trust_anchor_candidates 50 example_signer example_registry (ruleset_purpose AamvaMdl))
    with [example_root] by (vm_compute; reflexivity). by left.
Defined.
End x509_witnesses.
