(* ===== verification/DigestPlan.v ===== *)
(** * Digest planning and assembly ([src/issuance/mdoc.rs], lines 724 to 1216)

    From named elements to issuer-signed items with fresh digest identifiers, to a
    plan of digest jobs with decoys, and from the results of an executor back to
    the value digests of each credential.  The random number generator and the
    serialization of issuer-signed items are interfaces. *)

From S2P Require Export Mso.

(** ** Randomness *)

(** The generator's state is threaded explicitly. *)
Class Rng (R : Type) := {
  gen_i32 : R → i32 * R;
  gen_bytes : nat → R → bytes * R;
  gen_range : nat → nat → R → nat * R;
}.
Definition draw {R} `{Rng R} (n : nat) (r : R) : i32 := (gen_i32 (Nat.iter n (snd ∘ gen_i32) r)).1.

(** Draws are of the requested shape. *)
Class RngLaws (R : Type) `{Rng R} : Prop := {
  gen_i32_range r : is_i32 (gen_i32 r).1;
  gen_bytes_length n r : length (gen_bytes n r).1 = n;
  gen_range_bounds lo hi r : lo < hi → lo ≤ (gen_range lo hi r).1 < hi;
}.

(** The states that a run can draw from. *)
Inductive drawn_from {R} `{Rng R} (r : R) : R → Prop :=
  | drawn_here : drawn_from r r
  | drawn_i32 r' : drawn_from r r' → drawn_from r (gen_i32 r').2
  | drawn_bytes n r' : drawn_from r r' → drawn_from r (gen_bytes n r').2
  | drawn_range lo hi r' : drawn_from r r' → drawn_from r (gen_range lo hi r').2.

(** The code retries a taken identifier without a bound. The model gives up after
    [retry_fuel] draws, with [Diverges]; no theorem fixes this number. *)
Class RetryFuel := retry_fuel : nat.

(** ** Errors

    One constructor per message of [anyhow!], and the errors passed on by [?].
    [Diverges] is a retry loop that ran out of fuel. *)
Inductive MdocError : Type :=
  | MissingParameter (name : string)
  | DuplicateBatchCredential
  | InvalidAuthorizations (e : DeviceKeyError)
  | NoNamespace | EmptyNamespace
  | UnableToEncodeItem (e : Tag24Error)
  | TooManyJobs | TooManyBatchJobs
  | ItemCborFailure (e : CborError)
  | ExecutionFailed
  | UnknownJob | OmittedResult | InconsistentCredential | DuplicateJob
  | ChangedMetadata | InvalidDigestLength | DuplicateDigestId | DuplicateNamespace
  | UnreferencedJob | UnexpectedResult | DuplicateResult | DuplicatePlanCredential
  | OmittedCredential
  | MsoTag24Failure (e : Tag24Error) | MsoCborFailure (e : CborError) | CoseFailure (e : CoseError)
  | MissingSignatureAlgorithm | InvalidSignatureEncoding | InvalidEndEntityKey
  | UnsupportedAlgorithm | UnauthenticSignature
  | Diverges.

(** ** Issuer-signed items *)

Abbreviation Namespaces := (btree string (btree string Value)).
Abbreviation IssuerSignedItemBytes := (Tag24 IssuerSignedItem).

(** [Iterator::map] over a mutable generator, then [collect::<Result<Vec<_>, _>>]. *)
Fixpoint try_map_state {A B S E} (f : S → A → result (B * S) E) (s : S) (l : list A) :
    result (list B * S) E :=
  match l with
  | [] => Ok ([], s)
  | x :: l' => let? (y, s) := f s x in let? (ys, s) := try_map_state f s l' in Ok (y :: ys, s)
  end.

Section generation.
Context {fuel : RetryFuel} {R : Type} `{Rng R}.

Fixpoint generate_digest_id_loop (fuel : nat) (used_ids : gset Z) (rng : R) :
    result (i32 * gset Z * R) MdocError :=
  match fuel with
  | O => Err Diverges
  | S fuel' =>
      let '(i, rng) := gen_i32 rng in
      let digest_id := DigestId_new i in
      if decide (digest_id ∈ used_ids) then generate_digest_id_loop fuel' used_ids rng
      else Ok (digest_id, {[digest_id]} ∪ used_ids, rng)
  end.
Definition generate_digest_id (used_ids : gset Z) (rng : R) : result (i32 * gset Z * R) MdocError :=
  generate_digest_id_loop retry_fuel used_ids rng.

Context `{Serde IssuerSignedItem}.

(** One element of a namespace: an identifier, sixteen random bytes, the encoding. *)
Definition to_issuer_item (s : gset Z * R) (element : string * Value) :
    result (IssuerSignedItemBytes * (gset Z * R)) MdocError :=
  let '(used_ids, rng) := s in
  let '(key, value) := element in
  let? (id, rng) := generate_digest_id used_ids rng in
  let '(digest_id, used_ids) := id in
  let '(random, rng) := gen_bytes 16 rng in
  let? item := map_err UnableToEncodeItem (Tag24_new {|
    digest_id := digest_id; random := {| bytestr := random |};
    element_identifier := key; element_value := value |}) in
  Ok (item, (used_ids, rng)).

Definition to_issuer_namespace (rng : R) (ns : string * btree string Value) :
    result ((string * NonEmptyVec IssuerSignedItemBytes) * R) MdocError :=
  let '(name, elements) := ns in
  let? (items, s) := try_map_state to_issuer_item (∅, rng) (entries elements) in
  let? elems := map_err (λ _, EmptyNamespace) (NonEmptyVec_try_from items) in
  Ok ((name, elems), s.2).

Definition to_issuer_namespaces (namespaces : Namespaces) (rng : R) :
    result (IssuerNamespaces * R) MdocError :=
  let? (namespaces, rng) := try_map_state to_issuer_namespace rng (entries namespaces) in
  let? m := map_err (λ _, NoNamespace) (NonEmptyMap_try_from (collect namespaces)) in
  Ok (m, rng).
End generation.

(** ** Planning *)

Definition MDOC_CREDENTIAL_ID : u64 := 0.
Definition DECOY_BYTES_LENGTH : usize := 512.

Record PlannedMdocDigest : Type := {
  pd_credential_id : u64;
  pd_job_id : u64;
  pd_digest_id : i32;
}.
Record PlannedMdocNamespace : Type := { pn_name : string; pn_digests : list PlannedMdocDigest }.
Record MdocDigestPlan : Type := {
  plan_credential_id : u64;
  plan_namespaces : list PlannedMdocNamespace;
  plan_jobs : list DigestJob;
}.

(** The mutable [next_job_id], [jobs] and [planned_digests] of the planner. *)
Record PlanState : Type := {
  next_job_id : u64;
  ps_jobs : list DigestJob;
  planned_digests : list PlannedMdocDigest;
}.

Definition push_planned_digest (credential_id : u64) (digest_id : i32) (ordinal : usize)
    (algorithm : DigestAlgorithm) (input : bytes) (s : PlanState) : result PlanState MdocError :=
  let job_id := next_job_id s in
  let? next := ok_or TooManyJobs (checked_add u64_max job_id 1) in
  Ok {| next_job_id := next;
        ps_jobs := ps_jobs s ++ [{| dj_credential_id := credential_id; dj_job_id := job_id;
          dj_ordinal := ordinal; dj_algorithm := algorithm; dj_input := input |}];
        planned_digests := planned_digests s ++ [{| pd_credential_id := credential_id;
          pd_job_id := job_id; pd_digest_id := digest_id |}] |}.

Section planning.
Context {fuel : RetryFuel} {R : Type} `{Rng R} `{Serde IssuerSignedItem, Serde Value}.

Definition plan_item (credential_id : u64) (algorithm : DigestAlgorithm) (s : PlanState)
    (p : nat * IssuerSignedItemBytes) : result PlanState MdocError :=
  let '(ordinal, item) := p in
  let? input := map_err ItemCborFailure (to_vec item) in
  push_planned_digest credential_id (digest_id (inner item)) ordinal algorithm input s.

Definition plan_decoy (credential_id : u64) (algorithm : DigestAlgorithm) (elements_len : usize)
    (s : PlanState * gset Z * R) (decoy_ordinal : nat) : result (PlanState * gset Z * R) MdocError :=
  let '(st, used_ids, rng) := s in
  let? (id, rng) := generate_digest_id used_ids rng in
  let '(digest_id, used_ids) := id in
  let '(bytes, rng) := gen_bytes DECOY_BYTES_LENGTH rng in
  let? st := push_planned_digest credential_id digest_id (elements_len + decoy_ordinal) algorithm bytes st in
  Ok (st, used_ids, rng).

Definition plan_digest_namespace (credential_id : u64) (elements : list IssuerSignedItemBytes)
    (digest_algorithm : DigestAlgorithm) (enable_decoy_digests : bool) (rng : R)
    (next : u64) (jobs : list DigestJob) :
    result (list PlannedMdocDigest * R * u64 * list DigestJob) MdocError :=
  let '(decoy_count, rng) := if enable_decoy_digests then gen_range 5 10 rng else (0, rng) in
  let used_ids : gset Z := if decide (0 < decoy_count)
    then list_to_set ((λ item, digest_id (inner item)) <$> elements) else ∅ in
  let? st := try_fold (plan_item credential_id digest_algorithm)
    {| next_job_id := next; ps_jobs := jobs; planned_digests := [] |} (imap pair elements) in
  let? (st, rng) := try_fold (plan_decoy credential_id digest_algorithm (length elements))
    (st, used_ids, rng) (seq 0 decoy_count) in
  Ok (planned_digests st.1, rng, next_job_id st.1, ps_jobs st.1).

Definition plan_step (credential_id : u64) (digest_algorithm : DigestAlgorithm) (enable_decoy_digests : bool)
    (s : list PlannedMdocNamespace * u64 * list DigestJob * R)
    (ns : string * NonEmptyVec IssuerSignedItemBytes) :
    result (list PlannedMdocNamespace * u64 * list DigestJob * R) MdocError :=
  let '(namespaces, next, jobs, rng) := s in
  let '(name, elements) := ns in
  let? (p, jobs) := plan_digest_namespace credential_id (nev elements) digest_algorithm
    enable_decoy_digests rng next jobs in
  let '(digests, rng, next) := p in
  Ok (namespaces ++ [{| pn_name := name; pn_digests := digests |}], next, jobs, rng).

Definition plan_digest_namespaces_for_credential (credential_id : u64) (namespaces : IssuerNamespaces)
    (digest_algorithm : DigestAlgorithm) (enable_decoy_digests : bool) (rng : R) :
    result (MdocDigestPlan * R) MdocError :=
  let? (s, rng) := try_fold (plan_step credential_id digest_algorithm enable_decoy_digests)
    ([], 0%Z, [], rng) (entries (nem namespaces)) in
  let '(planned, _, jobs) := s in
  Ok ({| plan_credential_id := credential_id; plan_namespaces := planned; plan_jobs := jobs |}, rng).

Definition plan_digest_namespaces := plan_digest_namespaces_for_credential MDOC_CREDENTIAL_ID.
End planning.

(** ** Assembly *)

Definition identity (job : DigestJob) : Z * Z := (dj_credential_id job, dj_job_id job).
Definition result_identity (r : DigestResult) : Z * Z := (dr_credential_id r, dr_job_id r).
Definition planned_identity (p : PlannedMdocDigest) : Z * Z := (pd_credential_id p, pd_job_id p).

Definition results_follow_plan_order (plan : MdocDigestPlan) (results : list DigestResult) : bool :=
  bool_decide (length results = length (plan_jobs plan)) &&
  forallb (λ p : DigestJob * DigestResult,
    bool_decide (identity p.1 = result_identity p.2) && bool_decide (dj_ordinal p.1 = dr_ordinal p.2))
    (zip (plan_jobs plan) results).

(** [map.insert(k, v)], reporting whether the key was present. *)
Definition insert_new {K V E} `{Ord K, OrdLaws K, EqDecision K} (e : E) (k : K) (v : V) (m : btree K V) :
    result (btree K V) E :=
  match m !! k with Some _ => Err e | None => Ok (<[k := v]> m) end.

(** The fast path: one pass over the plan, the jobs and the results in step. *)
Definition assemble_ordered_digest (plan : MdocDigestPlan)
    (s : list DigestJob * list DigestResult * u64 * DigestIds) (planned : PlannedMdocDigest) :
    result (list DigestJob * list DigestResult * u64 * DigestIds) MdocError :=
  let '(jobs, results, expected_job_id, digest_ids) := s in
  match jobs with
  | [] => Err UnknownJob
  | job :: jobs =>
      match results with
      | [] => Err OmittedResult
      | r :: results =>
          if decide (dj_credential_id job ≠ plan_credential_id plan) then Err InconsistentCredential else
          if decide (dj_job_id job ≠ expected_job_id) then Err DuplicateJob else
          if decide (pd_credential_id planned ≠ plan_credential_id plan) then Err InconsistentCredential else
          if decide (planned_identity planned ≠ identity job) then Err UnknownJob else
          if decide (result_identity r ≠ identity job) then Err ChangedMetadata else
          if decide (dr_ordinal r ≠ dj_ordinal job) then Err ChangedMetadata else
          if decide (length (dr_digest r) ≠ digest_length (dj_algorithm job)) then Err InvalidDigestLength else
          let? digest_ids := insert_new DuplicateDigestId (pd_digest_id planned)
            {| bytestr := dr_digest r |} digest_ids in
          let? expected_job_id := ok_or TooManyJobs (checked_add u64_max expected_job_id 1) in
          Ok (jobs, results, expected_job_id, digest_ids)
      end
  end.

Definition assemble_ordered_namespace (plan : MdocDigestPlan)
    (s : list DigestJob * list DigestResult * u64 * btree string DigestIds) (ns : PlannedMdocNamespace) :
    result (list DigestJob * list DigestResult * u64 * btree string DigestIds) MdocError :=
  let '(jobs, results, expected_job_id, namespaces) := s in
  let? (s, digest_ids) := try_fold (assemble_ordered_digest plan) (jobs, results, expected_job_id, ∅) (pn_digests ns) in
  let? namespaces := insert_new DuplicateNamespace (pn_name ns) digest_ids namespaces in
  Ok (s, namespaces).

Definition assemble_ordered_digest_namespaces (plan : MdocDigestPlan) (results : list DigestResult) :
    result (btree string DigestIds) MdocError :=
  let? (s, namespaces) := try_fold (assemble_ordered_namespace plan)
    (plan_jobs plan, results, 0%Z, ∅) (plan_namespaces plan) in
  let '(jobs, results, _) := s in
  match jobs with
  | _ :: _ => Err UnreferencedJob
  | [] => match results with _ :: _ => Err UnexpectedResult | [] => Ok namespaces end
  end.

(** The general path: results are looked up by identity. *)
Definition index_results (results : list DigestResult) : btree (Z * Z) DigestResult * bool :=
  foldl (λ acc r,
    let '(results_by_identity, duplicate_result) := acc in
    (<[result_identity r := r]> results_by_identity,
     match results_by_identity !! result_identity r with Some _ => true | None => duplicate_result end))
    (∅, false) results.

Definition take_job_result (plan : MdocDigestPlan)
    (s : gset (Z * Z) * btree (Z * Z) DigestResult * btree (Z * Z) bytes) (job : DigestJob) :
    result (gset (Z * Z) * btree (Z * Z) DigestResult * btree (Z * Z) bytes) MdocError :=
  let '(expected_identities, results_by_identity, digests_by_identity) := s in
  if decide (dj_credential_id job ≠ plan_credential_id plan) then Err InconsistentCredential else
  if decide (identity job ∈ expected_identities) then Err DuplicateJob else
  let? r := ok_or OmittedResult (results_by_identity !! identity job) in
  if decide (dr_ordinal r ≠ dj_ordinal job) then Err ChangedMetadata else
  if decide (length (dr_digest r) ≠ digest_length (dj_algorithm job)) then Err InvalidDigestLength else
  Ok ({[identity job]} ∪ expected_identities, delete (identity job) results_by_identity,
      <[identity job := dr_digest r]> digests_by_identity).

Definition place_digest (plan : MdocDigestPlan) (s : btree (Z * Z) bytes * DigestIds)
    (planned : PlannedMdocDigest) : result (btree (Z * Z) bytes * DigestIds) MdocError :=
  let '(digests_by_identity, digest_ids) := s in
  if decide (pd_credential_id planned ≠ plan_credential_id plan) then Err InconsistentCredential else
  let? d := ok_or UnknownJob (digests_by_identity !! planned_identity planned) in
  let? digest_ids := insert_new DuplicateDigestId (pd_digest_id planned) {| bytestr := d |} digest_ids in
  Ok (delete (planned_identity planned) digests_by_identity, digest_ids).

Definition place_namespace (plan : MdocDigestPlan) (s : btree (Z * Z) bytes * btree string DigestIds)
    (ns : PlannedMdocNamespace) : result (btree (Z * Z) bytes * btree string DigestIds) MdocError :=
  let '(digests_by_identity, namespaces) := s in
  let? (digests_by_identity, digest_ids) := try_fold (place_digest plan) (digests_by_identity, ∅) (pn_digests ns) in
  let? namespaces := insert_new DuplicateNamespace (pn_name ns) digest_ids namespaces in
  Ok (digests_by_identity, namespaces).

Definition assemble_plan (s : gset Z * btree (Z * Z) DigestResult * list (btree string DigestIds))
    (plan : MdocDigestPlan) :
    result (gset Z * btree (Z * Z) DigestResult * list (btree string DigestIds)) MdocError :=
  let '(credential_ids, results_by_identity, batches) := s in
  if decide (plan_credential_id plan ∈ credential_ids) then Err DuplicatePlanCredential else
  let? (s, digests_by_identity) := try_fold (take_job_result plan) (∅, results_by_identity, ∅) (plan_jobs plan) in
  let '(_, results_by_identity) := s in
  let? (digests_by_identity, namespaces) :=
    try_fold (place_namespace plan) (digests_by_identity, ∅) (plan_namespaces plan) in
  if is_empty digests_by_identity
  then Ok ({[plan_credential_id plan]} ∪ credential_ids, results_by_identity, batches ++ [namespaces])
  else Err UnreferencedJob.

Definition assemble_reordered_digest_batches (plans : list MdocDigestPlan) (results : list DigestResult) :
    result (list (btree string DigestIds)) MdocError :=
  let '(results_by_identity, duplicate_result) := index_results results in
  if duplicate_result : bool then Err DuplicateResult else
  let? (s, batches) := try_fold assemble_plan (∅, results_by_identity, []) plans in
  let '(_, results_by_identity) := s in
  if is_empty results_by_identity then Ok batches else Err UnexpectedResult.

Definition assemble_reordered_digest_namespaces (plan : MdocDigestPlan) (results : list DigestResult) :
    result (btree string DigestIds) MdocError :=
  let? batches := assemble_reordered_digest_batches [plan] results in
  ok_or OmittedCredential (last batches).

Definition assemble_digest_namespaces (plan : MdocDigestPlan) (results : list DigestResult) :
    result (btree string DigestIds) MdocError :=
  if results_follow_plan_order plan results then assemble_ordered_digest_namespaces plan results
  else assemble_reordered_digest_namespaces plan results.

(** ** What a plan promises *)

(** The plans the planner makes: the jobs are numbered from zero, the planned
    digests refer to them in order, and neither a digest identifier within a
    namespace nor a namespace is repeated. *)
Record plan_wf (p : MdocDigestPlan) : Prop := {
  wf_jobs : identity <$> plan_jobs p =
    (λ i, (plan_credential_id p, Z.of_nat i)) <$> seq 0 (length (plan_jobs p));
  wf_bound : (Z.of_nat (length (plan_jobs p)) ≤ u64_max)%Z;
  wf_planned : planned_identity <$> concat (pn_digests <$> plan_namespaces p) = identity <$> plan_jobs p;
  wf_digests : Forall (λ ns, NoDup (pd_digest_id <$> pn_digests ns)) (plan_namespaces p);
  wf_names : NoDup (pn_name <$> plan_namespaces p);
}.

(** The value digests of a plan whose job [j] has the digest [d j]. *)
Section assembled.
Context (d : DigestJob → bytes).

Definition namespace_digests (pds : list PlannedMdocDigest) (jobs : list DigestJob) : list (Z * ByteStr) :=
  zip (pd_digest_id <$> pds) ((λ job, {| bytestr := d job |}) <$> jobs).

Fixpoint assembled_list (nss : list PlannedMdocNamespace) (jobs : list DigestJob) : list (string * DigestIds) :=
  match nss with
  | [] => []
  | ns :: nss =>
      let n := length (pn_digests ns) in
      (pn_name ns, collect (namespace_digests (pn_digests ns) (take n jobs))) :: assembled_list nss (drop n jobs)
  end.
Definition assembled (p : MdocDigestPlan) : btree string DigestIds :=
  collect (assembled_list (plan_namespaces p) (plan_jobs p)).

Definition length_ok (job : DigestJob) : bool := bool_decide (length (d job) = digest_length (dj_algorithm job)).
Definition lengths_ok (jobs : list DigestJob) : bool := forallb length_ok jobs.

Lemma lengths_ok_app l k : lengths_ok (l ++ k) = lengths_ok l && lengths_ok k.
Proof. apply forallb_app. Qed.

(** The tables of the general path for a list of jobs. *)
Definition result_table (jobs : list DigestJob) : btree (Z * Z) DigestResult :=
  list_to_map ((λ job, (identity job, digest_result job (d job))) <$> jobs).
Definition digest_table (jobs : list DigestJob) : btree (Z * Z) bytes :=
  list_to_map ((λ job, (identity job, d job)) <$> jobs).

Lemma result_table_cons job jobs :
  identity job ∉ identity <$> jobs →
  result_table (job :: jobs) !! identity job = Some (digest_result job (d job)) ∧
  delete (identity job) (result_table (job :: jobs)) = result_table jobs.
Proof.
  intros Hni. unfold result_table. rewrite fmap_cons, list_to_map_cons. split; [apply lookup_insert_eq|].
  apply delete_insert_id, not_elem_of_list_to_map_1. by rewrite <-list_fmap_compose.
Qed.
Lemma digest_table_cons job jobs :
  identity job ∉ identity <$> jobs →
  digest_table (job :: jobs) !! identity job = Some (d job) ∧
  delete (identity job) (digest_table (job :: jobs)) = digest_table jobs.
Proof.
  intros Hni. unfold digest_table. rewrite fmap_cons, list_to_map_cons. split; [apply lookup_insert_eq|].
  apply delete_insert_id, not_elem_of_list_to_map_1. by rewrite <-list_fmap_compose.
Qed.
End assembled.

(** *** Inserting keys that are new *)

Lemma insert_new_collect {K V E} `{OrdLaws K, EqDecision K} (e : E) k (v : V) l :
  k ∉ l.*1 → insert_new e k v (collect l) = Ok (collect (l ++ [(k, v)])).
Proof.
  intros Hk. unfold insert_new. destruct (collect l !! k) as [w|] eqn:E'; [|by rewrite collect_snoc].
  exfalso. apply Hk, collect_dom. by eexists.
Qed.

Lemma NoDup_snoc_inv {A} (l k : list A) x : NoDup (l ++ x :: k) → x ∉ l ∧ NoDup ((l ++ [x]) ++ k).
Proof.
  intros Hnd. split; [|by rewrite <-app_assoc]. intros Hx.
  apply NoDup_app in Hnd as (_ & Hd & _). apply (Hd x Hx). by left.
Qed.

(** *** Well-formed plans in use *)

Lemma wf_identities p : plan_wf p → NoDup (identity <$> plan_jobs p).
Proof.
  intros Hwf. rewrite (wf_jobs p Hwf). apply NoDup_fmap_2; [|apply NoDup_seq].
  intros i j [=]. lia.
Qed.
Lemma wf_jobs_lookup p i job :
  plan_wf p → plan_jobs p !! i = Some job → dj_credential_id job = plan_credential_id p ∧ dj_job_id job = Z.of_nat i.
Proof.
  intros Hwf Hi. assert ((identity <$> plan_jobs p) !! i = Some (identity job)) as Hj
    by by rewrite list_lookup_fmap, Hi.
  rewrite (wf_jobs p Hwf), list_lookup_fmap in Hj.
  rewrite lookup_seq_lt in Hj by by eapply lookup_lt_Some. by injection Hj.
Qed.
Lemma wf_jobs_credential p : plan_wf p → Forall (λ job, dj_credential_id job = plan_credential_id p) (plan_jobs p).
Proof. intros Hwf. apply Forall_lookup. intros i job Hi. by apply (wf_jobs_lookup p i job). Qed.

Lemma wf_identities_concat plans :
  Forall plan_wf plans → NoDup (plan_credential_id <$> plans) →
  NoDup (identity <$> concat (plan_jobs <$> plans)).
Proof.
  induction 1 as [|p plans Hp Hall IH]; [constructor|]. rewrite !fmap_cons. cbn [concat].
  rewrite fmap_app, NoDup_cons. intros [Hni Hnd]. apply NoDup_app. split_and!; [by apply wf_identities| |by apply IH].
  intros id Hid Hid2. apply Hni.
  apply list_elem_of_fmap in Hid as (job & -> & Hjob). apply list_elem_of_fmap in Hid2 as (job2 & Heq & Hjob2).
  apply list_elem_of_In, in_concat in Hjob2 as (l & Hl%list_elem_of_In & Hjob2%list_elem_of_In).
  apply list_elem_of_fmap in Hl as (q & -> & Hq). apply list_elem_of_fmap. exists q. split; [|done].
  pose proof (wf_jobs_credential p Hp) as Hc. rewrite Forall_forall in Hc. rewrite <-(Hc _ Hjob).
  rewrite Forall_forall in Hall. pose proof (wf_jobs_credential q (Hall q Hq)) as Hc2.
  rewrite Forall_forall in Hc2. rewrite <-(Hc2 _ Hjob2). by injection Heq.
Qed.

(** ** The general path on the results of a plan *)

Section reordered.
Context (d : DigestJob → bytes).

Lemma take_jobs_spec p jobs rest E D :
  NoDup (identity <$> jobs ++ rest) →
  Forall (λ job, dj_credential_id job = plan_credential_id p) jobs →
  (∀ job, job ∈ jobs → identity job ∉ E) →
  try_fold (take_job_result p) (E, result_table d (jobs ++ rest), D) jobs =
  if lengths_ok d jobs
  then Ok (foldl (λ E job, {[identity job]} ∪ E) E jobs, result_table d rest,
           foldl (λ D job, <[identity job := d job]> D) D jobs)
  else Err InvalidDigestLength.
Proof.
  intros Hnd Hc. revert E D. induction Hc as [|job jobs Hj _ IH]; intros E D HE; [done|].
  cbn [app fmap list_fmap] in Hnd. apply NoDup_cons in Hnd as [Hni Hnd].
  destruct (result_table_cons d job (jobs ++ rest) Hni) as [Hl Hd].
  cbn [try_fold app take_job_result]. rewrite decide_False by auto.
  rewrite decide_False by (apply HE; by left). rewrite Hl. cbn [ok_or rbind digest_result dr_ordinal dr_digest].
  rewrite decide_False by auto. unfold lengths_ok. cbn [forallb]. unfold length_ok at 1.
  destruct (decide (length (d job) ≠ digest_length (dj_algorithm job))) as [Hlen|Hlen%dec_stable].
  { by rewrite bool_decide_false. }
  rewrite bool_decide_true by done. cbn [andb rbind foldl]. rewrite Hd. apply IH; [done|].
  intros job' Hjob'. rewrite elem_of_union, elem_of_singleton. intros [Heq|Hin].
  - apply Hni. rewrite <-Heq. apply list_elem_of_fmap. exists job'. split; [done|]. set_solver.
  - by apply (HE job'); [right|].
Qed.

Lemma digest_table_foldl jobs :
  NoDup (identity <$> jobs) →
  foldl (λ D job, <[identity job := d job]> D) ∅ jobs = digest_table d jobs.
Proof.
  intros Hnd. unfold digest_table. rewrite <-collect_NoDup by by rewrite <-list_fmap_compose.
  unfold collect. by rewrite foldl_fmap.
Qed.

Lemma place_digests_spec p pds jobs rest pre :
  NoDup (identity <$> jobs ++ rest) →
  planned_identity <$> pds = identity <$> jobs →
  Forall (λ job, dj_credential_id job = plan_credential_id p) jobs →
  NoDup (pre.*1 ++ (pd_digest_id <$> pds)) →
  try_fold (place_digest p) (digest_table d (jobs ++ rest), collect pre) pds =
  Ok (digest_table d rest, collect (pre ++ namespace_digests d pds jobs)).
Proof.
  intros Hnd Hid Hc Hdig. revert pre pds Hid Hdig.
  induction Hc as [|job jobs Hj Hc IH]; intros pre [|pd pds] Hid Hdig; try done.
  { cbn [try_fold]. unfold namespace_digests. cbn. by rewrite app_nil_r. }
  cbn [app fmap list_fmap] in Hnd, Hid. apply NoDup_cons in Hnd as [Hni Hnd].
  injection Hid as Hcred Hjob Hid.
  assert (planned_identity pd = identity job) as Hid1 by (unfold planned_identity, identity; congruence).
  destruct (digest_table_cons d job (jobs ++ rest) Hni) as [Hl Hd].
  cbn [try_fold app place_digest].
  rewrite decide_False by (intros []; congruence).
  rewrite Hid1, Hl. cbn [ok_or rbind].
  rewrite fmap_cons in Hdig. apply NoDup_snoc_inv in Hdig as [Hfresh Hdig].
  rewrite insert_new_collect by done. cbn [rbind]. rewrite Hd, (IH Hnd).
  - unfold namespace_digests. rewrite !fmap_cons. cbn [zip zip_with]. by rewrite <-app_assoc.
  - done.
  - by rewrite fmap_app.
Qed.

Lemma assembled_list_names nss jobs : (assembled_list d nss jobs).*1 = pn_name <$> nss.
Proof. revert jobs. induction nss as [|ns nss IH]; intros jobs; [done|]. cbn [assembled_list]. rewrite !fmap_cons. by rewrite IH. Qed.

(** The jobs of the first namespace and the remaining ones. *)
Lemma planned_split pds planned jobs :
  planned_identity <$> pds ++ planned = identity <$> jobs →
  planned_identity <$> pds = identity <$> take (length pds) jobs ∧
  planned_identity <$> planned = identity <$> drop (length pds) jobs.
Proof.
  intros Heq. rewrite fmap_app in Heq. rewrite fmap_take, fmap_drop, <-Heq.
  rewrite take_app_length', drop_app_length' by by rewrite length_fmap. done.
Qed.

Lemma place_namespaces_spec p nss jobs rest pre :
  NoDup (identity <$> jobs ++ rest) →
  planned_identity <$> concat (pn_digests <$> nss) = identity <$> jobs →
  Forall (λ job, dj_credential_id job = plan_credential_id p) jobs →
  Forall (λ ns, NoDup (pd_digest_id <$> pn_digests ns)) nss →
  NoDup (pre.*1 ++ (pn_name <$> nss)) →
  try_fold (place_namespace p) (digest_table d (jobs ++ rest), collect pre) nss =
  Ok (digest_table d rest, collect (pre ++ assembled_list d nss jobs)).
Proof.
  intros Hnd Hid Hc Hdig. revert jobs pre Hnd Hid Hc.
  induction Hdig as [|ns nss Hns _ IH]; intros jobs pre Hnd Hid Hc Hnames.
  { destruct jobs; [|done]. cbn. by rewrite app_nil_r. }
  rewrite fmap_cons in Hid. cbn [concat] in Hid. apply planned_split in Hid as [Hid1 Hid2].
  set (n := length (pn_digests ns)) in *.
  rewrite <-(take_drop n jobs), <-app_assoc in Hnd |- *. rewrite <-(take_drop n jobs) in Hc.
  apply Forall_app in Hc as [Hc1 Hc2].
  cbn [try_fold place_namespace].
  rewrite (place_digests_spec p _ _ (drop n jobs ++ rest) []) by done.
  rewrite fmap_cons in Hnames. apply NoDup_snoc_inv in Hnames as [Hfresh Hnames].
  cbn [rbind app]. rewrite insert_new_collect by done. cbn [rbind].
  rewrite IH; [| |done|done|by rewrite fmap_app].
  - cbn [assembled_list]. rewrite <-app_assoc. cbn [app]. fold n.
    rewrite take_app_length', drop_app_length'; [done|..].
    all: rewrite length_take; apply (f_equal length) in Hid1; rewrite !length_fmap, length_take in Hid1; lia.
  - rewrite fmap_app in Hnd. by apply NoDup_app in Hnd as (_ & _ & ?).
Qed.

Lemma assemble_plan_spec p rest C batches :
  plan_wf p → NoDup (identity <$> plan_jobs p ++ rest) → plan_credential_id p ∉ C →
  assemble_plan (C, result_table d (plan_jobs p ++ rest), batches) p =
  if lengths_ok d (plan_jobs p)
  then Ok ({[plan_credential_id p]} ∪ C, result_table d rest, batches ++ [assembled d p])
  else Err InvalidDigestLength.
Proof.
  intros Hwf Hnd HC. unfold assemble_plan. rewrite decide_False by done.
  rewrite take_jobs_spec; [|done|by apply wf_jobs_credential|set_solver].
  destruct (lengths_ok d _); [|done]. cbn [rbind].
  rewrite digest_table_foldl by by apply wf_identities.
  assert (try_fold (place_namespace p) (digest_table d (plan_jobs p), ∅) (plan_namespaces p) =
    Ok (digest_table d [], assembled d p)) as ->; [|done].
  rewrite <-(app_nil_r (plan_jobs p)) at 1. apply (place_namespaces_spec p _ _ [] []).
  - rewrite app_nil_r. by apply wf_identities.
  - by apply wf_planned.
  - by apply wf_jobs_credential.
  - by apply wf_digests.
  - by apply wf_names.
Qed.

Lemma assemble_plans_spec plans rest C batches :
  Forall plan_wf plans → NoDup (plan_credential_id <$> plans) →
  NoDup (identity <$> concat (plan_jobs <$> plans) ++ rest) →
  (∀ p, p ∈ plans → plan_credential_id p ∉ C) →
  rmap (λ s, (s.1.2, s.2)) (try_fold assemble_plan (C, result_table d (concat (plan_jobs <$> plans) ++ rest), batches) plans) =
  if lengths_ok d (concat (plan_jobs <$> plans))
  then Ok (result_table d rest, batches ++ (assembled d <$> plans))
  else Err InvalidDigestLength.
Proof.
  intros Hwf. revert C batches. induction Hwf as [|p plans Hp Hwf IH]; intros C batches Hcred Hnd HC.
  { cbn. by rewrite app_nil_r. }
  rewrite !fmap_cons in *. cbn [concat] in *. rewrite <-app_assoc in *.
  apply NoDup_cons in Hcred as [Hni Hcred].
  cbn [try_fold]. rewrite assemble_plan_spec; [|done|done|apply HC; by left].
  rewrite lengths_ok_app. destruct (lengths_ok d (plan_jobs p)); [|done]. cbn [rbind andb].
  rewrite IH; [|done| |].
  - by rewrite <-app_assoc.
  - rewrite fmap_app in Hnd. by apply NoDup_app in Hnd as (_ & _ & ?).
  - intros q Hq. rewrite elem_of_union, elem_of_singleton. intros [Heq|Hin].
    + apply Hni. rewrite <-Heq. apply list_elem_of_fmap. by exists q.
    + by apply (HC q); [right|].
Qed.
End reordered.

Lemma index_results_NoDup results :
  NoDup (result_identity <$> results) →
  index_results results = (collect ((λ r, (result_identity r, r)) <$> results), false).
Proof.
  induction results as [|r l IH] using rev_ind; [done|]. rewrite !fmap_app. intros Hnd.
  apply NoDup_app in Hnd as (Hnd & Hd & _).
  unfold index_results in *. rewrite foldl_app, (IH Hnd). cbn [foldl fmap list_fmap]. rewrite collect_snoc.
  destruct (collect _ !! result_identity r) as [r'|] eqn:E; [|done]. exfalso.
  assert (result_identity r ∈ ((λ r, (result_identity r, r)) <$> l).*1) as Hin by (apply collect_dom; by eexists).
  rewrite <-list_fmap_compose in Hin. apply (Hd (result_identity r)); [exact Hin|by left].
Qed.

(** A batch assembles to the digests of its plans from any order of their results. *)
Lemma reordered_batches_spec d plans results :
  Forall plan_wf plans → NoDup (plan_credential_id <$> plans) →
  results ≡ₚ (λ job, digest_result job (d job)) <$> concat (plan_jobs <$> plans) →
  assemble_reordered_digest_batches plans results =
  if lengths_ok d (concat (plan_jobs <$> plans)) then Ok (assembled d <$> plans) else Err InvalidDigestLength.
Proof.
  intros Hwf Hcred Hp. pose proof (wf_identities_concat plans Hwf Hcred) as Hnd.
  set (jobs := concat (plan_jobs <$> plans)) in *.
  assert (NoDup (result_identity <$> results)) as Hrnd.
  { rewrite Hp, <-list_fmap_compose. by apply Hnd. }
  unfold assemble_reordered_digest_batches. rewrite index_results_NoDup by done.
  assert (collect ((λ r, (result_identity r, r)) <$> results) = result_table d jobs) as ->.
  { rewrite (collect_perm _ ((λ job, (identity job, digest_result job (d job))) <$> jobs)).
    - apply collect_NoDup. rewrite <-list_fmap_compose. by apply Hnd.
    - rewrite <-list_fmap_compose. by apply Hrnd.
    - rewrite Hp, <-list_fmap_compose. done. }
  pose proof (assemble_plans_spec d plans [] ∅ [] Hwf Hcred) as Hs. rewrite !app_nil_r in Hs.
  specialize (Hs Hnd (λ _ _, not_elem_of_empty _)). fold jobs in Hs.
  destruct (try_fold _ _ _) as [[[C M] batches]|e]; destruct (lengths_ok d jobs); cbn [rmap fst snd] in Hs; try done.
  - injection Hs as -> ->. done.
  - by injection Hs as ->.
Qed.

(** ** The fast path on the results of a plan *)

Section ordered.
Context (d : DigestJob → bytes).
Abbreviation results_of jobs := ((λ job, digest_result job (d job)) <$> jobs).

Lemma ordered_digests_spec p n pds jobs rest pre :
  identity <$> jobs = (λ i, (plan_credential_id p, Z.of_nat i)) <$> seq n (length jobs) →
  (Z.of_nat (n + length jobs) ≤ u64_max)%Z →
  planned_identity <$> pds = identity <$> jobs →
  NoDup (pre.*1 ++ (pd_digest_id <$> pds)) →
  try_fold (assemble_ordered_digest p)
    (jobs ++ rest, results_of (jobs ++ rest), Z.of_nat n, collect pre) pds =
  if lengths_ok d jobs
  then Ok (rest, results_of rest, Z.of_nat (n + length jobs), collect (pre ++ namespace_digests d pds jobs))
  else Err InvalidDigestLength.
Proof.
  revert n pre pds. induction jobs as [|job jobs IH]; intros n pre [|pd pds] Hseq Hbound Hid Hdig; try done.
  { cbn [try_fold lengths_ok forallb length]. unfold namespace_digests. cbn. by rewrite Nat.add_0_r, app_nil_r. }
  cbn [app fmap list_fmap length seq] in Hseq, Hid, Hbound. injection Hseq as Hjc Hji Hseq.
  injection Hid as Hpc Hpj Hid.
  cbn [try_fold app fmap list_fmap assemble_ordered_digest].
  rewrite !decide_False by
    (unfold planned_identity, result_identity, identity; cbn [digest_result dr_credential_id dr_job_id dr_ordinal];
     intros []; congruence).
  unfold lengths_ok. cbn [forallb]. unfold length_ok at 1. cbn [digest_result dr_digest].
  destruct (decide (length (d job) ≠ digest_length (dj_algorithm job))) as [Hlen|Hlen%dec_stable].
  { by rewrite bool_decide_false. }
  rewrite bool_decide_true by done. cbn [andb].
  rewrite fmap_cons in Hdig. apply NoDup_snoc_inv in Hdig as [Hfresh Hdig].
  rewrite insert_new_collect by done. cbn [rbind]. unfold checked_add. rewrite bool_decide_true by lia.
  cbn [ok_or rbind]. replace (Z.of_nat n + 1)%Z with (Z.of_nat (S n)) by lia.
  change (try_fold ?f ?s pds) with (try_fold f s pds).
  specialize (IH (S n) (pre ++ [(pd_digest_id pd, {| bytestr := d job |})]) pds Hseq).
  rewrite fmap_app in IH. unfold lengths_ok in IH. etrans; [apply IH; [lia|done|done]|].
  unfold namespace_digests. rewrite !fmap_cons. cbn [zip zip_with length].
  by rewrite <-app_assoc, Nat.add_succ_r.
Qed.

Lemma ordered_namespaces_spec p n nss jobs rest pre :
  identity <$> jobs = (λ i, (plan_credential_id p, Z.of_nat i)) <$> seq n (length jobs) →
  (Z.of_nat (n + length jobs) ≤ u64_max)%Z →
  planned_identity <$> concat (pn_digests <$> nss) = identity <$> jobs →
  Forall (λ ns, NoDup (pd_digest_id <$> pn_digests ns)) nss →
  NoDup (pre.*1 ++ (pn_name <$> nss)) →
  try_fold (assemble_ordered_namespace p)
    (jobs ++ rest, results_of (jobs ++ rest), Z.of_nat n, collect pre) nss =
  if lengths_ok d jobs
  then Ok (rest, results_of rest, Z.of_nat (n + length jobs), collect (pre ++ assembled_list d nss jobs))
  else Err InvalidDigestLength.
Proof.
  intros Hseq Hbound Hid Hdig. revert n jobs pre Hseq Hbound Hid.
  induction Hdig as [|ns nss Hns _ IH]; intros n jobs pre Hseq Hbound Hid Hnames.
  { destruct jobs; [|done]. cbn. by rewrite Nat.add_0_r, app_nil_r. }
  rewrite fmap_cons in Hid. cbn [concat] in Hid. apply planned_split in Hid as [Hid1 Hid2].
  cbn [try_fold assemble_ordered_namespace assembled_list].
  pose proof (f_equal length Hid1) as Hlen. rewrite !length_fmap in Hlen.
  set (k := length (pn_digests ns)) in *. set (j1 := take k jobs) in *. set (j2 := drop k jobs) in *.
  assert (jobs = j1 ++ j2) as Hj by (symmetry; apply take_drop). rewrite Hj in *. clearbody j1 j2. clear Hj.
  rewrite length_app, seq_app, !fmap_app in Hseq. rewrite length_app in Hbound.
  apply app_inj_1 in Hseq as [Hs1 Hs2]; [|by rewrite !length_fmap, length_seq].
  rewrite <-!app_assoc, lengths_ok_app.
  pose proof (ordered_digests_spec p n (pn_digests ns) j1 (j2 ++ rest) [] Hs1 ltac:(lia) Hid1 Hns) as Ho.
  change (@collect Z ByteStr _ _ _ []) with (∅ : DigestIds) in Ho. rewrite Ho. clear Ho.
  destruct (lengths_ok d j1); [|done]. cbn [rbind andb app].
  rewrite fmap_cons in Hnames. apply NoDup_snoc_inv in Hnames as [Hfresh Hnames].
  rewrite insert_new_collect by done. cbn [rbind].
  rewrite IH; [|done|lia|done|by rewrite fmap_app].
  by rewrite length_app, <-app_assoc, Nat.add_assoc.
Qed.

Lemma ordered_plan_spec p :
  plan_wf p →
  assemble_ordered_digest_namespaces p (results_of (plan_jobs p)) =
  if lengths_ok d (plan_jobs p) then Ok (assembled d p) else Err InvalidDigestLength.
Proof.
  intros Hwf. unfold assemble_ordered_digest_namespaces.
  pose proof (ordered_namespaces_spec p 0 (plan_namespaces p) (plan_jobs p) [] []) as Ho.
  rewrite !app_nil_r in Ho.
  change (@collect string DigestIds _ _ _ []) with (∅ : btree string DigestIds) in Ho.
  change (Z.of_nat 0) with 0%Z in Ho. rewrite Ho; [by destruct (lengths_ok _ _)|..].
  - by apply wf_jobs.
  - by apply wf_bound.
  - by apply wf_planned.
  - by apply wf_digests.
  - by apply wf_names.
Qed.
End ordered.

Lemma reordered_plan_spec d p results :
  plan_wf p → results ≡ₚ (λ job, digest_result job (d job)) <$> plan_jobs p →
  assemble_reordered_digest_namespaces p results =
  if lengths_ok d (plan_jobs p) then Ok (assembled d p) else Err InvalidDigestLength.
Proof.
  intros Hwf Hp. unfold assemble_reordered_digest_namespaces.
  rewrite (reordered_batches_spec d); cbn [fmap list_fmap concat]; rewrite ?app_nil_r; [|by constructor|by apply NoDup_singleton|done].
  by destruct (lengths_ok d _).
Qed.

(** Results in plan order are the jobs with some digest each. *)
Lemma follow_plan_order p results :
  plan_wf p → results_follow_plan_order p results = true →
  ∃ d, results = (λ job, digest_result job (d job)) <$> plan_jobs p.
Proof.
  intros Hwf Hf. unfold results_follow_plan_order in Hf. bool_to_prop.
  assert (Forall2 (λ job r, identity job = result_identity r ∧ dj_ordinal job = dr_ordinal r) (plan_jobs p) results) as Hall.
  { apply Forall2_same_length_lookup. split; [done|]. intros i job r Hj Hr.
    rewrite forallb_forall in H0. specialize (H0 (job, r)). cbn [fst snd] in H0.
    assert (In (job, r) (zip (plan_jobs p) results)) as Hin.
    { apply list_elem_of_In, (list_elem_of_lookup_2 _ i). by rewrite lookup_zip_with, Hj, Hr. }
    specialize (H0 Hin). bool_to_prop. done. }
  pose proof (wf_identities p Hwf) as Hnd. clear H H0 Hwf.
  exists (λ job, default [] (dr_digest <$> (collect ((λ r, (result_identity r, r)) <$> results) !! identity job))).
  assert (∀ i job r, plan_jobs p !! i = Some job → results !! i = Some r →
    collect ((λ r, (result_identity r, r)) <$> results) !! identity job = Some r) as Hlk.
  { intros i job r Hj Hr. pose proof (Forall2_lookup_lr _ _ _ _ _ _ Hall Hj Hr) as [Hid _].
    apply collect_lookup.
    - rewrite <-list_fmap_compose. assert (result_identity <$> results = identity <$> plan_jobs p) as Heq.
      { clear -Hall. induction Hall as [|a b l k [] _ IH]; [done|]. rewrite !fmap_cons. by f_equal. }
      change ((fst ∘ (λ r, (result_identity r, r))) <$> results) with (result_identity <$> results). by rewrite Heq.
    - rewrite Hid. apply list_elem_of_fmap. exists r. split; [done|]. by eapply list_elem_of_lookup_2. }
  apply list_eq. intros i. rewrite list_lookup_fmap. destruct (plan_jobs p !! i) as [job|] eqn:Hj.
  - destruct (Forall2_lookup_l _ _ _ _ _ Hall Hj) as (r & Hr & Hid & Hord).
    rewrite Hr. simpl. rewrite (Hlk _ _ _ Hj Hr). simpl. f_equal. destruct r. unfold digest_result, identity, result_identity in *.
    simpl in *. congruence.
  - apply lookup_ge_None. rewrite <-(Forall2_length _ _ _ Hall). by apply lookup_ge_None.
Qed.

(** ** Properties of assembly *)

(** On the plans of the planner, the fast path taken when the results arrive in
      plan order gives exactly what the general path gives, errors included. *)
Theorem fast_path_equivalent p results :
  plan_wf p → results_follow_plan_order p results = true →
  assemble_ordered_digest_namespaces p results = assemble_reordered_digest_namespaces p results.
Proof.
  intros Hwf Hf. destruct (follow_plan_order p results Hwf Hf) as [d ->].
  rewrite ordered_plan_spec by done. by rewrite (reordered_plan_spec d).
Qed.

Section correct_results.
Context `{Sha2Laws}.

Definition job_digest (job : DigestJob) : bytes := digest (dj_algorithm job) (dj_input job).

Lemma job_digest_lengths jobs : lengths_ok job_digest jobs = true.
Proof.
  unfold lengths_ok. apply forallb_forall. intros job _. unfold length_ok, job_digest, digest, digest_length.
  apply bool_decide_eq_true. destruct (dj_algorithm job).
  - apply Sha256_digest_length. - apply Sha384_digest_length. - apply Sha512_digest_length.
Qed.

Lemma assemble_correct p results :
  plan_wf p → results ≡ₚ execute_digest_job <$> plan_jobs p →
  assemble_digest_namespaces p results = Ok (assembled job_digest p).
Proof.
  intros Hwf Hp. unfold assemble_digest_namespaces. destruct (results_follow_plan_order p results) eqn:Hf.
  - destruct (follow_plan_order p results Hwf Hf) as [d ->]. rewrite ordered_plan_spec by done.
    rewrite <-(reordered_plan_spec d p ((λ job, digest_result job (d job)) <$> plan_jobs p)) by done.
    rewrite (reordered_plan_spec job_digest) by done. by rewrite job_digest_lengths.
  - rewrite (reordered_plan_spec job_digest) by done. by rewrite job_digest_lengths.
Qed.

Lemma batches_correct plans results :
  Forall plan_wf plans → NoDup (plan_credential_id <$> plans) →
  results ≡ₚ execute_digest_job <$> concat (plan_jobs <$> plans) →
  assemble_reordered_digest_batches plans results = Ok (assembled job_digest <$> plans).
Proof. intros. rewrite (reordered_batches_spec job_digest) by done. by rewrite job_digest_lengths. Qed.

(** Whatever the order in which a correct executor returns its results, one plan or
      a batch of plans of distinct credentials assembles to the digests of exactly
      the planned jobs, each under its planned identifier, namespace and credential. *)
Theorem assembly_order_independent plans results :
  Forall plan_wf plans → NoDup (plan_credential_id <$> plans) →
  results ≡ₚ execute_digest_job <$> concat (plan_jobs <$> plans) →
  assemble_reordered_digest_batches plans results = Ok (assembled job_digest <$> plans) ∧
  (∀ p results, p ∈ plans → results ≡ₚ execute_digest_job <$> plan_jobs p →
     assemble_digest_namespaces p results = Ok (assembled job_digest p)).
Proof.
  intros Hwf Hcred Hp. split; [by apply batches_correct|]. rewrite Forall_forall in Hwf.
  intros p rs Hin. apply assemble_correct. by apply Hwf.
Qed.
End correct_results.

(** *** Results that are not those of the plan *)

(** A result that belongs to a job. *)
Definition result_for (job : DigestJob) (r : DigestResult) : Prop :=
  result_identity r = identity job ∧ dr_ordinal r = dj_ordinal job ∧
  length (dr_digest r) = digest_length (dj_algorithm job).

Definition keyed (M : btree (Z * Z) DigestResult) : Prop := ∀ id r, M !! id = Some r → result_identity r = id.

Lemma take_jobs_sound p jobs E M D E' M' D' :
  keyed M → try_fold (take_job_result p) (E, M, D) jobs = Ok (E', M', D') →
  keyed M' ∧ ∃ rs, Forall2 result_for jobs rs ∧ (entries M).*2 ≡ₚ rs ++ (entries M').*2.
Proof.
  revert E M D. induction jobs as [|job jobs IH]; intros E M D Hk Hf; cbn [try_fold] in Hf.
  { injection Hf as <- <- <-. split; [done|]. exists []. by split; [constructor|]. }
  inv_result. destruct t as [[E1 M1] D1]. cbn [take_job_result] in Hr.
  destruct (decide _); [done|]. destruct (decide _); [done|]. inv_result.
  destruct (decide _) as [|Hord%dec_stable]; [done|]. destruct (decide _) as [|Hlen%dec_stable]; [done|].
  injection Hr as <- <- <-. apply IH in Hf as [Hk' (rs & Hrs & Hp)].
  - split; [done|]. exists (t :: rs). split; [constructor; [|done]|].
    + split; [by apply Hk|done].
    + cbn [app]. rewrite <-Hp, <-!map_to_list_entries, <-(map_to_list_delete M (identity job) t) by done. done.
  - intros id r Hlk. rewrite lookup_delete_Some in Hlk. apply Hk, Hlk.
Qed.

Lemma assemble_plans_sound plans C M batches C' M' batches' :
  keyed M → try_fold assemble_plan (C, M, batches) plans = Ok (C', M', batches') →
  ∃ rs, Forall2 result_for (concat (plan_jobs <$> plans)) rs ∧ (entries M).*2 ≡ₚ rs ++ (entries M').*2.
Proof.
  revert C M batches. induction plans as [|p plans IH]; intros C M batches Hk Hf; cbn [try_fold] in Hf.
  { injection Hf as <- <- <-. exists []. by split; [constructor|]. }
  inv_result. destruct t as [[C1 M1] b1]. unfold assemble_plan in Hr. destruct (decide _); [done|]. inv_result.
  destruct t as [[E1 M2] D1]. apply take_jobs_sound in Hr0 as [Hk1 (rs1 & Hrs1 & Hp1)]; [|done].
  inv_result. destruct t as [D2 nss]. destruct (is_empty D2); [|done]. injection Hr as <- <- <-.
  apply IH in Hf as (rs & Hrs & Hp); [|done]. exists (rs1 ++ rs).
  split; [rewrite fmap_cons; by apply Forall2_app|]. by rewrite Hp1, Hp, <-app_assoc.
Qed.

Lemma index_results_sound results M :
  index_results results = (M, false) → keyed M ∧ (entries M).*2 ≡ₚ results.
Proof.
  unfold index_results. revert M. induction results as [|r l IH] using rev_ind; intros M HM.
  { injection HM as <-. split; [|done]. intros id r. done. }
  rewrite foldl_app in HM. destruct (foldl _ _ l) as [M1 dup]. cbn [foldl] in HM.
  destruct (M1 !! result_identity r) eqn:E; injection HM as HM Hd; [done|]. subst dup M.
  destruct (IH M1 eq_refl) as [Hk Hp]. split.
  - intros id r'. rewrite lookup_insert_Some. intros [[<- <-]|[_ Hl]]; [done|by apply Hk].
  - rewrite <-map_to_list_entries, map_to_list_insert by done. rewrite fmap_cons, map_to_list_entries, Hp.
    by rewrite Permutation_cons_append.
Qed.

(** C22: Assembly fails closed: when a batch assembles, whatever executor produced the
      results, they are exactly one result for every planned job, with the job's
      identity and ordinal and a digest of the algorithm's length, and nothing else. *)
Theorem assembly_fails_closed plans results batches :
  assemble_reordered_digest_batches plans results = Ok batches →
  ∃ rs, results ≡ₚ rs ∧ Forall2 result_for (concat (plan_jobs <$> plans)) rs.
Proof.
  unfold assemble_reordered_digest_batches. destruct (index_results results) as [M dup] eqn:Hi.
  destruct dup; [done|]. intros Hok. inv_result. destruct t as [[C M'] bs].
  apply index_results_sound in Hi as [Hk Hp]. apply assemble_plans_sound in Hr as (rs & Hrs & Hps); [|done].
  destruct (is_empty M') eqn:He; [|done]. apply is_empty_spec in He as ->.
  exists rs. split; [|done]. rewrite <-Hp, Hps. cbn. by rewrite app_nil_r.
Qed.

(** ** Witnesses *)

Section plan_witnesses.
#[local] Existing Instance toy_sha2.
#[local] Existing Instance toy_sha2_laws.

(** Two digests in one namespace and one in another. *)
Definition example_plan (c : Z) : MdocDigestPlan :=
  let job (i : Z) (ordinal : nat) := {| dj_credential_id := c; dj_job_id := i; dj_ordinal := ordinal;
    dj_algorithm := SHA384; dj_input := [c; i] |} in
  let planned i id := {| pd_credential_id := c; pd_job_id := i; pd_digest_id := id |} in
  {| plan_credential_id := c;
     plan_namespaces := [{| pn_name := "a"; pn_digests := [planned 0 12; planned 1 7] |};
                         {| pn_name := "b"; pn_digests := [planned 2 7] |}]%Z;
     plan_jobs := [job 0%Z 0; job 1%Z 1; job 2%Z 0] |}.

Lemma example_plan_wf c : plan_wf (example_plan c).
Proof.
  split; try reflexivity; try done.
  - apply (bool_decide_unpack _). by vm_compute.
  - apply (bool_decide_unpack _). by vm_compute.
Qed.

Definition example_results (c : Z) : list DigestResult := execute_digest_job <$> plan_jobs (example_plan c).

Lemma fast_path_equivalent_witness :
  assemble_ordered_digest_namespaces (example_plan 3) (example_results 3) =
  assemble_reordered_digest_namespaces (example_plan 3) (example_results 3).
Proof. apply (fast_path_equivalent (example_plan 3)); [apply example_plan_wf|by vm_compute]. Defined.

Lemma assembly_order_independent_witness :
  ∃ batches,
    assemble_reordered_digest_batches [example_plan 3; example_plan 4] (example_results 4 ++ reverse (example_results 3))
      = Ok batches.
Proof.
  eexists. apply (assembly_order_independent [example_plan 3; example_plan 4]).
  - repeat apply Forall_cons_2; [apply example_plan_wf..|apply Forall_nil_2].
  - apply (bool_decide_unpack _). by vm_compute.
  - rewrite reverse_Permutation. cbn [concat fmap list_fmap]. rewrite app_nil_r.
    change (execute_digest_job <$> plan_jobs (example_plan 3) ++ plan_jobs (example_plan 4))
      with (example_results 3 ++ example_results 4). apply Permutation_app_comm.
Defined.

Lemma assembly_fails_closed_witness :
  ∃ rs, reverse (example_results 3) ≡ₚ rs ∧
    Forall2 result_for (concat (plan_jobs <$> [example_plan 3])) rs.
Proof.
  eapply (assembly_fails_closed [example_plan 3] (reverse (example_results 3))).
  apply (batches_correct [example_plan 3]).
  - repeat apply Forall_cons_2; [apply example_plan_wf..|apply Forall_nil_2].
  - apply NoDup_singleton.
  - rewrite reverse_Permutation. cbn [concat fmap list_fmap]. by rewrite app_nil_r.
Defined.
End plan_witnesses.
