(* ===== verification/PlanProps.v ===== *)
(** * What the digest planner produces ([src/issuance/mdoc.rs])

    Fresh identifiers, the items and jobs of a namespace, and the shape of a whole
    plan: a plan is determined by its credential identity and its contents, the
    identifier and input of every job, namespace by namespace. *)

From S2P Require Export DigestPlan.

(** ** Fresh digest identifiers *)

Section fresh.
Context {fuel : RetryFuel} {R : Type} `{RngLaws R}.

Lemma loop_spec bound used r i used' r' :
  generate_digest_id_loop bound used r = Ok (i, used', r') →
  i ∉ used ∧ used' = {[i]} ∪ used ∧ ∃ n, i = DigestId_new (draw n r).
Proof.
  revert r. induction bound as [|bound IH]; intros r Hl; [done|]. cbn [generate_digest_id_loop] in Hl.
  destruct (gen_i32 r) as [raw r1] eqn:Hg. destruct (decide _) as [Hin|Hni].
  - apply IH in Hl as (? & ? & n & ->). split_and!; [done..|]. exists (S n).
    unfold draw. rewrite Nat.iter_succ_r. simpl. by rewrite Hg.
  - injection Hl as <- <- <-. split_and!; [done..|]. exists 0. unfold draw. simpl. by rewrite Hg.
Qed.

Lemma generate_digest_id_spec used r i used' r' :
  generate_digest_id used r = Ok (i, used', r') → i ∉ used ∧ used' = {[i]} ∪ used ∧ is_i32 i.
Proof.
  intros Hg. apply loop_spec in Hg as (? & ? & n & ->). split_and!; [done..|].
  pose proof (gen_i32_range (Nat.iter n (snd ∘ gen_i32) r)) as Hr. fold (draw n r) in Hr.
  unfold is_i32, i32_min, i32_max, DigestId_new, wrap_i32 in *. case_match; [|lia].
  pose proof (Z.mod_pos_bound (- draw n r + 2 ^ 31) (2 ^ 32)). lia.
Qed.

End fresh.

(** ** Contents of a plan *)

(** The jobs and planned digests of consecutive inputs, numbered from [next]. *)
Definition planned_jobs (c : Z) (alg : DigestAlgorithm) (next : Z) (inputs : list bytes) : list DigestJob :=
  imap (λ i input, {| dj_credential_id := c; dj_job_id := next + Z.of_nat i; dj_ordinal := i;
                      dj_algorithm := alg; dj_input := input |}) inputs.
Definition planned_list (c next : Z) (ids : list Z) : list PlannedMdocDigest :=
  imap (λ i id, {| pd_credential_id := c; pd_job_id := next + Z.of_nat i; pd_digest_id := id |}) ids.

(** Identifier and input of every digest of a namespace. *)
Abbreviation Contents := (list (string * list (Z * bytes))).

Fixpoint make_namespaces (c next : Z) (contents : Contents) : list PlannedMdocNamespace :=
  match contents with
  | [] => []
  | (name, ps) :: contents =>
      {| pn_name := name; pn_digests := planned_list c next ps.*1 |}
      :: make_namespaces c (next + Z.of_nat (length ps)) contents
  end.
Fixpoint make_jobs (c : Z) (alg : DigestAlgorithm) (next : Z) (contents : Contents) : list DigestJob :=
  match contents with
  | [] => []
  | (name, ps) :: contents =>
      planned_jobs c alg next ps.*2 ++ make_jobs c alg (next + Z.of_nat (length ps)) contents
  end.
Definition make_plan (c : Z) (alg : DigestAlgorithm) (contents : Contents) : MdocDigestPlan := {|
  plan_credential_id := c;
  plan_namespaces := make_namespaces c 0 contents;
  plan_jobs := make_jobs c alg 0 contents;
|}.
Definition job_count (contents : Contents) : nat := sum_list (length ∘ snd <$> contents).

Lemma planned_jobs_length c alg next inputs : length (planned_jobs c alg next inputs) = length inputs.
Proof. apply length_imap. Qed.
Lemma planned_list_length c next ids : length (planned_list c next ids) = length ids.
Proof. apply length_imap. Qed.

Lemma planned_list_ids c next ids : pd_digest_id <$> planned_list c next ids = ids.
Proof.
  unfold planned_list. rewrite fmap_imap. revert next. induction ids as [|i l IH]; intros next; [done|].
  rewrite imap_cons. simpl. f_equal. apply (IH next).
Qed.

Lemma planned_identities c alg next inputs ids :
  length ids = length inputs →
  planned_identity <$> planned_list c next ids = identity <$> planned_jobs c alg next inputs.
Proof.
  intros Hl. unfold planned_list, planned_jobs. rewrite !fmap_imap.
  apply list_eq. intros i. rewrite !list_lookup_imap.
  destruct (ids !! i) eqn:E1, (inputs !! i) eqn:E2; simpl; try done; exfalso.
  - apply lookup_lt_Some in E1. apply lookup_ge_None in E2. lia.
  - apply lookup_lt_Some in E2. apply lookup_ge_None in E1. lia.
Qed.

Lemma planned_jobs_identity c alg next inputs :
  identity <$> planned_jobs c alg next inputs = (λ i, (c, next + Z.of_nat i)%Z) <$> seq 0 (length inputs).
Proof.
  unfold planned_jobs. rewrite fmap_imap. apply list_eq. intros i.
  rewrite list_lookup_imap, list_lookup_fmap. destruct (inputs !! i) eqn:E; simpl.
  - rewrite lookup_seq_lt by by eapply lookup_lt_Some. done.
  - rewrite lookup_seq_ge by by apply lookup_ge_None. done.
Qed.

Lemma make_jobs_length c alg next contents : length (make_jobs c alg next contents) = job_count contents.
Proof.
  revert next. induction contents as [|[name ps] l IH]; intros next; [done|].
  cbn [make_jobs]. rewrite length_app, planned_jobs_length, IH, length_fmap. done.
Qed.

Lemma make_jobs_identity c alg next contents :
  identity <$> make_jobs c alg next contents =
  (λ i, (c, next + Z.of_nat i)%Z) <$> seq 0 (job_count contents).
Proof.
  revert next. induction contents as [|[name ps] l IH]; intros next; [done|].
  cbn [make_jobs]. rewrite fmap_app, planned_jobs_identity, IH, length_fmap.
  change (job_count ((name, ps) :: l)) with (length ps + job_count l). rewrite seq_app, fmap_app. f_equal.
  replace (0 + length ps) with (length ps + 0) by lia. rewrite <-fmap_add_seq, <-list_fmap_compose.
  apply list_fmap_ext. intros _ i _. simpl. f_equal. lia.
Qed.

Lemma make_planned_identities c alg next contents :
  planned_identity <$> concat (pn_digests <$> make_namespaces c next contents) =
  identity <$> make_jobs c alg next contents.
Proof.
  revert next. induction contents as [|[name ps] l IH]; intros next; [done|].
  cbn [make_namespaces make_jobs]. rewrite fmap_cons. cbn [concat]. rewrite !fmap_app, IH. f_equal.
  cbn [pn_digests]. apply planned_identities. by rewrite !length_fmap.
Qed.

(** The contents a planner produces: distinct identifiers and names, not too many jobs. *)
Definition contents_wf (contents : Contents) : Prop :=
  Forall (λ c, NoDup c.2.*1) contents ∧ NoDup contents.*1 ∧
  (Z.of_nat (job_count contents) ≤ u64_max)%Z.

Lemma make_plan_wf c alg contents : contents_wf contents → plan_wf (make_plan c alg contents).
Proof.
  intros (Hids & Hnames & Hb). split; cbn [make_plan plan_jobs plan_namespaces plan_credential_id].
  - by rewrite make_jobs_identity, make_jobs_length.
  - by rewrite make_jobs_length.
  - apply make_planned_identities.
  - clear Hnames Hb. generalize 0%Z. induction Hids as [|[name ps] l Hps _ IH]; intros next; [constructor|].
    cbn [make_namespaces]. constructor; [|done]. cbn [pn_digests]. by rewrite planned_list_ids.
  - enough (∀ next, pn_name <$> make_namespaces c next contents = contents.*1) as -> by done.
    clear. induction contents as [|[name ps] l IH]; intros next; [done|]. cbn [make_namespaces].
    rewrite !fmap_cons. by rewrite IH.
Qed.

(** The value digests of a plan, by its contents: the credential plays no role. *)
Definition contents_digests `{Sha2} (alg : DigestAlgorithm) (contents : Contents) : btree string DigestIds :=
  collect ((λ c : string * list (Z * bytes),
    (c.1, collect ((λ p : Z * bytes, (p.1, {| bytestr := digest alg p.2 |})) <$> c.2))) <$> contents).

Lemma assembled_make_plan `{Sha2} c alg contents :
  assembled job_digest (make_plan c alg contents) = contents_digests alg contents.
Proof.
  unfold assembled, contents_digests. f_equal. cbn [make_plan plan_namespaces plan_jobs].
  generalize 0%Z. induction contents as [|[name ps] l IH]; intros next; [done|].
  cbn [make_namespaces make_jobs assembled_list pn_digests pn_name]. rewrite fmap_cons, planned_list_length, length_fmap.
  rewrite take_app_length', drop_app_length' by by rewrite planned_jobs_length, length_fmap.
  rewrite IH. f_equal. cbn [fst snd]. do 2 f_equal. unfold namespace_digests.
  rewrite planned_list_ids. clear. unfold planned_jobs. rewrite fmap_imap. generalize next. clear.
  intros next. enough (∀ k, zip ps.*1 (imap (λ i input, {| bytestr := job_digest {| dj_credential_id := c;
    dj_job_id := next + Z.of_nat (k + i); dj_ordinal := k + i; dj_algorithm := alg; dj_input := input |} |}) ps.*2)
    = (λ p : Z * bytes, (p.1, {| bytestr := digest alg p.2 |})) <$> ps) as Hk by apply (Hk 0).
  induction ps as [|[i input] ps IH]; intros k; [done|]. rewrite !fmap_cons, imap_cons.
  cbn [zip zip_with fst snd]. f_equal. by rewrite <-(IH (S k)).
Qed.

(** ** The planner *)

Definition plan_state (c : Z) (alg : DigestAlgorithm) (next : Z) (jobs : list DigestJob)
    (ids : list Z) (inputs : list bytes) : PlanState := {|
  next_job_id := next + Z.of_nat (length inputs);
  ps_jobs := jobs ++ planned_jobs c alg next inputs;
  planned_digests := planned_list c next ids;
|}.

Lemma push_spec c alg next jobs ids inputs id input s :
  length ids = length inputs →
  push_planned_digest c id (length inputs) alg input (plan_state c alg next jobs ids inputs) = Ok s →
  s = plan_state c alg next jobs (ids ++ [id]) (inputs ++ [input]) ∧
  (next + Z.of_nat (length (inputs ++ [input])) ≤ u64_max)%Z.
Proof.
  intros Hl Hp. unfold push_planned_digest in Hp. inv_result. unfold checked_add in Ho.
  case_bool_decide as Hb; [|done]. injection Ho as <-. rewrite length_app. cbn [plan_state next_job_id length] in *.
  split; [|lia]. unfold plan_state, planned_jobs, planned_list. cbn [ps_jobs planned_digests].
  rewrite !imap_app, length_app. cbn [imap length]. rewrite <-app_assoc, Hl, !Nat.add_0_r. f_equal. lia.
Qed.

(** The position of an item in a loop over an indexed list. *)
Lemma done_index {A} (f : nat → A) l done x rest :
  (∀ i a, l !! i = Some a → a = f i) → l = done ++ x :: rest → x = f (length done).
Proof. intros Hf ->. apply Hf. by rewrite list_lookup_middle. Qed.

Section planner.
Context {fuel : RetryFuel} {R : Type} `{RngLaws R} `{Serde IssuerSignedItem, Serde Value}.
Context (c : Z) (alg : DigestAlgorithm).

Lemma plan_items_spec next jobs elements s :
  (next ≤ u64_max)%Z →
  try_fold (plan_item c alg) (plan_state c alg next jobs [] []) (imap pair elements) = Ok s →
  ∃ inputs, Forall2 (λ e b, to_vec e = Ok b) elements inputs ∧
    s = plan_state c alg next jobs ((λ e, digest_id (inner e)) <$> elements) inputs ∧
    (next + Z.of_nat (length inputs) ≤ u64_max)%Z.
Proof.
  intros Hnext Hf.
  assert (∃ inputs, Forall2 (λ p b, to_vec p.2 = Ok b) (imap pair elements) inputs ∧
    s = plan_state c alg next jobs ((λ p, digest_id (inner p.2)) <$> imap pair elements) inputs ∧
    (next + Z.of_nat (length inputs) ≤ u64_max)%Z) as (inputs & Hall & -> & Hb).
  { revert Hf. apply (try_fold_inv _ (λ done s, ∃ inputs, Forall2 (λ p b, to_vec p.2 = Ok b) done inputs ∧
      s = plan_state c alg next jobs ((λ p, digest_id (inner p.2)) <$> done) inputs ∧
      (next + Z.of_nat (length inputs) ≤ u64_max)%Z)).
    { exists []. split_and!; [constructor|done|simpl; lia]. }
    intros done [i e] rest s1 s2 Hl (inputs & Hall & -> & Hb) Hstep.
    assert (i = length inputs) as ->.
    { pose proof (Forall2_length _ _ _ Hall) as <-.
      assert ((imap pair elements) !! length done = Some (i, e)) as Hi by by rewrite Hl, list_lookup_middle.
      rewrite list_lookup_imap in Hi. destruct (elements !! length done); by simplify_eq/=. }
    unfold plan_item in Hstep. inv_result. apply push_spec in Hstep as [-> Hb'].
    - exists (inputs ++ [t]). split_and!; [by apply Forall2_app; [|constructor]|by rewrite fmap_app|done].
    - rewrite length_fmap. by eapply Forall2_length. }
  exists inputs. rewrite fmap_imap. split_and!; [|f_equal; apply (imap_const (λ e : IssuerSignedItemBytes, digest_id (inner e)))|done].
  apply Forall2_same_length_lookup. split.
  - apply Forall2_length in Hall. by rewrite length_imap in Hall.
  - intros i e b He Hbi. refine (Forall2_lookup_lr _ _ _ i (i, e) b Hall _ Hbi).
    by rewrite list_lookup_imap, He.
Qed.

(** What the decoy loop adds. *)
Definition decoys_ok (used : gset Z) (decoys : list (Z * bytes)) : Prop :=
  NoDup decoys.*1 ∧ Forall (λ p : Z * bytes, p.1 ∉ used ∧ is_i32 p.1 ∧ length p.2 = DECOY_BYTES_LENGTH) decoys.

(** The invariant of that loop. *)
Definition decoy_inv next jobs ids inputs used (done : list nat) (acc : PlanState * gset Z * R) : Prop :=
  ∃ decoys, length decoys = length done ∧ decoys_ok used decoys ∧
    (∀ i, i ∈ acc.1.2 ↔ i ∈ used ∨ i ∈ decoys.*1) ∧
    acc.1.1 = plan_state c alg next jobs (ids ++ decoys.*1) (inputs ++ decoys.*2) ∧
    (next + Z.of_nat (length (inputs ++ decoys.*2)) ≤ u64_max)%Z.

Lemma plan_decoys_spec next jobs ids inputs used r k s used' r' :
  length ids = length inputs → (next + Z.of_nat (length inputs) ≤ u64_max)%Z →
  try_fold (plan_decoy c alg (length inputs)) (plan_state c alg next jobs ids inputs, used, r) (seq 0 k)
    = Ok (s, used', r') →
  ∃ decoys, length decoys = k ∧ decoys_ok used decoys ∧
    s = plan_state c alg next jobs (ids ++ decoys.*1) (inputs ++ decoys.*2) ∧
    (next + Z.of_nat (length (inputs ++ decoys.*2)) ≤ u64_max)%Z.
Proof.
  intros Hl Hb Hf.
  enough (decoy_inv next jobs ids inputs used (seq 0 k) (s, used', r')) as (decoys & Hd & ? & _ & ?).
  { exists decoys. by rewrite length_seq in Hd. }
  revert Hf. apply (try_fold_inv _ (decoy_inv next jobs ids inputs used)).
  { exists []. rewrite !app_nil_r. split_and!; [done|split; constructor| |done|done].
    intros i. cbn. rewrite elem_of_nil. tauto. }
  intros done i rest [[s1 u1] r1] [[s2 u2] r2] Hseq (decoys & Hd & [Hnd Hok] & Hu & Hs1 & Hb1) Hstep.
  cbn [fst snd] in *. subst s1.
  assert (i = length decoys) as ->.
  { rewrite Hd. apply (done_index id (seq 0 k) done i rest); [|done]. intros j a Hj.
    apply lookup_seq in Hj as [-> _]. done. }
  unfold plan_decoy in Hstep. inv_result. destruct t as [[id u] r3].
  apply generate_digest_id_spec in Hr as (Hfresh & -> & Hi32).
  destruct (gen_bytes DECOY_BYTES_LENGTH r3) as [bs r4] eqn:Hg. inv_result. simplify_eq.
  pose proof (gen_bytes_length DECOY_BYTES_LENGTH r3) as Hlen. rewrite Hg in Hlen.
  replace (length inputs + length decoys) with (length (inputs ++ decoys.*2)) in Hr
    by by rewrite length_app, length_fmap.
  apply push_spec in Hr as [-> Hb2]; [|by rewrite !length_app, !length_fmap, Hl].
  exists (decoys ++ [(id, bs)]). rewrite !fmap_app, !length_app, Hd. cbn [length fmap list_fmap fst snd].
  rewrite !app_assoc. split_and!; [done| | |done|rewrite !length_app in Hb2; cbn [length] in *; lia].
  - rewrite Hu in Hfresh. split.
    + rewrite fmap_app. apply NoDup_app. split_and!; [done| |apply NoDup_singleton].
      intros j Hj ->%list_elem_of_singleton. naive_solver.
    + apply Forall_app; split; [done|]. apply Forall_singleton. cbn [fst snd] in *. naive_solver.
  - intros j. rewrite elem_of_union, elem_of_singleton, Hu, elem_of_app, list_elem_of_singleton. tauto.
Qed.
End planner.

Lemma job_count_cons name ps contents : job_count ((name, ps) :: contents) = length ps + job_count contents.
Proof. done. Qed.
Lemma make_namespaces_snoc c next contents name ps :
  make_namespaces c next (contents ++ [(name, ps)]) =
  make_namespaces c next contents ++
  [{| pn_name := name; pn_digests := planned_list c (next + Z.of_nat (job_count contents)) ps.*1 |}].
Proof.
  revert next. induction contents as [|[n q] l IH]; intros next; cbn [app make_namespaces].
  - by rewrite Z.add_0_r.
  - by rewrite IH, job_count_cons, Nat2Z.inj_add, Z.add_assoc.
Qed.
Lemma make_jobs_snoc c alg next contents name ps :
  make_jobs c alg next (contents ++ [(name, ps)]) =
  make_jobs c alg next contents ++ planned_jobs c alg (next + Z.of_nat (job_count contents)) ps.*2.
Proof.
  revert next. induction contents as [|[n q] l IH]; intros next; cbn [app make_jobs].
  - by rewrite Z.add_0_r, app_nil_r.
  - by rewrite IH, app_assoc, job_count_cons, Nat2Z.inj_add, Z.add_assoc.
Qed.
Lemma job_count_snoc contents name ps : job_count (contents ++ [(name, ps)]) = job_count contents + length ps.
Proof.
  induction contents as [|[n q] l IH]; cbn [app]; rewrite !job_count_cons; [done|lia].
Qed.

Section plan_spec.
Context {fuel : RetryFuel} {R : Type} `{RngLaws R} `{Serde IssuerSignedItem, Serde Value}.
Context (c : Z) (alg : DigestAlgorithm) (enable : bool).

Definition element_ids (elements : list IssuerSignedItemBytes) : list Z :=
  (λ e, digest_id (inner e)) <$> elements.

(** The contents planned for the items of a namespace: each item under its
    identifier, then no decoys, or from five to nine with identifiers of their own. *)
Definition namespace_content (elements : list IssuerSignedItemBytes) (ps : list (Z * bytes)) : Prop :=
  ∃ inputs decoys,
    Forall2 (λ e b, to_vec e = Ok b) elements inputs ∧
    ps = zip (element_ids elements) inputs ++ decoys ∧
    (if enable then 5 ≤ length decoys < 10 else decoys = []) ∧
    decoys_ok (list_to_set (element_ids elements)) decoys.

Lemma namespace_content_fmap elements inputs decoys :
  Forall2 (λ e b, to_vec e = Ok b) elements inputs →
  (zip (element_ids elements) inputs ++ decoys).*1 = element_ids elements ++ decoys.*1 ∧
  (zip (element_ids elements) inputs ++ decoys).*2 = inputs ++ decoys.*2.
Proof.
  intros Hall. apply Forall2_length in Hall. rewrite !fmap_app, fst_zip, snd_zip;
    unfold element_ids; rewrite ?length_fmap; [done|lia..].
Qed.

Lemma namespace_content_NoDup elements ps :
  NoDup (element_ids elements) → namespace_content elements ps → NoDup ps.*1.
Proof.
  intros Hnd (inputs & decoys & Hall & -> & _ & [Hd Hfresh]).
  destruct (namespace_content_fmap elements inputs decoys Hall) as [-> _].
  apply NoDup_app. split_and!; [done| |done]. intros i Hi Hi2.
  apply list_elem_of_fmap in Hi2 as (p & -> & Hp). rewrite Forall_forall in Hfresh.
  destruct (Hfresh p Hp) as [Hni _]. apply Hni. by rewrite elem_of_list_to_set.
Qed.

Lemma plan_namespace_spec elements r next jobs pds r' next' jobs' :
  (next ≤ u64_max)%Z →
  plan_digest_namespace c elements alg enable r next jobs = Ok (pds, r', next', jobs') →
  ∃ ps, namespace_content elements ps ∧ pds = planned_list c next ps.*1 ∧
    jobs' = jobs ++ planned_jobs c alg next ps.*2 ∧
    next' = (next + Z.of_nat (length ps))%Z ∧ (next' ≤ u64_max)%Z.
Proof.
  intros Hnext Hf. unfold plan_digest_namespace in Hf.
  assert (∃ k r0, (if enable then gen_range 5 10 r else (0, r)) = (k, r0) ∧
    (if enable then 5 ≤ k < 10 else k = 0)) as (k & r0 & Hk & Hkb).
  { destruct enable; [|by exists 0, r]. pose proof (gen_range_bounds 5 10 r ltac:(lia)).
    destruct (gen_range 5 10 r) as [k r0]. by exists k, r0. }
  rewrite Hk in Hf. inv_result.
  assert ({| next_job_id := next; ps_jobs := jobs; planned_digests := [] |} = plan_state c alg next jobs [] [])
    as Hs0 by (unfold plan_state; cbn; by rewrite Z.add_0_r, app_nil_r).
  rewrite Hs0 in Hr. clear Hs0.
  apply (plan_items_spec c alg next jobs elements) in Hr as (inputs & Hall & -> & Hb); [|done].
  destruct t0 as [[s used'] r1]. simplify_eq/=.
  assert (length (element_ids elements) = length inputs) as Hl
    by (unfold element_ids; rewrite length_fmap; by eapply Forall2_length).
  pose proof (Forall2_length _ _ _ Hall) as Hle. rewrite Hle in Hr0.
  apply plan_decoys_spec in Hr0 as (decoys & Hd & Hok & -> & Hb2); [|done..].
  destruct (namespace_content_fmap elements inputs decoys Hall) as [H1' H2'].
  exists (zip (element_ids elements) inputs ++ decoys). rewrite H1', H2'. cbn [plan_state planned_digests ps_jobs next_job_id].
  rewrite !length_app, length_zip, Hl, Nat.min_id, !length_fmap in *. split_and!; try done; try lia.
  exists inputs, decoys. split_and!; [done..| |].
  - subst k. destruct enable; [done|]. by apply nil_length_inv.
  - destruct (decide (0 < k)); [done|]. destruct decoys; [|simpl in Hd; lia]. split; constructor.
Qed.

Definition plan_inv (done : list (string * NonEmptyVec IssuerSignedItemBytes))
    (acc : list PlannedMdocNamespace * u64 * list DigestJob * R) : Prop :=
  ∃ contents,
    Forall2 (λ ns ct, ns.1 = ct.1 ∧ namespace_content (nev ns.2) ct.2) done contents ∧
    acc.1.1.1 = make_namespaces c 0 contents ∧ acc.1.1.2 = Z.of_nat (job_count contents) ∧
    acc.1.2 = make_jobs c alg 0 contents ∧ (acc.1.1.2 ≤ u64_max)%Z.

Lemma plan_spec (m : IssuerNamespaces) r p r' :
  Forall (λ ns, NoDup (element_ids (nev ns.2))) (entries (nem m)) →
  plan_digest_namespaces_for_credential c m alg enable r = Ok (p, r') →
  ∃ contents, contents_wf contents ∧ p = make_plan c alg contents ∧
    Forall2 (λ ns ct, ns.1 = ct.1 ∧ namespace_content (nev ns.2) ct.2) (entries (nem m)) contents.
Proof.
  intros Hnd Hf. unfold plan_digest_namespaces_for_credential in Hf. inv_result.
  destruct t as [[[nss next] jobs] r1]. simplify_eq/=.
  assert (plan_inv (entries (nem m)) (nss, next, jobs, r')) as (contents & Hall & Hnss & Hnx & Hjobs & Hb).
  { revert Hr. apply try_fold_inv.
    - exists []. split_and!; [constructor|done..].
    - intros done [name elements] rest [[[nss1 n1] j1] r2] [[[nss2 n2] j2] r3] _ (cs & Hall & Hn & Hx & Hj & Hb) Hstep.
      cbn [fst snd] in *. cbn [plan_step] in Hstep. inv_result. destruct t as [[[ds r4] n3] j3]. simplify_eq/=.
      apply plan_namespace_spec in Hr as (ps & Hc & -> & -> & -> & Hb'); [|done].
      exists (cs ++ [(name, ps)]). cbn [fst snd].
      rewrite make_namespaces_snoc, make_jobs_snoc, job_count_snoc, !Z.add_0_l. split_and!; [|done|lia|done|done].
      apply Forall2_app; [done|]. by constructor. }
  cbn [fst snd] in *. exists contents. split_and!; [|by subst|done]. split_and!.
  - clear -Hall Hnd. induction Hall as [|ns ct l k [_ Hc] _ IH]; [constructor|].
    apply Forall_cons in Hnd as [Hn Hnd]. constructor; [by eapply namespace_content_NoDup|auto].
  - assert (contents.*1 = (entries (nem m)).*1) as ->; [|apply entries_NoDup].
    clear -Hall. induction Hall as [|ns ct l k [He _] _ IH]; [done|]. rewrite !fmap_cons. by f_equal.
  - lia.
Qed.
End plan_spec.

(** ** The credential identity only labels a plan *)

Lemma try_fold_map {A S S' E} (g : S → S') (f : S → A → result S E) (f' : S' → A → result S' E) l :
  (∀ s x, f' (g s) x = rmap g (f s x)) → ∀ s, try_fold f' (g s) l = rmap g (try_fold f s l).
Proof.
  intros Hf. induction l as [|x l IH]; intros s; cbn [try_fold]; [done|]. rewrite Hf.
  destruct (f s x); cbn [rmap rbind]; [apply IH|done].
Qed.

Definition relabel_job (c : Z) (j : DigestJob) : DigestJob := {|
  dj_credential_id := c; dj_job_id := dj_job_id j; dj_ordinal := dj_ordinal j;
  dj_algorithm := dj_algorithm j; dj_input := dj_input j |}.
Definition relabel_planned (c : Z) (p : PlannedMdocDigest) : PlannedMdocDigest := {|
  pd_credential_id := c; pd_job_id := pd_job_id p; pd_digest_id := pd_digest_id p |}.
Definition relabel_namespace (c : Z) (ns : PlannedMdocNamespace) : PlannedMdocNamespace := {|
  pn_name := pn_name ns; pn_digests := relabel_planned c <$> pn_digests ns |}.
Definition relabel_plan (c : Z) (p : MdocDigestPlan) : MdocDigestPlan := {|
  plan_credential_id := c;
  plan_namespaces := relabel_namespace c <$> plan_namespaces p;
  plan_jobs := relabel_job c <$> plan_jobs p |}.
Definition relabel_state (c : Z) (s : PlanState) : PlanState := {|
  next_job_id := next_job_id s; ps_jobs := relabel_job c <$> ps_jobs s;
  planned_digests := relabel_planned c <$> planned_digests s |}.

Lemma push_relabel c c' id ordinal alg input s :
  push_planned_digest c id ordinal alg input (relabel_state c s) =
  rmap (relabel_state c) (push_planned_digest c' id ordinal alg input s).
Proof.
  unfold push_planned_digest, relabel_state. cbn [next_job_id ps_jobs planned_digests].
  destruct (checked_add _ _ _); cbn; [by rewrite !fmap_app|done].
Qed.

Section relabel.
Context {fuel : RetryFuel} {R : Type} `{Rng R} `{Serde IssuerSignedItem, Serde Value}.
Context (c c' : Z) (alg : DigestAlgorithm) (enable : bool).

Lemma plan_namespace_relabel elements r next jobs :
  plan_digest_namespace c elements alg enable r next (relabel_job c <$> jobs) =
  rmap (λ x, (relabel_planned c <$> x.1.1.1, x.1.1.2, x.1.2, relabel_job c <$> x.2))
    (plan_digest_namespace c' elements alg enable r next jobs).
Proof.
  unfold plan_digest_namespace.
  destruct (if enable then gen_range 5 10 r else (0, r)) as [k r0].
  change {| next_job_id := next; ps_jobs := relabel_job c <$> jobs; planned_digests := [] |}
    with (relabel_state c {| next_job_id := next; ps_jobs := jobs; planned_digests := [] |}).
  rewrite (try_fold_map (relabel_state c) (plan_item c' alg)).
  2:{ intros s [i e]. unfold plan_item. destruct (to_vec e); cbn [map_err rbind]; [apply push_relabel|done]. }
  destruct (try_fold _ _ _) as [st|e]; cbn [rmap rbind]; [|done].
  generalize (if decide (0 < k) then list_to_set ((λ item : IssuerSignedItemBytes, digest_id (inner item)) <$> elements)
    else (∅ : gset Z)). intros used.
  set (g := λ x : PlanState * gset Z * R, (relabel_state c x.1.1, x.1.2, x.2)).
  change (relabel_state c st, used, r0) with (g (st, used, r0)).
  rewrite (try_fold_map g (plan_decoy c' alg (length elements))).
  2:{ intros [[s u] r1] i. unfold plan_decoy, g. cbn [fst snd].
      destruct (generate_digest_id u r1) as [[[id u1] r2]|]; cbn [rbind rmap]; [|done].
      destruct (gen_bytes _ r2) as [bs r3]. rewrite (push_relabel c c'). by destruct (push_planned_digest c' _ _ _ _ s). }
  by destruct (try_fold _ _ _) as [[[s u] r1]|e].
Qed.

Lemma plan_relabel (m : IssuerNamespaces) r :
  plan_digest_namespaces_for_credential c m alg enable r =
  rmap (λ x, (relabel_plan c x.1, x.2)) (plan_digest_namespaces_for_credential c' m alg enable r).
Proof.
  unfold plan_digest_namespaces_for_credential.
  set (g := λ x : list PlannedMdocNamespace * u64 * list DigestJob * R,
    (relabel_namespace c <$> x.1.1.1, x.1.1.2, relabel_job c <$> x.1.2, x.2)).
  change ([], 0%Z, [], r) with (g ([], 0%Z, [], r)) at 1.
  rewrite (try_fold_map g (plan_step c' alg enable)).
  2:{ intros [[[nss n] jobs] r1] [name elements]. unfold plan_step, g. cbn [fst snd].
      rewrite plan_namespace_relabel.
      destruct (plan_digest_namespace c' _ _ _ _ _ _) as [[[[ds r2] n2] js]|]; cbn [rmap rbind fst snd]; [|done].
      by rewrite fmap_app. }
  by destruct (try_fold _ _ _) as [[[[nss n] jobs] r1]|e].
Qed.
End relabel.

Lemma relabel_make_plan c c' alg contents :
  relabel_plan c (make_plan c' alg contents) = make_plan c alg contents.
Proof.
  unfold relabel_plan, make_plan. cbn [plan_namespaces plan_jobs]. f_equal.
  - generalize 0%Z. induction contents as [|[name ps] l IH]; intros next; [done|].
    cbn [make_namespaces]. rewrite fmap_cons, IH. f_equal. unfold relabel_namespace. cbn [pn_name pn_digests]. f_equal.
    unfold planned_list. by rewrite fmap_imap.
  - generalize 0%Z. induction contents as [|[name ps] l IH]; intros next; [done|].
    cbn [make_jobs]. rewrite fmap_app, IH. f_equal. unfold planned_jobs. by rewrite fmap_imap.
Qed.

(** ** Issuer-signed items *)

Lemma try_map_state_spec {A B S E} (f : S → A → result (B * S) E) (P : A → B → Prop) (I : S → list B → Prop) s l ys s' :
  I s [] →
  (∀ s x y s' ys, I s ys → f s x = Ok (y, s') → P x y ∧ I s' (ys ++ [y])) →
  try_map_state f s l = Ok (ys, s') → Forall2 P l ys ∧ I s' ys.
Proof.
  intros H0 Hstep. cut (∀ l s ys0 ys, I s ys0 → try_map_state f s l = Ok (ys, s') → Forall2 P l ys ∧ I s' (ys0 ++ ys)).
  { intros Hgen Hf. by apply (Hgen l s [] ys). }
  clear l s H0 ys. induction l as [|x l IH]; intros s ys0 ys HI Hf; cbn [try_map_state] in Hf.
  { injection Hf as <- <-. rewrite app_nil_r. by split; [constructor|]. }
  inv_result. destruct t as [y s1]. inv_result. destruct t as [ys1 s2]. simplify_eq.
  destruct (Hstep _ _ _ _ _ HI Hr) as [HP HI1]. destruct (IH _ _ _ HI1 Hr0) as [HPs HIs].
  split; [by constructor|]. by rewrite <-app_assoc in HIs.
Qed.

Section items.
Context {fuel : RetryFuel} {R : Type} `{RngLaws R} `{Serde IssuerSignedItem}.

(** An item made for an element. *)
Definition item_for (element : string * Value) (item : IssuerSignedItemBytes) : Prop :=
  element_identifier (inner item) = element.1 ∧ element_value (inner item) = element.2 ∧
  length (bytestr (random (inner item))) = 16 ∧ is_i32 (digest_id (inner item)) ∧
  to_vec (inner item) = Ok (inner_bytes item).

Definition ids_inv (s : gset Z * R) (items : list IssuerSignedItemBytes) : Prop :=
  NoDup (element_ids items) ∧ ∀ i, i ∈ s.1 ↔ i ∈ element_ids items.

Lemma to_issuer_item_step s element item s' items :
  ids_inv s items → to_issuer_item s element = Ok (item, s') → item_for element item ∧ ids_inv s' (items ++ [item]).
Proof.
  destruct s as [used r], element as [key value], s' as [used' r']. intros [Hnd Hu] Hf. cbn [fst snd] in *.
  unfold to_issuer_item in Hf.
  inv_result. destruct t as [[id u] r1]. apply generate_digest_id_spec in Hr as (Hfresh & -> & Hi).
  pose proof (gen_bytes_length 16 r1) as Hlen. destruct (gen_bytes 16 r1) as [bs r2]. inv_result. simplify_eq/=.
  apply Tag24_new_into_inner in Hr0 as [Hin Henc]. split.
  - unfold item_for. rewrite Hin in *. done.
  - unfold ids_inv, element_ids in *. rewrite fmap_app. cbn [fmap list_fmap fst]. rewrite Hin. cbn [digest_id]. split.
    + apply NoDup_app. split_and!; [done| |apply NoDup_singleton].
      intros j Hj ->%list_elem_of_singleton. by apply Hfresh, Hu.
    + intros j. rewrite elem_of_union, elem_of_singleton, Hu, elem_of_app, list_elem_of_singleton. tauto.
Qed.

Lemma to_issuer_namespace_spec r ns y r' :
  to_issuer_namespace r ns = Ok (y, r') →
  y.1 = ns.1 ∧ Forall2 item_for (entries ns.2) (nev y.2) ∧ NoDup (element_ids (nev y.2)) ∧ nev y.2 ≠ [].
Proof.
  destruct ns as [name elements]. unfold to_issuer_namespace. intros Hf. inv_result. destruct t as [items s]. inv_result.
  simplify_eq/=. apply NonEmptyVec_try_from_wf in Hr1 as [Hne Hnev].
  apply (try_map_state_spec to_issuer_item item_for ids_inv) in Hr as [Hall [Hnd _]].
  - rewrite Hnev. split_and!; [done..|]. unfold NonEmptyVec_wf in Hne. by rewrite <-Hnev.
  - split; [constructor|]. intros i. cbn. rewrite elem_of_nil. set_solver.
  - intros. by eapply to_issuer_item_step.
Qed.
End items.

Lemma entries_collect {K V W} `{OrdLaws K, EqDecision K} (l : list (K * V)) (m : btree K W) :
  l.*1 = (entries m).*1 → entries (collect l) = l.
Proof.
  intros Hkeys. pose proof (btree_sorted m) as Hs.
  assert (StronglySorted key_lt l) as Hl.
  { revert Hs Hkeys. generalize (entries m). clear. intros l' Hs. revert l.
    induction Hs as [|p l' _ IH Hall]; intros [|q l] Hk; try done; [constructor|].
    rewrite !fmap_cons in Hk. injection Hk as Hq Hk. constructor; [by apply IH|].
    apply Forall_forall. intros x Hx.
    assert (x.1 ∈ l'.*1) as (y & Hy & Hin)%list_elem_of_fmap by (rewrite <-Hk; apply list_elem_of_fmap; by exists x).
    pose proof (proj1 (Forall_forall _ _) Hall y Hin) as Hlt. unfold key_lt in *. by rewrite Hq, Hy. }
  change l with (entries (of_sorted l Hl)) at 1. by rewrite collect_entries.
Qed.

(** What [to_issuer_namespaces] makes of the elements of a namespace. *)
Definition namespace_for (ns : string * btree string Value) (y : string * NonEmptyVec IssuerSignedItemBytes)
    `{Serde IssuerSignedItem} : Prop :=
  y.1 = ns.1 ∧ Forall2 item_for (entries ns.2) (nev y.2) ∧ NoDup (element_ids (nev y.2)) ∧ nev y.2 ≠ [].

Lemma to_issuer_namespaces_spec {fuel : RetryFuel} {R} `{RngLaws R} `{Serde IssuerSignedItem} (namespaces : Namespaces) (r : R) m r' :
  to_issuer_namespaces namespaces r = Ok (m, r') →
  Forall2 (λ ns y, namespace_for ns y) (entries namespaces) (entries (nem m)).
Proof.
  unfold to_issuer_namespaces. intros Hf. inv_result. destruct t as [l r1]. inv_result. simplify_eq.
  unfold NonEmptyMap_try_from in Hr1. case_match; [done|]. injection Hr1 as <-. cbn [nem].
  apply (try_map_state_spec to_issuer_namespace (λ ns y, namespace_for ns y) (λ _ _, True)) in Hr as [Hall _].
  - rewrite (entries_collect _ namespaces); [done|].
    clear -Hall. induction Hall as [|ns y l1 l2 (He & _) _ IH]; [done|]. rewrite !fmap_cons. by f_equal.
  - done.
  - intros s x y s' ys _ Hx. split; [|done]. by eapply to_issuer_namespace_spec.
Qed.
