(* ===== verification/PlanReturns.v ===== *)
(** * Planning returns ([src/issuance/mdoc.rs])

    The one loop without a bound is the retry of a taken digest identifier.  This file
    follows a computation through all its uses of that loop at once, whatever
    happens to them: [settles] is what the two ways of looking at a run share, and the
    planner is followed once for both. *)

From S2P Require Export PlanProps.

(** ** The retry loop *)

Section loop.
Context {R : Type} `{RngLaws R}.

(** The loop runs out of fuel only on drawing taken identifiers all the time, and more
    fuel does not change what it has found. *)
Lemma loop_stalled fuel used r e :
  generate_digest_id_loop fuel used r = Err e → e = Diverges ∧ ∀ n, n < fuel → DigestId_new (draw n r) ∈ used.
Proof.
  revert r. induction fuel as [|fuel IH]; intros r Hl; cbn [generate_digest_id_loop] in Hl.
  { injection Hl as <-. split; [done|lia]. }
  destruct (gen_i32 r) as [raw r1] eqn:Hg. destruct (decide _) as [Hin|]; [|done].
  apply IH in Hl as [-> Hn]. split; [done|]. intros [|n] Hlt; unfold draw.
  - cbn. by rewrite Hg.
  - rewrite Nat.iter_succ_r. cbn. rewrite Hg. apply Hn. lia.
Qed.
Lemma loop_found fuel used r n :
  n < fuel → DigestId_new (draw n r) ∉ used → ∃ t, generate_digest_id_loop fuel used r = Ok t.
Proof.
  intros Hn Hfresh. destruct (generate_digest_id_loop fuel used r) as [t|e] eqn:Hl; [by eexists|].
  apply loop_stalled in Hl as [_ Hl]. by destruct Hfresh; apply Hl.
Qed.
Lemma loop_stable fuel fuel' used r t :
  generate_digest_id_loop fuel used r = Ok t → fuel ≤ fuel' → generate_digest_id_loop fuel' used r = Ok t.
Proof.
  revert fuel' r. induction fuel as [|fuel IH]; intros fuel' r Hl Hle; [done|]. destruct fuel' as [|fuel']; [lia|].
  cbn [generate_digest_id_loop] in *. destruct (gen_i32 r). destruct (decide _); [|done]. apply IH; [done|lia].
Qed.
Lemma loop_drawn_from r0 fuel used r i used' r' :
  drawn_from r0 r → generate_digest_id_loop fuel used r = Ok (i, used', r') → drawn_from r0 r'.
Proof.
  revert r. induction fuel as [|fuel IH]; intros r Hr Hl; cbn [generate_digest_id_loop] in Hl; [done|].
  apply drawn_i32 in Hr. destruct (gen_i32 r) as [raw r1]. destruct (decide _); [by apply (IH r1)|]. by injection Hl as _ _ <-.
Qed.
End loop.

(** ** Computations with a retry bound *)

(** A computation for every bound; [W x Q] says that [x] settles with a result in [Q]. *)
Abbreviation Bounded T := (nat → result T MdocError).

Record settles {R} `{Rng R} (r0 : R) (W : ∀ T, Bounded T → (T → Prop) → Prop) : Prop := {
  settles_ok T (x : T) (Q : T → Prop) : Q x → W T (λ _, Ok x) Q;
  settles_bind T U (x : Bounded T) (f : T → Bounded U) (Q : T → Prop) (Q' : U → Prop) :
    W T x Q → (∀ t n, Q t → x n = Ok t → W U (f t) Q') → W U (λ n, rbind (λ t, f t n) (x n)) Q';
  settles_mono T (x : Bounded T) (Q Q' : T → Prop) : W T x Q → (∀ t, Q t → Q' t) → W T x Q';
  settles_loop used r :
    drawn_from r0 r → (Z.of_nat (size used) < 2 ^ 31)%Z →
    W _ (λ n, generate_digest_id_loop n used r)
      (λ p, p.1.1 ∉ used ∧ p.1.2 = {[p.1.1]} ∪ used ∧ drawn_from r0 p.2);
}.

(** The generator has run into a state from which the whole bound of draws is taken,
    although fewer than the 2^31 identifiers are. *)
Definition stalled {R} `{Rng R} (r0 : R) (bound : nat) : Prop :=
  ∃ (used : gset Z) r, drawn_from r0 r ∧ (Z.of_nat (size used) < 2 ^ 31)%Z ∧ ∀ n, n < bound → DigestId_new (draw n r) ∈ used.
(** From every state, with fewer than 2^31 identifiers taken, it draws another one some time. *)
Definition lively {R} `{Rng R} (r0 : R) : Prop :=
  ∀ (used : gset Z) r, drawn_from r0 r → (Z.of_nat (size used) < 2 ^ 31)%Z → ∃ n, DigestId_new (draw n r) ∉ used.

(** One way of looking at a run: under every bound it returns, unless the generator stalls. *)
Definition returns_or_stalls {R} `{Rng R} (r0 : R) T (x : Bounded T) (Q : T → Prop) : Prop :=
  ∀ n, match x n with Ok t => Q t | Err e => e = Diverges ∧ stalled r0 n end.
Lemma returns_or_stalls_settles {R} `{RngLaws R} (r0 : R) : settles r0 (returns_or_stalls r0).
Proof.
  split.
  - by intros T x Q Hx n.
  - intros T U x f Q Q' Hx Hf n. specialize (Hx n). destruct (x n) as [t|e] eqn:Ht; [by apply (Hf t n)|done].
  - intros T x Q Q' Hx HQ n. specialize (Hx n). destruct (x n); [by apply HQ|done].
  - intros used r Hr Hsize n. destruct (generate_digest_id_loop n used r) as [[[i used'] r']|e] eqn:Hl.
    + pose proof (loop_drawn_from r0 _ _ _ _ _ _ Hr Hl) as Hr'. by apply loop_spec in Hl as (? & ? & _).
    + apply loop_stalled in Hl as [-> Hl]. split; [done|]. by exists used, r.
Qed.

(** The other: with a generator that does not stall, one result under every large enough bound. *)
Definition returns_eventually T (x : Bounded T) (Q : T → Prop) : Prop :=
  ∃ t bound, Q t ∧ ∀ n, bound ≤ n → x n = Ok t.
Lemma returns_eventually_settles {R} `{RngLaws R} (r0 : R) : lively r0 → settles r0 returns_eventually.
Proof.
  intros Hlively. split.
  - intros T x Q Hx. by exists x, 0.
  - intros T U x f Q Q' (t & b & Ht & Hx) Hf.
    destruct (Hf t b Ht (Hx b (le_n _))) as (u & b' & Hu & Hfu). exists u, (b `max` b'). split; [done|].
    intros n Hn. rewrite Hx by lia. cbn [rbind]. apply Hfu. lia.
  - intros T x Q Q' (t & b & Ht & Hx) HQ. exists t, b. split; [by apply HQ|done].
  - intros used r Hr Hsize. destruct (Hlively used r Hr Hsize) as [k Hk].
    destruct (loop_found (S k) used r k (Nat.lt_succ_diag_r k) Hk) as [[[i used'] r'] Hl]. exists (i, used', r'), (S k). split.
    + pose proof (loop_drawn_from r0 _ _ _ _ _ _ Hr Hl) as Hr'. by apply loop_spec in Hl as (? & ? & _).
    + intros n Hn. by apply (loop_stable (S k)).
Qed.

Lemma size_list_to_set_le (l : list Z) : size (list_to_set l : gset Z) ≤ length l.
Proof.
  induction l as [|x l IH]; [apply Nat.eq_le_incl, size_empty|].
  change (size ({[x]} ∪ list_to_set l : gset Z) ≤ S (length l)).
  pose proof (size_union_alt ({[x]} : gset Z) (list_to_set l)) as Hu. rewrite size_singleton in Hu.
  assert (size ((list_to_set l : gset Z) ∖ {[x]}) ≤ size (list_to_set l : gset Z)) by (apply subseteq_size; set_solver). lia.
Qed.

(** ** The planner *)

Section returns.
Context {R : Type} `{RngLaws R} `{Serde IssuerSignedItem, Serde Value}.
Context (r0 : R) (W : ∀ T, Bounded T → (T → Prop) → Prop) (HW : settles r0 W).
(** Issuer-signed items and values are encodable. *)
Context (Hitem : ∀ x : IssuerSignedItem, is_ok (to_vec x)) (Hvalue : ∀ v : Value, is_ok (to_vec v)).

Lemma try_map_state_settles {A B S} (f : nat → S → A → result (B * S) MdocError) (P : list A → S → Prop)
    (Rel : A → B → Prop) l s :
  P l s → (∀ x rest s, P (x :: rest) s → W _ (λ n, f n s x) (λ p, Rel x p.1 ∧ P rest p.2)) →
  W _ (λ n, try_map_state (f n) s l) (λ p, Forall2 Rel l p.1 ∧ P [] p.2).
Proof.
  intros HP Hstep. revert s HP. induction l as [|x l IH]; intros s HP; cbn [try_map_state].
  { apply (settles_ok _ _ HW). by split; [constructor|]. }
  apply (settles_bind _ _ HW) with (1 := Hstep _ _ _ HP). intros [y s1] _ [Hy HP1] _. cbn [fst snd] in *.
  apply (settles_bind _ _ HW) with (1 := IH _ HP1). intros [ys s2] _ [Hys HP2] _. cbn [fst snd] in *.
  apply (settles_ok _ _ HW). by split; [constructor|].
Qed.
Lemma try_fold_settles {A S} (f : nat → S → A → result S MdocError) (P : list A → S → Prop) l s :
  P l s → (∀ x rest s, P (x :: rest) s → W _ (λ n, f n s x) (P rest)) → W _ (λ n, try_fold (f n) s l) (P []).
Proof.
  intros HP Hstep. revert s HP. induction l as [|x l IH]; intros s HP; cbn [try_fold].
  { by apply (settles_ok _ _ HW). }
  apply (settles_bind _ _ HW) with (1 := Hstep _ _ _ HP). intros s1 _ HP1 _. by apply IH.
Qed.

Lemma fresh_id_settles used r (m : nat) :
  drawn_from r0 r → (Z.of_nat (size used + S m) < 2 ^ 31)%Z →
  W _ (λ n, generate_digest_id (fuel := n) used r)
    (λ p, (Z.of_nat (size p.1.2 + m) < 2 ^ 31)%Z ∧ drawn_from r0 p.2).
Proof.
  intros Hr Hsize. eapply (settles_mono _ _ HW); [apply (settles_loop _ _ HW); [done|lia]|].
  intros [[i used'] r'] (Hi & -> & Hr'). cbn [fst snd] in *. rewrite size_union, size_singleton by set_solver. split; [lia|done].
Qed.

Lemma to_issuer_namespace_settles r name (elements : btree string Value) :
  drawn_from r0 r → entries elements ≠ [] → (Z.of_nat (length (entries elements)) < 2 ^ 31)%Z →
  W _ (λ n, to_issuer_namespace (fuel := n) r (name, elements)) (λ p, p.1.1 = name ∧ drawn_from r0 p.2).
Proof.
  intros Hr Hne Hsize. unfold to_issuer_namespace. eapply (settles_bind _ _ HW).
  - apply (try_map_state_settles (λ n, to_issuer_item (fuel := n))
      (λ l (s : gset Z * R), (Z.of_nat (size s.1 + length l) < 2 ^ 31)%Z ∧ drawn_from r0 s.2) (λ _ _, True)).
    + cbn [fst snd]. rewrite size_empty. split; [lia|done].
    + intros [key value] rest [used r1] [Hs Hr1]. cbn [fst snd length] in *. unfold to_issuer_item.
      eapply (settles_bind _ _ HW); [by apply (fresh_id_settles used r1 (length rest))|].
      intros [[i used'] r2] _ [Hs2 Hr2] _. cbn [fst snd] in *. pose proof (drawn_bytes _ 16 _ Hr2) as Hr3.
      destruct (gen_bytes 16 r2) as [bs r3]. unfold Tag24_new. set (x := {| digest_id := _ |}). specialize (Hitem x).
      destruct (to_vec x) as [b|]; [|done]. cbn [map_err rbind]. by apply (settles_ok _ _ HW).
  - intros [items s] _ [Hitems [_ Hs]] _. cbn [fst snd] in *. destruct Hitems; [done|].
    cbn [NonEmptyVec_try_from map_err rbind]. by apply (settles_ok _ _ HW).
Qed.

Definition small_namespaces (namespaces : Namespaces) : Prop :=
  entries namespaces ≠ [] ∧
  Forall (λ ns : string * btree string Value, entries ns.2 ≠ [] ∧ (Z.of_nat (length (entries ns.2) + 10) < 2 ^ 31)%Z)
    (entries namespaces) ∧
  (Z.of_nat (sum_list ((λ ns : string * btree string Value, length (entries ns.2) + 10)%nat <$> entries namespaces)) ≤ u64_max)%Z.

Lemma to_issuer_namespaces_settles namespaces :
  small_namespaces namespaces →
  W _ (λ n, to_issuer_namespaces (fuel := n) namespaces r0) (λ p, drawn_from r0 p.2).
Proof.
  intros (Hne & Hall & _). unfold to_issuer_namespaces. eapply (settles_bind _ _ HW).
  - apply (try_map_state_settles (λ n, to_issuer_namespace (fuel := n)) (λ l r,
      Forall (λ ns : string * btree string Value, entries ns.2 ≠ [] ∧ (Z.of_nat (length (entries ns.2) + 10) < 2 ^ 31)%Z) l ∧
      drawn_from r0 r) (λ ns y, y.1 = ns.1)); [split; [done|constructor]|].
    intros [name elements] rest r [[[Hn Hs] Hrest]%Forall_cons Hr]. cbn [snd fst] in *.
    eapply (settles_mono _ _ HW); [apply to_issuer_namespace_settles; [done|done|lia]|]. by intros [y r'] [? ?].
  - intros [l r] _ [Hl [_ Hr]] _. cbn [fst snd] in *. unfold NonEmptyMap_try_from, is_empty.
    rewrite (entries_collect _ namespaces).
    + destruct Hl; [done|]. cbn [map_err rbind]. by apply (settles_ok _ _ HW).
    + clear -Hl. induction Hl as [|ns y l1 l2 He _ IH]; [done|]. rewrite !fmap_cons. by f_equal.
Qed.

Lemma push_returns c id ordinal alg input s :
  (next_job_id s + 1 ≤ u64_max)%Z →
  ∃ s', push_planned_digest c id ordinal alg input s = Ok s' ∧ next_job_id s' = (next_job_id s + 1)%Z.
Proof.
  intros Hb. unfold push_planned_digest, checked_add. rewrite bool_decide_true by done. by eexists.
Qed.

(** The two loops of a namespace. *)
Lemma plan_items_settle c alg elements (s : PlanState) :
  (next_job_id s + Z.of_nat (length elements) ≤ u64_max)%Z →
  W _ (λ _, try_fold (plan_item c alg) s (imap pair elements))
    (λ s', next_job_id s' = next_job_id s + Z.of_nat (length elements))%Z.
Proof.
  intros Hb. eapply (settles_mono _ _ HW).
  - apply (try_fold_settles (λ _, plan_item c alg)
      (λ l s', next_job_id s' + Z.of_nat (length l) = next_job_id s + Z.of_nat (length elements))%Z); [by rewrite length_imap|].
    intros [i e] rest s' Hn. cbn [length] in Hn. unfold plan_item. cbn [to_vec Tag24_serde serde_via_value].
    specialize (Hvalue (into_value e)). destruct (to_vec (into_value e)) as [b|]; [|done]. cbn [map_err rbind].
    destruct (push_returns c (digest_id (inner e)) i alg b s') as (s2 & -> & Hn'); [lia|]. apply (settles_ok _ _ HW). lia.
  - intros s' Hs'. cbn [length] in Hs'. lia.
Qed.
Lemma plan_decoys_settle c alg len s used r k :
  drawn_from r0 r → (next_job_id s + Z.of_nat k ≤ u64_max)%Z → (Z.of_nat (size used + k) < 2 ^ 31)%Z →
  W _ (λ n, try_fold (plan_decoy (fuel := n) c alg len) (s, used, r) (seq 0 k))
    (λ p, next_job_id p.1.1 = next_job_id s + Z.of_nat k ∧ drawn_from r0 p.2)%Z.
Proof.
  intros Hr Hb Hsize. eapply (settles_mono _ _ HW).
  - apply (try_fold_settles (λ n, plan_decoy (fuel := n) c alg len)
      (λ l (p : PlanState * gset Z * R), (next_job_id p.1.1 + Z.of_nat (length l) = next_job_id s + Z.of_nat k)%Z ∧
         (Z.of_nat (size p.1.2 + length l) < 2 ^ 31)%Z ∧ drawn_from r0 p.2)).
    + cbn [fst snd]. by rewrite length_seq.
    + intros i rest [[s' u] r1] (Hn & Hu & Hr1). cbn [fst snd length] in *. unfold plan_decoy.
      eapply (settles_bind _ _ HW); [by apply (fresh_id_settles u r1 (length rest))|].
      intros [[id u'] r2] _ [Hu' Hr2] _. cbn [fst snd] in *. pose proof (drawn_bytes _ DECOY_BYTES_LENGTH _ Hr2) as Hr3.
      destruct (gen_bytes _ r2) as [bs r3]. destruct (push_returns c id (len + i) alg bs s') as (s2 & -> & Hn'); [lia|].
      cbn [rbind]. apply (settles_ok _ _ HW). cbn [fst snd]. split; [lia|done].
  - intros [[s' u] r'] (Hn & _ & Hr'). cbn [fst snd length] in *. split; [lia|done].
Qed.

Lemma plan_namespace_settles c elements alg enable r next jobs :
  drawn_from r0 r → (Z.of_nat (length elements + 10) < 2 ^ 31)%Z → (next + Z.of_nat (length elements + 10) ≤ u64_max)%Z →
  W _ (λ n, plan_digest_namespace (fuel := n) c elements alg enable r next jobs)
    (λ p, p.1.2 ≤ next + Z.of_nat (length elements + 10) ∧ drawn_from r0 p.1.1.2)%Z.
Proof.
  intros Hr Hs Hb. unfold plan_digest_namespace.
  assert (∃ k r1, (if enable then gen_range 5 10 r else (0, r)) = (k, r1) ∧ k < 10 ∧ drawn_from r0 r1) as (k & r1 & -> & Hk & Hr1).
  { destruct enable; [|exists 0, r; split_and!; [done|lia|done]]. pose proof (gen_range_bounds 5 10 r ltac:(lia)).
    pose proof (drawn_range _ 5 10 _ Hr). destruct (gen_range 5 10 r) as [k r1]. exists k, r1. simpl in *. split_and!; [done|lia|done]. }
  eapply (settles_bind _ _ HW); [apply plan_items_settle; cbn [next_job_id]; lia|]. intros s1 _ Hs1 _. cbn [next_job_id] in Hs1.
  eapply (settles_bind _ _ HW); [apply (plan_decoys_settle c alg (length elements) s1 _ r1 k Hr1); [lia|]|].
  - case_decide; [|rewrite size_empty; lia].
    pose proof (size_list_to_set_le ((λ item : IssuerSignedItemBytes, digest_id (inner item)) <$> elements)) as Hle.
    rewrite length_fmap in Hle. lia.
  - intros [[s2 u2] r2] _ [Hn Hr2] _. cbn [fst snd] in *. apply (settles_ok _ _ HW). cbn [fst snd]. split; [lia|done].
Qed.

Lemma plan_settles c (m : IssuerNamespaces) alg enable r :
  drawn_from r0 r →
  Forall (λ ns : string * NonEmptyVec IssuerSignedItemBytes, (Z.of_nat (length (nev ns.2) + 10) < 2 ^ 31)%Z) (entries (nem m)) →
  (Z.of_nat (sum_list ((λ ns : string * NonEmptyVec IssuerSignedItemBytes, length (nev ns.2) + 10)%nat <$> entries (nem m))) ≤ u64_max)%Z →
  W _ (λ n, plan_digest_namespaces_for_credential (fuel := n) c m alg enable r) (λ p, drawn_from r0 p.2).
Proof.
  intros Hr Hall Hb. unfold plan_digest_namespaces_for_credential. eapply (settles_bind _ _ HW).
  - apply (try_fold_settles (λ n, plan_step (fuel := n) c alg enable)
      (λ l (s : list PlannedMdocNamespace * u64 * list DigestJob * R),
        (s.1.1.2 + Z.of_nat (sum_list ((λ ns : string * NonEmptyVec IssuerSignedItemBytes, length (nev ns.2) + 10)%nat <$> l)) ≤ u64_max)%Z ∧
        Forall (λ ns : string * NonEmptyVec IssuerSignedItemBytes, (Z.of_nat (length (nev ns.2) + 10) < 2 ^ 31)%Z) l ∧
        drawn_from r0 s.2)); [done|].
    intros [name elements] rest [[[nss next] jobs] r1] (Hn & [Hs Hf]%Forall_cons & Hr1). cbn [fst snd] in *.
    rewrite fmap_cons in Hn. simpl in Hn. cbn [plan_step].
    eapply (settles_bind _ _ HW); [apply (plan_namespace_settles c (nev elements) alg enable r1 next jobs Hr1); lia|].
    intros [[[pds r2] next'] jobs'] _ [Hn2 Hr2] _. cbn [fst snd] in *. apply (settles_ok _ _ HW). cbn [fst snd].
    split_and!; [lia|done|done].
  - intros [[[nss next] jobs] r1] _ (_ & _ & Hr1) _. by apply (settles_ok _ _ HW).
Qed.
End returns.

(** ** A counter as a generator *)

(** Identifiers in sequence, modulo 2^31: among the first [S (size used)] draws one is
    not used. *)
Definition counter_rng : Rng Z := {|
  gen_i32 n := ((n mod 2 ^ 31)%Z, (n + 1)%Z);
  gen_bytes len n := (replicate len 0%Z, n);
  gen_range lo hi n := (lo, n);
|}.

Lemma counter_draw k n : @draw Z counter_rng k n = ((n + Z.of_nat k) mod 2 ^ 31)%Z.
Proof.
  unfold draw. enough (Nat.iter k (snd ∘ @gen_i32 Z counter_rng) n = (n + Z.of_nat k)%Z) as -> by done.
  induction k as [|k IH]; [simpl; lia|]. rewrite Nat.iter_succ, IH. simpl. lia.
Qed.

Lemma counter_rng_laws : @RngLaws Z counter_rng.
Proof.
  split.
  - intros n. cbn [gen_i32 counter_rng fst]. unfold is_i32, i32_min, i32_max.
    pose proof (Z.mod_pos_bound n (2 ^ 31)). lia.
  - intros len n. apply length_replicate.
  - intros lo hi n Hlt. simpl. lia.
Qed.

Lemma counter_lively r0 : @lively Z counter_rng r0.
Proof.
  intros used n _ Hsize. set (f := λ k, ((n + Z.of_nat k) mod 2 ^ 31)%Z).
  destruct (decide (Forall (λ k, f k ∈ used) (seq 0 (S (size used))))) as [Hall|Hno].
  - exfalso. assert (NoDup (f <$> seq 0 (S (size used)))) as Hnd.
    { apply NoDup_fmap_2_strong; [|apply NoDup_seq]. intros i j Hi%elem_of_seq Hj%elem_of_seq Heq. unfold f in Heq.
      rewrite (Z.mod_eq (n + Z.of_nat i)), (Z.mod_eq (n + Z.of_nat j)) in Heq by lia.
      enough ((n + Z.of_nat i) / 2 ^ 31 = (n + Z.of_nat j) / 2 ^ 31)%Z by lia. nia. }
    pose proof (size_list_to_set (C := gset Z) _ Hnd) as Hs. rewrite length_fmap, length_seq in Hs.
    assert (size (list_to_set (f <$> seq 0 (S (size used))) : gset Z) ≤ size used) as Hle; [|lia].
    apply subseteq_size. intros x (k & -> & Hk)%elem_of_list_to_set%list_elem_of_fmap.
    rewrite Forall_forall in Hall. by apply Hall.
  - apply not_Forall_Exists, Exists_exists in Hno as (k & Hk%elem_of_seq & Hni); [|intros k; apply _].
    exists k. rewrite counter_draw. unfold DigestId_new.
    pose proof (Z.mod_pos_bound (n + Z.of_nat k) (2 ^ 31)). case_match; [lia|]. exact Hni.
Qed.

(** Enough draws for the examples. *)
Definition example_fuel : RetryFuel := 20.
