(* ===== verification/Mdoc.v ===== *)
(** * Issuance ([src/issuance/mdoc.rs], lines 1 to 723)

    The builder, single and batch preparation of credentials for a remote signer,
    and completion of a prepared credential with its signature and certificate
    chain. *)

From S2P Require Export PlanReturns X509.

(** ** Data *)

Record Mdoc : Type := {
  mdoc_doc_type : string;
  mdoc_mso : Mso.Mso;
  mdoc_namespaces : IssuerNamespaces;
  mdoc_issuer_auth : MaybeTagged CoseSign1;
}.
Record PreparedMdoc : Type := {
  pm_doc_type : string;
  pm_mso : Mso.Mso;
  pm_namespaces : IssuerNamespaces;
  prepared_sig : PreparedCoseSign1;
}.
Record Builder : Type := {
  bd_doc_type : option string;
  bd_namespaces : option Namespaces;
  bd_validity_info : option ValidityInfo;
  bd_digest_algorithm : option DigestAlgorithm;
  bd_device_key_info : option DeviceKeyInfo;
  bd_enable_decoy_digests : option bool;
}.
Definition Builder_default : Builder := {|
  bd_doc_type := None; bd_namespaces := None; bd_validity_info := None;
  bd_digest_algorithm := None; bd_device_key_info := None; bd_enable_decoy_digests := None |}.

Definition with_doc_type (x : string) (b : Builder) : Builder := {|
  bd_doc_type := Some x; bd_namespaces := bd_namespaces b; bd_validity_info := bd_validity_info b;
  bd_digest_algorithm := bd_digest_algorithm b; bd_device_key_info := bd_device_key_info b;
  bd_enable_decoy_digests := bd_enable_decoy_digests b |}.
Definition with_namespaces (x : Namespaces) (b : Builder) : Builder := {|
  bd_doc_type := bd_doc_type b; bd_namespaces := Some x; bd_validity_info := bd_validity_info b;
  bd_digest_algorithm := bd_digest_algorithm b; bd_device_key_info := bd_device_key_info b;
  bd_enable_decoy_digests := bd_enable_decoy_digests b |}.
Definition with_validity_info (x : ValidityInfo) (b : Builder) : Builder := {|
  bd_doc_type := bd_doc_type b; bd_namespaces := bd_namespaces b; bd_validity_info := Some x;
  bd_digest_algorithm := bd_digest_algorithm b; bd_device_key_info := bd_device_key_info b;
  bd_enable_decoy_digests := bd_enable_decoy_digests b |}.
Definition with_digest_algorithm (x : DigestAlgorithm) (b : Builder) : Builder := {|
  bd_doc_type := bd_doc_type b; bd_namespaces := bd_namespaces b; bd_validity_info := bd_validity_info b;
  bd_digest_algorithm := Some x; bd_device_key_info := bd_device_key_info b;
  bd_enable_decoy_digests := bd_enable_decoy_digests b |}.
Definition with_device_key_info (x : DeviceKeyInfo) (b : Builder) : Builder := {|
  bd_doc_type := bd_doc_type b; bd_namespaces := bd_namespaces b; bd_validity_info := bd_validity_info b;
  bd_digest_algorithm := bd_digest_algorithm b; bd_device_key_info := Some x;
  bd_enable_decoy_digests := bd_enable_decoy_digests b |}.
Definition with_enable_decoy_digests (x : bool) (b : Builder) : Builder := {|
  bd_doc_type := bd_doc_type b; bd_namespaces := bd_namespaces b; bd_validity_info := bd_validity_info b;
  bd_digest_algorithm := bd_digest_algorithm b; bd_device_key_info := bd_device_key_info b;
  bd_enable_decoy_digests := Some x |}.

Record MdocBatchItem : Type := {
  bi_credential_id : u64;
  bi_builder : Builder;
  bi_signature_algorithm : Algorithm;
}.
Record PreparedMdocBatchItem : Type := { pb_credential_id : u64; pb_prepared_mdoc : PreparedMdoc }.

Record ValidatedMdocBatchItem : Type := {
  vi_credential_id : u64;
  vi_doc_type : string;
  vi_namespaces : Namespaces;
  vi_validity_info : ValidityInfo;
  vi_digest_algorithm : DigestAlgorithm;
  vi_device_key_info : DeviceKeyInfo;
  vi_signature_algorithm : Algorithm;
  vi_enable_decoy_digests : bool;
}.
Record PlannedMdocBatchItem : Type := {
  pi_credential_id : u64;
  pi_doc_type : string;
  pi_issuer_namespaces : IssuerNamespaces;
  pi_validity_info : ValidityInfo;
  pi_digest_algorithm : DigestAlgorithm;
  pi_device_key_info : DeviceKeyInfo;
  pi_signature_algorithm : Algorithm;
}.

(** ** Validation *)

Definition validate_namespace_shape (namespaces : Namespaces) : result unit MdocError :=
  if is_empty namespaces then Err NoNamespace else
  if existsb (λ ns : string * btree string Value, is_empty ns.2) (entries namespaces) then Err EmptyNamespace
  else Ok tt.

Definition validate_authorizations (info : DeviceKeyInfo) : result unit MdocError :=
  match key_authorizations info with
  | Some authorizations => map_err InvalidAuthorizations (validate authorizations)
  | None => Ok tt
  end.

(** The parameters of a builder, in the order in which they are missed. *)
Definition builder_parameters (b : Builder) :
    result (string * Namespaces * ValidityInfo * DigestAlgorithm * DeviceKeyInfo * bool) MdocError :=
  let? doc_type := ok_or (MissingParameter "doc_type") (bd_doc_type b) in
  let? namespaces := ok_or (MissingParameter "namespaces") (bd_namespaces b) in
  let? validity_info := ok_or (MissingParameter "validity_info") (bd_validity_info b) in
  let? digest_algorithm := ok_or (MissingParameter "digest_algorithm") (bd_digest_algorithm b) in
  let? device_key_info := ok_or (MissingParameter "device_key_info") (bd_device_key_info b) in
  Ok (doc_type, namespaces, validity_info, digest_algorithm, device_key_info,
      default true (bd_enable_decoy_digests b)).

Definition validate_batch_item (acc : gset Z * list ValidatedMdocBatchItem) (item : MdocBatchItem) :
    result (gset Z * list ValidatedMdocBatchItem) MdocError :=
  let '(credential_ids, validated) := acc in
  if decide (bi_credential_id item ∈ credential_ids) then Err DuplicateBatchCredential else
  let? (p, enable_decoy_digests) := builder_parameters (bi_builder item) in
  let '(doc_type, namespaces, validity_info, digest_algorithm, device_key_info) := p in
  let? _ := validate_authorizations device_key_info in
  let? _ := validate_namespace_shape namespaces in
  Ok ({[bi_credential_id item]} ∪ credential_ids,
      validated ++ [{| vi_credential_id := bi_credential_id item; vi_doc_type := doc_type;
        vi_namespaces := namespaces; vi_validity_info := validity_info;
        vi_digest_algorithm := digest_algorithm; vi_device_key_info := device_key_info;
        vi_signature_algorithm := bi_signature_algorithm item;
        vi_enable_decoy_digests := enable_decoy_digests |}]).

Definition validate_mdoc_batch (batch : list MdocBatchItem) : result (list ValidatedMdocBatchItem) MdocError :=
  let? s := try_fold validate_batch_item (∅, []) batch in Ok s.2.

(** ** Preparation *)

Definition usize_max : Z := 2 ^ 64 - 1.

Section preparation.
Context {fuel : RetryFuel} {R E : Type} `{Rng R} `{Serde IssuerSignedItem, Serde Value, Serde Mso.Mso} `{ToBeSigned}
  `{DigestExecutor E}.

Definition finish_preparation (doc_type : string) (issuer_namespaces : IssuerNamespaces)
    (validity_info : ValidityInfo) (digest_algorithm : DigestAlgorithm) (device_key_info : DeviceKeyInfo)
    (signature_algorithm : Algorithm) (value_digests : btree string DigestIds) :
    result PreparedMdoc MdocError :=
  let mso := {| mso_version := "1.0"; Mso.digest_algorithm := digest_algorithm;
    Mso.value_digests := value_digests; Mso.device_key_info := device_key_info;
    mso_doc_type := doc_type; Mso.validity_info := validity_info |} in
  let? t := map_err MsoTag24Failure (Tag24_new mso) in
  let? mso_bytes := map_err MsoCborFailure (to_vec t) in
  let builder := {| s1_protected := {| hdr_alg := Some (Assigned signature_algorithm); hdr_rest := [] |};
    s1_unprotected := Header_default; s1_payload := Some mso_bytes; s1_signature := [] |} in
  let? prepared_sig := map_err CoseFailure (PreparedCoseSign1_new builder None None false) in
  Ok {| pm_doc_type := doc_type; pm_mso := mso; pm_namespaces := issuer_namespaces;
        prepared_sig := prepared_sig |}.

Definition prepare_with_validated_inputs_rng_and_digest_executor (doc_type : string) (namespaces : Namespaces)
    (validity_info : ValidityInfo) (digest_algorithm : DigestAlgorithm) (device_key_info : DeviceKeyInfo)
    (signature_algorithm : Algorithm) (enable_decoy_digests : bool) (rng : R) (digest_executor : E) :
    result (PreparedMdoc * R) MdocError :=
  let? (issuer_namespaces, rng) := to_issuer_namespaces namespaces rng in
  let? (digest_plan, rng) := plan_digest_namespaces issuer_namespaces digest_algorithm enable_decoy_digests rng in
  let? digest_results := map_err (λ _, ExecutionFailed) (execute digest_executor (plan_jobs digest_plan)) in
  let? value_digests := assemble_digest_namespaces digest_plan digest_results in
  let? prepared := finish_preparation doc_type issuer_namespaces validity_info digest_algorithm
    device_key_info signature_algorithm value_digests in
  Ok (prepared, rng).

(** [thread_rng] is the generator handed out by [rand::thread_rng()]. *)
Definition prepare_with_digest_executor (doc_type : string) (namespaces : Namespaces)
    (validity_info : ValidityInfo) (digest_algorithm : DigestAlgorithm) (device_key_info : DeviceKeyInfo)
    (signature_algorithm : Algorithm) (enable_decoy_digests : bool) (thread_rng : R) (digest_executor : E) :
    result (PreparedMdoc * R) MdocError :=
  let? _ := validate_authorizations device_key_info in
  let? _ := validate_namespace_shape namespaces in
  prepare_with_validated_inputs_rng_and_digest_executor doc_type namespaces validity_info digest_algorithm
    device_key_info signature_algorithm enable_decoy_digests thread_rng digest_executor.

Definition Builder_prepare_with_digest_executor (b : Builder) (signature_algorithm : Algorithm)
    (thread_rng : R) (digest_executor : E) : result (PreparedMdoc * R) MdocError :=
  let? (p, enable_decoy_digests) := builder_parameters b in
  let '(doc_type, namespaces, validity_info, digest_algorithm, device_key_info) := p in
  prepare_with_digest_executor doc_type namespaces validity_info digest_algorithm device_key_info
    signature_algorithm enable_decoy_digests thread_rng digest_executor.

(** *** Batches *)

Definition plan_batch_item (acc : list PlannedMdocBatchItem * list MdocDigestPlan * R)
    (item : ValidatedMdocBatchItem) :
    result (list PlannedMdocBatchItem * list MdocDigestPlan * R) MdocError :=
  let '(planned_items, digest_plans, rng) := acc in
  let? (issuer_namespaces, rng) := to_issuer_namespaces (vi_namespaces item) rng in
  let? (digest_plan, rng) := plan_digest_namespaces_for_credential (vi_credential_id item) issuer_namespaces
    (vi_digest_algorithm item) (vi_enable_decoy_digests item) rng in
  Ok (planned_items ++ [{| pi_credential_id := vi_credential_id item; pi_doc_type := vi_doc_type item;
        pi_issuer_namespaces := issuer_namespaces; pi_validity_info := vi_validity_info item;
        pi_digest_algorithm := vi_digest_algorithm item; pi_device_key_info := vi_device_key_info item;
        pi_signature_algorithm := vi_signature_algorithm item |}],
      digest_plans ++ [digest_plan], rng).

Definition finish_batch_item (p : PlannedMdocBatchItem * btree string DigestIds) :
    result PreparedMdocBatchItem MdocError :=
  let '(item, value_digests) := p in
  let? prepared_mdoc := finish_preparation (pi_doc_type item) (pi_issuer_namespaces item)
    (pi_validity_info item) (pi_digest_algorithm item) (pi_device_key_info item)
    (pi_signature_algorithm item) value_digests in
  Ok {| pb_credential_id := pi_credential_id item; pb_prepared_mdoc := prepared_mdoc |}.

Definition prepare_batch_with_validated_inputs_rng_and_digest_executor (batch : list ValidatedMdocBatchItem)
    (rng : R) (digest_executor : E) : result (list PreparedMdocBatchItem * R) MdocError :=
  let? (s, rng) := try_fold plan_batch_item ([], [], rng) batch in
  let '(planned_items, digest_plans) := s in
  let? _ := try_fold (λ count plan,
      ok_or TooManyBatchJobs (checked_add usize_max count (Z.of_nat (length (plan_jobs plan)))))
    0%Z digest_plans in
  let jobs := concat (plan_jobs <$> digest_plans) in
  let? results := map_err (λ _, ExecutionFailed) (execute digest_executor jobs) in
  let? value_digests := assemble_reordered_digest_batches digest_plans results in
  if decide (length value_digests ≠ length planned_items) then Err OmittedCredential else
  let? prepared := try_map finish_batch_item (zip planned_items value_digests) in
  Ok (prepared, rng).

(** [make_rng] is called only once the whole batch is valid: the outcome says whether
    it was. *)
Definition prepare_batch_with_digest_executor_and_rng_factory (batch : list MdocBatchItem)
    (digest_executor : E) (make_rng : unit → R) :
    result (list PreparedMdocBatchItem * option R) MdocError :=
  let? batch := validate_mdoc_batch batch in
  match batch with
  | [] => Ok ([], None)
  | _ => let? (prepared, rng) := prepare_batch_with_validated_inputs_rng_and_digest_executor batch (make_rng tt)
           digest_executor in
         Ok (prepared, Some rng)
  end.

Definition prepare_batch_with_digest_executor (batch : list MdocBatchItem) (thread_rng : R) (digest_executor : E) :
    result (list PreparedMdocBatchItem * option R) MdocError :=
  prepare_batch_with_digest_executor_and_rng_factory batch digest_executor (λ _, thread_rng).
End preparation.

(** *** The entry points without an executor, which use the default one *)

Section defaults.
Context {fuel : RetryFuel} {R : Type} `{Rng R} `{Serde IssuerSignedItem, Serde Value, Serde Mso.Mso} `{ToBeSigned} `{Sha2, Rayon}
  (default : DefaultDigestExecutor).

Definition prepare_batch (batch : list MdocBatchItem) (thread_rng : R) :
    result (list PreparedMdocBatchItem * option R) MdocError :=
  prepare_batch_with_digest_executor batch thread_rng default.
Definition Builder_prepare (b : Builder) (signature_algorithm : Algorithm) (thread_rng : R) :
    result (PreparedMdoc * R) MdocError :=
  Builder_prepare_with_digest_executor b signature_algorithm thread_rng default.
End defaults.

(** ** Completion *)

Section completion.
Context `{Der, Sha2} {VK Sig : Type} `{Ecdsa VK Sig}.

Definition verify_on_curve (curve : Curve) (hash : bytes → bytes) (x5chain : X5Chain) (payload signature : bytes) :
    option (result unit MdocError) :=
  match Signature_from_slice curve signature with
  | Err _ => Some (Err InvalidSignatureEncoding)
  | Ok signature =>
      key ← end_entity_public_key_with_oid curve x5chain (CURVE_OID curve);
      Some match key with
           | Err _ => Err InvalidEndEntityKey
           | Ok key => map_err (λ _, UnauthenticSignature) (verify_prehashed curve key (hash payload) signature)
           end
  end.

(** [None] is the index panic of an empty chain. *)
Definition verify_remote_signature (algorithm : Algorithm) (x5chain : X5Chain) (payload signature : bytes) :
    option (result unit MdocError) :=
  match algorithm with
  | ES256 => verify_on_curve NistP256 Sha256_digest x5chain payload signature
  | ES384 => verify_on_curve NistP384 Sha384_digest x5chain payload signature
  | ES512 => verify_on_curve NistP521 Sha512_digest x5chain payload signature
  | _ => Some (Err UnsupportedAlgorithm)
  end.

Definition push_unprotected (entry : Label * Value) (m : MaybeTagged CoseSign1) : MaybeTagged CoseSign1 :=
  let c := message m in
  {| tagged := tagged m;
     message := {| s1_protected := s1_protected c;
       s1_unprotected := {| hdr_alg := hdr_alg (s1_unprotected c);
                            hdr_rest := hdr_rest (s1_unprotected c) ++ [entry] |};
       s1_payload := s1_payload c; s1_signature := s1_signature c |} |}.

Definition signature_payload (p : PreparedMdoc) : bytes := ps1_signature_payload (prepared_sig p).

Definition complete (p : PreparedMdoc) (x5chain : X5Chain) (signature : bytes) :
    option (result Mdoc MdocError) :=
  match prepared_algorithm (prepared_sig p) with
  | None => Some (Err MissingSignatureAlgorithm)
  | Some algorithm =>
      verified ← verify_remote_signature algorithm x5chain (signature_payload p) signature;
      Some (let? _ := verified in
            let issuer_auth := finalize (prepared_sig p) signature in
            Ok {| mdoc_doc_type := pm_doc_type p; mdoc_mso := pm_mso p; mdoc_namespaces := pm_namespaces p;
                  mdoc_issuer_auth := push_unprotected
                    (LabelInt X5CHAIN_COSE_HEADER_LABEL, X5Chain_into_cbor x5chain) issuer_auth |})
  end.
End completion.

(** ** What a prepared credential commits to *)

Lemma contents_digests_lookup `{Sha2} alg contents name ps :
  NoDup contents.*1 → (name, ps) ∈ contents →
  contents_digests alg contents !! name =
    Some (collect ((λ p : Z * bytes, (p.1, {| bytestr := digest alg p.2 |})) <$> ps)).
Proof.
  intros Hnd Hin. unfold contents_digests. apply collect_lookup.
  - by rewrite <-list_fmap_compose.
  - apply list_elem_of_fmap. by exists (name, ps).
Qed.

Lemma collect_entries_length {K V} `{OrdLaws K, EqDecision K} (l : list (K * V)) :
  NoDup l.*1 → length (entries (collect l)) = length l.
Proof.
  intros Hnd. rewrite collect_NoDup by done. rewrite <-map_to_list_entries.
  by rewrite map_to_list_to_map.
Qed.

Section prepare_props.
Context {fuel : RetryFuel} {R E : Type} `{RngLaws R} `{Serde IssuerSignedItem, Serde Value, Serde Mso.Mso} `{ToBeSigned}
  `{Sha2Laws} `{!DigestExecutor E, !DigestExecutorCorrect E}.
Implicit Types (r : R) (e : E).

Lemma namespaces_ids_NoDup namespaces r m r' :
  to_issuer_namespaces namespaces r = Ok (m, r') →
  Forall (λ ns, NoDup (element_ids (nev ns.2))) (entries (nem m)).
Proof.
  intros Hm. apply to_issuer_namespaces_spec in Hm. induction Hm as [|x y l k (_ & _ & ? & _) _ IH]; by constructor.
Qed.

(** A plan made for freshly made items, assembled from the results of a correct
    executor: the digests of its contents, whatever the credential identity. *)
Lemma plan_contents c (m : IssuerNamespaces) alg enable r p r' :
  Forall (λ ns, NoDup (element_ids (nev ns.2))) (entries (nem m)) →
  plan_digest_namespaces_for_credential c m alg enable r = Ok (p, r') →
  ∃ contents, contents_wf contents ∧ plan_wf p ∧ plan_credential_id p = c ∧
    Forall2 (λ ns ct, ns.1 = ct.1 ∧ namespace_content enable (nev ns.2) ct.2) (entries (nem m)) contents ∧
    assembled job_digest p = contents_digests alg contents ∧
    plan_digest_namespaces m alg enable r = Ok (make_plan MDOC_CREDENTIAL_ID alg contents, r').
Proof.
  intros Hnd Hp. destruct (plan_spec c alg enable m r p r' Hnd Hp) as (contents & Hwf & -> & Hall).
  exists contents. split_and!; [done|by apply make_plan_wf|done|done|apply assembled_make_plan|].
  unfold plan_digest_namespaces. rewrite (plan_relabel _ c), Hp. cbn [rmap fst snd].
  by rewrite relabel_make_plan.
Qed.

Lemma prepare_inv doc_type namespaces vinfo alg info sigalg enable r e prepared r' :
  prepare_with_validated_inputs_rng_and_digest_executor doc_type namespaces vinfo alg info sigalg enable r e
    = Ok (prepared, r') →
  ∃ m r1 contents,
    to_issuer_namespaces namespaces r = Ok (m, r1) ∧ contents_wf contents ∧
    Forall2 (λ ns ct, ns.1 = ct.1 ∧ namespace_content enable (nev ns.2) ct.2) (entries (nem m)) contents ∧
    finish_preparation doc_type m vinfo alg info sigalg (contents_digests alg contents) = Ok prepared.
Proof.
  unfold prepare_with_validated_inputs_rng_and_digest_executor. intros Hp. inv_result.
  destruct t as [m r1]. inv_result. destruct t as [p r2]. inv_result. simplify_eq.
  pose proof (namespaces_ids_NoDup _ _ _ _ Hr) as Hnd.
  destruct (plan_contents _ _ _ _ _ _ _ Hnd Hr0) as (contents & Hwf & Hpwf & _ & Hall & Has & _).
  exists m, r1, contents. split_and!; [done..|].
  match goal with Hx : execute e _ = Ok ?rs |- _ => pose proof (execute_correct e _ rs Hx) as Hperm end.
  match goal with Ha : assemble_digest_namespaces p _ = Ok ?t, Hf : finish_preparation _ _ _ _ _ _ ?t = Ok _ |- _ =>
    rewrite (assemble_correct p _ Hpwf Hperm) in Ha; injection Ha as <-; by rewrite <-Has end.
Qed.

Lemma finish_inv doc_type m vinfo alg info sigalg digests prepared :
  finish_preparation doc_type m vinfo alg info sigalg digests = Ok prepared →
  pm_doc_type prepared = doc_type ∧ pm_namespaces prepared = m ∧
  pm_mso prepared = {| mso_version := "1.0"; Mso.digest_algorithm := alg; Mso.value_digests := digests;
    Mso.device_key_info := info; mso_doc_type := doc_type; Mso.validity_info := vinfo |} ∧
  ∃ t mso_bytes, Tag24_new (pm_mso prepared) = Ok t ∧ to_vec t = Ok mso_bytes ∧
    s1_payload (message (cose_sign1 (prepared_sig prepared))) = Some mso_bytes ∧
    s1_protected (message (cose_sign1 (prepared_sig prepared))) =
      {| hdr_alg := Some (Assigned sigalg); hdr_rest := [] |} ∧
    tagged (cose_sign1 (prepared_sig prepared)) = false ∧
    signature_payload prepared =
      sig_structure_data {| hdr_alg := Some (Assigned sigalg); hdr_rest := [] |} [] mso_bytes.
Proof.
  unfold finish_preparation. intros Hf. inv_result. cbn [pm_doc_type pm_namespaces pm_mso]. split_and!; [done..|].
  unfold PreparedCoseSign1_new in *. cbn [s1_payload select_payload rbind] in *. inv_result.
  do 2 eexists. split_and!; try done.
Qed.

(** The digests of a namespace: those of its items, and the decoys. *)
Lemma content_digests_spec enable elements ps alg :
  NoDup ps.*1 → namespace_content enable elements ps →
  let digests : DigestIds := collect ((λ p : Z * bytes, (p.1, {| bytestr := digest alg p.2 |})) <$> ps) in
  (∀ item, item ∈ elements → ∃ b, to_vec item = Ok b ∧
     digests !! digest_id (inner item) = Some {| bytestr := digest alg b |}) ∧
  (if enable then length elements + 5 ≤ length (entries digests) < length elements + 10
   else length (entries digests) = length elements).
Proof.
  intros Hnd (inputs & decoys & Hall & Hps & Hcount & _) digests.
  assert (NoDup ((λ p : Z * bytes, (p.1, {| bytestr := digest alg p.2 |})) <$> ps).*1) as Hnd'
    by by rewrite <-list_fmap_compose.
  split.
  - intros item [i Hi]%list_elem_of_lookup. destruct (Forall2_lookup_l _ _ _ _ _ Hall Hi) as (b & Hb & Henc).
    exists b. split; [done|]. apply collect_lookup; [done|]. apply list_elem_of_fmap.
    exists (digest_id (inner item), b). split; [done|]. rewrite Hps. apply elem_of_app. left.
    apply (list_elem_of_lookup_2 _ i). rewrite lookup_zip_with. unfold element_ids. rewrite list_lookup_fmap, Hi. simpl.
    by rewrite Hb.
  - unfold digests. rewrite collect_entries_length, length_fmap, Hps, length_app, length_zip by done.
    apply Forall2_length in Hall. unfold element_ids. rewrite length_fmap, Hall, Nat.min_id.
    destruct enable; [lia|]. subst decoys. simpl. lia.
Qed.

(** What preparation makes: the items, and the security object over their digests. *)
Lemma prepared_commitment doc_type namespaces vinfo alg info sigalg enable r e prepared r' :
  prepare_with_validated_inputs_rng_and_digest_executor doc_type namespaces vinfo alg info sigalg enable r e
    = Ok (prepared, r') →
  let mso := pm_mso prepared in
  (mso_version mso = "1.0"%string ∧ mso_doc_type mso = doc_type ∧ pm_doc_type prepared = doc_type ∧
   Mso.digest_algorithm mso = alg ∧ Mso.device_key_info mso = info ∧ Mso.validity_info mso = vinfo) ∧
  Forall2 (λ ns y, namespace_for ns y) (entries namespaces) (entries (nem (pm_namespaces prepared))) ∧
  (entries (Mso.value_digests mso)).*1 = (entries namespaces).*1 ∧
  (∀ name items, nem (pm_namespaces prepared) !! name = Some items →
     ∃ digests, Mso.value_digests mso !! name = Some digests ∧
       (∀ item, item ∈ nev items → ∃ b, to_vec item = Ok b ∧
          digests !! digest_id (inner item) = Some {| bytestr := digest alg b |}) ∧
       (if enable then length (nev items) + 5 ≤ length (entries digests) < length (nev items) + 10
        else length (entries digests) = length (nev items))) ∧
  (∃ t mso_bytes, Tag24_new mso = Ok t ∧ to_vec t = Ok mso_bytes ∧
     s1_payload (message (cose_sign1 (prepared_sig prepared))) = Some mso_bytes ∧
     signature_payload prepared =
       sig_structure_data {| hdr_alg := Some (Assigned sigalg); hdr_rest := [] |} [] mso_bytes).
Proof.
  intros Hp. cbv zeta. destruct (prepare_inv _ _ _ _ _ _ _ _ _ _ _ Hp) as (m & r1 & contents & Hm & Hwf & Hall & Hf).
  destruct (finish_inv _ _ _ _ _ _ _ _ Hf) as (Hdoc & Hns & Hmso & t & b & Ht & Hb & Hpl & _ & _ & Hsp).
  pose proof (to_issuer_namespaces_spec _ _ _ _ Hm) as Hitems.
  assert (contents.*1 = (entries namespaces).*1) as Hkeys.
  { clear -Hall Hitems. revert contents Hall. induction Hitems as [|x y l k (Hxy & _) _ IH]; intros cs Hall;
      inversion Hall as [|? ct ? cts [Hc _] Hrest]; subst; [done|]. rewrite !fmap_cons. f_equal; [congruence|auto]. }
  split_and!; rewrite ?Hmso, ?Hns; try done.
  - unfold contents_digests. cbn [Mso.value_digests]. rewrite (entries_collect _ namespaces).
    + by rewrite <-list_fmap_compose.
    + rewrite <-list_fmap_compose. exact Hkeys.
  - intros name items Hname. cbn [Mso.value_digests]. apply entries_lookup in Hname.
    apply list_elem_of_lookup in Hname as [i Hi].
    destruct (Forall2_lookup_l _ _ _ _ _ Hall Hi) as ([name' ps] & Hps & Heq & Hcontent). cbn [fst snd] in *. subst name'.
    destruct Hwf as (Hids & Hnames & _).
    rewrite (contents_digests_lookup alg contents name ps Hnames) by by eapply list_elem_of_lookup_2.
    eexists. split; [done|]. pose proof (Forall_lookup_1 _ _ _ _ Hids Hps) as Hnd. cbn [snd] in Hnd.
    by apply content_digests_spec.
  - exists t, b. by rewrite <-Hmso.
Qed.

(** Its security object is one that the Rust type can hold. *)
Lemma contents_ids enable alg (m : IssuerNamespaces) contents ns digests id d :
  contents_wf contents →
  Forall (λ ns : string * NonEmptyVec IssuerSignedItemBytes, Forall (λ item, is_i32 (digest_id (inner item))) (nev ns.2)) (entries (nem m)) →
  Forall2 (λ ns ct, ns.1 = ct.1 ∧ namespace_content enable (nev ns.2) ct.2) (entries (nem m)) contents →
  contents_digests alg contents !! ns = Some digests → digests !! id = Some d → is_i32 id.
Proof.
  intros (Hids & Hnames & _) Hitems Hall Hns Hid.
  apply collect_lookup in Hns; [|by rewrite <-list_fmap_compose].
  apply list_elem_of_fmap in Hns as ([name ps] & [= -> ->] & Hin). apply list_elem_of_lookup in Hin as [k Hk].
  pose proof (Forall_lookup_1 _ _ _ _ Hids Hk) as Hnd. cbn [snd] in Hnd.
  apply collect_lookup in Hid; [|by rewrite <-list_fmap_compose].
  apply list_elem_of_fmap in Hid as ([id' b] & [= -> ->] & Hin). cbn [fst].
  destruct (Forall2_lookup_r _ _ _ _ _ Hall Hk) as ([name' elements] & Hk' & _ & inputs & decoys & _ & Hps & _ & _ & Hdecoys).
  pose proof (Forall_lookup_1 _ _ _ _ Hitems Hk') as Hel. cbn [fst snd] in *. rewrite Hps in Hin.
  apply elem_of_app in Hin as [Hin|Hin].
  - apply elem_of_zip_l, list_elem_of_fmap in Hin as (e & -> & He). by apply (proj1 (Forall_forall _ _) Hel).
  - by apply (proj1 (Forall_forall _ _) Hdecoys _ Hin).
Qed.
Lemma items_ids namespaces (m : IssuerNamespaces) :
  Forall2 (λ ns y, namespace_for ns y) (entries namespaces) (entries (nem m)) →
  Forall (λ ns : string * NonEmptyVec IssuerSignedItemBytes, Forall (λ item, is_i32 (digest_id (inner item))) (nev ns.2)) (entries (nem m)).
Proof.
  induction 1 as [|ns y l k (_ & Hl & _) _ IH]; constructor; [|done].
  clear -Hl. induction Hl as [|x item l k (_ & _ & _ & Hid & _) _ IH]; by constructor.
Qed.
Lemma prepared_wf doc_type namespaces vinfo alg info sigalg enable r e prepared r' :
  prepare_with_validated_inputs_rng_and_digest_executor doc_type namespaces vinfo alg info sigalg enable r e
    = Ok (prepared, r') →
  DeviceKeyInfo_wf info → Mso_wf (pm_mso prepared).
Proof.
  intros Hp Hinfo. destruct (prepare_inv _ _ _ _ _ _ _ _ _ _ _ Hp) as (m & r1 & contents & Hm & Hwf & Hall & Hf).
  destruct (finish_inv _ _ _ _ _ _ _ _ Hf) as (_ & _ & -> & _). split; [done|]. cbn [Mso.value_digests].
  intros ns digests id d. apply (contents_ids enable alg m); [done|by eapply items_ids, to_issuer_namespaces_spec|done].
Qed.

(** C15: A prepared credential carries exactly the given elements, each in an item with
      sixteen random bytes and an identifier of its own within its namespace, and its
      security object commits to exactly these namespaces: every item's digest under
      its identifier, and besides them no digests, or five to nine decoys when they
      are enabled; the payload to sign is the encoded security object under the
      protected algorithm header. *)
Theorem prepare_commits doc_type namespaces vinfo alg info sigalg enable r e prepared r' :
  prepare_with_validated_inputs_rng_and_digest_executor doc_type namespaces vinfo alg info sigalg enable r e
    = Ok (prepared, r') →
  let mso := pm_mso prepared in
  (mso_version mso = "1.0"%string ∧ mso_doc_type mso = doc_type ∧ pm_doc_type prepared = doc_type ∧
   Mso.digest_algorithm mso = alg ∧ Mso.device_key_info mso = info ∧ Mso.validity_info mso = vinfo) ∧
  Forall2 (λ ns y, namespace_for ns y) (entries namespaces) (entries (nem (pm_namespaces prepared))) ∧
  (entries (Mso.value_digests mso)).*1 = (entries namespaces).*1 ∧
  (∀ name items, nem (pm_namespaces prepared) !! name = Some items →
     ∃ digests, Mso.value_digests mso !! name = Some digests ∧
       (∀ item, item ∈ nev items → ∃ b, to_vec item = Ok b ∧
          digests !! digest_id (inner item) = Some {| bytestr := digest alg b |}) ∧
       (if enable then length (nev items) + 5 ≤ length (entries digests) < length (nev items) + 10
        else length (entries digests) = length (nev items))) ∧
  (∃ t mso_bytes, Tag24_new mso = Ok t ∧ to_vec t = Ok mso_bytes ∧
     s1_payload (message (cose_sign1 (prepared_sig prepared))) = Some mso_bytes ∧
     signature_payload prepared =
       sig_structure_data {| hdr_alg := Some (Assigned sigalg); hdr_rest := [] |} [] mso_bytes).
Proof. apply prepared_commitment. Qed.
End prepare_props.

(** ** Preparation returns *)

Section prepare_returns.
Context {R E : Type} `{RngLaws R} `{Serde IssuerSignedItem, Serde Value, Serde Mso.Mso} `{ToBeSigned}
  `{!Rfc3339, !Rfc3339Laws, !MsoSerde} `{Sha2Laws} `{!DigestExecutor E, !DigestExecutorCorrect E}.
Context (Hitem : ∀ x : IssuerSignedItem, is_ok (to_vec x)) (Hvalue : ∀ v : Value, is_ok (to_vec v)).




End prepare_returns.

(** ** A batch is a sequence of single preparations *)

Section batch_props.
Context {fuel : RetryFuel} {R E : Type} `{RngLaws R} `{Serde IssuerSignedItem, Serde Value, Serde Mso.Mso} `{ToBeSigned}
  `{Sha2Laws} `{!DigestExecutor E, !DigestExecutorCorrect E}.

(** One item on its own, with the scalar executor. *)
Definition prepare_one (r : R) (item : ValidatedMdocBatchItem) : result (PreparedMdocBatchItem * R) MdocError :=
  let? (prepared, r) := prepare_with_validated_inputs_rng_and_digest_executor (vi_doc_type item)
    (vi_namespaces item) (vi_validity_info item) (vi_digest_algorithm item) (vi_device_key_info item)
    (vi_signature_algorithm item) (vi_enable_decoy_digests item) r Serial in
  Ok ({| pb_credential_id := vi_credential_id item; pb_prepared_mdoc := prepared |}, r).
Definition prepare_sequence := try_map_state prepare_one.

(** Planning an item of a batch, and finishing it from its plan, is preparing it. *)
Lemma plan_item_one pis plans r item pis' plans' r' :
  plan_batch_item (pis, plans, r) item = Ok (pis', plans', r') →
  ∃ pi p, pis' = pis ++ [pi] ∧ plans' = plans ++ [p] ∧ plan_wf p ∧ plan_credential_id p = vi_credential_id item ∧
    prepare_one r item = rmap (λ x, (x, r')) (finish_batch_item (pi, assembled job_digest p)).
Proof.
  unfold plan_batch_item. intros Hp. inv_result. destruct t as [m r1]. inv_result. destruct t as [p r2]. simplify_eq/=.
  pose proof (namespaces_ids_NoDup _ _ _ _ Hr) as Hnd.
  destruct (plan_contents _ _ _ _ _ _ _ Hnd Hr0) as (contents & Hwf & Hpwf & Hc & _ & Has & Hplan0).
  do 2 eexists. split_and!; [done|done|done|done|].
  unfold prepare_one, prepare_with_validated_inputs_rng_and_digest_executor, finish_batch_item.
  rewrite Hr. cbn [rbind]. rewrite Hplan0. cbn [rbind]. unfold execute, serial_execute. cbn [map_err rbind].
  rewrite assemble_correct; [|by apply make_plan_wf|done].
  cbn [rbind pi_doc_type pi_issuer_namespaces pi_validity_info pi_digest_algorithm pi_device_key_info
    pi_signature_algorithm pi_credential_id].
  rewrite assembled_make_plan, Has. by destruct (finish_preparation _ _ _ _ _ _ _).
Qed.

Lemma plan_batch_sequence batch pis0 plans0 r pis plans r' :
  try_fold plan_batch_item (pis0, plans0, r) batch = Ok (pis, plans, r') →
  ∃ pis1 plans1, pis = pis0 ++ pis1 ∧ plans = plans0 ++ plans1 ∧ length pis1 = length plans1 ∧
    Forall plan_wf plans1 ∧ plan_credential_id <$> plans1 = vi_credential_id <$> batch ∧
    prepare_sequence r batch =
      rmap (λ out, (out, r')) (try_map finish_batch_item (zip pis1 (assembled job_digest <$> plans1))).
Proof.
  revert pis0 plans0 r. induction batch as [|item batch IH]; intros pis0 plans0 r Hf; cbn [try_fold] in Hf.
  { injection Hf as -> -> ->. exists [], []. rewrite !app_nil_r. split_and!; try done. }
  inv_result. destruct t as [[pis2 plans2] r2]. apply plan_item_one in Hr as (pi & p & -> & -> & Hwf & Hc & Hone).
  apply IH in Hf as (pis1 & plans1 & -> & -> & Hl & Hwfs & Hcs & Hseq).
  exists (pi :: pis1), (p :: plans1). rewrite <-!app_assoc, !fmap_cons, Hc, Hcs. cbn [length]. rewrite Hl.
  split_and!; [done..|by constructor|done|].
  unfold prepare_sequence in *. cbn [try_map_state zip zip_with try_map]. rewrite Hone.
  destruct (finish_batch_item (pi, assembled job_digest p)) as [x|]; cbn [rmap rbind]; [|done].
  rewrite Hseq. by destruct (try_map finish_batch_item _).
Qed.

(** Preparing in sequence plans every item. *)
Lemma sequence_plans batch r out r' pis0 plans0 :
  prepare_sequence r batch = Ok (out, r') →
  ∃ pis plans, try_fold plan_batch_item (pis0, plans0, r) batch = Ok (pis, plans, r').
Proof.
  revert r out pis0 plans0. induction batch as [|item batch IH]; intros r out pis0 plans0 Hs;
    unfold prepare_sequence in Hs; cbn [try_map_state] in Hs.
  { injection Hs as <- <-. by exists pis0, plans0. }
  inv_result. destruct t as [x r1]. inv_result. destruct t as [xs r2]. simplify_eq/=.
  unfold prepare_one, prepare_with_validated_inputs_rng_and_digest_executor in Hr.
  do 4 (inv_result; repeat match goal with y : _ * R |- _ => destruct y end; simplify_eq/=).
  cbn [try_fold]. unfold plan_batch_item at 1.
  rewrite (plan_relabel _ MDOC_CREDENTIAL_ID). unfold plan_digest_namespaces in Hr. rewrite Hr.
  cbn [rmap rbind fst snd]. by eapply IH.
Qed.

Lemma batch_results (planned : list PlannedMdocBatchItem) plans results :
  Forall plan_wf plans → NoDup (plan_credential_id <$> plans) → length planned = length plans →
  results ≡ₚ execute_digest_job <$> concat (plan_jobs <$> plans) →
  assemble_reordered_digest_batches plans results = Ok (assembled job_digest <$> plans) ∧
  length (assembled job_digest <$> plans) = length planned.
Proof. intros. split; [by apply batches_correct|]. by rewrite length_fmap. Qed.

(** C24: Preparing a batch of distinct credentials with any correct executor gives, in the
      caller's order and under the caller's identities, exactly what preparing the
      items one after the other gives, from the same random draws; when the items can
      be prepared one by one, the batch fails only if the executor fails or the jobs
      cannot be counted, and then returns nothing. *)
Theorem batch_is_sequence (batch : list ValidatedMdocBatchItem) (r : R) (e : E) :
  NoDup (vi_credential_id <$> batch) →
  (∀ out r', prepare_batch_with_validated_inputs_rng_and_digest_executor batch r e = Ok (out, r') →
     prepare_sequence r batch = Ok (out, r') ∧ pb_credential_id <$> out = vi_credential_id <$> batch) ∧
  (∀ out r', prepare_sequence r batch = Ok (out, r') →
     match prepare_batch_with_validated_inputs_rng_and_digest_executor batch r e with
     | Ok s => s = (out, r')
     | Err err => err = TooManyBatchJobs ∨ err = ExecutionFailed
     end).
Proof.
  intros Hnd. unfold prepare_batch_with_validated_inputs_rng_and_digest_executor.
  assert (∀ out r', prepare_sequence r batch = Ok (out, r') → pb_credential_id <$> out = vi_credential_id <$> batch) as Hids.
  { intros out r' Hs. symmetry. apply list_eq_Forall2, Forall2_fmap.
    eapply (try_map_state_spec prepare_one _ (λ _ _, True)) in Hs as [Hs _]; [exact Hs|done|].
    intros s x y s' ys _ Hx. split; [|done]. unfold prepare_one in Hx. inv_result. destruct t. by simplify_eq/=. }
  split.
  - intros out r' Hb. inv_result. destruct t as [[pis plans] r1].
    apply plan_batch_sequence in Hr as (pis1 & plans1 & -> & -> & Hl & Hwf & Hcs & Hseq). cbn [app] in *. inv_result.
    match goal with Hx : execute e _ = Ok ?rs |- _ => pose proof (execute_correct e _ rs Hx) as Hperm end.
    destruct (batch_results pis1 plans1 _ Hwf ltac:(by rewrite Hcs) Hl Hperm) as [Ha Hlen].
    match goal with Hx : assemble_reordered_digest_batches _ _ = Ok _ |- _ => rewrite Ha in Hx; injection Hx as <- end.
    rewrite decide_False in Hb by (intros []; done). inv_result. simplify_eq.
    assert (prepare_sequence r batch = Ok (out, r')) as Hs by by rewrite Hseq.
    split; [done|by eapply Hids].
  - intros out r' Hs. destruct (sequence_plans batch r out r' [] [] Hs) as (pis & plans & Hp). rewrite Hp. cbn [rbind].
    apply plan_batch_sequence in Hp as (pis1 & plans1 & -> & -> & Hl & Hwf & Hcs & Hseq). cbn [app].
    destruct (try_fold _ 0%Z plans1) as [n|err] eqn:Hcount; cbn [rbind].
    2:{ left. clear -Hcount. revert Hcount. generalize 0%Z. induction plans1 as [|p l IH]; intros z Hz; cbn [try_fold] in Hz; [done|].
        destruct (checked_add _ _ _); cbn [ok_or rbind] in Hz; [by eapply IH|by injection Hz]. }
    destruct (execute e _) as [rs|] eqn:Hx; cbn [map_err rbind]; [|by right].
    destruct (batch_results pis1 plans1 rs Hwf ltac:(by rewrite Hcs) Hl (execute_correct e _ rs Hx)) as [Ha Hlen].
    rewrite Ha. cbn [rbind]. rewrite decide_False by (intros []; done).
    rewrite Hs in Hseq. destruct (try_map _ _); cbn [rmap rbind] in *; [|done]. by injection Hseq as ->.
Qed.
End batch_props.

(** ** Completion *)

Section completion_props.
Context `{Der, Sha2} {VK Sig : Type} `{Ecdsa VK Sig}.

(** The curve and hash of a remote signature algorithm. *)
Definition remote_suite (a : Algorithm) : option (Curve * (bytes → bytes)) :=
  match a with
  | ES256 => Some (NistP256, Sha256_digest)
  | ES384 => Some (NistP384, Sha384_digest)
  | ES512 => Some (NistP521, Sha512_digest)
  | _ => None
  end.

Lemma verify_on_curve_Ok curve hash x payload signature :
  verify_on_curve curve hash x payload signature = Some (Ok tt) ↔
  ∃ sig leaf key, Signature_from_slice curve signature = Ok sig ∧
    end_entity_certificate x = Some leaf ∧ public_key_with_oid curve leaf (CURVE_OID curve) = Ok key ∧
    verify_prehashed curve key (hash payload) sig = Ok tt.
Proof.
  unfold verify_on_curve, end_entity_public_key_with_oid. split.
  - destruct (Signature_from_slice _ _) as [sig|]; [|done].
    destruct (end_entity_certificate x) as [leaf|]; [|done]. cbn [mbind option_bind].
    destruct (public_key_with_oid _ _ _) as [key|] eqn:Hk; [|done].
    destruct (verify_prehashed _ _ _ _) as [[]|] eqn:Hv; [|done]. intros _. by exists sig, leaf, key.
  - intros (sig & leaf & key & -> & -> & Hk & Hv). cbn [mbind option_bind]. rewrite Hk. by rewrite Hv.
Qed.

Lemma verify_remote_signature_Ok a x payload signature :
  verify_remote_signature a x payload signature = Some (Ok tt) ↔
  ∃ curve hash, remote_suite a = Some (curve, hash) ∧
    verify_on_curve curve hash x payload signature = Some (Ok tt).
Proof.
  split.
  - intros Hv. destruct a; cbn [verify_remote_signature remote_suite] in *; try done; by do 2 eexists.
  - intros (curve & hash & Hs & Hv). destruct a; cbn [verify_remote_signature remote_suite] in *; try done; by simplify_eq.
Qed.

(** When completion succeeds, and with what. *)
Lemma complete_iff p x signature m :
  complete p x signature = Some (Ok m) ↔
  ∃ a curve hash sig leaf key,
    prepared_algorithm (prepared_sig p) = Some a ∧ remote_suite a = Some (curve, hash) ∧
    Signature_from_slice curve signature = Ok sig ∧
    end_entity_certificate x = Some leaf ∧ public_key_with_oid curve leaf (CURVE_OID curve) = Ok key ∧
    verify_prehashed curve key (hash (signature_payload p)) sig = Ok tt ∧
    let c := message (cose_sign1 (prepared_sig p)) in
    let u := s1_unprotected c in
    m = {| mdoc_doc_type := pm_doc_type p; mdoc_mso := pm_mso p; mdoc_namespaces := pm_namespaces p;
      mdoc_issuer_auth := {| tagged := tagged (cose_sign1 (prepared_sig p));
        message := {| s1_protected := s1_protected c;
          s1_unprotected := {| hdr_alg := hdr_alg u;
            hdr_rest := hdr_rest u ++ [(LabelInt X5CHAIN_COSE_HEADER_LABEL, X5Chain_into_cbor x)] |};
          s1_payload := s1_payload c; s1_signature := signature |} |} |}.
Proof.
  unfold complete. cbv zeta. split.
  - destruct (prepared_algorithm _) as [a|]; [|done].
    destruct (verify_remote_signature _ _ _ _) as [[[]|]|] eqn:Hv; [|done..]. intros [= <-].
    apply verify_remote_signature_Ok in Hv as (curve & hash & Hs & (sig & leaf & key & Hv)%verify_on_curve_Ok).
    exists a, curve, hash, sig, leaf, key. split_and!; naive_solver.
  - intros (a & curve & hash & sig & leaf & key & -> & Hs & H1' & H2' & H3' & H4' & ->).
    assert (verify_remote_signature a x (signature_payload p) signature = Some (Ok tt)) as ->; [|done].
    apply verify_remote_signature_Ok. exists curve, hash. split; [done|]. apply verify_on_curve_Ok. by exists sig, leaf, key.
Qed.

(** C21: A prepared credential is completed exactly when its protected algorithm is one of
      the three supported ones and the signature is a valid signature, on the curve and
      with the hash of that algorithm, over the prepared payload under the key of the
      chain's end-entity certificate; the result is the prepared credential with the
      signature filled in and the chain appended to the unprotected header, and its
      signed payload is untouched. *)
Theorem complete_spec p x signature m :
  complete p x signature = Some (Ok m) ↔
  ∃ a curve hash sig leaf key,
    prepared_algorithm (prepared_sig p) = Some a ∧ remote_suite a = Some (curve, hash) ∧
    Signature_from_slice curve signature = Ok sig ∧
    end_entity_certificate x = Some leaf ∧ public_key_with_oid curve leaf (CURVE_OID curve) = Ok key ∧
    verify_prehashed curve key (hash (signature_payload p)) sig = Ok tt ∧
    let c := message (cose_sign1 (prepared_sig p)) in
    let u := s1_unprotected c in
    m = {| mdoc_doc_type := pm_doc_type p; mdoc_mso := pm_mso p; mdoc_namespaces := pm_namespaces p;
      mdoc_issuer_auth := {| tagged := tagged (cose_sign1 (prepared_sig p));
        message := {| s1_protected := s1_protected c;
          s1_unprotected := {| hdr_alg := hdr_alg u;
            hdr_rest := hdr_rest u ++ [(LabelInt X5CHAIN_COSE_HEADER_LABEL, X5Chain_into_cbor x)] |};
          s1_payload := s1_payload c; s1_signature := signature |} |} |}.
Proof. apply complete_iff. Qed.
End completion_props.

(** ** Batch validation *)

(** A batch item that is acceptable on its own. *)
Definition item_valid (item : MdocBatchItem) (v : ValidatedMdocBatchItem) : Prop :=
  builder_parameters (bi_builder item) =
    Ok (vi_doc_type v, vi_namespaces v, vi_validity_info v, vi_digest_algorithm v, vi_device_key_info v,
        vi_enable_decoy_digests v) ∧
  validate_authorizations (vi_device_key_info v) = Ok tt ∧
  entries (vi_namespaces v) ≠ [] ∧ Forall (λ ns, entries ns.2 ≠ []) (entries (vi_namespaces v)) ∧
  vi_credential_id v = bi_credential_id item ∧ vi_signature_algorithm v = bi_signature_algorithm item.

Lemma namespace_shape_spec (namespaces : Namespaces) :
  validate_namespace_shape namespaces = Ok tt ↔
  entries namespaces ≠ [] ∧ Forall (λ ns, entries ns.2 ≠ []) (entries namespaces).
Proof.
  unfold validate_namespace_shape, is_empty. destruct (entries namespaces) as [|ns l]; [split; [done|by intros []]|].
  destruct (existsb _ _) eqn:He.
  - split; [done|]. intros [_ Hall]. apply existsb_exists in He as (x & Hx & Hex).
    rewrite Forall_forall in Hall. specialize (Hall x ltac:(by apply list_elem_of_In)). by destruct (entries x.2).
  - split; [|done]. intros _. split; [done|]. apply Forall_forall. intros x Hx Hn.
    assert (existsb (λ ns : string * btree string Value, match entries ns.2 with [] => true | _ => false end) (ns :: l) = true) as Ht; [|congruence].
    apply existsb_exists. exists x. split; [by apply list_elem_of_In|]. by rewrite Hn.
Qed.

Lemma validate_batch_item_spec ids vs item ids' vs' :
  validate_batch_item (ids, vs) item = Ok (ids', vs') ↔
  bi_credential_id item ∉ ids ∧ ids' = {[bi_credential_id item]} ∪ ids ∧
  ∃ v, item_valid item v ∧ vs' = vs ++ [v].
Proof.
  unfold validate_batch_item, item_valid. split.
  - intros Hv. destruct (decide _) as [|Hni]; [done|]. inv_result. destruct t as [[[[[doc ns] vi] alg] info] decoys] eqn:Ht.
    destruct (validate_authorizations info) as [[]|] eqn:Ha; cbn [rbind] in Hv; [|done].
    destruct (validate_namespace_shape ns) as [[]|] eqn:Hs; cbn [rbind] in Hv; [|done]. injection Hv as <- <-.
    split_and!; [done..|]. eexists. split; [|done]. apply namespace_shape_spec in Hs as [? ?]. by split_and!.
  - intros (Hni & -> & v & (Hb & Ha & Hs1 & Hs2 & Hid & Halg) & ->). rewrite decide_False by done.
    rewrite Hb. cbn [rbind]. rewrite Ha. cbn [rbind].
    assert (validate_namespace_shape (vi_namespaces v) = Ok tt) as -> by by apply namespace_shape_spec.
    cbn [rbind]. destruct v. simpl in *. by subst.
Qed.

(** A batch is accepted exactly when the credential identities are pairwise distinct
      and every item has all its parameters, coherent key authorizations and a
      non-empty set of non-empty namespaces; the validated items follow the caller's
      order.  Random numbers are requested only for accepted, non-empty batches, and
      an empty batch returns at once. *)
Theorem batch_validation_spec (batch : list MdocBatchItem) vs :
  (validate_mdoc_batch batch = Ok vs ↔ NoDup (bi_credential_id <$> batch) ∧ Forall2 item_valid batch vs) ∧
  (∀ {fuel : RetryFuel} {R E} `{Rng R, Serde IssuerSignedItem, Serde Value, Serde Mso.Mso, ToBeSigned, DigestExecutor E} (e : E) (make_rng : unit → R),
     (∀ err, validate_mdoc_batch batch = Err err →
        prepare_batch_with_digest_executor_and_rng_factory batch e make_rng = Err err) ∧
     (batch = [] → prepare_batch_with_digest_executor_and_rng_factory batch e make_rng = Ok ([], None))).
Proof.
  split.
  2:{ intros R E **. unfold prepare_batch_with_digest_executor_and_rng_factory. split; [by intros err ->|by intros ->]. }
  assert (∀ ids vs0 vs, (∃ ids', try_fold validate_batch_item (ids, vs0) batch = Ok (ids', vs)) ↔
    NoDup (bi_credential_id <$> batch) ∧ (∀ i, i ∈ bi_credential_id <$> batch → i ∉ ids) ∧
    ∃ vs1, vs = vs0 ++ vs1 ∧ Forall2 item_valid batch vs1) as Hgen.
  { clear vs. induction batch as [|item batch IH]; intros ids vs0 vs; cbn [try_fold].
    - split.
      + intros (ids' & [= -> ->]). split_and!; [constructor|by intros ? []%elem_of_nil|]. exists []. by rewrite app_nil_r.
      + intros (_ & _ & vs1 & -> & Hv). inversion Hv; subst. exists ids. by rewrite app_nil_r.
    - rewrite fmap_cons, NoDup_cons. split.
      + intros (ids' & Hf). inv_result. destruct t as [ids1 vs2].
        apply validate_batch_item_spec in Hr as (Hni & -> & v & Hv & ->).
        destruct (proj1 (IH _ _ _) (ex_intro _ ids' Hf)) as (Hnd & Hfresh & vs1 & -> & Hall).
        split_and!; [set_solver|done|set_solver|]. exists (v :: vs1). rewrite <-app_assoc. split; [done|by constructor].
      + intros ([Hni Hnd] & Hfresh & vs1 & -> & Hall). inversion Hall as [|? v ? vs2 Hv Hall2]; subst.
        assert (validate_batch_item (ids, vs0) item = Ok ({[bi_credential_id item]} ∪ ids, vs0 ++ [v])) as ->.
        { apply validate_batch_item_spec. split_and!; [set_solver|done|by exists v]. }
        cbn [rbind]. apply IH. split_and!; [done|set_solver|]. exists vs2. by rewrite <-app_assoc. }
  unfold validate_mdoc_batch. specialize (Hgen ∅ [] vs). split.
  - intros Hv. inv_result. destruct t as [ids vs']. destruct (proj1 Hgen (ex_intro _ ids eq_refl)) as (? & _ & vs1 & -> & ?). done.
  - intros [Hnd Hall]. destruct (proj2 Hgen) as (ids & ->); [|done]. split_and!; [done|set_solver|by exists vs].
Qed.

(** ** Witnesses *)

Section mdoc_witnesses.
#[local] Existing Instance toy_sha2.
#[local] Existing Instance toy_sha2_laws.
#[local] Existing Instance counter_rng.
#[local] Existing Instance counter_rng_laws.
#[local] Existing Instance example_fuel.
#[local] Existing Instance raw_serde.
#[local] Instance toy_item_serde : Serde IssuerSignedItem :=
  {| to_vec x := Ok (digest_id x :: encode_string (element_identifier x)); from_slice _ := Err DecodeFailed |}.
#[local] Instance toy_mso_serde : Serde Mso.Mso :=
  {| to_vec x := Ok (encode_string (mso_doc_type x)); from_slice _ := Err DecodeFailed |}.
#[local] Instance toy_to_be_signed : ToBeSigned :=
  {| sig_structure_data _ _ payload := payload; mac_structure_data _ _ payload := payload |}.

Definition example_namespaces : Namespaces :=
  collect [("org.iso"%string, collect [("family_name"%string, Text "Doe"); ("age"%string, Integer 30)])].
Definition example_device_key_info : DeviceKeyInfo := {|
  device_key := OKP Ed25519 [];
  key_authorizations := None; key_info := None |}.
Definition example_validated (id : Z) : ValidatedMdocBatchItem := {|
  vi_credential_id := id; vi_doc_type := "mDL"; vi_namespaces := example_namespaces;
  vi_validity_info := example_validity; vi_digest_algorithm := SHA384;
  vi_device_key_info := example_device_key_info; vi_signature_algorithm := ES256;
  vi_enable_decoy_digests := false |}.

Lemma example_small : small_namespaces example_namespaces.
Proof. split_and!; [done|repeat constructor; done|by vm_compute]. Qed.

(** A prepared credential exists, by evaluation. *)
Lemma example_prepared :
  ∃ prepared r', prepare_with_validated_inputs_rng_and_digest_executor "mDL" example_namespaces example_validity
    SHA384 example_device_key_info ES256 true 5%Z Serial = Ok (prepared, r').
Proof.
  assert (is_ok (prepare_with_validated_inputs_rng_and_digest_executor "mDL" example_namespaces example_validity
    SHA384 example_device_key_info ES256 true 5%Z Serial) = true) as Hok by (vm_compute; reflexivity).
  destruct (prepare_with_validated_inputs_rng_and_digest_executor _ _ _ _ _ _ _ _ _) as [[prepared r']|]; [|discriminate Hok].
  by exists prepared, r'.
Qed.

Lemma prepare_commits_witness :
  ∃ prepared : PreparedMdoc, (entries (Mso.value_digests (pm_mso prepared))).*1 = ["org.iso"%string].
Proof.
  destruct example_prepared as (prepared & r' & Hp). exists prepared.
  apply (prepare_commits (R := Z) (E := SerialDigestExecutor) _ _ _ _ _ _ _ _ _ _ _ Hp).
Defined.

Lemma batch_is_sequence_witness :
  ∃ out r', prepare_sequence 5%Z [example_validated 1; example_validated 2] = Ok (out, r') ∧
    pb_credential_id <$> out = [1; 2]%Z.
Proof.
  assert (∃ out r', prepare_batch_with_validated_inputs_rng_and_digest_executor
    [example_validated 1; example_validated 2] 5%Z Serial = Ok (out, r')) as (out & r' & Hb)
    by (do 2 eexists; by vm_compute).
  exists out, r'. apply (batch_is_sequence (R := Z) (E := SerialDigestExecutor)
    [example_validated 1; example_validated 2] 5%Z Serial); [|exact Hb].
  apply (bool_decide_unpack _). by vm_compute.
Defined.
End mdoc_witnesses.
