(* ===== verification/Messages.v ===== *)
(** * Presentation messages ([src/definitions/device_request.rs], [device_response.rs],
    [device_signed.rs], [src/presentation/mod.rs], [authentication/mod.rs])

    Requests, responses and device authentication as data with their status
    codes, the P-256 verifier of [src/cose/sign1.rs], the outcome types shared by
    the two session managers and the BLE identifier. *)

From S2P Require Export Session Mso X509.

(** ** Requests ([device_request.rs]) *)

Abbreviation DataElements := (NonEmptyMap string bool).
Abbreviation RequestNamespaces := (NonEmptyMap string DataElements).

Record ItemsRequest : Type := {
  ir_doc_type : string;
  ir_namespaces : RequestNamespaces;
  request_info : option (btree string Value);
}.
Record DocRequest : Type := {
  items_request : Tag24 ItemsRequest;
  reader_auth : option (MaybeTagged CoseSign1);
}.
Record UseCase : Type := {
  mandatory : bool;
  document_sets : NonEmptyVec (NonEmptyVec u64);
  purpose_hints : option (NonEmptyMap string Z);
}.
Record DeviceRequestInfo : Type := { use_cases : NonEmptyVec UseCase }.
Record DeviceRequest : Type := {
  dr_version : string;
  doc_requests : NonEmptyVec DocRequest;
  reader_auth_all : option (NonEmptyVec (MaybeTagged CoseSign1));
  device_request_info : option (Tag24 DeviceRequestInfo);
}.
Definition DeviceRequest_VERSION : string := "1.0".

(** ** Device-signed data ([device_signed.rs]) *)

Abbreviation DeviceNamespaces := (btree string (NonEmptyMap string Value)).

Inductive DeviceAuth : Type :=
  | DeviceSignature (s : MaybeTagged CoseSign1)
  | DeviceMac (m : MaybeTagged CoseMac0).
Inductive DeviceAuthType : Type := Sign1 | Mac0.
Record DeviceSigned : Type := {
  dsg_namespaces : Tag24 DeviceNamespaces;
  device_auth : DeviceAuth;
}.

(** [DeviceAuthentication(&str, S, String, DeviceNamespacesBytes)] *)
Record DeviceAuthentication (S : Type) : Type := {
  da_label : string;
  da_transcript : S;
  da_doc_type : string;
  da_namespaces : Tag24 DeviceNamespaces;
}.
Arguments da_label {S} _.
Arguments da_transcript {S} _.
Arguments da_doc_type {S} _.
Arguments da_namespaces {S} _.
Definition DeviceAuthentication_new {S} (transcript : S) (doc_type : string) (namespaces_bytes : Tag24 DeviceNamespaces) :
    DeviceAuthentication S :=
  {| da_label := "DeviceAuthentication"; da_transcript := transcript; da_doc_type := doc_type;
     da_namespaces := namespaces_bytes |}.

(** ** Responses ([device_response.rs]) *)

Inductive DocumentErrorCode : Type := DataNotReturned | ApplicationSpecific (i : i128).
Inductive ResponseStatus : Type := OK | GeneralError | ResponseCborDecodingError | ResponseCborValidationError.
#[export] Instance DocumentErrorCode_eq_dec : EqDecision DocumentErrorCode. Proof. solve_decision. Defined.
#[export] Instance ResponseStatus_eq_dec : EqDecision ResponseStatus. Proof. solve_decision. Defined.

Abbreviation NamespaceErrors := (NonEmptyMap string (NonEmptyMap string DocumentErrorCode)).
Abbreviation DocumentError := (btree string DocumentErrorCode).

Record ResponseDocument : Type := {
  rd_doc_type : string;
  rd_issuer_signed : IssuerSigned;
  rd_device_signed : DeviceSigned;
  rd_errors : option NamespaceErrors;
}.
Record DeviceResponse : Type := {
  rs_version : string;
  rs_documents : option (NonEmptyVec ResponseDocument);
  rs_document_errors : option (NonEmptyVec DocumentError);
  rs_status : ResponseStatus;
}.
Definition DeviceResponse_VERSION : string := "1.0".

Definition DocumentErrorCode_into_i128 (c : DocumentErrorCode) : i128 :=
  match c with DataNotReturned => 0 | ApplicationSpecific i => i end.
Definition DocumentErrorCode_try_from (n : i128) : result DocumentErrorCode unit :=
  if (n =? 0)%Z then Ok DataNotReturned else if (n <? 0)%Z then Ok (ApplicationSpecific n) else Err tt.

Definition ResponseStatus_into_u64 (s : ResponseStatus) : u64 :=
  match s with
  | OK => 0
  | GeneralError => 10
  | ResponseCborDecodingError => 11
  | ResponseCborValidationError => 12
  end.
Definition ResponseStatus_try_from (n : u64) : result ResponseStatus unit :=
  match n with
  | 0 => Ok OK
  | 10 => Ok GeneralError
  | 11 => Ok ResponseCborDecodingError
  | 12 => Ok ResponseCborValidationError
  | _ => Err tt
  end%Z.

(** ** The verifiers on the NIST curves ([src/cose/sign1.rs]) *)

Section p256.
Context `{Sha2} {VK Sig : Type} `{Ecdsa VK Sig}.

Definition P256Verifier_verify (key : VK) (msg : bytes) (signature : Sig) : result unit unit :=
  verify_prehashed NistP256 key (Sha256_digest msg) signature.

#[export] Instance P256Verifier : Verifier VK Sig := {|
  verifier_algorithm _ := ES256;
  signature_try_from := Signature_from_slice NistP256;
  verifier_verify := P256Verifier_verify;
|}.

Definition P384Verifier_verify (key : VK) (msg : bytes) (signature : Sig) : result unit unit :=
  verify_prehashed NistP384 key (Sha384_digest msg) signature.
Definition P384Verifier : Verifier VK Sig := {|
  verifier_algorithm _ := ES384;
  signature_try_from := Signature_from_slice NistP384;
  verifier_verify := P384Verifier_verify;
|}.
End p256.

(** The x5chain header of an unprotected header map: the first entry with its label. *)
Definition x5chain_header (h : Header) : option Value :=
  snd ∘ snd <$> list_find (λ entry, entry.1 = LabelInt X5CHAIN_COSE_HEADER_LABEL) (hdr_rest h).

(** ** Outcomes ([authentication/mod.rs]) *)

Inductive AuthenticationStatus : Type := Unchecked | Invalid | Valid.
#[export] Instance AuthenticationStatus_eq_dec : EqDecision AuthenticationStatus.
Proof. solve_decision. Defined.

(** Errors of passive mdoc authentication; the texts are the causes. *)
Inductive AuthError : Type :=
  | DetachedIssuerAuth
  | MSOParsing
  | AuthCborDecodingError
  | BadDeviceKey (e : CoseKeyError)
  | BadSec1Key
  | DeviceSignatureFailure (e : FailureReason + CoseError)
  | UnsupportedDeviceKey
  | Unsupported
  | IssuerAuthentication (e : FailureReason + CoseError)
  | IssuerPublicKey (e : PublicKeyError).

(** ** The BLE identifier ([src/presentation/mod.rs]) *)

(** [Hkdf::<Sha256>::new(salt, ikm).expand(info, okm)] of the [hkdf] crate, for
    an output of the given length. *)
Class Hkdf := hkdf_expand : option bytes → bytes → bytes → usize → result bytes unit.

Inductive BleError : Type := BleEncoding (e : CborError) | BleHkdf.

Definition calculate_ble_ident `{Serde CoseKey, Serde Value, Hkdf} (e_device_key : Tag24 CoseKey) :
    result bytes BleError :=
  let? e_device_key_bytes := map_err BleEncoding (to_vec e_device_key) in
  map_err (λ _, BleHkdf) (hkdf_expand None e_device_key_bytes (encode_string "BLEIdent") 16).

(** *** Text form of stored documents *)

(** [base64::encode] and [base64::decode]. *)
Class Base64Standard := {
  encode : bytes → string;
  decode : string → option bytes;
}.
Inductive StringifyError : Type := StringifyCbor (e : CborError) | StringifyBase64.

Definition stringify {T} `{Serde T, Base64Standard} (x : T) : result string StringifyError :=
  let? data := map_err StringifyCbor (to_vec x) in Ok (encode data).
Definition parse_string {T} `{Serde T, Base64Standard} (encoded : string) : result T StringifyError :=
  let? data := ok_or StringifyBase64 (decode encoded) in map_err StringifyCbor (from_slice data).

(** ** Laws relative to well-formed values *)

(** Reading back holds for the values Rust's types allow: the content of every
    [Tag24] is what its bytes decode to and no non-empty collection is empty. *)
Class SerdeWf (T : Type) (wf : T → Prop) `{Serde T} : Prop := {
  from_slice_to_vec_wf x b : wf x → to_vec x = Ok b → from_slice b = Ok x;
}.

Definition opt_wf {A} (P : A → Prop) (o : option A) : Prop := match o with Some x => P x | None => True end.

Section wf.
Context `{Serde ItemsRequest, Serde DeviceRequestInfo, Serde IssuerSignedItem, Serde DeviceNamespaces, Serde CoseKey}.

Definition DocRequest_wf (d : DocRequest) : Prop := Tag24_wf (items_request d).
Definition DeviceRequest_wf (r : DeviceRequest) : Prop :=
  NonEmptyVec_wf (doc_requests r) ∧ Forall DocRequest_wf (nev (doc_requests r)) ∧
  opt_wf Tag24_wf (device_request_info r).

Definition issuer_items_wf (items : NonEmptyVec (Tag24 IssuerSignedItem)) : Prop :=
  NonEmptyVec_wf items ∧ Forall Tag24_wf (nev items).
Definition IssuerSigned_wf (s : IssuerSigned) : Prop :=
  opt_wf (λ m : IssuerNamespaces, NonEmptyMap_wf m ∧
    ∀ ns items, nem m !! ns = Some items → issuer_items_wf items) (is_namespaces s).
Definition error_code_wf (c : DocumentErrorCode) : Prop :=
  match c with DataNotReturned => True | ApplicationSpecific i => (i < 0)%Z end.
Definition errors_wf (m : NamespaceErrors) : Prop :=
  NonEmptyMap_wf m ∧ ∀ ns es, nem m !! ns = Some es →
    NonEmptyMap_wf es ∧ ∀ el c, nem es !! el = Some c → error_code_wf c.
Definition ResponseDocument_wf (d : ResponseDocument) : Prop :=
  IssuerSigned_wf (rd_issuer_signed d) ∧ Tag24_wf (dsg_namespaces (rd_device_signed d)) ∧
  opt_wf errors_wf (rd_errors d).
Definition document_error_wf (e : DocumentError) : Prop := ∀ dt c, e !! dt = Some c → error_code_wf c.
Definition DeviceResponse_wf (r : DeviceResponse) : Prop :=
  opt_wf (λ ds, NonEmptyVec_wf ds ∧ Forall ResponseDocument_wf (nev ds)) (rs_documents r) ∧
  opt_wf (λ es, NonEmptyVec_wf es ∧ Forall document_error_wf (nev es)) (rs_document_errors r).

Definition SessionEstablishment_wf (s : SessionEstablishment) : Prop := Tag24_wf (e_reader_key s).
End wf.

(** ** Properties *)

Lemma ResponseStatus_codes s n : ResponseStatus_into_u64 s = n ↔ ResponseStatus_try_from n = Ok s.
Proof.
  split; [intros <-; by destruct s|]. intros Hs. unfold ResponseStatus_try_from in Hs.
  repeat match type of Hs with context [match ?x with _ => _ end] => destruct x; try discriminate Hs end;
    injection Hs as <-; done.
Qed.

Lemma DocumentErrorCode_codes c n :
  DocumentErrorCode_try_from n = Ok c ↔ error_code_wf c ∧ DocumentErrorCode_into_i128 c = n.
Proof.
  unfold DocumentErrorCode_try_from. split.
  - destruct (Z.eqb_spec n 0) as [->|]; [by intros [= <-]|].
    destruct (Z.ltb_spec n 0); [|done]. by intros [= <-].
  - intros [Hc <-]. destruct c as [|i]; [done|]. cbn [DocumentErrorCode_into_i128 error_code_wf] in *.
    destruct (Z.eqb_spec i 0); [lia|]. destruct (Z.ltb_spec i 0); [done|lia].
Qed.
