(* ===== verification/Json.v ===== *)
(** * JSON input and the conversion traits ([src/definitions/traits], [macros/src])

    JSON values, the traits [FromJson], [FromJsonMap], [ToCbor] and
    [ToNamespaceMap] with their instances, and the code that the derive macros
    generate, as combinators over field conversions.  A panic is [None]. *)

From S2P Require Export Messages.

(** ** JSON values ([serde_json::Value]) *)

(** Objects are in key order; floats are kept as their bits. *)
Inductive Json : Type :=
  | JNull
  | JString (s : string)
  | JNumber (n : Z)
  | JFloat (bits : u64)
  | JBool (b : bool)
  | JArray (l : list Json)
  | JObject (l : list (string * Json)).

(** [map.get(key)] *)
Definition map_get (key : string) (m : list (string * Json)) : option Json :=
  snd ∘ snd <$> list_find (λ p, p.1 = key) m.

Definition json_type (v : Json) : string :=
  match v with
  | JNull => "null"
  | JString _ => "string"
  | JNumber _ | JFloat _ => "number"
  | JBool _ => "boolean"
  | JArray _ => "array"
  | JObject _ => "object"
  end.

(** ** Errors *)

Inductive CountyCodeError : Type := InvalidCharacter (c : Z) | CountyCodeTooShort | CountyCodeTooLong.

(** Causes of a parsing error. *)
Inductive ElementError : Type :=
  | EmptyVec
  | BadBase64
  | NonLatin1 (chars : list Z)
  | TooLong (length : usize)
  | BadDate
  | BadDateTime
  | NoDateOrDateTime
  | UnrecognizedText (s : string)
  | VariantNotFound
  | AgeTooLarge (n : u8)
  | UnrecognizedNumber (n : u32)
  | CountryMismatch
  | BadCountyCode (e : CountyCodeError).

Inductive FromJsonError : Type :=
  | ExpectedPositiveInteger
  | IntegerTooLarge
  | Multiple (errors : list FromJsonError)
  | Missing
  | Parsing (e : ElementError)
  | UnexpectedType (found expected : string)
  | WithContext (field : string) (e : FromJsonError).

(** ** Computations that may fail or panic *)

Definition ok {A E} (a : A) : option (result A E) := Some (Ok a).

(** [iter.map(f).collect::<Result<Vec<_>, _>>()] *)
Fixpoint otry_map {A B E} (f : A → option (result B E)) (l : list A) : option (result (list B) E) :=
  match l with
  | [] => ok []
  | x :: l' => let* y := f x in let* ys := otry_map f l' in ok (y :: ys)
  end.

Lemma otry_map_Ok {A B E} (f : A → option (result B E)) l k :
  otry_map f l = Some (Ok k) ↔ Forall2 (λ x y, f x = Some (Ok y)) l k.
Proof.
  split.
  - revert k. induction l as [|x l IH]; intros k; cbn [otry_map].
    + intros [= <-]. constructor.
    + intros (y & Hy & (ys & Hys & [= <-])%obind_Ok)%obind_Ok. constructor; auto.
  - induction 1 as [|x y l k Hx _ IH]; cbn [otry_map]; [done|].
    apply obind_Ok. exists y. split; [done|]. apply obind_Ok. by exists k.
Qed.

(** ** The traits *)

Class FromJson (T : Type) := {
  from_json : Json → option (result T FromJsonError);
  from_json_opt : option Json → option (result T FromJsonError);
}.
(** The provided method [from_json_opt]. *)
Definition required {T} (from : Json → option (result T FromJsonError)) (o : option Json) :
    option (result T FromJsonError) :=
  match o with None => Some (Err Missing) | Some v => from v end.
Definition FromJson_new {T} (from : Json → option (result T FromJsonError)) : FromJson T :=
  {| from_json := from; from_json_opt := required from |}.

Class FromJsonMap (T : Type) := from_map : list (string * Json) → option (result T FromJsonError).
Class ToCbor (T : Type) := to_cbor : T → Value.
Class ToNamespaceMap (T : Type) := to_ns_map : T → btree string Value.

Definition to_cbor_bytes {T} `{ToCbor T, Serde Value} (x : T) : result bytes CborError := to_vec (to_cbor x).

(** ** Reading base types *)

Definition unexpected {T} (v : Json) (expected : string) : option (result T FromJsonError) :=
  Some (Err (UnexpectedType (json_type v) expected)).
Definition parsing {T} (r : result T ElementError) : option (result T FromJsonError) := Some (map_err Parsing r).

Definition bool_from_json (v : Json) : option (result bool FromJsonError) :=
  match v with JBool b => ok b | _ => unexpected v "boolean" end.
#[export] Instance bool_from : FromJson bool := FromJson_new bool_from_json.

(** A number that is not a [u64] is negative or a float. *)
Definition u32_from_json (v : Json) : option (result u32 FromJsonError) :=
  match v with
  | JNumber n => Some (if (n <? 0)%Z then Err ExpectedPositiveInteger
                       else if (n <=? u32_max)%Z then Ok n else Err IntegerTooLarge)
  | JFloat _ => Some (Err ExpectedPositiveInteger)
  | _ => unexpected v "number"
  end.
#[export] Instance u32_from : FromJson Z := FromJson_new u32_from_json.

Definition string_from_json (v : Json) : option (result string FromJsonError) :=
  match v with JString s => ok s | _ => unexpected v "string" end.
#[export] Instance string_from : FromJson string := FromJson_new string_from_json.

Section containers.
Context {T : Type} `{FromJson T}.

Definition vec_from_json (v : Json) : option (result (list T) FromJsonError) :=
  match v with JArray l => otry_map from_json l | _ => unexpected v "array" end.
#[export] Instance vec_from : FromJson (list T) := FromJson_new vec_from_json.

Definition non_empty_vec_from_json (v : Json) : option (result (NonEmptyVec T) FromJsonError) :=
  let* v := vec_from_json v in parsing (map_err (λ _, EmptyVec) (NonEmptyVec_try_from v)).
#[export] Instance non_empty_vec_from : FromJson (NonEmptyVec T) := FromJson_new non_empty_vec_from_json.

Definition btree_from_map (m : list (string * Json)) : option (result (btree string T) FromJsonError) :=
  let* l := otry_map (λ p : string * Json, let* t := from_json p.2 in ok (p.1, t)) m in ok (collect l).
#[export] Instance btree_map_from : FromJsonMap (btree string T) := btree_from_map.
Definition btree_from_json (v : Json) : option (result (btree string T) FromJsonError) :=
  match v with JObject m => btree_from_map m | _ => unexpected v "object" end.
#[export] Instance btree_from : FromJson (btree string T) := FromJson_new btree_from_json.

Definition option_from_json (v : Json) : option (result (option T) FromJsonError) :=
  match v with JNull => ok None | _ => let* t := from_json v in ok (Some t) end.
Definition option_from_json_opt (o : option Json) : option (result (option T) FromJsonError) :=
  match o with
  | Some JNull => ok None
  | Some v => let* t := from_json v in ok (Some t)
  | None => ok None
  end.
#[export] Instance option_from : FromJson (option T) :=
  {| from_json := option_from_json; from_json_opt := option_from_json_opt |}.
End containers.

Definition option_from_map {T} `{FromJsonMap T} (m : list (string * Json)) : option (result (option T) FromJsonError) :=
  r ← from_map (T := T) m;
  Some match r with
       | Ok t => Ok (Some t)
       | Err Missing => Ok None
       | Err e => Err e
       end.
#[export] Instance option_map_from {T} `{FromJsonMap T} : FromJsonMap (option T) := option_from_map.

Definition bytestr_from_json `{Base64Standard} (v : Json) : option (result ByteStr FromJsonError) :=
  let* encoded := string_from_json v in
  parsing (rmap (λ b, {| bytestr := b |}) (ok_or BadBase64 (decode encoded))).
#[export] Instance bytestr_from `{Base64Standard} : FromJson ByteStr := FromJson_new bytestr_from_json.

(** ** Writing base types ([Into<ciborium::Value>]) *)

#[export] Instance bool_to_cbor : ToCbor bool := Bool.
#[export] Instance u32_to_cbor : ToCbor Z := Integer.
#[export] Instance string_to_cbor : ToCbor string := Text.
#[export] Instance bytestr_to_cbor : ToCbor ByteStr := λ b, Bytes (bytestr b).

(** ** What [derive(FromJson)] generates *)

(** The fields converted so far, the struct's constructor applied to them if all
    succeeded, and the errors of the others. *)
Abbreviation Fields T := (option (option T * list FromJsonError)).

Definition fields {T} (t : T) : Fields T := Some (Some t, []).
Definition with_field {A B} (name : string) (value : option (result A FromJsonError)) (c : Fields (A → B)) : Fields B :=
  '(f, errors) ← c;
  r ← value;
  Some match r with
       | Ok a => (f ← f; Some (f a), errors)
       | Err e => (None, errors ++ [WithContext name e])
       end.
Definition field {A B} `{FromJson A} (map : list (string * Json)) (name : string) (c : Fields (A → B)) : Fields B :=
  with_field name (from_json_opt (map_get name map)) c.
Definition dynamic_field {A B} `{FromJsonMap A} (map : list (string * Json)) (name : string) (c : Fields (A → B)) : Fields B :=
  with_field name (from_map map) c.

(** The generated [unwrap]s panic if a field is missing without an error. *)
Definition finish_fields {T} (c : Fields T) : option (result T FromJsonError) :=
  '(t, errors) ← c;
  match errors with
  | [] => t ← t; ok t
  | [e] => Some (Err e)
  | _ => Some (Err (Multiple errors))
  end.
Definition named_fields {T} (conversions : list (string * Json) → Fields T) (value : Json) :
    option (result T FromJsonError) :=
  match value with
  | JObject map => finish_fields (conversions map)
  | _ => unexpected value "object"
  end.
Definition unnamed_field {A T} `{FromJson A} (f : A → T) (value : Json) : option (result T FromJsonError) :=
  let* a := from_json value in ok (f a).

(** ** What [derive(ToCbor)] generates *)

(** The insertions of one field. *)
Abbreviation Conversion := (list (string * Value)).

Definition mandatory_field {A} `{ToCbor A} (name : string) (v : A) : Conversion := [(name, to_cbor v)].
Definition optional_field {A} `{ToCbor A} (name : string) (v : option A) : Conversion :=
  match v with Some i => [(name, to_cbor i)] | None => [] end.
Definition many_field {A} `{ToNamespaceMap A} (v : A) : Conversion := entries (to_ns_map v).
Definition named_to_ns_map (conversions : list Conversion) : btree string Value := collect (concat conversions).
Definition ns_map_to_cbor (m : btree string Value) : Value :=
  Map ((λ kv : string * Value, (Text kv.1, kv.2)) <$> entries m).

(** ** Properties of the generated code *)

(** No field is missing without an error, so the generated [unwrap]s are safe. *)
Definition fields_ok {T} (c : Fields T) : Prop := ∀ t errors, c = Some (t, errors) → (t = None ↔ errors ≠ []).

Lemma fields_fields_ok {T} (t : T) : fields_ok (fields t).
Proof. by intros ?? [= <- <-]. Qed.
Lemma with_field_ok {A B} name value (c : Fields (A → B)) : fields_ok c → fields_ok (with_field name value c).
Proof.
  intros Hc t errors. unfold with_field. destruct c as [[f errs]|]; [|done]. cbn [mbind option_bind].
  specialize (Hc f errs eq_refl). destruct value as [[a|e]|]; cbn [mbind option_bind]; [| |done]; intros [= <- <-].
  - rewrite <-Hc. by destruct f.
  - split; [|done]. intros _. by destruct errs.
Qed.

(** A struct is built exactly when every field converts. *)
Lemma with_field_Some {A B} name value (c : Fields (A → B)) b errors :
  with_field name value c = Some (Some b, errors) ↔
  ∃ f a, c = Some (Some f, errors) ∧ value = Some (Ok a) ∧ b = f a.
Proof.
  unfold with_field. split.
  - destruct c as [[f errs]|]; [|done]. cbn [mbind option_bind].
    destruct value as [[a|e]|]; cbn [mbind option_bind]; [|done..].
    destruct f as [f|]; [|done]. intros [= <- <-]. by exists f, a.
  - by intros (f & a & -> & -> & ->).
Qed.

Lemma finish_fields_Ok {T} (c : Fields T) t : finish_fields c = Some (Ok t) ↔ c = Some (Some t, []).
Proof.
  split; [|by intros ->]. destruct c as [[o errors]|]; [|done]. cbn [finish_fields mbind option_bind].
  destruct errors as [|e [|e' errors]]; [|done..]. destruct o as [t'|]; [|done]. by intros [= <-].
Qed.

(** A panic comes from a field. *)
Lemma with_field_panics {A B} name value (c : Fields (A → B)) : with_field name value c = None ↔ c = None ∨ value = None.
Proof.
  unfold with_field. destruct c as [[f errs]|]; cbn [mbind option_bind]; [|naive_solver].
  destruct value as [[a|e]|]; cbn [mbind option_bind]; naive_solver.
Qed.
Lemma finish_fields_panics {T} (c : Fields T) : fields_ok c → finish_fields c = None ↔ c = None.
Proof.
  intros Hc. destruct c as [[o errors]|]; [|done]. cbn [finish_fields mbind option_bind]. specialize (Hc o errors eq_refl).
  destruct errors as [|e [|e' errors]]; [|done..]. destruct o; [done|]. destruct Hc as [Hc _]. by specialize (Hc eq_refl).
Qed.

(** The errors are those of the failing fields, in declaration order. *)
Lemma with_field_errors {A B} name value (c : Fields (A → B)) t errors :
  with_field name value c = Some (t, errors) →
  ∃ f errs r, c = Some (f, errs) ∧ value = Some r ∧
    errors = errs ++ match r with Ok _ => [] | Err e => [WithContext name e] end.
Proof.
  unfold with_field. destruct c as [[f errs]|]; [|done]. cbn [mbind option_bind].
  destruct value as [[a|e]|]; cbn [mbind option_bind]; [| |done]; intros [= <- <-]; eexists _, _, _; (split; [done|]);
    (split; [done|]); [by rewrite app_nil_r|done].
Qed.
