(* ===== verification/UNSign.v ===== *)
(** * Distinguishing signs ([src/definitions/namespaces/org_iso_18013_5_1/un_distinguishing_sign.rs])

    The signs of ISO/IEC 18013-1 Annex F as the enumeration of the source, with its
    two tables; any other text is kept as it is. *)

From S2P Require Export Alpha2.

Module UNSigns.
Inductive UNDistinguishingSign : Type :=
  | A | AFG | AL | AM | AND | AUS | AZ | B | BD | BDS | BF | BG | BH | BIH | BOL | BR | BRN | BRU | BS | BUR | BVI
  | BW | BY | CAM | CDN | CH | CI | CL | CO | CR | CU | CY | CZ | D | DK | DOM | DY | DZ | E | EAK | EAT | EAU
  | EAZ | EC | ER | ES | EST | ET | ETH | F | FIN | FJI | FL | FO | G | GB | GBA | GBG | GBJ | GBM | GBZ | GCA | GE
  | GH | GR | GUY | H | HKJ | HR | I | IL | IND | IR | IRL | IRQ | IS | J | JA | K | KG | KWT | KZ | L | LAO | LAR
  | LB | LS | LT | LV | M | MA | MAL | MC | MD | MEX | MGL | MK | MNE | MOC | MS | MW | N | NA | NAM | NAU | NEP
  | NIC | NL | NZ | P | PA | PE | PK | PL | PNG | PY | Q | RA | RC | RCA | RCB | RCH | RG | RH | RI | RIM | RL | RM
  | RMM | RN | RNR | RO | ROK | ROU | RP | RSM | RU | RUS | RWA | S | SA | SD | SGP | SK | SLO | SME | SN | SO
  | SRB | SUD | SY | SYR | T | TCH | TD | TG | TJ | TM | TN | TR | TT | TZA | UA | UAE | USA | UZ | V | VN | WAG
  | WAL | WAN | WD | WG | WL | WS | WV | YAR | YV | ZA | ZRE | ZW
  | NoneApplicable (s : string).

Definition UNDistinguishingSign_into_string (a : UNDistinguishingSign) : string :=
  match a with
  | A => "A" | AFG => "AFG" | AL => "AL" | AM => "AM" | AND => "AND" | AUS => "AUS" | AZ => "AZ" | B => "B"
  | BD => "BD" | BDS => "BDS" | BF => "BF" | BG => "BG" | BH => "BH" | BIH => "BIH" | BOL => "BOL" | BR => "BR"
  | BRN => "BRN" | BRU => "BRU" | BS => "BS" | BUR => "BUR" | BVI => "BVI" | BW => "BW" | BY => "BY" | CAM => "CAM"
  | CDN => "CDN" | CH => "CH" | CI => "CI" | CL => "CL" | CO => "CO" | CR => "CR" | CU => "CU" | CY => "CY"
  | CZ => "CZ" | D => "D" | DK => "DK" | DOM => "DOM" | DY => "DY" | DZ => "DZ" | E => "E" | EAK => "EAK"
  | EAT => "EAT" | EAU => "EAU" | EAZ => "EAZ" | EC => "EC" | ER => "ER" | ES => "ES" | EST => "EST" | ET => "ET"
  | ETH => "ETH" | F => "F" | FIN => "FIN" | FJI => "FJI" | FL => "FL" | FO => "FO" | G => "G" | GB => "GB"
  | GBA => "GBA" | GBG => "GBG" | GBJ => "GBJ" | GBM => "GBM" | GBZ => "GBZ" | GCA => "GCA" | GE => "GE"
  | GH => "GH" | GR => "GR" | GUY => "GUY" | H => "H" | HKJ => "HKJ" | HR => "HR" | I => "I" | IL => "IL"
  | IND => "IND" | IR => "IR" | IRL => "IRL" | IRQ => "IRQ" | IS => "IS" | J => "J" | JA => "JA" | K => "K"
  | KG => "KG" | KWT => "KWT" | KZ => "KZ" | L => "L" | LAO => "LAO" | LAR => "LAR" | LB => "LB" | LS => "LS"
  | LT => "LT" | LV => "LV" | M => "M" | MA => "MA" | MAL => "MAL" | MC => "MC" | MD => "MD" | MEX => "MEX"
  | MGL => "MGL" | MK => "MK" | MNE => "MNE" | MOC => "MOC" | MS => "MS" | MW => "MW" | N => "N" | NA => "NA"
  | NAM => "NAM" | NAU => "NAU" | NEP => "NEP" | NIC => "NIC" | NL => "NL" | NZ => "NZ" | P => "P" | PA => "PA"
  | PE => "PE" | PK => "PK" | PL => "PL" | PNG => "PNG" | PY => "PY" | Q => "Q" | RA => "RA" | RC => "RC"
  | RCA => "RCA" | RCB => "RCB" | RCH => "RCH" | RG => "RG" | RH => "RH" | RI => "RI" | RIM => "RIM" | RL => "RL"
  | RM => "RM" | RMM => "RMM" | RN => "RN" | RNR => "RNR" | RO => "RO" | ROK => "ROK" | ROU => "ROU" | RP => "RP"
  | RSM => "RSM" | RU => "RU" | RUS => "RUS" | RWA => "RWA" | S => "S" | SA => "SA" | SD => "SD" | SGP => "SGP"
  | SK => "SK" | SLO => "SLO" | SME => "SME" | SN => "SN" | SO => "SO" | SRB => "SRB" | SUD => "SUD" | SY => "SY"
  | SYR => "SYR" | T => "T" | TCH => "TCH" | TD => "TD" | TG => "TG" | TJ => "TJ" | TM => "TM" | TN => "TN"
  | TR => "TR" | TT => "TT" | TZA => "TZA" | UA => "UA" | UAE => "UAE" | USA => "USA" | UZ => "UZ" | V => "V"
  | VN => "VN" | WAG => "WAG" | WAL => "WAL" | WAN => "WAN" | WD => "WD" | WG => "WG" | WL => "WL" | WS => "WS"
  | WV => "WV" | YAR => "YAR" | YV => "YV" | ZA => "ZA" | ZRE => "ZRE" | ZW => "ZW"
  | NoneApplicable s => s
  end.

Definition sign_arms : list (string * UNDistinguishingSign) := [
  ("A", A); ("AFG", AFG); ("AL", AL); ("AM", AM); ("AND", AND); ("AUS", AUS); ("AZ", AZ); ("B", B); ("BD", BD);
  ("BDS", BDS); ("BF", BF); ("BG", BG); ("BH", BH); ("BIH", BIH); ("BOL", BOL); ("BR", BR); ("BRN", BRN);
  ("BRU", BRU); ("BS", BS); ("BUR", BUR); ("BVI", BVI); ("BW", BW); ("BY", BY); ("CAM", CAM); ("CDN", CDN);
  ("CH", CH); ("CI", CI); ("CL", CL); ("CO", CO); ("CR", CR); ("CU", CU); ("CY", CY); ("CZ", CZ); ("D", D);
  ("DK", DK); ("DOM", DOM); ("DY", DY); ("DZ", DZ); ("E", E); ("EAK", EAK); ("EAT", EAT); ("EAU", EAU);
  ("EAZ", EAZ); ("EC", EC); ("ER", ER); ("ES", ES); ("EST", EST); ("ET", ET); ("ETH", ETH); ("F", F); ("FIN", FIN);
  ("FJI", FJI); ("FL", FL); ("FO", FO); ("G", G); ("GB", GB); ("GBA", GBA); ("GBG", GBG); ("GBJ", GBJ);
  ("GBM", GBM); ("GBZ", GBZ); ("GCA", GCA); ("GE", GE); ("GH", GH); ("GR", GR); ("GUY", GUY); ("H", H);
  ("HKJ", HKJ); ("HR", HR); ("I", I); ("IL", IL); ("IND", IND); ("IR", IR); ("IRL", IRL); ("IRQ", IRQ); ("IS", IS);
  ("J", J); ("JA", JA); ("K", K); ("KG", KG); ("KWT", KWT); ("KZ", KZ); ("L", L); ("LAO", LAO); ("LAR", LAR);
  ("LB", LB); ("LS", LS); ("LT", LT); ("LV", LV); ("M", M); ("MA", MA); ("MAL", MAL); ("MC", MC); ("MD", MD);
  ("MEX", MEX); ("MGL", MGL); ("MK", MK); ("MNE", MNE); ("MOC", MOC); ("MS", MS); ("MW", MW); ("N", N); ("NA", NA);
  ("NAM", NAM); ("NAU", NAU); ("NEP", NEP); ("NIC", NIC); ("NL", NL); ("NZ", NZ); ("P", P); ("PA", PA); ("PE", PE);
  ("PK", PK); ("PL", PL); ("PNG", PNG); ("PY", PY); ("Q", Q); ("RA", RA); ("RC", RC); ("RCA", RCA); ("RCB", RCB);
  ("RCH", RCH); ("RG", RG); ("RH", RH); ("RI", RI); ("RIM", RIM); ("RL", RL); ("RM", RM); ("RMM", RMM); ("RN", RN);
  ("RNR", RNR); ("RO", RO); ("ROK", ROK); ("ROU", ROU); ("RP", RP); ("RSM", RSM); ("RU", RU); ("RUS", RUS);
  ("RWA", RWA); ("S", S); ("SA", SA); ("SD", SD); ("SGP", SGP); ("SK", SK); ("SLO", SLO); ("SME", SME); ("SN", SN);
  ("SO", SO); ("SRB", SRB); ("SUD", SUD); ("SY", SY); ("SYR", SYR); ("T", T); ("TCH", TCH); ("TD", TD); ("TG", TG);
  ("TJ", TJ); ("TM", TM); ("TN", TN); ("TR", TR); ("TT", TT); ("TZA", TZA); ("UA", UA); ("UAE", UAE); ("USA", USA);
  ("UZ", UZ); ("V", V); ("VN", VN); ("WAG", WAG); ("WAL", WAL); ("WAN", WAN); ("WD", WD); ("WG", WG); ("WL", WL);
  ("WS", WS); ("WV", WV); ("YAR", YAR); ("YV", YV); ("ZA", ZA); ("ZRE", ZRE); ("ZW", ZW)
]%string.
Definition UNDistinguishingSign_from_string (s : string) : UNDistinguishingSign :=
  default (NoneApplicable s) (match_str sign_arms s).
End UNSigns.

Definition UNDistinguishingSign_from_json (v : Json) :
    option (result UNSigns.UNDistinguishingSign FromJsonError) :=
  let* s := string_from_json v in ok (UNSigns.UNDistinguishingSign_from_string s).
#[export] Instance UNDistinguishingSign_from : FromJson UNSigns.UNDistinguishingSign :=
  FromJson_new UNDistinguishingSign_from_json.
#[export] Instance UNDistinguishingSign_to_cbor : ToCbor UNSigns.UNDistinguishingSign :=
  λ s, Text (UNSigns.UNDistinguishingSign_into_string s).

(** Reading a text keeps it, and only an unlisted text reads as itself. *)
Lemma sign_into_from_string s :
  UNSigns.UNDistinguishingSign_into_string (UNSigns.UNDistinguishingSign_from_string s) = s.
Proof.
  unfold UNSigns.UNDistinguishingSign_from_string, match_str.
  destruct (list_find _ _) as [[i [s' x]]|] eqn:Hf; [|done]. cbn [fmap option_fmap option_map compose fst snd from_option id default].
  apply list_find_Some in Hf as (Hi & Hs & _). cbn [fst] in Hs. subst s'.
  assert (Forall (λ arm, UNSigns.UNDistinguishingSign_into_string arm.2 = arm.1) UNSigns.sign_arms) as Harms
    by (apply (bool_decide_unpack _); vm_compute; exact I).
  apply (Forall_lookup_1 _ _ _ _ Harms Hi).
Qed.

Lemma sign_from_into_string x :
  UNSigns.UNDistinguishingSign_from_string (UNSigns.UNDistinguishingSign_into_string x) = x ↔
  match x with UNSigns.NoneApplicable s => s ∉ UNSigns.sign_arms.*1 | _ => True end.
Proof.
  destruct x; try (split; [done|by vm_compute]).
  cbn [UNSigns.UNDistinguishingSign_into_string]. unfold UNSigns.UNDistinguishingSign_from_string, match_str. split.
  - intros Hx Hin. apply list_elem_of_fmap in Hin as ([s' x] & Heq & Hin). cbn [fst] in Heq. subst s'.
    destruct (list_find_elem_of (λ arm : string * UNSigns.UNDistinguishingSign, arm.1 = s) _ _ Hin eq_refl) as [[i [s' y]] Hf].
    rewrite Hf in Hx. cbn in Hx. subst y. apply list_find_Some in Hf as (Hi & _).
    assert (Forall (λ arm, match arm.2 with UNSigns.NoneApplicable _ => False | _ => True end) UNSigns.sign_arms) as Hall.
    { repeat apply Forall_cons_2; try exact I. apply Forall_nil_2. }
    apply (Forall_lookup_1 _ _ _ _ Hall Hi).
  - intros Hnot. destruct (list_find _ _) as [[i [s' y]]|] eqn:Hf; [|done].
    apply list_find_Some in Hf as (Hi & Hs & _). cbn [fst] in Hs. subst s'. destruct Hnot.
    apply list_elem_of_fmap. exists (s, y). split; [done|]. by eapply list_elem_of_lookup_2.
Qed.
