(* ===== verification/Elements.v ===== *)
(** * Element types of the mDL namespace ([src/definitions/namespaces/org_iso_18013_5_1],
    [latin1.rs], [fulldate.rs])

    The data elements of ISO/IEC 18013-5 with their JSON readers and CBOR writers.
    Calendar dates of the [time] crate and the Unicode case tables are interfaces. *)

From S2P Require Export UNSign.

(** ** Characters and decimal numbers *)

(** Forms that UTF-8 text never holds are the replacement character. *)
Definition scalar (least c : Z) : Z := if (c <? least)%Z then 0xfffd%Z else c.
(** [str::chars]: the scalar values of UTF-8 text. *)
Fixpoint utf8_chars (l : bytes) : list Z :=
  match l with
  | [] => []
  | b0 :: l0 =>
      if (b0 <? 0x80)%Z then b0 :: utf8_chars l0 else
      match l0 with
      | [] => [0xfffd%Z]
      | b1 :: l1 =>
          if (b0 <? 0xe0)%Z then scalar 0x80 (b0 mod 32 * 64 + b1 mod 64) :: utf8_chars l1 else
          match l1 with
          | [] => [0xfffd%Z]
          | b2 :: l2 =>
              if (b0 <? 0xf0)%Z then scalar 0x800 (b0 mod 16 * 4096 + b1 mod 64 * 64 + b2 mod 64) :: utf8_chars l2 else
              match l2 with
              | [] => [0xfffd%Z]
              | b3 :: l3 =>
                  scalar 0x10000 (b0 mod 8 * 262144 + b1 mod 64 * 4096 + b2 mod 64 * 64 + b3 mod 64) :: utf8_chars l3
              end
          end
      end
  end.
Definition chars (s : string) : list Z := utf8_chars (encode_string s).
(** [char::encode_utf8] *)
Definition utf8_char (c : Z) : bytes :=
  (if c <? 0x80 then [c]
   else if c <? 0x800 then [0xc0 + c / 64; 0x80 + c mod 64]
   else if c <? 0x10000 then [0xe0 + c / 4096; 0x80 + c / 64 mod 64; 0x80 + c mod 64]
   else [0xf0 + c / 262144; 0x80 + c / 4096 mod 64; 0x80 + c / 64 mod 64; 0x80 + c mod 64])%Z.
Definition char_to_string (c : Z) : string := decode_string (utf8_char c).

Definition is_digit (c : Z) : bool := ((48 <=? c) && (c <=? 57))%Z.

(** Decimal digits, most significant first; ten are enough for an [i32]. *)
Fixpoint digits (fuel : nat) (n : Z) : bytes :=
  match fuel with
  | O => []
  | S fuel' => (if n <? 10 then [48 + n] else digits fuel' (n / 10) ++ [48 + n mod 10])%Z
  end.
(** [Display] of an [i32] and the format [{:0>2}]. *)
Definition decimal (n : Z) : string :=
  decode_string (if (n <? 0)%Z then 45%Z :: digits 10 (- n) else digits 10 n).
Definition pad2 (s : string) : string :=
  if (String.length s <? 2)%nat then decode_string (replicate (2 - String.length s) 48%Z) +:+ s else s.

(** [str::to_uppercase] and [str::to_lowercase], over the Unicode tables. *)
Class UnicodeCase := {
  to_uppercase : string → string;
  to_lowercase : string → string;
}.

(** ** [Latin1] *)

Record Latin1 : Type := { latin1_str : string }.

Definition is_lower_latin (c : Z) : bool := ((0x20 <=? c) && (c <? 0x7f))%Z.
Definition is_upper_latin (c : Z) : bool := ((0xa0 <=? c) && (c <? 0x100))%Z.
Definition is_latin (c : Z) : bool := is_lower_latin c || is_upper_latin c.

Definition Latin1_from_str (s : string) : result Latin1 ElementError :=
  let length := String.length s in
  if (150 <? length)%nat then Err (TooLong length) else
  let non_latin := filter (λ c, ¬ is_latin c) (chars s) in
  match non_latin with
  | [] => Ok {| latin1_str := s |}
  | _ => Err (NonLatin1 non_latin)
  end.
Definition Latin1_from_json (v : Json) : option (result Latin1 FromJsonError) :=
  let* s := string_from_json v in parsing (Latin1_from_str s).
#[export] Instance Latin1_from : FromJson Latin1 := FromJson_new Latin1_from_json.
#[export] Instance Latin1_to_cbor : ToCbor Latin1 := λ l, Text (latin1_str l).

(** ** Dates *)

Record Date : Type := { date_year : Z; date_month : Z; date_day : Z }.
(** [Date::parse] at the format [[year]-[month]-[day]]. *)
Class DateParse := date_parse : string → option Date.

Record FullDate : Type := { full_date : Date }.
Definition FullDate_display (d : FullDate) : string :=
  decimal (date_year (full_date d)) +:+ "-" +:+ pad2 (decimal (date_month (full_date d))) +:+ "-" +:+
  pad2 (decimal (date_day (full_date d))).
Definition FullDate_from_str `{DateParse} (s : string) : result FullDate ElementError :=
  rmap (λ d, {| full_date := d |}) (ok_or BadDate (date_parse s)).
Definition FullDate_from_json `{DateParse} (v : Json) : option (result FullDate FromJsonError) :=
  let* s := string_from_json v in parsing (FullDate_from_str s).
#[export] Instance FullDate_from `{DateParse} : FromJson FullDate := FromJson_new FullDate_from_json.
#[export] Instance FullDate_to_cbor : ToCbor FullDate := λ d, Tag 1004 (Text (FullDate_display d)).

Record TDate : Type := { tdate_str : string }.
(** [to_offset] may panic, and the formatted date is an [unwrap]. *)
Definition TDate_from_json `{Rfc3339} (v : Json) : option (result TDate FromJsonError) :=
  let* date_str := string_from_json v in
  let* date := parsing (map_err (λ _, BadDateTime) (rfc3339_parse date_str)) in
  utc ← to_utc date;
  s ← rok (rfc3339_format (replace_millisecond_0 utc));
  ok {| tdate_str := s |}.
#[export] Instance TDate_from `{Rfc3339} : FromJson TDate := FromJson_new TDate_from_json.
#[export] Instance TDate_to_cbor : ToCbor TDate := λ t, Tag 0 (Text (tdate_str t)).

Inductive TDateOrFullDate : Type := IsTDate (t : TDate) | IsFullDate (f : FullDate).
Definition TDateOrFullDate_from_json `{Rfc3339, DateParse} (v : Json) : option (result TDateOrFullDate FromJsonError) :=
  td ← TDate_from_json v;
  match td with
  | Ok td => ok (IsTDate td)
  | Err _ =>
      fd ← FullDate_from_json v;
      match fd with
      | Ok fd => ok (IsFullDate fd)
      | Err _ => Some (Err (Parsing NoDateOrDateTime))
      end
  end.
#[export] Instance TDateOrFullDate_from `{Rfc3339, DateParse} : FromJson TDateOrFullDate := FromJson_new TDateOrFullDate_from_json.
#[export] Instance TDateOrFullDate_to_cbor : ToCbor TDateOrFullDate := λ t,
  match t with IsTDate t => to_cbor t | IsFullDate f => to_cbor f end.

(** ** Enumerations *)

Inductive Sex : Type := NotKnown | Male | Female | NotApplicable.
Definition Sex_into_u8 (s : Sex) : u8 :=
  match s with NotKnown => 0 | Male => 1 | Female => 2 | NotApplicable => 9 end.
Definition Sex_try_from (u : u32) : result Sex ElementError :=
  match u with
  | 0 => Ok NotKnown
  | 1 => Ok Male
  | 2 => Ok Female
  | 9 => Ok NotApplicable
  | _ => Err (UnrecognizedNumber u)
  end%Z.
Definition Sex_from_json (v : Json) : option (result Sex FromJsonError) :=
  let* u := u32_from_json v in parsing (Sex_try_from u).
#[export] Instance Sex_from : FromJson Sex := FromJson_new Sex_from_json.
#[export] Instance Sex_to_cbor : ToCbor Sex := λ s, Integer (Sex_into_u8 s).

Inductive EyeColour : Type :=
  | EyeBlack | EyeBlue | EyeBrown | EyeDichromatic | EyeGrey | EyeGreen | EyeHazel | EyeMaroon | EyePink | EyeUnknown.
Definition EyeColour_to_str (c : EyeColour) : string :=
  match c with
  | EyeBlack => "black" | EyeBlue => "blue" | EyeBrown => "brown" | EyeDichromatic => "dichromatic"
  | EyeGrey => "grey" | EyeGreen => "green" | EyeHazel => "hazel" | EyeMaroon => "maroon"
  | EyePink => "pink" | EyeUnknown => "unknown"
  end.
Definition EyeColour_arms : list (string * EyeColour) :=
  [("black", EyeBlack); ("blue", EyeBlue); ("brown", EyeBrown); ("dichromatic", EyeDichromatic); ("grey", EyeGrey);
   ("green", EyeGreen); ("hazel", EyeHazel); ("maroon", EyeMaroon); ("pink", EyePink); ("unknown", EyeUnknown)]%string.

Inductive HairColour : Type :=
  | HairBald | HairBlack | HairBlond | HairBrown | HairGrey | HairRed | HairAuburn | HairSandy | HairWhite | HairUnknown.
Definition HairColour_to_str (c : HairColour) : string :=
  match c with
  | HairBald => "bald" | HairBlack => "black" | HairBlond => "blond" | HairBrown => "brown" | HairGrey => "grey"
  | HairRed => "red" | HairAuburn => "auburn" | HairSandy => "sandy" | HairWhite => "white" | HairUnknown => "unknown"
  end.
Definition HairColour_arms : list (string * HairColour) :=
  [("bald", HairBald); ("black", HairBlack); ("blond", HairBlond); ("brown", HairBrown); ("grey", HairGrey);
   ("red", HairRed); ("auburn", HairAuburn); ("sandy", HairSandy); ("white", HairWhite); ("unknown", HairUnknown)]%string.

Section colours.
Context `{UnicodeCase}.

Definition EyeColour_from_str (s : string) : result EyeColour ElementError :=
  ok_or (UnrecognizedText s) (match_str EyeColour_arms (to_lowercase s)).
Definition EyeColour_from_json (v : Json) : option (result EyeColour FromJsonError) :=
  let* s := string_from_json v in parsing (EyeColour_from_str s).
#[export] Instance EyeColour_from : FromJson EyeColour := FromJson_new EyeColour_from_json.
#[export] Instance EyeColour_to_cbor : ToCbor EyeColour := λ c, Text (EyeColour_to_str c).

Definition HairColour_from_str (s : string) : result HairColour ElementError :=
  ok_or (UnrecognizedText s) (match_str HairColour_arms (to_lowercase s)).
Definition HairColour_from_json (v : Json) : option (result HairColour FromJsonError) :=
  let* s := string_from_json v in parsing (HairColour_from_str s).
#[export] Instance HairColour_from : FromJson HairColour := FromJson_new HairColour_from_json.
#[export] Instance HairColour_to_cbor : ToCbor HairColour := λ c, Text (HairColour_to_str c).
End colours.
