(* ===== verification/IsoNamespace.v ===== *)
(** * The mDL namespace ([src/definitions/namespaces/org_iso_18013_5_1])

    The dynamic elements, the driving privileges and the struct of the whole
    namespace, read from JSON and written to CBOR by the derived code. *)

From S2P Require Export Elements.

Declare Scope fields_scope.
Notation "c '|>' f" := (f c) (at level 50, left associativity) : fields_scope.
#[local] Open Scope fields_scope.

(** ** [age_over_NN] *)

(** Two digit characters, in their derived order. *)
Abbreviation Age := (Z * Z)%type.
Record AgeOver : Type := { age_over : btree Age bool }.

Definition to_age (s : string) : option Age :=
  match chars s with
  | first :: second :: rest =>
      if is_digit first then
        if is_digit second then
          match rest with [] => Some (first, second) | _ => None end
        else None
      else None
  | _ => None
  end.
Definition Age_try_from (u : u8) : result Age ElementError :=
  ok_or (AgeTooLarge u) (to_age (pad2 (decimal u))).

(** The keys that are kept, with their values read. *)
Definition age_entry (p : string * Json) : option (option (result (Age * bool) FromJsonError)) :=
  k ← Engagement.strip_prefix "age_over_" p.1; k ← to_age k;
  Some (let* v := bool_from_json p.2 in ok (k, v)).
Definition AgeOver_from_map (m : list (string * Json)) : option (result AgeOver FromJsonError) :=
  let* l := otry_map id (omap age_entry m) in ok {| age_over := collect l |}.
#[export] Instance AgeOver_from : FromJsonMap AgeOver := AgeOver_from_map.

Definition age_key (a : Age) : string := "age_over_" +:+ char_to_string a.1 +:+ char_to_string a.2.
Definition AgeOver_to_ns_map (a : AgeOver) : btree string Value :=
  collect ((λ p : Age * bool, (age_key p.1, Bool p.2)) <$> entries (age_over a)).
#[export] Instance AgeOver_to_ns : ToNamespaceMap AgeOver := AgeOver_to_ns_map.

(** ** [biometric_template_xx] *)

Record BiometricTemplate : Type := { biometric_template : btree string ByteStr }.

Section biometric.
Context `{Base64Standard}.

Definition biometric_entry (p : string * Json) : option (option (result (string * ByteStr) FromJsonError)) :=
  k ← Engagement.strip_prefix "biometric_template_" p.1;
  Some (let* v := bytestr_from_json p.2 in ok (k, v)).
Definition BiometricTemplate_from_map (m : list (string * Json)) : option (result BiometricTemplate FromJsonError) :=
  let* l := otry_map id (omap biometric_entry m) in ok {| biometric_template := collect l |}.
#[export] Instance BiometricTemplate_from : FromJsonMap BiometricTemplate := BiometricTemplate_from_map.
End biometric.

Definition biometric_key (k : string) : string := "biometric_template_" +:+ k.
Definition BiometricTemplate_to_ns_map (b : BiometricTemplate) : btree string Value :=
  collect ((λ p : string * ByteStr, (biometric_key p.1, to_cbor p.2)) <$> entries (biometric_template b)).
#[export] Instance BiometricTemplate_to_ns : ToNamespaceMap BiometricTemplate := BiometricTemplate_to_ns_map.

(** ** [issuing_jurisdiction] *)

Record IssuingJurisdiction : Type := { jurisdiction : string }.
Definition IssuingJurisdiction_new (issuing_jurisdiction : string) (issuing_country : Alpha2Codes.Alpha2) :
    result IssuingJurisdiction ElementError :=
  match Engagement.strip_prefix (Alpha2Codes.Alpha2_as_str issuing_country) issuing_jurisdiction with
  | None => Err CountryMismatch
  | Some _ => Ok {| jurisdiction := issuing_jurisdiction |}
  end.
Definition IssuingJurisdiction_from_map (map : list (string * Json)) : option (result IssuingJurisdiction FromJsonError) :=
  let* jurisdiction := required string_from_json (map_get "issuing_jurisdiction" map) in
  let* country := required Alpha2_from_json (map_get "issuing_country" map) in
  parsing (IssuingJurisdiction_new jurisdiction country).
#[export] Instance IssuingJurisdiction_from : FromJsonMap IssuingJurisdiction := IssuingJurisdiction_from_map.
#[export] Instance IssuingJurisdiction_to_cbor : ToCbor IssuingJurisdiction := λ i, Text (jurisdiction i).

(** ** [driving_privileges] *)

(** Variants of [VehicleCategoryCode], prefixed. *)
Inductive VehicleCategoryCode : Type :=
  | VA | VB | VC | VD | VBE | VCE | VDE | VAM | VA1 | VA2 | VB1 | VC1 | VD1 | VC1E | VD1E.
(** The derived [AsRefStr] and [EnumString]: the names of the variants. *)
Definition VehicleCategoryCode_as_ref (c : VehicleCategoryCode) : string :=
  match c with
  | VA => "A" | VB => "B" | VC => "C" | VD => "D" | VBE => "BE" | VCE => "CE" | VDE => "DE" | VAM => "AM"
  | VA1 => "A1" | VA2 => "A2" | VB1 => "B1" | VC1 => "C1" | VD1 => "D1" | VC1E => "C1E" | VD1E => "D1E"
  end.
Definition VehicleCategoryCode_arms : list (string * VehicleCategoryCode) :=
  (λ c, (VehicleCategoryCode_as_ref c, c)) <$>
    [VA; VB; VC; VD; VBE; VCE; VDE; VAM; VA1; VA2; VB1; VC1; VD1; VC1E; VD1E].
#[export] Instance VehicleCategoryCode_to_cbor : ToCbor VehicleCategoryCode := λ c, Text (VehicleCategoryCode_as_ref c).

Record Code : Type := { code : string; code_sign : option string; code_value : option string }.
Record Codes : Type := { codes_vec : NonEmptyVec Code }.
Record DrivingPrivilege : Type := {
  vehicle_category_code : VehicleCategoryCode;
  privilege_issue_date : option FullDate;
  privilege_expiry_date : option FullDate;
  privilege_codes : option Codes;
}.
Record DrivingPrivileges : Type := { privileges : list DrivingPrivilege }.

Definition Code_from_json : Json → option (result Code FromJsonError) :=
  named_fields (λ map, fields Build_Code |> field map "code" |> field map "sign" |> field map "value").
#[export] Instance Code_from : FromJson Code := FromJson_new Code_from_json.
Definition Codes_from_json : Json → option (result Codes FromJsonError) := unnamed_field Build_Codes.
#[export] Instance Codes_from : FromJson Codes := FromJson_new Codes_from_json.

Definition Code_to_ns_map (c : Code) : btree string Value :=
  named_to_ns_map [mandatory_field "code" (code c); optional_field "sign" (code_sign c);
                   optional_field "value" (code_value c)].
#[export] Instance Code_to_cbor : ToCbor Code := λ c, ns_map_to_cbor (Code_to_ns_map c).
#[export] Instance Codes_to_cbor : ToCbor Codes := λ c, Array (to_cbor <$> nev (codes_vec c)).

Definition DrivingPrivilege_to_ns_map (d : DrivingPrivilege) : btree string Value :=
  named_to_ns_map [mandatory_field "vehicle_category_code" (vehicle_category_code d);
                   optional_field "issue_date" (privilege_issue_date d);
                   optional_field "expiry_date" (privilege_expiry_date d);
                   optional_field "codes" (privilege_codes d)].
#[export] Instance DrivingPrivilege_to_cbor : ToCbor DrivingPrivilege := λ d, ns_map_to_cbor (DrivingPrivilege_to_ns_map d).
#[export] Instance DrivingPrivileges_to_cbor : ToCbor DrivingPrivileges := λ d, Array (to_cbor <$> privileges d).

Section privileges.
Context `{UnicodeCase, DateParse}.

Definition VehicleCategoryCode_from_json (v : Json) : option (result VehicleCategoryCode FromJsonError) :=
  let* s := string_from_json v in
  parsing (ok_or VariantNotFound (match_str VehicleCategoryCode_arms (to_uppercase s))).
#[export] Instance VehicleCategoryCode_from : FromJson VehicleCategoryCode := FromJson_new VehicleCategoryCode_from_json.

Definition DrivingPrivilege_from_json : Json → option (result DrivingPrivilege FromJsonError) :=
  named_fields (λ map, fields Build_DrivingPrivilege
    |> field map "vehicle_category_code" |> field map "issue_date" |> field map "expiry_date" |> field map "codes").
#[export] Instance DrivingPrivilege_from : FromJson DrivingPrivilege := FromJson_new DrivingPrivilege_from_json.
Definition DrivingPrivileges_from_json : Json → option (result DrivingPrivileges FromJsonError) :=
  unnamed_field Build_DrivingPrivileges.
#[export] Instance DrivingPrivileges_from : FromJson DrivingPrivileges := FromJson_new DrivingPrivileges_from_json.
End privileges.

(** ** The namespace *)

Record OrgIso1801351 : Type := {
  family_name : Latin1;
  given_name : Latin1;
  birth_date : FullDate;
  issue_date : TDateOrFullDate;
  expiry_date : TDateOrFullDate;
  issuing_country : Alpha2Codes.Alpha2;
  issuing_authority : Latin1;
  document_number : Latin1;
  portrait : ByteStr;
  driving_privileges : DrivingPrivileges;
  un_distinguishing_sign : UNSigns.UNDistinguishingSign;
  administrative_number : option Latin1;
  sex : option Sex;
  height : option u32;
  weight : option u32;
  eye_colour : option EyeColour;
  hair_colour : option HairColour;
  birth_place : option Latin1;
  resident_address : option Latin1;
  portrait_capture_date : option TDate;
  age_in_years : option u32;
  age_birth_year : option u32;
  age_over_xx : AgeOver;
  issuing_jurisdiction : option IssuingJurisdiction;
  nationality : option Alpha2Codes.Alpha2;
  resident_city : option Latin1;
  resident_state : option Latin1;
  resident_postal_code : option Latin1;
  resident_country : option Alpha2Codes.Alpha2;
  biometric_template_xx : BiometricTemplate;
  family_name_national_character : option string;
  given_name_national_character : option string;
  signature_usual_mark : option ByteStr;
}.

Section namespace.
Context `{UnicodeCase, DateParse, Rfc3339, Base64Standard}.

Definition OrgIso1801351_fields (map : list (string * Json)) : Fields OrgIso1801351 :=
  fields Build_OrgIso1801351
  |> field map "family_name" |> field map "given_name" |> field map "birth_date" |> field map "issue_date"
  |> field map "expiry_date" |> field map "issuing_country" |> field map "issuing_authority"
  |> field map "document_number" |> field map "portrait" |> field map "driving_privileges"
  |> field map "un_distinguishing_sign" |> field map "administrative_number" |> field map "sex"
  |> field map "height" |> field map "weight" |> field map "eye_colour" |> field map "hair_colour"
  |> field map "birth_place" |> field map "resident_address" |> field map "portrait_capture_date"
  |> field map "age_in_years" |> field map "age_birth_year" |> dynamic_field map "age_over_xx"
  |> dynamic_field map "issuing_jurisdiction" |> field map "nationality" |> field map "resident_city"
  |> field map "resident_state" |> field map "resident_postal_code" |> field map "resident_country"
  |> dynamic_field map "biometric_template_xx" |> field map "family_name_national_character"
  |> field map "given_name_national_character" |> field map "signature_usual_mark".
Definition OrgIso1801351_from_json : Json → option (result OrgIso1801351 FromJsonError) :=
  named_fields OrgIso1801351_fields.
#[export] Instance OrgIso1801351_from : FromJson OrgIso1801351 := FromJson_new OrgIso1801351_from_json.
End namespace.

Definition OrgIso1801351_conversions (ns : OrgIso1801351) : list Conversion := [
  mandatory_field "family_name" (family_name ns); mandatory_field "given_name" (given_name ns);
  mandatory_field "birth_date" (birth_date ns); mandatory_field "issue_date" (issue_date ns);
  mandatory_field "expiry_date" (expiry_date ns); mandatory_field "issuing_country" (issuing_country ns);
  mandatory_field "issuing_authority" (issuing_authority ns); mandatory_field "document_number" (document_number ns);
  mandatory_field "portrait" (portrait ns); mandatory_field "driving_privileges" (driving_privileges ns);
  mandatory_field "un_distinguishing_sign" (un_distinguishing_sign ns);
  optional_field "administrative_number" (administrative_number ns); optional_field "sex" (sex ns);
  optional_field "height" (height ns); optional_field "weight" (weight ns); optional_field "eye_colour" (eye_colour ns);
  optional_field "hair_colour" (hair_colour ns); optional_field "birth_place" (birth_place ns);
  optional_field "resident_address" (resident_address ns);
  optional_field "portrait_capture_date" (portrait_capture_date ns);
  optional_field "age_in_years" (age_in_years ns); optional_field "age_birth_year" (age_birth_year ns);
  many_field (age_over_xx ns); optional_field "issuing_jurisdiction" (issuing_jurisdiction ns);
  optional_field "nationality" (nationality ns); optional_field "resident_city" (resident_city ns);
  optional_field "resident_state" (resident_state ns); optional_field "resident_postal_code" (resident_postal_code ns);
  optional_field "resident_country" (resident_country ns); many_field (biometric_template_xx ns);
  optional_field "family_name_national_character" (family_name_national_character ns);
  optional_field "given_name_national_character" (given_name_national_character ns);
  optional_field "signature_usual_mark" (signature_usual_mark ns)].
Definition OrgIso1801351_to_ns_map (ns : OrgIso1801351) : btree string Value :=
  named_to_ns_map (OrgIso1801351_conversions ns).
#[export] Instance OrgIso1801351_to_ns : ToNamespaceMap OrgIso1801351 := OrgIso1801351_to_ns_map.
#[export] Instance OrgIso1801351_to_cbor : ToCbor OrgIso1801351 := λ ns, ns_map_to_cbor (OrgIso1801351_to_ns_map ns).
