(* ===== verification/AamvaNamespace.v ===== *)
(** * The AAMVA namespace ([src/definitions/namespaces/org_iso_18013_5_1_aamva])

    The elements of the AAMVA mDL guidelines and the struct of the whole
    namespace, read from JSON and written to CBOR by the derived code. *)

From S2P Require Export IsoNamespace.

#[local] Open Scope fields_scope.

(** ** Enumerations *)

Inductive NameSuffix : Type :=
  | Junior | Senior | First | FirstNumeral | Second | SecondNumeral | Third | ThirdNumeral | Fourth | FourthNumeral
  | Fifth | FifthNumeral | Sixth | SixthNumeral | Seventh | SeventhNumeral | Eighth | EighthNumeral
  | Ninth | NinthNumeral.
Definition NameSuffix_to_str (n : NameSuffix) : string :=
  match n with
  | Junior => "JR" | Senior => "SR" | First => "1ST" | FirstNumeral => "I" | Second => "2ND" | SecondNumeral => "II"
  | Third => "3RD" | ThirdNumeral => "III" | Fourth => "4TH" | FourthNumeral => "IV" | Fifth => "5TH"
  | FifthNumeral => "V" | Sixth => "6TH" | SixthNumeral => "VI" | Seventh => "7TH" | SeventhNumeral => "VII"
  | Eighth => "8TH" | EighthNumeral => "VIII" | Ninth => "9TH" | NinthNumeral => "IX"
  end.
Definition NameSuffix_arms : list (string * NameSuffix) :=
  [("JR", Junior); ("SR", Senior); ("1ST", First); ("I", FirstNumeral); ("2ND", Second); ("II", SecondNumeral);
   ("3RD", Third); ("III", ThirdNumeral); ("4TH", Fourth); ("IV", FourthNumeral); ("5TH", Fifth);
   ("V", FifthNumeral); ("6TH", Sixth); ("VI", SixthNumeral); ("7TH", Seventh); ("VII", SeventhNumeral);
   ("8TH", Eighth); ("VIII", EighthNumeral); ("9TH", Ninth); ("IX", NinthNumeral)]%string.
Definition NameSuffix_from_str (s : string) : result NameSuffix ElementError :=
  ok_or (UnrecognizedText s) (match_str NameSuffix_arms s).
Definition NameSuffix_from_json (v : Json) : option (result NameSuffix FromJsonError) :=
  let* s := string_from_json v in parsing (NameSuffix_from_str s).
#[export] Instance NameSuffix_from : FromJson NameSuffix := FromJson_new NameSuffix_from_json.
#[export] Instance NameSuffix_to_cbor : ToCbor NameSuffix := λ n, Text (NameSuffix_to_str n).

Inductive NameTruncation : Type := Truncated | NotTruncated | UnknownTruncation.
Definition NameTruncation_to_str (n : NameTruncation) : string :=
  match n with Truncated => "T" | NotTruncated => "N" | UnknownTruncation => "U" end.
Definition NameTruncation_from_str (s : string) : result NameTruncation ElementError :=
  ok_or (UnrecognizedText s) (match_str [("T", Truncated); ("N", NotTruncated); ("U", UnknownTruncation)]%string s).
Definition NameTruncation_from_json (v : Json) : option (result NameTruncation FromJsonError) :=
  let* s := string_from_json v in parsing (NameTruncation_from_str s).
#[export] Instance NameTruncation_from : FromJson NameTruncation := FromJson_new NameTruncation_from_json.
#[export] Instance NameTruncation_to_cbor : ToCbor NameTruncation := λ n, Text (NameTruncation_to_str n).

Inductive DHSCompliance : Type := DHS_F | DHS_N.
Definition DHSCompliance_to_str (d : DHSCompliance) : string := match d with DHS_F => "F" | DHS_N => "N" end.
Definition DHSCompliance_from_str (s : string) : result DHSCompliance ElementError :=
  ok_or (UnrecognizedText s) (match_str [("F", DHS_F); ("N", DHS_N)]%string s).
Definition DHSCompliance_from_json (v : Json) : option (result DHSCompliance FromJsonError) :=
  let* s := string_from_json v in parsing (DHSCompliance_from_str s).
#[export] Instance DHSCompliance_from : FromJson DHSCompliance := FromJson_new DHSCompliance_from_json.
#[export] Instance DHSCompliance_to_cbor : ToCbor DHSCompliance := λ d, Text (DHSCompliance_to_str d).

Inductive RaceAndEthnicity : Type := Race_AI | Race_AP | Race_BK | Race_H | Race_O | Race_U | Race_W.
Definition RaceAndEthnicity_to_str (r : RaceAndEthnicity) : string :=
  match r with
  | Race_AI => "AI" | Race_AP => "AP" | Race_BK => "BK" | Race_H => "H" | Race_O => "O" | Race_U => "U" | Race_W => "W"
  end.
Definition RaceAndEthnicity_from_str (s : string) : result RaceAndEthnicity ElementError :=
  ok_or (UnrecognizedText s) (match_str [("AI", Race_AI); ("AP", Race_AP); ("BK", Race_BK); ("H", Race_H);
    ("O", Race_O); ("U", Race_U); ("W", Race_W)]%string s).
Definition RaceAndEthnicity_from_json (v : Json) : option (result RaceAndEthnicity FromJsonError) :=
  let* s := string_from_json v in parsing (RaceAndEthnicity_from_str s).
#[export] Instance RaceAndEthnicity_from : FromJson RaceAndEthnicity := FromJson_new RaceAndEthnicity_from_json.
#[export] Instance RaceAndEthnicity_to_cbor : ToCbor RaceAndEthnicity := λ r, Text (RaceAndEthnicity_to_str r).

Inductive EDLIndicator : Type := DriversLicense | IdentificationCard.
Definition EDLIndicator_into_u8 (e : EDLIndicator) : u8 := match e with DriversLicense => 1 | IdentificationCard => 2 end.
Definition EDLIndicator_try_from (u : u32) : result EDLIndicator ElementError :=
  match u with 1 => Ok DriversLicense | 2 => Ok IdentificationCard | _ => Err (UnrecognizedNumber u) end%Z.
Definition EDLIndicator_from_json (v : Json) : option (result EDLIndicator FromJsonError) :=
  let* u := u32_from_json v in parsing (EDLIndicator_try_from u).
#[export] Instance EDLIndicator_from : FromJson EDLIndicator := FromJson_new EDLIndicator_from_json.
#[export] Instance EDLIndicator_to_cbor : ToCbor EDLIndicator := λ e, Integer (EDLIndicator_into_u8 e).

Inductive AamvaSex : Type := AamvaMale | AamvaFemale | AamvaNotApplicable.
Definition AamvaSex_into_u8 (s : AamvaSex) : u8 := match s with AamvaMale => 1 | AamvaFemale => 2 | AamvaNotApplicable => 9 end.
Definition AamvaSex_try_from (u : u32) : result AamvaSex ElementError :=
  match u with
  | 1 => Ok AamvaMale
  | 2 => Ok AamvaFemale
  | 9 => Ok AamvaNotApplicable
  | _ => Err (UnrecognizedNumber u)
  end%Z.
Definition AamvaSex_from_json (v : Json) : option (result AamvaSex FromJsonError) :=
  let* u := u32_from_json v in parsing (AamvaSex_try_from u).
#[export] Instance AamvaSex_from : FromJson AamvaSex := FromJson_new AamvaSex_from_json.
#[export] Instance AamvaSex_to_cbor : ToCbor AamvaSex := λ s, Integer (AamvaSex_into_u8 s).

Inductive WeightRange : Type := Zero | One | Two | Three | Four | Five | Six | Seven | Eight | Nine.
Definition WeightRange_into_u8 (w : WeightRange) : u8 :=
  match w with
  | Zero => 0 | One => 1 | Two => 2 | Three => 3 | Four => 4 | Five => 5 | Six => 6 | Seven => 7 | Eight => 8 | Nine => 9
  end.
Definition WeightRange_try_from (u : u32) : result WeightRange ElementError :=
  match u with
  | 0 => Ok Zero | 1 => Ok One | 2 => Ok Two | 3 => Ok Three | 4 => Ok Four | 5 => Ok Five | 6 => Ok Six
  | 7 => Ok Seven | 8 => Ok Eight | 9 => Ok Nine
  | _ => Err (UnrecognizedNumber u)
  end%Z.
Definition WeightRange_from_json (v : Json) : option (result WeightRange FromJsonError) :=
  let* u := u32_from_json v in parsing (WeightRange_try_from u).
#[export] Instance WeightRange_from : FromJson WeightRange := FromJson_new WeightRange_from_json.
#[export] Instance WeightRange_to_cbor : ToCbor WeightRange := λ w, Integer (WeightRange_into_u8 w).

Inductive Present : Type := IsPresent.
Definition Present_from_json (v : Json) : option (result Present FromJsonError) :=
  let* u := u32_from_json v in
  match u with 1%Z => ok IsPresent | n => Some (Err (Parsing (UnrecognizedNumber n))) end.
#[export] Instance Present_from : FromJson Present := FromJson_new Present_from_json.
#[export] Instance Present_to_cbor : ToCbor Present := λ _, Integer 1.

(** ** [resident_county] *)

Record CountyCode : Type := { county_digits : Z * Z * Z }.

(** One [match chars.next()]: a digit, or the error of the others. *)
Definition next_digit (l : list Z) : result (Z * list Z) CountyCodeError :=
  match l with
  | [] => Err CountyCodeTooShort
  | c :: l' => if is_digit c then Ok (c, l') else Err (InvalidCharacter c)
  end.
Definition to_treble_digits (s : string) : result (Z * Z * Z) CountyCodeError :=
  let? (first, l) := next_digit (chars s) in
  let? (second, l) := next_digit l in
  let? (third, l) := next_digit l in
  match l with [] => Ok (first, second, third) | _ => Err CountyCodeTooLong end.
Definition CountyCode_new (county_code : string) : result CountyCode CountyCodeError :=
  rmap Build_CountyCode (to_treble_digits county_code).
Definition CountyCode_as_str (c : CountyCode) : string :=
  let '(a, b, c) := county_digits c in char_to_string a +:+ char_to_string b +:+ char_to_string c.
Definition CountyCode_from_json (v : Json) : option (result CountyCode FromJsonError) :=
  let* s := string_from_json v in parsing (map_err BadCountyCode (CountyCode_new s)).
#[export] Instance CountyCode_from : FromJson CountyCode := FromJson_new CountyCode_from_json.
#[export] Instance CountyCode_to_cbor : ToCbor CountyCode := λ c, Text (CountyCode_as_str c).

(** ** [domestic_driving_privileges] *)

Record DomesticVehicleClass : Type := {
  domestic_vehicle_class_code : string;
  domestic_vehicle_class_description : string;
  class_issue_date : option FullDate;
  class_expiry_date : option FullDate;
}.
Record DomesticVehicleRestriction : Type := {
  domestic_vehicle_restriction_code : option string;
  domestic_vehicle_restriction_description : string;
}.
Record DomesticVehicleRestrictions : Type := { restrictions : NonEmptyVec DomesticVehicleRestriction }.
Record DomesticVehicleEndorsement : Type := {
  domestic_vehicle_endorsement_code : option string;
  domestic_vehicle_endorsement_description : string;
}.
Record DomesticVehicleEndorsements : Type := { endorsements : NonEmptyVec DomesticVehicleEndorsement }.
Record DomesticDrivingPrivilege : Type := {
  domestic_vehicle_class : option DomesticVehicleClass;
  domestic_vehicle_restrictions : option DomesticVehicleRestrictions;
  domestic_vehicle_endorsements : option DomesticVehicleEndorsements;
}.
Record DomesticDrivingPrivileges : Type := { domestic_privileges : list DomesticDrivingPrivilege }.

Definition DomesticVehicleClass_to_ns_map (c : DomesticVehicleClass) : btree string Value :=
  named_to_ns_map [mandatory_field "domestic_vehicle_class_code" (domestic_vehicle_class_code c);
                   mandatory_field "domestic_vehicle_class_description" (domestic_vehicle_class_description c);
                   optional_field "issue_date" (class_issue_date c); optional_field "expiry_date" (class_expiry_date c)].
#[export] Instance DomesticVehicleClass_to_cbor : ToCbor DomesticVehicleClass :=
  λ c, ns_map_to_cbor (DomesticVehicleClass_to_ns_map c).

Definition DomesticVehicleRestriction_from_json : Json → option (result DomesticVehicleRestriction FromJsonError) :=
  named_fields (λ map, fields Build_DomesticVehicleRestriction
    |> field map "domestic_vehicle_restriction_code" |> field map "domestic_vehicle_restriction_description").
#[export] Instance DomesticVehicleRestriction_from : FromJson DomesticVehicleRestriction :=
  FromJson_new DomesticVehicleRestriction_from_json.
Definition DomesticVehicleRestriction_to_ns_map (r : DomesticVehicleRestriction) : btree string Value :=
  named_to_ns_map [optional_field "domestic_vehicle_restriction_code" (domestic_vehicle_restriction_code r);
                   mandatory_field "domestic_vehicle_restriction_description" (domestic_vehicle_restriction_description r)].
#[export] Instance DomesticVehicleRestriction_to_cbor : ToCbor DomesticVehicleRestriction :=
  λ r, ns_map_to_cbor (DomesticVehicleRestriction_to_ns_map r).
Definition DomesticVehicleRestrictions_from_json : Json → option (result DomesticVehicleRestrictions FromJsonError) :=
  unnamed_field Build_DomesticVehicleRestrictions.
#[export] Instance DomesticVehicleRestrictions_from : FromJson DomesticVehicleRestrictions :=
  FromJson_new DomesticVehicleRestrictions_from_json.
#[export] Instance DomesticVehicleRestrictions_to_cbor : ToCbor DomesticVehicleRestrictions :=
  λ r, Array (to_cbor <$> nev (restrictions r)).

Definition DomesticVehicleEndorsement_from_json : Json → option (result DomesticVehicleEndorsement FromJsonError) :=
  named_fields (λ map, fields Build_DomesticVehicleEndorsement
    |> field map "domestic_vehicle_endorsement_code" |> field map "domestic_vehicle_endorsement_description").
#[export] Instance DomesticVehicleEndorsement_from : FromJson DomesticVehicleEndorsement :=
  FromJson_new DomesticVehicleEndorsement_from_json.
Definition DomesticVehicleEndorsement_to_ns_map (r : DomesticVehicleEndorsement) : btree string Value :=
  named_to_ns_map [optional_field "domestic_vehicle_endorsement_code" (domestic_vehicle_endorsement_code r);
                   mandatory_field "domestic_vehicle_endorsement_description" (domestic_vehicle_endorsement_description r)].
#[export] Instance DomesticVehicleEndorsement_to_cbor : ToCbor DomesticVehicleEndorsement :=
  λ r, ns_map_to_cbor (DomesticVehicleEndorsement_to_ns_map r).
Definition DomesticVehicleEndorsements_from_json : Json → option (result DomesticVehicleEndorsements FromJsonError) :=
  unnamed_field Build_DomesticVehicleEndorsements.
#[export] Instance DomesticVehicleEndorsements_from : FromJson DomesticVehicleEndorsements :=
  FromJson_new DomesticVehicleEndorsements_from_json.
#[export] Instance DomesticVehicleEndorsements_to_cbor : ToCbor DomesticVehicleEndorsements :=
  λ r, Array (to_cbor <$> nev (endorsements r)).

Definition DomesticDrivingPrivilege_to_ns_map (d : DomesticDrivingPrivilege) : btree string Value :=
  named_to_ns_map [optional_field "domestic_vehicle_class" (domestic_vehicle_class d);
                   optional_field "domestic_vehicle_restrictions" (domestic_vehicle_restrictions d);
                   optional_field "domestic_vehicle_endorsements" (domestic_vehicle_endorsements d)].
#[export] Instance DomesticDrivingPrivilege_to_cbor : ToCbor DomesticDrivingPrivilege :=
  λ d, ns_map_to_cbor (DomesticDrivingPrivilege_to_ns_map d).
#[export] Instance DomesticDrivingPrivileges_to_cbor : ToCbor DomesticDrivingPrivileges :=
  λ d, Array (to_cbor <$> domestic_privileges d).

(** ** The namespace *)

Record OrgIso1801351Aamva : Type := {
  domestic_driving_privileges : DomesticDrivingPrivileges;
  name_suffix : option NameSuffix;
  organ_donor : option Present;
  veteran : option Present;
  family_name_truncation : NameTruncation;
  given_name_truncation : NameTruncation;
  aka_family_name_v2 : option Latin1;
  aka_given_name_v2 : option Latin1;
  aka_suffix : option NameSuffix;
  weight_range : option WeightRange;
  race_ethnicity : option RaceAndEthnicity;
  edl_credential : option EDLIndicator;
  aamva_sex : AamvaSex;
  dhs_compliance : DHSCompliance;
  resident_county : option CountyCode;
  hazmat_endorsement_expiration_date : option FullDate;
  cdl_indicator : option Present;
  dhs_compliance_text : option string;
  dhs_temporary_lawful_status : option Present;
}.

Section namespace.
Context `{DateParse}.

Definition DomesticVehicleClass_from_json : Json → option (result DomesticVehicleClass FromJsonError) :=
  named_fields (λ map, fields Build_DomesticVehicleClass
    |> field map "domestic_vehicle_class_code" |> field map "domestic_vehicle_class_description"
    |> field map "issue_date" |> field map "expiry_date").
#[export] Instance DomesticVehicleClass_from : FromJson DomesticVehicleClass := FromJson_new DomesticVehicleClass_from_json.
Definition DomesticDrivingPrivilege_from_json : Json → option (result DomesticDrivingPrivilege FromJsonError) :=
  named_fields (λ map, fields Build_DomesticDrivingPrivilege
    |> field map "domestic_vehicle_class" |> field map "domestic_vehicle_restrictions"
    |> field map "domestic_vehicle_endorsements").
#[export] Instance DomesticDrivingPrivilege_from : FromJson DomesticDrivingPrivilege :=
  FromJson_new DomesticDrivingPrivilege_from_json.
Definition DomesticDrivingPrivileges_from_json : Json → option (result DomesticDrivingPrivileges FromJsonError) :=
  unnamed_field Build_DomesticDrivingPrivileges.
#[export] Instance DomesticDrivingPrivileges_from : FromJson DomesticDrivingPrivileges :=
  FromJson_new DomesticDrivingPrivileges_from_json.

Definition OrgIso1801351Aamva_fields (map : list (string * Json)) : Fields OrgIso1801351Aamva :=
  fields Build_OrgIso1801351Aamva
  |> field map "domestic_driving_privileges" |> field map "name_suffix" |> field map "organ_donor"
  |> field map "veteran" |> field map "family_name_truncation" |> field map "given_name_truncation"
  |> field map "aka_family_name.v2" |> field map "aka_given_name.v2" |> field map "aka_suffix"
  |> field map "weight_range" |> field map "race_ethnicity" |> field map "EDL_credential" |> field map "sex"
  |> field map "DHS_compliance" |> field map "resident_county" |> field map "hazmat_endorsement_expiration_date"
  |> field map "CDL_indicator" |> field map "DHS_compliance_text" |> field map "DHS_temporary_lawful_status".
Definition OrgIso1801351Aamva_from_json : Json → option (result OrgIso1801351Aamva FromJsonError) :=
  named_fields OrgIso1801351Aamva_fields.
#[export] Instance OrgIso1801351Aamva_from : FromJson OrgIso1801351Aamva := FromJson_new OrgIso1801351Aamva_from_json.
End namespace.

Definition OrgIso1801351Aamva_conversions (ns : OrgIso1801351Aamva) : list Conversion := [
  mandatory_field "domestic_driving_privileges" (domestic_driving_privileges ns);
  optional_field "name_suffix" (name_suffix ns); optional_field "organ_donor" (organ_donor ns);
  optional_field "veteran" (veteran ns); mandatory_field "family_name_truncation" (family_name_truncation ns);
  mandatory_field "given_name_truncation" (given_name_truncation ns);
  optional_field "aka_family_name.v2" (aka_family_name_v2 ns); optional_field "aka_given_name.v2" (aka_given_name_v2 ns);
  optional_field "aka_suffix" (aka_suffix ns); optional_field "weight_range" (weight_range ns);
  optional_field "race_ethnicity" (race_ethnicity ns); optional_field "EDL_credential" (edl_credential ns);
  mandatory_field "sex" (aamva_sex ns); mandatory_field "DHS_compliance" (dhs_compliance ns);
  optional_field "resident_county" (resident_county ns);
  optional_field "hazmat_endorsement_expiration_date" (hazmat_endorsement_expiration_date ns);
  optional_field "CDL_indicator" (cdl_indicator ns); optional_field "DHS_compliance_text" (dhs_compliance_text ns);
  optional_field "DHS_temporary_lawful_status" (dhs_temporary_lawful_status ns)].
Definition OrgIso1801351Aamva_to_ns_map (ns : OrgIso1801351Aamva) : btree string Value :=
  named_to_ns_map (OrgIso1801351Aamva_conversions ns).
#[export] Instance OrgIso1801351Aamva_to_ns : ToNamespaceMap OrgIso1801351Aamva := OrgIso1801351Aamva_to_ns_map.
#[export] Instance OrgIso1801351Aamva_to_cbor : ToCbor OrgIso1801351Aamva := λ ns, ns_map_to_cbor (OrgIso1801351Aamva_to_ns_map ns).
