(* ===== verification/NamespaceProps.v ===== *)
(** * Properties of the namespaces

    What a namespace read from JSON says in CBOR, element by element. *)

From S2P Require Export AamvaNamespace.

(** ** Characters *)

Lemma scalar_ge least c : (0x80 ≤ least ≤ 0xfffd)%Z → (0x80 ≤ scalar least c)%Z.
Proof. unfold scalar. destruct (Z.ltb_spec c least); lia. Qed.
Lemma scalar_ge_4 c : (0x80 ≤ scalar 0x10000 c)%Z.
Proof. unfold scalar. destruct (Z.ltb_spec c 0x10000); lia. Qed.

(** An ASCII character is its byte. *)
Lemma utf8_chars_ascii l c cs :
  utf8_chars l = c :: cs → (c < 0x80)%Z → ∃ l', l = c :: l' ∧ utf8_chars l' = cs.
Proof.
  intros Hl Hc. destruct l as [|b0 l0]; [done|]. cbn [utf8_chars] in Hl.
  destruct (Z.ltb_spec b0 0x80); [injection Hl as <- <-; by exists l0|]. exfalso.
  destruct l0 as [|b1 l1]; [injection Hl as <- _; lia|].
  destruct (b0 <? 0xe0)%Z. { injection Hl as <- _. pose proof (scalar_ge 0x80 (b0 mod 32 * 64 + b1 mod 64)). lia. }
  destruct l1 as [|b2 l2]; [injection Hl as <- _; lia|].
  destruct (b0 <? 0xf0)%Z.
  { injection Hl as <- _. pose proof (scalar_ge 0x800 (b0 mod 16 * 4096 + b1 mod 64 * 64 + b2 mod 64)). lia. }
  destruct l2 as [|b3 l3]; [injection Hl as <- _; lia|]. injection Hl as <- _.
  pose proof (scalar_ge_4 (b0 mod 8 * 262144 + b1 mod 64 * 4096 + b2 mod 64 * 64 + b3 mod 64)). lia.
Qed.

Lemma encode_string_bytes s : Forall is_byte (encode_string s).
Proof.
  unfold encode_string. apply Forall_fmap, Forall_forall. intros a _. cbn. unfold is_byte.
  pose proof (Ascii.N_ascii_bounded a). lia.
Qed.

Lemma utf8_chars_nil l : utf8_chars l = [] → l = [].
Proof.
  destruct l as [|b0 l0]; [done|]. cbn [utf8_chars]. destruct (b0 <? 0x80)%Z; [done|].
  destruct l0 as [|b1 l1]; [done|]. destruct (b0 <? 0xe0)%Z; [done|].
  destruct l1 as [|b2 l2]; [done|]. destruct (b0 <? 0xf0)%Z; [done|]. by destruct l2.
Qed.

Lemma is_digit_bound c : is_digit c = true → (48 ≤ c ≤ 57)%Z.
Proof. unfold is_digit. intros. bool_to_prop. lia. Qed.

Lemma char_to_string_digit c : is_digit c = true → char_to_string c = decode_string [c].
Proof.
  intros Hc%is_digit_bound. unfold char_to_string, utf8_char.
  destruct (Z.ltb_spec c 0x80); [done|lia].
Qed.

Lemma decode_string_cons b l : decode_string (b :: l) = (decode_string [b] +:+ decode_string l)%string.
Proof. done. Qed.

(** Text of digits is the digits. *)
Lemma digit_text s c cs :
  chars s = c :: cs → is_digit c = true → ∃ s', s = (char_to_string c +:+ s')%string ∧ chars s' = cs.
Proof.
  unfold chars. intros Hs Hc. rewrite char_to_string_digit by done. apply is_digit_bound in Hc.
  destruct (utf8_chars_ascii _ _ _ Hs) as (l & Hl & Hcs); [lia|].
  exists (decode_string l). split.
  - by rewrite <-decode_string_cons, <-Hl, decode_encode_string.
  - rewrite encode_decode_string; [done|]. pose proof (encode_string_bytes s) as Hb. rewrite Hl in Hb.
    by apply Forall_cons in Hb as [_ Hb].
Qed.

Lemma chars_nil s : chars s = [] → s = EmptyString.
Proof. unfold chars. intros Hs%utf8_chars_nil. by rewrite <-(decode_encode_string s), Hs. Qed.

(** ** JSON objects *)

Lemma map_get_In m k j : NoDup m.*1 → map_get k m = Some j ↔ (k, j) ∈ m.
Proof.
  intros Hnd. unfold map_get. split.
  - destruct (list_find _ _) as [[i [k' j']]|] eqn:Hf; [|done]. intros [= <-].
    apply list_find_Some in Hf as (Hi & Hk & _). cbn [fst] in Hk. subst k'. by eapply list_elem_of_lookup_2.
  - intros Hin. destruct (list_find_elem_of (λ p : string * Json, p.1 = k) _ _ Hin eq_refl) as [[i [k' j']] Hf].
    rewrite Hf. cbn. apply list_find_Some in Hf as (Hi & Hk & _). cbn [fst] in Hk. subst k'.
    apply list_elem_of_lookup_2 in Hi. f_equal.
    apply list_elem_of_lookup in Hin as [i1 H1]. apply list_elem_of_lookup in Hi as [i2 H2].
    assert (i1 = i2) as ->; [|congruence]. eapply NoDup_lookup; [exact Hnd|..]; rewrite list_lookup_fmap.
    + by rewrite H1.
    + by rewrite H2.
Qed.

(** What a reader makes of a value, as CBOR. *)
Definition element (T : Type) `{FromJson T, ToCbor T} (j : Json) : option Value :=
  r ← from_json (T := T) j; x ← rok r; Some (to_cbor x).

(** Names with a prefix, such as [age_over_NN]: whatever [parse] accepts is kept
    under the name it had, with the CBOR of its value. *)
Section dynamic.
Context {K V : Type} `{OrdLaws K, EqDecision K}.
Context (parse : string → option K) (print : K → string) (read : Json → option (result V FromJsonError)) (write : V → Value).

Definition dynamic_entry (p : string * Json) : option (option (result (K * V) FromJsonError)) :=
  k ← parse p.1; Some (let* v := read p.2 in ok (k, v)).
Definition dynamic_element (m : list (string * Json)) (k : string) : option Value :=
  _ ← parse k; j ← map_get k m; r ← read j; v ← rok r; Some (write v).

Context (Hprint : ∀ s k, parse s = Some k → print k = s).

Lemma dynamic_entries m l :
  otry_map id (omap dynamic_entry m) = Some (Ok l) →
  ∀ k v, (k, v) ∈ l ↔ ∃ s j, (s, j) ∈ m ∧ parse s = Some k ∧ read j = Some (Ok v).
Proof.
  intros Hl%otry_map_Ok k v. split.
  - intros [i Hi]%list_elem_of_lookup. destruct (Forall2_lookup_r _ _ _ _ _ Hl Hi) as (x & Hx & Hid). unfold id in Hid.
    apply list_elem_of_lookup_2, list_elem_of_omap in Hx as ([s j] & Hin & He). unfold dynamic_entry in He.
    cbn [fst snd] in He. destruct (parse s) as [k'|] eqn:Hs; [|done]. injection He as He. rewrite Hid in He.
    apply obind_Ok in He as (v' & Hv & [= <- <-]). by exists s, j.
  - intros (s & j & Hin & Hs & Hv).
    assert (ok (k, v) ∈ omap dynamic_entry m) as Hx.
    { apply list_elem_of_omap. exists (s, j). split; [done|]. unfold dynamic_entry. cbn [fst snd]. by rewrite Hs, Hv. }
    apply list_elem_of_lookup in Hx as [i Hi]. destruct (Forall2_lookup_l _ _ _ _ _ Hl Hi) as (y & Hy & [= ->]).
    by eapply list_elem_of_lookup_2.
Qed.

Lemma dynamic_keys m l :
  NoDup m.*1 → otry_map id (omap dynamic_entry m) = Some (Ok l) → NoDup l.*1.
Proof.
  intros Hnd. revert l. induction m as [|[s j] m IH]; intros l.
  - intros [= <-]. constructor.
  - rewrite fmap_cons in Hnd. apply NoDup_cons in Hnd as [Hs Hnd]. cbn [omap list_omap].
    destruct (dynamic_entry (s, j)) as [e|] eqn:He; [|by apply IH].
    cbn [otry_map]. intros ([k v] & Hk & (l' & Hl' & [= <-])%obind_Ok)%obind_Ok.
    unfold id in Hk. subst e. unfold dynamic_entry in He. cbn [fst snd] in He.
    destruct (parse s) as [k'|] eqn:Hps; [|done]. injection He as He. apply obind_Ok in He as (v' & _ & [= -> ->]).
    rewrite fmap_cons. cbn [fst]. apply NoDup_cons. split; [|by apply IH].
    intros ([k2 v2] & -> & Hin)%list_elem_of_fmap.
    apply (dynamic_entries m l' Hl') in Hin as (s2 & j2 & Hin & Hs2 & _). cbn [fst] in *.
    apply Hs. apply list_elem_of_fmap. exists (s2, j2). split; [|done]. cbn [fst].
    apply Hprint in Hps. apply Hprint in Hs2. congruence.
Qed.

Lemma dynamic_lookup m l k :
  NoDup m.*1 → otry_map id (omap dynamic_entry m) = Some (Ok l) →
  collect ((λ p : K * V, (print p.1, write p.2)) <$> entries (collect l)) !! k = dynamic_element m k.
Proof.
  intros Hnd Hl. pose proof (dynamic_keys m l Hnd Hl) as Hkeys. apply option_eq. intros w.
  assert (∀ a v, (a, v) ∈ entries (collect l) ↔ (a, v) ∈ l) as Hent.
  { intros a v. rewrite entries_lookup. by apply collect_lookup. }
  assert (∀ a, a ∈ (entries (collect l)).*1 → ∃ s, parse s = Some a) as Hparsed.
  { intros a ([a' v] & -> & Hin)%list_elem_of_fmap. apply Hent, (dynamic_entries m l Hl) in Hin as (s & _ & _ & Hs & _). by exists s. }
  rewrite collect_lookup.
  - unfold dynamic_element. rewrite list_elem_of_fmap. split.
    + intros ([a v] & [= -> ->] & Hin). apply Hent, (dynamic_entries m l Hl) in Hin as (s & j & Hin & Hs & Hv).
      cbn [fst snd]. rewrite (Hprint s a Hs), Hs. cbn [mbind option_bind].
      apply map_get_In in Hin as ->; [|done]. cbn [mbind option_bind]. by rewrite Hv.
    + destruct (parse k) as [a|] eqn:Hk; cbn [mbind option_bind]; [|done].
      destruct (map_get k m) as [j|] eqn:Hj; cbn [mbind option_bind]; [|done].
      destruct (read j) as [[v|e]|] eqn:Hv; cbn [mbind option_bind rok]; [|done..]. intros [= <-].
      apply map_get_In in Hj; [|done]. exists (a, v). split; [by cbn [fst snd]; rewrite (Hprint _ _ Hk)|].
      apply Hent, (dynamic_entries m l Hl). by exists k, j.
  - assert (((λ p : K * V, (print p.1, write p.2)) <$> entries (collect l)).*1 = print <$> (entries (collect l)).*1) as ->
      by by rewrite <-!list_fmap_compose.
    apply NoDup_fmap_2_strong; [|apply entries_NoDup].
    intros a b Ha Hb Hab. apply Hparsed in Ha as [s Hs]. apply Hparsed in Hb as [t Ht].
    pose proof (Hprint _ _ Hs). pose proof (Hprint _ _ Ht). congruence.
Qed.
End dynamic.

(** ** The entries of a namespace *)

Lemma strip_prefix_Some p s r : Engagement.strip_prefix p s = Some r → s = (p +:+ r)%string.
Proof.
  revert s. induction p as [|a p IH]; intros s; [destruct s; by intros [= <-]|].
  destruct s as [|b s]; [done|]. cbn [Engagement.strip_prefix].
  destruct (Ascii.eqb_spec a b) as [->|]; [|done]. intros Hr. apply IH in Hr as ->. done.
Qed.

Lemma string_append_nil s : (s +:+ "")%string = s.
Proof. induction s as [|a s IH]; [done|]. change ((String a s +:+ "")%string) with (String a (s +:+ "")). by rewrite IH. Qed.

Definition age_parse (k : string) : option Age := s ← Engagement.strip_prefix "age_over_" k; to_age s.
Lemma age_parse_key k a : age_parse k = Some a → age_key a = k.
Proof.
  unfold age_parse. destruct (Engagement.strip_prefix _ k) as [s|] eqn:Hk; cbn [mbind option_bind]; [|done].
  apply strip_prefix_Some in Hk as ->. unfold to_age. destruct (chars s) as [|c1 [|c2 cs]] eqn:Hs; [done..|].
  destruct (is_digit c1) eqn:H1; [|done]. destruct (is_digit c2) eqn:H2; [|done]. destruct cs; [|done].
  intros [= <-]. destruct (digit_text s c1 [c2] Hs H1) as (s1 & -> & Hs1).
  destruct (digit_text s1 c2 [] Hs1 H2) as (s2 & -> & Hs2). apply chars_nil in Hs2 as ->. unfold age_key. cbn [fst snd].
  by rewrite string_append_nil.
Qed.

(** The value under [age_over_NN] and [biometric_template_xx]. *)
Definition age_element (m : list (string * Json)) (k : string) : option Value :=
  _ ← age_parse k; j ← map_get k m; element bool j.
Definition biometric_element `{Base64Standard} (m : list (string * Json)) (k : string) : option Value :=
  _ ← Engagement.strip_prefix "biometric_template_" k; j ← map_get k m; element ByteStr j.

Lemma age_lookup m a k :
  NoDup m.*1 → AgeOver_from_map m = Some (Ok a) → AgeOver_to_ns_map a !! k = age_element m k.
Proof.
  intros Hnd (l & Hl & [= <-])%obind_Ok. unfold AgeOver_to_ns_map. cbn [age_over].
  assert (omap (dynamic_entry age_parse bool_from_json) m = omap age_entry m) as Ho.
  { clear. induction m as [|p m IH]; [done|]. cbn [omap list_omap]. rewrite IH.
    unfold dynamic_entry, age_entry, age_parse. by destruct (Engagement.strip_prefix _ _). }
  rewrite <-Ho in Hl. exact (dynamic_lookup age_parse age_key bool_from_json Bool age_parse_key m l k Hnd Hl).
Qed.
Lemma biometric_lookup `{Base64Standard} m b k :
  NoDup m.*1 → BiometricTemplate_from_map m = Some (Ok b) → BiometricTemplate_to_ns_map b !! k = biometric_element m k.
Proof.
  intros Hnd (l & Hl & [= <-])%obind_Ok. unfold BiometricTemplate_to_ns_map. cbn [biometric_template].
  assert (∀ s r, Engagement.strip_prefix "biometric_template_" s = Some r → biometric_key r = s) as Hp.
  { intros s r ->%strip_prefix_Some. done. }
  exact (dynamic_lookup _ _ bytestr_from_json to_cbor Hp m l k Hnd Hl).
Qed.

(** Later insertions replace earlier ones. *)
Lemma collect_app_lookup {V} (l1 l2 : list (string * V)) k :
  collect (l1 ++ l2) !! k = match collect l2 !! k with Some v => Some v | None => collect l1 !! k end.
Proof.
  induction l2 as [|[k' v] l2 IH] using rev_ind; [by rewrite app_nil_r|].
  rewrite app_assoc, !collect_snoc. destruct (decide (k = k')) as [->|Hne].
  - by rewrite !lookup_insert_eq.
  - by rewrite !lookup_insert_ne.
Qed.

Fixpoint conversions_lookup (cs : list Conversion) (k : string) : option Value :=
  match cs with
  | [] => None
  | c :: cs' => match conversions_lookup cs' k with Some v => Some v | None => collect c !! k end
  end.
Lemma named_lookup cs k : named_to_ns_map cs !! k = conversions_lookup cs k.
Proof.
  unfold named_to_ns_map. induction cs as [|c cs IH]; [done|]. cbn [concat conversions_lookup].
  by rewrite collect_app_lookup, <-IH.
Qed.
Lemma mandatory_lookup {A} `{ToCbor A} name (x : A) k :
  collect (mandatory_field name x) !! k = if String.eqb k name then Some (to_cbor x) else None.
Proof.
  unfold mandatory_field. change [(name, to_cbor x)] with ([] ++ [(name, to_cbor x)]). rewrite collect_snoc.
  destruct (String.eqb_spec k name) as [->|Hne]; [by rewrite lookup_insert_eq|by rewrite lookup_insert_ne].
Qed.
Lemma optional_lookup {A} `{ToCbor A} name (o : option A) k :
  collect (optional_field name o) !! k = if String.eqb k name then to_cbor <$> o else None.
Proof.
  destruct o as [x|]; [apply mandatory_lookup|]. by destruct (String.eqb k name).
Qed.
Lemma many_lookup {A} `{ToNamespaceMap A} (x : A) k : collect (many_field x) !! k = to_ns_map x !! k.
Proof. unfold many_field. by rewrite collect_entries. Qed.

(** Reading a field gives the element. *)
Class NullFree (T : Type) `{FromJson T} : Prop := null_free : ∀ x, from_json (T := T) JNull ≠ Some (Ok x).

Lemma required_element {T} (from : Json → option (result T FromJsonError)) `{ToCbor T} o x :
  required from o = Some (Ok x) → (j ← o; element T (H := FromJson_new from) j) = Some (to_cbor x).
Proof. destruct o as [j|]; [|done]. cbn [required mbind option_bind]. unfold element. cbn [from_json FromJson_new]. by intros ->. Qed.
Lemma optional_element {T} `{NullFree T, ToCbor T} o x :
  option_from_json_opt (T := T) o = Some (Ok x) → (j ← o; element T j) = to_cbor <$> x.
Proof.
  unfold element. destruct o as [j|]; cbn [option_from_json_opt mbind option_bind]; [|by intros [= <-]].
  assert ((let* t := from_json (T := T) j in ok (Some t)) = Some (Ok x) →
    (r ← from_json (T := T) j; x ← rok r; Some (to_cbor x)) = to_cbor <$> x) as Hread.
  { intros (t & Ht & [= <-])%obind_Ok. by rewrite Ht. }
  destruct j; try exact Hread. intros [= <-].
  destruct (from_json (T := T) JNull) as [[t|]|] eqn:Ht; [|done..]. by apply null_free in Ht.
Qed.

#[export] Instance null_free_string : NullFree string. Proof. by intros ?. Qed.
#[export] Instance null_free_u32 : NullFree Z. Proof. by intros ?. Qed.
#[export] Instance null_free_Latin1 : NullFree Latin1. Proof. by intros ?. Qed.
#[export] Instance null_free_Alpha2 : NullFree Alpha2Codes.Alpha2. Proof. by intros ?. Qed.
#[export] Instance null_free_Sex : NullFree Sex. Proof. by intros ?. Qed.
#[export] Instance null_free_EyeColour `{UnicodeCase} : NullFree EyeColour. Proof. by intros ?. Qed.
#[export] Instance null_free_HairColour `{UnicodeCase} : NullFree HairColour. Proof. by intros ?. Qed.
#[export] Instance null_free_TDate `{Rfc3339} : NullFree TDate. Proof. by intros ?. Qed.
#[export] Instance null_free_FullDate `{DateParse} : NullFree FullDate. Proof. by intros ?. Qed.
#[export] Instance null_free_ByteStr `{Base64Standard} : NullFree ByteStr. Proof. by intros ?. Qed.
#[export] Instance null_free_NameSuffix : NullFree NameSuffix. Proof. by intros ?. Qed.
#[export] Instance null_free_Present : NullFree Present. Proof. by intros ?. Qed.
#[export] Instance null_free_WeightRange : NullFree WeightRange. Proof. by intros ?. Qed.
#[export] Instance null_free_RaceAndEthnicity : NullFree RaceAndEthnicity. Proof. by intros ?. Qed.
#[export] Instance null_free_EDLIndicator : NullFree EDLIndicator. Proof. by intros ?. Qed.
#[export] Instance null_free_CountyCode : NullFree CountyCode. Proof. by intros ?. Qed.

(** The table entry of a name. *)
Fixpoint find_element (table : list (string * (Json → option Value))) (k : string) : option (Json → option Value) :=
  match table with
  | [] => None
  | (name, f) :: table' => if String.eqb k name then Some f else find_element table' k
  end.

(** Invert the conversions of a struct's fields. *)
Ltac inv_fields H :=
  repeat match type of H with
  | field _ _ _ = Some (Some _, []) => apply with_field_Some in H; destruct H as (? & ? & H & ? & ->)
  | dynamic_field _ _ _ = Some (Some _, []) => apply with_field_Some in H; destruct H as (? & ? & H & ? & ->)
  | fields _ = Some (Some _, []) => injection H as <-
  end.
(** Decide every comparison with a name. *)
Ltac by_name k :=
  repeat match goal with
  | |- context [String.eqb k ?name] =>
      let E := fresh "E" in destruct (String.eqb k name) eqn:E; [apply String.eqb_eq in E; subst k|]
  end.

Lemma required_reads {T} (from : Json → option (result T FromJsonError)) `{ToCbor T} o x :
  required from o = Some (Ok x) → is_Some (j ← o; element T (H := FromJson_new from) j).
Proof. intros Hx. rewrite (required_element from _ x Hx). by eexists. Qed.
(** The mandatory names are there. *)
Ltac mandatory_present :=
  repeat (constructor; [match goal with
    | Hx : from_json_opt (map_get ?n ?m) = Some (Ok _) |- is_Some (_ ?m ?n) => exact (required_reads _ _ _ Hx)
    end|]); constructor.

(** *** The mDL namespace *)

Section iso.
Context `{UnicodeCase, DateParse, Rfc3339, Base64Standard}.

Definition iso_elements : list (string * (Json → option Value)) := [
  ("family_name", element Latin1); ("given_name", element Latin1); ("birth_date", element FullDate);
  ("issue_date", element TDateOrFullDate); ("expiry_date", element TDateOrFullDate);
  ("issuing_country", element Alpha2Codes.Alpha2); ("issuing_authority", element Latin1);
  ("document_number", element Latin1); ("portrait", element ByteStr); ("driving_privileges", element DrivingPrivileges);
  ("un_distinguishing_sign", element UNSigns.UNDistinguishingSign); ("administrative_number", element Latin1);
  ("sex", element Sex); ("height", element Z); ("weight", element Z); ("eye_colour", element EyeColour);
  ("hair_colour", element HairColour); ("birth_place", element Latin1); ("resident_address", element Latin1);
  ("portrait_capture_date", element TDate); ("age_in_years", element Z); ("age_birth_year", element Z);
  ("nationality", element Alpha2Codes.Alpha2); ("resident_city", element Latin1); ("resident_state", element Latin1);
  ("resident_postal_code", element Latin1); ("resident_country", element Alpha2Codes.Alpha2);
  ("family_name_national_character", element string); ("given_name_national_character", element string);
  ("signature_usual_mark", element ByteStr)]%string.
Definition iso_mandatory : list string := [
  "family_name"; "given_name"; "birth_date"; "issue_date"; "expiry_date"; "issuing_country"; "issuing_authority";
  "document_number"; "portrait"; "driving_privileges"; "un_distinguishing_sign"]%string.

(** The jurisdiction, which must begin with the code of the issuing country. *)
Definition jurisdiction_element (m : list (string * Json)) : option Value :=
  j ← map_get "issuing_jurisdiction" m; c ← map_get "issuing_country" m;
  match j, element Alpha2Codes.Alpha2 c with
  | JString s, Some (Text country) => _ ← Engagement.strip_prefix country s; Some (Text s)
  | _, _ => None
  end.

(** What a JSON object says under a name of the namespace. *)
Definition iso_element (m : list (string * Json)) (k : string) : option Value :=
  match find_element iso_elements k with
  | Some f => j ← map_get k m; f j
  | None =>
      if String.eqb k "issuing_jurisdiction" then jurisdiction_element m
      else match age_parse k with Some _ => age_element m k | None => biometric_element m k end
  end.

Lemma jurisdiction_read m o :
  option_from_map (T := IssuingJurisdiction) m = Some (Ok o) → is_Some (j ← map_get "issuing_country" m; element Alpha2Codes.Alpha2 j) →
  to_cbor <$> o = jurisdiction_element m.
Proof.
  unfold option_from_map, from_map, IssuingJurisdiction_from, IssuingJurisdiction_from_map, jurisdiction_element.
  destruct (map_get "issuing_country" m) as [c|]; cbn [mbind option_bind]; [|by intros _ []].
  unfold element at 1. intros Ho Hc. cbn [required].
  change (from_json (T := Alpha2Codes.Alpha2) c) with (Alpha2_from_json c) in *.
  destruct (Alpha2_from_json c) as [[a|]|] eqn:Ha; cbn [mbind option_bind rok] in Hc; try by destruct Hc.
  unfold element. change (from_json (T := Alpha2Codes.Alpha2) c) with (Alpha2_from_json c). rewrite Ha.
  cbn [mbind option_bind rok]. change (to_cbor a) with (Text (Alpha2Codes.Alpha2_as_str a)).
  destruct (map_get "issuing_jurisdiction" m) as [j|]; cbn [required obind mbind option_bind] in *; [|by injection Ho as <-].
  destruct j; cbn [string_from_json unexpected ok obind mbind option_bind] in Ho; try discriminate Ho.
  cbn [required] in Ho. rewrite Ha in Ho. cbn [obind mbind option_bind] in Ho. unfold IssuingJurisdiction_new in Ho.
  destruct (Engagement.strip_prefix _ s); cbn in Ho; [|discriminate Ho]. by injection Ho as <-.
Qed.

(** What the conversions of a struct, field by field, say under a name. *)
Abbreviation Said := (string → option Value).
Definition named (name : string) (v : option Value) : Said := λ k, if String.eqb k name then v else None.
Fixpoint said (l : list Said) (k : string) : option Value :=
  match l with
  | [] => None
  | f :: l' => match said l' k with Some v => Some v | None => f k end
  end.
Definition says (c : Conversion) (f : Said) : Prop := ∀ k, collect c !! k = f k.

Lemma conversions_say cs l k : Forall2 says cs l → named_to_ns_map cs !! k = said l k.
Proof.
  intros Hl. rewrite named_lookup. induction Hl as [|c f cs l Hf _ IH]; [done|].
  cbn [conversions_lookup said]. by rewrite IH, Hf.
Qed.

Lemma mandatory_says {T} (from : Json → option (result T FromJsonError)) `{ToCbor T} m name x :
  required from (map_get name m) = Some (Ok x) →
  says (mandatory_field name x) (named name (j ← map_get name m; element T (H := FromJson_new from) j)).
Proof. intros Hx k. rewrite mandatory_lookup. unfold named. by rewrite (required_element from _ x Hx). Qed.
Lemma optional_says {T} `{NullFree T, ToCbor T} m name x :
  option_from_json_opt (T := T) (map_get name m) = Some (Ok x) →
  says (optional_field name x) (named name (j ← map_get name m; element T j)).
Proof. intros Hx k. rewrite optional_lookup. unfold named. by rewrite (optional_element _ x Hx). Qed.
Lemma age_says m a :
  NoDup m.*1 → AgeOver_from_map m = Some (Ok a) → says (many_field a) (age_element m).
Proof. intros Hnd Ha k. rewrite many_lookup. by apply age_lookup. Qed.
Lemma biometric_says m b :
  NoDup m.*1 → BiometricTemplate_from_map m = Some (Ok b) → says (many_field b) (biometric_element m).
Proof. intros Hnd Hb k. rewrite many_lookup. by apply biometric_lookup. Qed.
Lemma jurisdiction_says m a o :
  option_from_map (T := IssuingJurisdiction) m = Some (Ok o) →
  required Alpha2_from_json (map_get "issuing_country" m) = Some (Ok a) →
  says (optional_field "issuing_jurisdiction" o) (named "issuing_jurisdiction" (jurisdiction_element m)).
Proof.
  intros Ho Ha k. rewrite optional_lookup. unfold named. rewrite (jurisdiction_read m o Ho); [done|].
  rewrite (required_element _ _ a Ha). by eexists.
Qed.

(** The fields of a table. *)
Definition listed (m : list (string * Json)) (p : string * (Json → option Value)) : Said :=
  named p.1 (j ← map_get p.1 m; p.2 j).

Lemma said_app l1 l2 k :
  said (l1 ++ l2) k = match said l2 k with Some v => Some v | None => said l1 k end.
Proof.
  induction l1 as [|f l1 IH]; cbn [app said]; [by destruct (said l2 k)|]. rewrite IH. by destruct (said l2 k).
Qed.
Lemma find_element_app t1 t2 k :
  find_element (t1 ++ t2) k = match find_element t1 k with Some f => Some f | None => find_element t2 k end.
Proof. induction t1 as [|[n f] t1 IH]; cbn [app find_element]; [done|]. by destruct (String.eqb k n). Qed.
Lemma find_element_None t k : find_element t k = None ↔ k ∉ t.*1.
Proof.
  induction t as [|[n g] t IH]; [split; [intros _; apply not_elem_of_nil|done]|]. rewrite fmap_cons, not_elem_of_cons.
  cbn [find_element fst]. destruct (String.eqb_spec k n) as [->|]; naive_solver.
Qed.
Lemma find_element_name t k f : find_element t k = Some f → k ∈ t.*1.
Proof.
  intros Hf. destruct (decide (k ∈ t.*1)) as [Hk|Hk]; [done|]. apply find_element_None in Hk. congruence.
Qed.
Lemma said_listed m t k :
  NoDup t.*1 → said (listed m <$> t) k = (f ← find_element t k; j ← map_get k m; f j).
Proof.
  induction t as [|[n f] t IH]; [done|]. rewrite fmap_cons. intros [Hn Hnd]%NoDup_cons.
  rewrite fmap_cons. cbn [said find_element]. rewrite IH by done. unfold listed, named. cbn [fst snd].
  destruct (String.eqb_spec k n) as [->|]; [|by destruct (find_element t k ≫= _)].
  destruct (find_element t n) eqn:Hf; [|done]. by apply find_element_name in Hf.
Qed.

Definition iso_said (m : list (string * Json)) : list Said :=
  (listed m <$> take 22 iso_elements)
    ++ [age_element m; named "issuing_jurisdiction" (jurisdiction_element m)]
    ++ (listed m <$> take 5 (drop 22 iso_elements))
    ++ [biometric_element m]
    ++ (listed m <$> drop 27 iso_elements).

Lemma iso_conversions m ns :
  NoDup m.*1 → OrgIso1801351_fields m = Some (Some ns, []) →
  Forall2 says (OrgIso1801351_conversions ns) (iso_said m).
Proof.
  intros Hnd Hns. unfold OrgIso1801351_fields in Hns. inv_fields Hns.
  unfold OrgIso1801351_conversions. cbn [family_name given_name birth_date issue_date expiry_date issuing_country issuing_authority document_number
    portrait driving_privileges un_distinguishing_sign administrative_number sex height weight eye_colour hair_colour
    birth_place resident_address portrait_capture_date age_in_years age_birth_year age_over_xx issuing_jurisdiction
    nationality resident_city resident_state resident_postal_code resident_country biometric_template_xx
    family_name_national_character given_name_national_character signature_usual_mark].
  unfold iso_said. cbn -[element].
  repeat (constructor; [first [by apply mandatory_says | by apply optional_says | by apply age_says
    | by apply biometric_says | by eapply jurisdiction_says] |]).
  constructor.
Qed.

(** The names of the table are not those of a dynamic element. *)
Lemma iso_names k f :
  find_element iso_elements k = Some f →
  age_parse k = None ∧ Engagement.strip_prefix "biometric_template_" k = None ∧ String.eqb k "issuing_jurisdiction" = false.
Proof.
  intros Hk%find_element_name. revert k Hk. apply Forall_forall. repeat (apply Forall_cons; split; [done|]). apply Forall_nil_2.
Qed.
Lemma iso_names_NoDup : NoDup iso_elements.*1.
Proof. apply (bool_decide_unpack _). by vm_compute. Qed.
Lemma age_not_biometric k a : age_parse k = Some a → Engagement.strip_prefix "biometric_template_" k = None.
Proof.
  unfold age_parse. destruct (Engagement.strip_prefix "age_over_" k) eqn:Hk; [|done]. by apply strip_prefix_Some in Hk as ->.
Qed.


Lemma iso_said_element m k : said (iso_said m) k = iso_element m k.
Proof.
  set (t1 := take 22 iso_elements). set (t2 := take 5 (drop 22 iso_elements)). set (t3 := drop 27 iso_elements).
  assert (iso_elements = t1 ++ t2 ++ t3) as Hsplit by done.
  pose proof iso_names_NoDup as Hnd. rewrite Hsplit, !fmap_app in Hnd.
  apply NoDup_app in Hnd as (Hn1 & Hd1 & (Hn2 & Hd2 & Hn3)%NoDup_app).
  unfold iso_said. fold t1 t2 t3. rewrite !said_app, !said_listed by done. cbn [said]. unfold iso_element.
  pose proof (iso_names k) as Hnames. rewrite Hsplit, !find_element_app in Hnames |- *.
  unfold named, age_element, biometric_element. clearbody t1 t2 t3. clear Hsplit.
  destruct (find_element t1 k) as [f1|] eqn:H3; [|destruct (find_element t2 k) as [f2|] eqn:H4;
    [|destruct (find_element t3 k) as [f3|] eqn:H5]].
  - destruct (Hnames f1 eq_refl) as (-> & -> & ->). apply find_element_name in H3.
    assert (find_element t2 k = None) as -> by (apply find_element_None; set_solver).
    assert (find_element t3 k = None) as -> by (apply find_element_None; set_solver).
    cbn [mbind option_bind]. by destruct (map_get k m ≫= _).
  - destruct (Hnames f2 eq_refl) as (-> & -> & ->). apply find_element_name in H4.
    assert (find_element t3 k = None) as -> by (apply find_element_None; set_solver).
    cbn [mbind option_bind]. by destruct (map_get k m ≫= _).
  - destruct (Hnames f3 eq_refl) as (-> & -> & ->). cbn [mbind option_bind]. by destruct (map_get k m ≫= _).
  - cbn [mbind option_bind]. destruct (String.eqb_spec k "issuing_jurisdiction") as [->|].
    + cbn [age_parse Engagement.strip_prefix]. cbn. by destruct (jurisdiction_element m).
    + destruct (age_parse k) eqn:Hage; [rewrite (age_not_biometric _ _ Hage)|]; cbn [mbind option_bind].
      * by destruct (map_get k m ≫= _).
      * by destruct (Engagement.strip_prefix _ k); cbn [mbind option_bind]; [destruct (map_get k m ≫= _)|].
Qed.

Lemma iso_reads m ns k :
  NoDup m.*1 → OrgIso1801351_from_json (JObject m) = Some (Ok ns) → OrgIso1801351_to_ns_map ns !! k = iso_element m k.
Proof.
  intros Hnd Hns%finish_fields_Ok. rewrite <-iso_said_element. by apply conversions_say, iso_conversions.
Qed.
Lemma iso_mandatory_reads m ns :
  OrgIso1801351_from_json (JObject m) = Some (Ok ns) → Forall (λ k, is_Some (iso_element m k)) iso_mandatory.
Proof.
  intros Hns%finish_fields_Ok. unfold OrgIso1801351_fields in Hns. inv_fields Hns.
  unfold iso_mandatory. mandatory_present.
Qed.
End iso.

(** *** The AAMVA namespace *)

Section aamva.
Context `{DateParse}.

Definition aamva_elements : list (string * (Json → option Value)) := [
  ("domestic_driving_privileges", element DomesticDrivingPrivileges); ("name_suffix", element NameSuffix);
  ("organ_donor", element Present); ("veteran", element Present); ("family_name_truncation", element NameTruncation);
  ("given_name_truncation", element NameTruncation); ("aka_family_name.v2", element Latin1);
  ("aka_given_name.v2", element Latin1); ("aka_suffix", element NameSuffix); ("weight_range", element WeightRange);
  ("race_ethnicity", element RaceAndEthnicity); ("EDL_credential", element EDLIndicator); ("sex", element AamvaSex);
  ("DHS_compliance", element DHSCompliance); ("resident_county", element CountyCode);
  ("hazmat_endorsement_expiration_date", element FullDate); ("CDL_indicator", element Present);
  ("DHS_compliance_text", element string); ("DHS_temporary_lawful_status", element Present)]%string.
Definition aamva_mandatory : list string := [
  "domestic_driving_privileges"; "family_name_truncation"; "given_name_truncation"; "sex"; "DHS_compliance"]%string.
Definition aamva_element (m : list (string * Json)) (k : string) : option Value :=
  f ← find_element aamva_elements k; j ← map_get k m; f j.

Lemma aamva_conversions m ns :
  OrgIso1801351Aamva_fields m = Some (Some ns, []) →
  Forall2 says (OrgIso1801351Aamva_conversions ns) (listed m <$> aamva_elements).
Proof.
  intros Hns. unfold OrgIso1801351Aamva_fields in Hns. inv_fields Hns.
  unfold OrgIso1801351Aamva_conversions. cbn [domestic_driving_privileges name_suffix organ_donor veteran
    family_name_truncation given_name_truncation aka_family_name_v2 aka_given_name_v2 aka_suffix weight_range
    race_ethnicity edl_credential aamva_sex dhs_compliance resident_county hazmat_endorsement_expiration_date
    cdl_indicator dhs_compliance_text dhs_temporary_lawful_status].
  cbn -[element]. unfold listed. cbn [fst snd].
  repeat (constructor; [first [by apply mandatory_says | by apply optional_says]|]). constructor.
Qed.
Lemma aamva_reads m ns k :
  OrgIso1801351Aamva_from_json (JObject m) = Some (Ok ns) → OrgIso1801351Aamva_to_ns_map ns !! k = aamva_element m k.
Proof.
  intros Hns%finish_fields_Ok%aamva_conversions. unfold OrgIso1801351Aamva_to_ns_map.
  rewrite (conversions_say _ _ k Hns). apply said_listed. apply (bool_decide_unpack _). by vm_compute.
Qed.
Lemma aamva_mandatory_reads m ns :
  OrgIso1801351Aamva_from_json (JObject m) = Some (Ok ns) → Forall (λ k, is_Some (aamva_element m k)) aamva_mandatory.
Proof.
  intros Hns%finish_fields_Ok. unfold OrgIso1801351Aamva_fields in Hns. inv_fields Hns.
  unfold aamva_mandatory. mandatory_present.
Qed.
End aamva.

(** ** The theorem *)

(** C25: reading a namespace from a JSON object and writing it as CBOR keeps exactly
    the object's elements. Under every name the written map holds the CBOR of what
    the reader of that element made of the object's value (a missing or null
    optional element and an unknown name have no entry; [age_over_NN] for two
    digits, [biometric_template_xx] and the jurisdiction, which must begin with the
    issuing country's code, are found by their own rules), and the mandatory
    elements are all present. This holds of the mDL and of the AAMVA namespace. *)
Theorem namespace_conversion `{UnicodeCase, DateParse, Rfc3339, Base64Standard} m :
  NoDup m.*1 →
  (∀ ns, OrgIso1801351_from_json (JObject m) = Some (Ok ns) →
    (∀ k, OrgIso1801351_to_ns_map ns !! k = iso_element m k) ∧
    Forall (λ k, is_Some (OrgIso1801351_to_ns_map ns !! k)) iso_mandatory) ∧
  (∀ ns, OrgIso1801351Aamva_from_json (JObject m) = Some (Ok ns) →
    (∀ k, OrgIso1801351Aamva_to_ns_map ns !! k = aamva_element m k) ∧
    Forall (λ k, is_Some (OrgIso1801351Aamva_to_ns_map ns !! k)) aamva_mandatory).
Proof.
  intros Hnd. split; intros ns Hns; split.
  - intros k. exact (iso_reads m ns k Hnd Hns).
  - eapply Forall_impl; [exact (iso_mandatory_reads m ns Hns)|]. intros k Hk. cbv beta in *.
    rewrite (iso_reads m ns k Hnd Hns). exact Hk.
  - intros k. exact (aamva_reads m ns k Hns).
  - eapply Forall_impl; [exact (aamva_mandatory_reads m ns Hns)|]. intros k Hk. cbv beta in *.
    rewrite (aamva_reads m ns k Hns). exact Hk.
Qed.
