(* ===== verification/NamespaceErrors.v ===== *)
(** * Errors and panics of reading a namespace

    What [OrgIso1801351::from_json] and [OrgIso1801351Aamva::from_json] return when
    some of the fields cannot be read, and the one conversion that can panic. *)

From S2P Require Export NamespaceProps.

(** ** The errors of the fields, in their order *)

Definition field_error {A} (name : string) (value : option (result A FromJsonError)) : option (list FromJsonError) :=
  r ← value; Some match r with Ok _ => [] | Err e => [WithContext name e] end.
Definition all_errors (l : list (option (list FromJsonError))) : option (list FromJsonError) :=
  fold_left (λ acc e, errors ← acc; e ← e; Some (errors ++ e)) l (Some []).
Definition errors_of {T} (c : Fields T) : option (list FromJsonError) := snd <$> c.

Lemma errors_with_field {A B} name value (c : Fields (A → B)) :
  errors_of (with_field name value c) = (errors ← errors_of c; e ← field_error name value; Some (errors ++ e)).
Proof.
  unfold errors_of, with_field, field_error. destruct c as [[f errors]|]; cbn [fmap option_fmap option_map mbind option_bind snd]; [|done].
  destruct value as [[a|e]|]; cbn [mbind option_bind option_map snd]; [by rewrite app_nil_r|done..].
Qed.

(** What the reader of a struct returns, by the errors of its fields. *)
Definition struct_outcome {T} (errors : option (list FromJsonError)) (r : option (result T FromJsonError)) : Prop :=
  match errors with
  | None => r = None
  | Some [] => ∃ t, r = Some (Ok t)
  | Some [e] => r = Some (Err e)
  | Some errors => r = Some (Err (Multiple errors))
  end.
Lemma finish_fields_outcome {T} (c : Fields T) : fields_ok c → struct_outcome (errors_of c) (finish_fields c).
Proof.
  intros Hc. destruct c as [[o errors]|]; [|done]. specialize (Hc o errors eq_refl).
  destruct errors as [|e [|e' errors]]; [|done..]. destruct o as [t|]; [by exists t|].
  destruct Hc as [Hc _]. by specialize (Hc eq_refl).
Qed.
Ltac solve_fields_ok := repeat first [apply fields_fields_ok | apply with_field_ok].

Section iso.
Context `{UnicodeCase, DateParse, Rfc3339, Base64Standard} (m : list (string * Json)).

Definition read (T : Type) `{FromJson T} (name : string) : option (list FromJsonError) :=
  field_error name (from_json_opt (T := T) (map_get name m)).
Definition read_map (T : Type) `{FromJsonMap T} (name : string) : option (list FromJsonError) :=
  field_error name (from_map (T := T) m).

Definition iso_field_errors : list (option (list FromJsonError)) := [
  read Latin1 "family_name"; read Latin1 "given_name"; read FullDate "birth_date"; read TDateOrFullDate "issue_date";
  read TDateOrFullDate "expiry_date"; read Alpha2Codes.Alpha2 "issuing_country"; read Latin1 "issuing_authority";
  read Latin1 "document_number"; read ByteStr "portrait"; read DrivingPrivileges "driving_privileges";
  read UNSigns.UNDistinguishingSign "un_distinguishing_sign"; read (option Latin1) "administrative_number";
  read (option Sex) "sex"; read (option u32) "height"; read (option u32) "weight"; read (option EyeColour) "eye_colour";
  read (option HairColour) "hair_colour"; read (option Latin1) "birth_place"; read (option Latin1) "resident_address";
  read (option TDate) "portrait_capture_date"; read (option u32) "age_in_years"; read (option u32) "age_birth_year";
  read_map AgeOver "age_over_xx"; read_map (option IssuingJurisdiction) "issuing_jurisdiction";
  read (option Alpha2Codes.Alpha2) "nationality"; read (option Latin1) "resident_city";
  read (option Latin1) "resident_state"; read (option Latin1) "resident_postal_code";
  read (option Alpha2Codes.Alpha2) "resident_country"; read_map BiometricTemplate "biometric_template_xx";
  read (option string) "family_name_national_character"; read (option string) "given_name_national_character";
  read (option ByteStr) "signature_usual_mark"].
Definition aamva_field_errors : list (option (list FromJsonError)) := [
  read DomesticDrivingPrivileges "domestic_driving_privileges"; read (option NameSuffix) "name_suffix";
  read (option Present) "organ_donor"; read (option Present) "veteran"; read NameTruncation "family_name_truncation";
  read NameTruncation "given_name_truncation"; read (option Latin1) "aka_family_name.v2";
  read (option Latin1) "aka_given_name.v2"; read (option NameSuffix) "aka_suffix";
  read (option WeightRange) "weight_range"; read (option RaceAndEthnicity) "race_ethnicity";
  read (option EDLIndicator) "EDL_credential"; read AamvaSex "sex"; read DHSCompliance "DHS_compliance";
  read (option CountyCode) "resident_county"; read (option FullDate) "hazmat_endorsement_expiration_date";
  read (option Present) "CDL_indicator"; read (option string) "DHS_compliance_text";
  read (option Present) "DHS_temporary_lawful_status"].

Lemma iso_fields_ok : fields_ok (OrgIso1801351_fields m).
Proof. unfold OrgIso1801351_fields, field, dynamic_field. solve_fields_ok. Qed.
Lemma aamva_fields_ok : fields_ok (OrgIso1801351Aamva_fields m).
Proof. unfold OrgIso1801351Aamva_fields, field, dynamic_field. solve_fields_ok. Qed.
Lemma iso_errors : errors_of (OrgIso1801351_fields m) = all_errors iso_field_errors.
Proof. unfold OrgIso1801351_fields, field, dynamic_field. rewrite !errors_with_field. reflexivity. Qed.
Lemma aamva_errors : errors_of (OrgIso1801351Aamva_fields m) = all_errors aamva_field_errors.
Proof. unfold OrgIso1801351Aamva_fields, field, dynamic_field. rewrite !errors_with_field. reflexivity. Qed.
End iso.

(** Reading a namespace reads every field and reports every failure. It succeeds
    exactly when no field fails; a single failing field gives its error, several give
    [Multiple] of all of them in declaration order, each with the field's name as its
    context; a panic is a panic of a field's reader, so the generated [unwrap]s
    of the fields themselves never panic; a value that is not an object is refused. *)
Theorem namespace_errors `{UnicodeCase, DateParse, Rfc3339, Base64Standard} j :
  match j with
  | JObject m =>
      struct_outcome (all_errors (iso_field_errors m)) (OrgIso1801351_from_json j) ∧
      struct_outcome (all_errors (aamva_field_errors m)) (OrgIso1801351Aamva_from_json j)
  | _ =>
      OrgIso1801351_from_json j = Some (Err (UnexpectedType (json_type j) "object")) ∧
      OrgIso1801351Aamva_from_json j = Some (Err (UnexpectedType (json_type j) "object"))
  end.
Proof.
  destruct j as [|s|n|b|b|l|m]; try (split; reflexivity). rewrite <-iso_errors, <-aamva_errors. split.
  - apply finish_fields_outcome, iso_fields_ok.
  - apply finish_fields_outcome, aamva_fields_ok.
Qed.

(** ** Panics *)

(** Reading a value of the type never panics. *)
Class NoPanic (T : Type) `{FromJson T} : Prop := {
  no_panic : ∀ j, from_json (T := T) j ≠ None;
  no_panic_opt : ∀ o, from_json_opt (T := T) o ≠ None;
}.

Lemma no_panic_new {T} (from : Json → option (result T FromJsonError)) :
  (∀ j, from j ≠ None) → NoPanic T (H := FromJson_new from).
Proof. intros Hfrom. split; [done|]. intros [j|]; [apply Hfrom|done]. Qed.
Lemma obind_no_panic {A B E} (f : A → option (result B E)) c : c ≠ None → (∀ a, f a ≠ None) → obind f c ≠ None.
Proof. intros Hc Hf. destruct c as [[a|e]|]; [apply Hf|done|done]. Qed.
Lemma otry_map_no_panic {A B E} (f : A → option (result B E)) l : (∀ x, x ∈ l → f x ≠ None) → otry_map f l ≠ None.
Proof.
  induction l as [|x l IH]; [done|]. intros Hf. cbn [otry_map]. apply obind_no_panic; [apply Hf; set_solver|].
  intros y. apply obind_no_panic; [apply IH; set_solver|done].
Qed.
Lemma string_no_panic j : string_from_json j ≠ None. Proof. by destruct j. Qed.
Lemma u32_no_panic j : u32_from_json j ≠ None. Proof. by destruct j. Qed.

Lemma no_panic_parsed {A T} (base : Json → option (result A FromJsonError)) (f : A → result T ElementError) :
  (∀ j, base j ≠ None) → NoPanic T (H := FromJson_new (λ v, let* a := base v in parsing (f a))).
Proof. intros Hbase. apply no_panic_new. intros j. by apply obind_no_panic. Qed.

#[export] Instance no_panic_string : NoPanic string. Proof. exact (no_panic_new _ string_no_panic). Qed.
#[export] Instance no_panic_u32 : NoPanic Z. Proof. exact (no_panic_new _ u32_no_panic). Qed.
Section texts.
Context `{UnicodeCase, DateParse, Base64Standard}.

#[export] Instance no_panic_Latin1 : NoPanic Latin1. Proof. exact (no_panic_parsed _ _ string_no_panic). Qed.
#[export] Instance no_panic_FullDate : NoPanic FullDate. Proof. exact (no_panic_parsed _ _ string_no_panic). Qed.
#[export] Instance no_panic_ByteStr : NoPanic ByteStr. Proof. exact (no_panic_parsed _ _ string_no_panic). Qed.
#[export] Instance no_panic_Alpha2 : NoPanic Alpha2Codes.Alpha2. Proof. exact (no_panic_parsed _ _ string_no_panic). Qed.
#[export] Instance no_panic_UNSign : NoPanic UNSigns.UNDistinguishingSign.
Proof. apply no_panic_new. intros j. by apply obind_no_panic; [apply string_no_panic|]. Qed.
#[export] Instance no_panic_EyeColour : NoPanic EyeColour. Proof. exact (no_panic_parsed _ _ string_no_panic). Qed.
#[export] Instance no_panic_HairColour : NoPanic HairColour. Proof. exact (no_panic_parsed _ _ string_no_panic). Qed.
#[export] Instance no_panic_VehicleCategoryCode : NoPanic VehicleCategoryCode. Proof. exact (no_panic_parsed _ _ string_no_panic). Qed.
#[export] Instance no_panic_NameSuffix : NoPanic NameSuffix. Proof. exact (no_panic_parsed _ _ string_no_panic). Qed.
#[export] Instance no_panic_NameTruncation : NoPanic NameTruncation. Proof. exact (no_panic_parsed _ _ string_no_panic). Qed.
#[export] Instance no_panic_DHSCompliance : NoPanic DHSCompliance. Proof. exact (no_panic_parsed _ _ string_no_panic). Qed.
#[export] Instance no_panic_RaceAndEthnicity : NoPanic RaceAndEthnicity. Proof. exact (no_panic_parsed _ _ string_no_panic). Qed.
#[export] Instance no_panic_CountyCode : NoPanic CountyCode. Proof. exact (no_panic_parsed _ _ string_no_panic). Qed.
#[export] Instance no_panic_Sex : NoPanic Sex. Proof. exact (no_panic_parsed _ _ u32_no_panic). Qed.
#[export] Instance no_panic_AamvaSex : NoPanic AamvaSex. Proof. exact (no_panic_parsed _ _ u32_no_panic). Qed.
#[export] Instance no_panic_EDLIndicator : NoPanic EDLIndicator. Proof. exact (no_panic_parsed _ _ u32_no_panic). Qed.
#[export] Instance no_panic_WeightRange : NoPanic WeightRange. Proof. exact (no_panic_parsed _ _ u32_no_panic). Qed.
#[export] Instance no_panic_Present : NoPanic Present.
Proof. apply no_panic_new. intros j. apply obind_no_panic; [apply u32_no_panic|]. intros n. by destruct n as [|[]|]. Qed.
End texts.

(** Containers and structs of such readers. *)
Section containers.
Context {T : Type} `{NoPanic T}.

#[export] Instance no_panic_option : NoPanic (option T).
Proof.
  assert (∀ j, option_from_json (T := T) j ≠ None) as Hread.
  { intros j. destruct j; [done|..]; apply obind_no_panic; (done || apply no_panic). }
  split; [exact Hread|]. intros [j|]; [|done]. specialize (Hread j). by destruct j.
Qed.
#[export] Instance no_panic_list : NoPanic (list T).
Proof. apply no_panic_new. intros j. destruct j; try done. apply otry_map_no_panic. intros x _. apply no_panic. Qed.
#[export] Instance no_panic_vec : NoPanic (NonEmptyVec T).
Proof. exact (no_panic_parsed vec_from_json _ (no_panic (T := list T))). Qed.
Lemma no_panic_unnamed {U} (f : T → U) : NoPanic U (H := FromJson_new (unnamed_field f)).
Proof. apply no_panic_new. intros j. apply obind_no_panic; [apply no_panic|done]. Qed.
End containers.

Lemma no_panic_named {T} (conversions : list (string * Json) → Fields T) :
  (∀ m, conversions m ≠ None ∧ fields_ok (conversions m)) → NoPanic T (H := FromJson_new (named_fields conversions)).
Proof.
  intros Hfields. apply no_panic_new. intros j. destruct j as [| | | | | |m]; try done. destruct (Hfields m) as [Hm Hok].
  cbn [named_fields]. by rewrite finish_fields_panics.
Qed.
Lemma field_no_panic {A B} `{NoPanic A} m name (c : Fields (A → B)) : c ≠ None → field m name c ≠ None.
Proof. unfold field. rewrite with_field_panics. intros Hc [?|Hv]; [done|]. by apply no_panic_opt in Hv. Qed.
Ltac solve_struct :=
  apply no_panic_named; intros m; split;
    [cbv beta; repeat refine (field_no_panic _ _ _ _); discriminate | unfold field; solve_fields_ok].

Section structs.
Context `{UnicodeCase, DateParse, Base64Standard}.

#[export] Instance no_panic_Code : NoPanic Code. Proof. solve_struct. Qed.
#[export] Instance no_panic_Codes : NoPanic Codes. Proof. exact (no_panic_unnamed _). Qed.
#[export] Instance no_panic_DrivingPrivilege : NoPanic DrivingPrivilege. Proof. solve_struct. Qed.
#[export] Instance no_panic_DrivingPrivileges : NoPanic DrivingPrivileges. Proof. exact (no_panic_unnamed _). Qed.
#[export] Instance no_panic_class : NoPanic DomesticVehicleClass. Proof. solve_struct. Qed.
#[export] Instance no_panic_restriction : NoPanic DomesticVehicleRestriction. Proof. solve_struct. Qed.
#[export] Instance no_panic_restrictions : NoPanic DomesticVehicleRestrictions. Proof. exact (no_panic_unnamed _). Qed.
#[export] Instance no_panic_endorsement : NoPanic DomesticVehicleEndorsement. Proof. solve_struct. Qed.
#[export] Instance no_panic_endorsements : NoPanic DomesticVehicleEndorsements. Proof. exact (no_panic_unnamed _). Qed.
#[export] Instance no_panic_domestic : NoPanic DomesticDrivingPrivilege. Proof. solve_struct. Qed.
#[export] Instance no_panic_domestics : NoPanic DomesticDrivingPrivileges. Proof. exact (no_panic_unnamed _). Qed.
#[export] Instance no_panic_Aamva : NoPanic OrgIso1801351Aamva. Proof. solve_struct. Qed.

Lemma age_over_no_panic m : AgeOver_from_map m ≠ None.
Proof.
  apply obind_no_panic; [|done]. apply otry_map_no_panic. intros x ([s j] & _ & Hx)%list_elem_of_omap. unfold id.
  unfold age_entry in Hx. cbn [fst snd] in Hx. destruct (Engagement.strip_prefix _ s); cbn [mbind option_bind] in Hx; [|done].
  destruct (to_age _); [|done]. injection Hx as <-. apply obind_no_panic; [by destruct j|done].
Qed.
Lemma biometric_no_panic m : BiometricTemplate_from_map m ≠ None.
Proof.
  apply obind_no_panic; [|done]. apply otry_map_no_panic. intros x ([s j] & _ & Hx)%list_elem_of_omap. unfold id.
  unfold biometric_entry in Hx. cbn [fst snd] in Hx. destruct (Engagement.strip_prefix _ s); [|done].
  injection Hx as <-. apply obind_no_panic; [exact (no_panic (T := ByteStr) j)|done].
Qed.
Lemma jurisdiction_no_panic m : option_from_map (T := IssuingJurisdiction) m ≠ None.
Proof.
  unfold option_from_map. assert (from_map (T := IssuingJurisdiction) m ≠ None) as Hm; [|by destruct (from_map m)].
  apply obind_no_panic; [exact (no_panic_opt (T := string) _)|]. intros s.
  apply obind_no_panic; [exact (no_panic_opt (T := Alpha2Codes.Alpha2) _)|done].
Qed.
End structs.

(** The reader of a timestamp shows what it parsed at the offset UTC and formats it. *)
Section timestamps.
Context `{DateParse, Rfc3339, !Rfc3339Laws}.

(** A text of a date and time whose year in UTC is not between 0 and 9999: [to_offset] panics
    above, the [unwrap] of the formatted text below. *)
Definition unwritable (j : Json) : Prop := ∃ s d, j = JString s ∧ rfc3339_parse s = Ok d ∧ ¬ writable d.

Lemma TDate_panics j : TDate_from_json j = None ↔ unwritable j.
Proof.
  assert (∀ d, (utc ← to_utc d; rok (rfc3339_format (replace_millisecond_0 utc))) = None ↔ ¬ writable d) as Hshow.
  { intros d. pose proof (shown_trimmed d) as Htrim. unfold to_utc in *. case_bool_decide as Hd; cbn [mbind option_bind].
    - rewrite (Htrim _ eq_refl). pose proof (trimmed_formats d) as Hf.
      destruct (rfc3339_format (trimmed d)); cbn [is_ok rok] in *; [apply eq_sym, bool_decide_eq_true in Hf|apply eq_sym, bool_decide_eq_false in Hf];
        split; (done || by intros).
    - split; [|done]. intros _ Hw. apply Hd. unfold representable, writable in *. lia. }
  unfold unwritable. destruct j as [|s| | | | |]; try (split; [discriminate|]; intros (? & ? & [=] & _)).
  unfold TDate_from_json. cbn [string_from_json obind ok mbind option_bind].
  destruct (rfc3339_parse s) as [d|[]] eqn:Hs; cbn [map_err parsing obind mbind option_bind].
  - transitivity ((utc ← to_utc d; rok (rfc3339_format (replace_millisecond_0 utc))) = None).
    { destruct (to_utc d); cbn [mbind option_bind]; [|done]. by destruct (rok _). }
    rewrite Hshow. split; [by intros; exists s, d|]. intros (s' & d' & [= <-] & Hd & Hw). rewrite Hs in Hd. by injection Hd as ->.
  - split; [discriminate|]. intros (s' & d & [= <-] & Hd & _). congruence.
Qed.
Lemma TDateOrFullDate_panics j : TDateOrFullDate_from_json j = None ↔ unwritable j.
Proof.
  rewrite <-TDate_panics. unfold TDateOrFullDate_from_json.
  destruct (TDate_from_json j) as [[t|e]|]; cbn [mbind option_bind]; [done| |done].
  pose proof (no_panic (T := FullDate) j) as Hj. change (from_json j) with (FullDate_from_json j) in Hj.
  destruct (FullDate_from_json j) as [[]|]; done.
Qed.
Lemma optional_TDate_panics o : option_from_json_opt (T := TDate) o = None ↔ ∃ j, o = Some j ∧ unwritable j.
Proof.
  destruct o as [j|]; [|naive_solver]. transitivity (TDate_from_json j = None).
  - cbn [option_from_json_opt]. change (from_json j) with (TDate_from_json j). by destruct j; [|destruct (TDate_from_json _) as [[]|]..].
  - rewrite TDate_panics. naive_solver.
Qed.
Lemma required_panics {T} (from : Json → option (result T FromJsonError)) o :
  required from o = None ↔ ∃ j, o = Some j ∧ from j = None.
Proof. destruct o as [j|]; cbn [required]; naive_solver. Qed.
End timestamps.

Lemma field_panics {A B} `{NoPanic A} m name (c : Fields (A → B)) : field m name c = None ↔ c = None.
Proof. unfold field. rewrite with_field_panics. split; [|by left]. intros [?|Hv]; [done|]. by apply no_panic_opt in Hv. Qed.
Lemma dynamic_field_panics {A B} `{FromJsonMap A} m name (c : Fields (A → B)) :
  (∀ m, from_map (T := A) m ≠ None) → dynamic_field m name c = None ↔ c = None.
Proof. intros Hm. unfold dynamic_field. rewrite with_field_panics. split; [|by left]. intros [?|Hv]; [done|]. by apply Hm in Hv. Qed.

Lemma date_field_panics `{DateParse, Rfc3339, !Rfc3339Laws} {B} m name (c : Fields (TDateOrFullDate → B)) :
  field m name c = None ↔ c = None ∨ ∃ j, map_get name m = Some j ∧ unwritable j.
Proof.
  unfold field. rewrite with_field_panics.
  setoid_rewrite (required_panics TDateOrFullDate_from_json (map_get name m)). by setoid_rewrite TDateOrFullDate_panics.
Qed.
Lemma optional_date_field_panics `{Rfc3339, !Rfc3339Laws} {B} m name (c : Fields (option TDate → B)) :
  field m name c = None ↔ c = None ∨ ∃ j, map_get name m = Some j ∧ unwritable j.
Proof. unfold field. rewrite with_field_panics. by setoid_rewrite (optional_TDate_panics (map_get name m)). Qed.

Lemma iso_fields_panics `{UnicodeCase, DateParse, Rfc3339, Base64Standard, !Rfc3339Laws} m :
  OrgIso1801351_fields m = None ↔
  ∃ name j, name ∈ ["issue_date"; "expiry_date"; "portrait_capture_date"]%string ∧ map_get name m = Some j ∧ unwritable j.
Proof.
  unfold OrgIso1801351_fields.
  repeat first [rewrite field_panics | rewrite (dynamic_field_panics _ _ _ biometric_no_panic)
    | rewrite (dynamic_field_panics _ _ _ jurisdiction_no_panic) | rewrite (dynamic_field_panics _ _ _ age_over_no_panic)
    | rewrite date_field_panics | rewrite optional_date_field_panics].
  repeat setoid_rewrite elem_of_cons. setoid_rewrite elem_of_nil. split.
  - intros [[[?|(j & Hj)]|(j & Hj)]|(j & Hj)]; [done|eexists _, j; split; [|exact Hj]; auto..].
  - intros (name & j & [->|[->|[->|[]]]] & Hj); eauto.
Qed.

(** C36: reading an AAMVA namespace from any JSON value never panics, and reading an mDL
    namespace panics exactly when one of its three date elements is a text that parses
    as a date and time whose year, at the offset UTC, is not between 0 and 9999:
    beyond 9999 [to_offset] panics, and before 0 the [unwrap] of the formatted date does;
    no other panic of a reader can be reached. *)
Theorem namespace_panics `{UnicodeCase, DateParse, Rfc3339, Base64Standard, !Rfc3339Laws} j :
  OrgIso1801351Aamva_from_json j ≠ None ∧
  (OrgIso1801351_from_json j = None ↔
   ∃ m name v, j = JObject m ∧ name ∈ ["issue_date"; "expiry_date"; "portrait_capture_date"]%string ∧
     map_get name m = Some v ∧ unwritable v).
Proof.
  split; [exact (no_panic (T := OrgIso1801351Aamva) j)|].
  destruct j as [|s|n|b|b|l|m]; try (split; [discriminate|]; by intros (? & ? & ? & ? & _)).
  cbn [OrgIso1801351_from_json named_fields]. rewrite (finish_fields_panics _ (iso_fields_ok m)), iso_fields_panics.
  split; [intros (name & j & Hj); by exists m, name, j|].
  intros (m' & name & v & [= <-] & Hv). by exists name, v.
Qed.
