(* ===== verification/Derive.v ===== *)
(** * The derive macros ([macros/src])

    What [derive(FromJson)] and [derive(ToCbor)] make of a type: the attributes of
    its fields are recognised and each field becomes one conversion of the
    generated function. Syntax trees are those of [syn] and are the input; the
    generated code is described by its conversions, and [run_json] and [run_ns_map]
    give its meaning with the combinators of [Json.v]. *)

From S2P Require Export NamespaceErrors.

Module Macros.

(** ** Syntax trees ([syn]) *)

Inductive SynType : Type :=
  | Type_Path (qself : option SynType) (leading_colon : bool) (segments : list (string * PathArguments))
  | Type_Other
with PathArguments : Type :=
  | NoArguments
  | AngleBracketed (args : list SynType)
  | Parenthesized (args : list SynType).
Record Path : Type := { leading_colon : bool; segments : list (string * PathArguments) }.

Inductive Lit : Type := Lit_Str (s : string) | Lit_Other.
Inductive Meta : Type :=
  | Meta_Path (path : Path)
  | Meta_List (path : Path) (nested : list NestedMeta)
  | Meta_NameValue (path : Path) (lit : Lit)
with NestedMeta : Type :=
  | Nested_Meta (meta : Meta)
  | Nested_Lit (lit : Lit).

(** What [Attribute::parse_meta] makes of the attribute's tokens. *)
Record Attribute : Type := { parse_meta : option Meta }.
Record Field : Type := { field_ident : option string; field_ty : SynType; field_attrs : list Attribute }.
Inductive SynFields : Type := Fields_Named (named : list Field) | Fields_Unnamed (unnamed : list Field) | Fields_Unit.
Inductive Data : Type := Data_Struct (f : SynFields) | Data_Enum | Data_Union.
Record DeriveInput : Type := { input_ident : string; input_data : Data; input_attrs : list Attribute }.

(** [Meta::path] and [Path::is_ident] *)
Definition meta_path (m : Meta) : Path :=
  match m with Meta_Path p | Meta_List p _ | Meta_NameValue p _ => p end.
Definition is_ident (p : Path) (s : string) : bool :=
  match leading_colon p, segments p with
  | false, [(ident, NoArguments)] => bool_decide (ident = s)
  | _, _ => false
  end.

(** ** The attributes of a field *)

Definition get_isomdl_attributes (attr : Attribute) : option (list NestedMeta) :=
  m ← parse_meta attr;
  match m with
  | Meta_List path nested => if negb (is_ident path "isomdl") then None else Some nested
  | _ => None
  end.

Definition is_dynamic_parse (attr : Attribute) : bool :=
  match get_isomdl_attributes attr with
  | None => false
  | Some ms => existsb (λ nested_meta,
      match nested_meta with
      | Nested_Meta meta => is_ident (meta_path meta) "dynamic_parse" || is_ident (meta_path meta) "many"
      | _ => false
      end) ms
  end.
Definition is_many (attr : Attribute) : bool :=
  match get_isomdl_attributes attr with
  | None => false
  | Some ms => existsb (λ nested_meta,
      match nested_meta with Nested_Meta meta => is_ident (meta_path meta) "many" | _ => false end) ms
  end.
Definition is_optional (ty : SynType) : bool :=
  match ty with
  | Type_Path _ _ segments => match last segments with Some (ident, _) => bool_decide (ident = "Option"%string) | None => false end
  | Type_Other => false
  end.

(** The first text given to the key among the attribute's entries. *)
Definition crate_path (attr : Attribute) : option string :=
  ms ← get_isomdl_attributes attr;
  head (omap (λ nested_meta,
    match nested_meta with
    | Nested_Meta (Meta_NameValue path lit) =>
        if negb (is_ident path "crate") then None else
        match lit with Lit_Str s => Some s | _ => None end
    | _ => None
    end) ms).
Definition rename (attr : Attribute) : option string :=
  ms ← get_isomdl_attributes attr;
  head (omap (λ nested_meta,
    match nested_meta with
    | Nested_Meta (Meta_NameValue path lit) =>
        if negb (is_ident path "rename") then None else
        match lit with Lit_Str s => Some s | _ => None end
    | _ => None
    end) ms).

(** ** The generated code *)

(** [from_json_opt] of the entry of the field, or [from_map] of the whole object. *)
Inductive Reader : Type := Plain | Dynamic.
Record JsonConversion : Type := { json_field : string; json_ty : SynType; json_str : string; json_reader : Reader }.

Inductive Writer : Type := Many | Optional | Mandatory.
Record CborConversion : Type := { cbor_field : string; cbor_ty : SynType; cbor_str : string; cbor_writer : Writer }.

Inductive Output (C : Type) : Type :=
  | CompileError (message : string)
  | NamedImpl (mod_name isomdl_path ident : string) (conversions : list C)
  | UnnamedImpl (mod_name isomdl_path ident : string) (field_type : SynType).
#[global] Arguments CompileError {C} message.
#[global] Arguments NamedImpl {C} mod_name isomdl_path ident conversions.
#[global] Arguments UnnamedImpl {C} mod_name isomdl_path ident field_type.

(** [Ident::new] panics on a text that is not an identifier. *)
Class ProcMacro := { valid_ident : string → bool }.
Definition Ident_new `{ProcMacro} (s : string) : option string := if valid_ident s then Some s else None.

(** The name of the field in messages, unless an attribute renames it. *)
Definition field_str (field : string) (attrs : list Attribute) : string :=
  default field (head (omap rename attrs)).

Definition json_conversion (f : Field) : option JsonConversion :=
  field ← field_ident f;
  Some {| json_field := field; json_ty := field_ty f; json_str := field_str field (field_attrs f);
          json_reader := if existsb is_dynamic_parse (field_attrs f) then Dynamic else Plain |}.
Definition cbor_conversion (f : Field) : option CborConversion :=
  field ← field_ident f;
  Some {| cbor_field := field; cbor_ty := field_ty f; cbor_str := field_str field (field_attrs f);
          cbor_writer := if existsb is_many (field_attrs f) then Many
                         else if is_optional (field_ty f) then Optional else Mandatory |}.

Section derive.
Context `{UnicodeCase, ProcMacro}.

Definition isomdl_path (attrs : list Attribute) : option string :=
  Ident_new (default "isomdl"%string (head (omap crate_path attrs))).

Definition FromJson_named_fields (isomdl_path ident : string) (named : list Field) : option (Output JsonConversion) :=
  conversions ← mapM json_conversion named;
  mod_name ← Ident_new (to_lowercase ident +:+ "_from_json_impl");
  Some (NamedImpl mod_name isomdl_path ident conversions).
(** [Punctuated::pop] takes the last field. *)
Definition FromJson_unnamed_fields (isomdl_path ident : string) (unnamed : list Field) : option (Output JsonConversion) :=
  match reverse unnamed with
  | [] => Some (CompileError "cannot derive FromJson for tuple structs of less than one field")
  | [f] =>
      mod_name ← Ident_new (to_lowercase ident +:+ "_from_json_impl");
      Some (UnnamedImpl mod_name isomdl_path ident (field_ty f))
  | _ => Some (CompileError "cannot derive FromJson for tuple structs of more than one field")
  end.
Definition derive_from_json (input : DeriveInput) : option (Output JsonConversion) :=
  isomdl_path ← isomdl_path (input_attrs input);
  match input_data input with
  | Data_Struct (Fields_Named f) => FromJson_named_fields isomdl_path (input_ident input) f
  | Data_Struct (Fields_Unnamed f) => FromJson_unnamed_fields isomdl_path (input_ident input) f
  | Data_Struct Fields_Unit => Some (CompileError "cannot derive FromJson for unit struct")
  | Data_Enum => Some (CompileError "cannot derive FromJson for enums")
  | Data_Union => Some (CompileError "cannot derive FromJson for unions")
  end.

Definition ToCbor_named_fields (isomdl_path ident : string) (named : list Field) : option (Output CborConversion) :=
  conversions ← mapM cbor_conversion named;
  mod_name ← Ident_new (to_lowercase ident +:+ "_to_cbor_impl");
  Some (NamedImpl mod_name isomdl_path ident conversions).
Definition ToCbor_unnamed_fields (isomdl_path ident : string) (unnamed : list Field) : option (Output CborConversion) :=
  match reverse unnamed with
  | [] => Some (CompileError "cannot derive ToCbor for tuple structs of less than one field")
  | [f] =>
      mod_name ← Ident_new (to_lowercase ident +:+ "_to_cbor_impl");
      Some (UnnamedImpl mod_name isomdl_path ident (field_ty f))
  | _ => Some (CompileError "cannot derive ToCbor for tuple structs of more than one field")
  end.
Definition derive_to_cbor (input : DeriveInput) : option (Output CborConversion) :=
  isomdl_path ← isomdl_path (input_attrs input);
  match input_data input with
  | Data_Struct (Fields_Named f) => ToCbor_named_fields isomdl_path (input_ident input) f
  | Data_Struct (Fields_Unnamed f) => ToCbor_unnamed_fields isomdl_path (input_ident input) f
  | Data_Struct Fields_Unit => Some (CompileError "cannot derive ToCbor for unit struct")
  | Data_Enum => Some (CompileError "cannot derive ToCbor for enums")
  | Data_Union => Some (CompileError "cannot derive ToCbor for unions")
  end.
End derive.

(** ** The meaning of the generated code *)

(** A type in scope of the struct, with the implementations the conversions call. *)
Record Impls : Type := {
  impl_type : Type;
  impl_from_json : option (FromJson impl_type);
  impl_from_map : option (FromJsonMap impl_type);
  impl_to_cbor : option (ToCbor impl_type);
  (** [if let Some(i) = v { .. }], where the type is an option *)
  impl_if_let_some : option (string → impl_type → Conversion);
  impl_to_ns_map : option (ToNamespaceMap impl_type);
}.

(** One conversion of the generated [from_json]: the value a field is read from. *)
Record FieldReader : Type := {
  reader_type : Type;
  reader_str : string;
  reader_value : list (string * Json) → option (result reader_type FromJsonError);
}.
Definition field_reader (impls : SynType → option Impls) (c : JsonConversion) : option FieldReader :=
  i ← impls (json_ty c);
  match json_reader c with
  | Plain => f ← impl_from_json i; Some (Build_FieldReader (impl_type i) (json_str c) (λ m, @from_json_opt _ f (map_get (json_str c) m)))
  | Dynamic => f ← impl_from_map i; Some (Build_FieldReader (impl_type i) (json_str c) (@from_map _ f))
  end.

(** The constructor of the struct takes its fields in order. *)
Fixpoint constructor (readers : list FieldReader) (T : Type) : Type :=
  match readers with [] => T | r :: readers => reader_type r → constructor readers T end.
Fixpoint run_fields {T} (readers : list FieldReader) (map : list (string * Json)) :
    Fields (constructor readers T) → Fields T :=
  match readers with
  | [] => λ c, c
  | r :: readers => λ c, run_fields readers map (with_field (reader_str r) (reader_value r map) c)
  end.
Definition run_json {T} (readers : list FieldReader) (build : constructor readers T) : Json → option (result T FromJsonError) :=
  named_fields (λ map, run_fields readers map (fields build)).
(** The errors each field contributes. *)
Definition reader_errors (map : list (string * Json)) (r : FieldReader) : option (list FromJsonError) :=
  field_error (reader_str r) (reader_value r map).

(** One conversion of the generated [to_ns_map]: the insertions of the field's value. *)
Record FieldWriter : Type := { writer_type : Type; writer_value : writer_type → Conversion }.
Definition field_writer (impls : SynType → option Impls) (c : CborConversion) : option FieldWriter :=
  i ← impls (cbor_ty c);
  match cbor_writer c with
  | Many => w ← impl_to_ns_map i; Some (Build_FieldWriter (impl_type i) (λ v, entries (@to_ns_map _ w v)))
  | Optional => w ← impl_if_let_some i; Some (Build_FieldWriter (impl_type i) (w (cbor_str c)))
  | Mandatory => w ← impl_to_cbor i; Some (Build_FieldWriter (impl_type i) (λ v, [(cbor_str c, @to_cbor _ w v)]))
  end.

(** The fields [self.field] of a struct of the type [T]. *)
Fixpoint projections (writers : list FieldWriter) (T : Type) : Type :=
  match writers with [] => unit | w :: writers => ((T → writer_type w) * projections writers T)%type end.
Fixpoint run_conversions {T} (writers : list FieldWriter) : projections writers T → T → list Conversion :=
  match writers with
  | [] => λ _ _, []
  | w :: writers => λ p self, writer_value w (p.1 self) :: run_conversions writers p.2 self
  end.
Definition run_ns_map {T} (writers : list FieldWriter) (p : projections writers T) (self : T) : btree string Value :=
  named_to_ns_map (run_conversions writers p self).

(** The code generated for named fields, resolved in the scope of the struct;
    [None] when a conversion calls an implementation that does not exist. *)
Definition json_readers (impls : SynType → option Impls) (o : option (Output JsonConversion)) : option (list FieldReader) :=
  match o with Some (NamedImpl _ _ _ conversions) => mapM (field_reader impls) conversions | _ => None end.
Definition cbor_writers (impls : SynType → option Impls) (o : option (Output CborConversion)) : option (list FieldWriter) :=
  match o with Some (NamedImpl _ _ _ conversions) => mapM (field_writer impls) conversions | _ => None end.

(** ** Implementations of the types in scope *)

Definition field_impls T `{FromJson T, ToCbor T} : Impls := Build_Impls T (Some _) None (Some _) None None.
Definition many_impls T `{FromJsonMap T, ToNamespaceMap T} : Impls := Build_Impls T None (Some _) None None (Some _).
Definition dynamic_impls T `{FromJsonMap T, ToCbor T} : Impls := Build_Impls T None (Some _) (Some _) None None.
Definition option_impls (i : Impls) : Impls := {|
  impl_type := option (impl_type i);
  impl_from_json := option_map (@option_from (impl_type i)) (impl_from_json i);
  impl_from_map := option_map (@option_map_from (impl_type i)) (impl_from_map i);
  impl_to_cbor := None;
  impl_if_let_some := option_map (@optional_field (impl_type i)) (impl_to_cbor i);
  impl_to_ns_map := None;
|}.

Definition sequence_impls (container : Type → Type) (from : ∀ T, FromJson T → FromJson (container T)) (i : Impls) : Impls :=
  Build_Impls (container (impl_type i)) (option_map (from (impl_type i)) (impl_from_json i)) None None None None.

(** Names without arguments are looked up; [Option<T>], [Vec<T>] and [NonEmptyVec<T>] are resolved. *)
Fixpoint resolve (scope : list (string * Impls)) (ty : SynType) : option Impls :=
  match ty with
  | Type_Path None false [(ident, NoArguments)] => snd ∘ snd <$> list_find (λ p, p.1 = ident) scope
  | Type_Path None false [(ident, AngleBracketed [ty])] =>
      if bool_decide (ident = "Option"%string) then option_map option_impls (resolve scope ty) else
      if bool_decide (ident = "Vec"%string) then option_map (sequence_impls list (@vec_from)) (resolve scope ty) else
      if bool_decide (ident = "NonEmptyVec"%string)
      then option_map (sequence_impls NonEmptyVec (@non_empty_vec_from)) (resolve scope ty) else None
  | _ => None
  end.

(** ** The structs of the crate, as the macros see them *)

Definition ident_path (s : string) : Path := {| leading_colon := false; segments := [(s, NoArguments)] |}.
Definition named (s : string) : SynType := Type_Path None false [(s, NoArguments)].
Definition option_of (t : SynType) : SynType := Type_Path None false [("Option"%string, AngleBracketed [t])].
Definition word (s : string) : NestedMeta := Nested_Meta (Meta_Path (ident_path s)).
Definition entry (key value : string) : NestedMeta := Nested_Meta (Meta_NameValue (ident_path key) (Lit_Str value)).
Definition isomdl (l : list NestedMeta) : Attribute := {| parse_meta := Some (Meta_List (ident_path "isomdl") l) |}.
(** A documentation comment is an attribute; its text plays no part. *)
Definition doc : Attribute := {| parse_meta := Some (Meta_NameValue (ident_path "doc") (Lit_Str "")) |}.
Definition annotated (attrs : list Attribute) (name : string) (ty : SynType) : Field :=
  {| field_ident := Some name; field_ty := ty; field_attrs := attrs |}.
Definition plain : string → SynType → Field := annotated [].
Definition struct_input (name : string) (docs : nat) (l : list Field) : DeriveInput :=
  {| input_ident := name; input_data := Data_Struct (Fields_Named l);
     input_attrs := replicate docs doc ++ [isomdl [entry "crate" "crate"]] |}.
Definition of_type (container element : string) : SynType := Type_Path None false [(container, AngleBracketed [named element])].
Definition tuple_input (name : string) (docs : nat) (ty : SynType) : DeriveInput :=
  {| input_ident := name;
     input_data := Data_Struct (Fields_Unnamed [{| field_ident := None; field_ty := ty; field_attrs := [] |}]);
     input_attrs := replicate docs doc ++ [isomdl [entry "crate" "crate"]] |}.

Definition DrivingPrivilege_input : DeriveInput := struct_input "DrivingPrivilege" 0 [
  plain "vehicle_category_code" (named "VehicleCategoryCode"); plain "issue_date" (option_of (named "FullDate"));
  plain "expiry_date" (option_of (named "FullDate")); plain "codes" (option_of (named "Codes"))].
Definition Code_input : DeriveInput := struct_input "Code" 0 [
  plain "code" (named "String"); plain "sign" (option_of (named "String")); plain "value" (option_of (named "String"))].
Definition OrgIso1801351_input : DeriveInput := struct_input "OrgIso1801351" 1 [
  plain "family_name" (named "Latin1"); plain "given_name" (named "Latin1"); plain "birth_date" (named "FullDate");
  plain "issue_date" (named "TDateOrFullDate"); plain "expiry_date" (named "TDateOrFullDate");
  plain "issuing_country" (named "Alpha2"); plain "issuing_authority" (named "Latin1");
  plain "document_number" (named "Latin1"); plain "portrait" (named "ByteStr");
  plain "driving_privileges" (named "DrivingPrivileges");
  plain "un_distinguishing_sign" (named "UNDistinguishingSign");
  plain "administrative_number" (option_of (named "Latin1")); plain "sex" (option_of (named "Sex"));
  plain "height" (option_of (named "u32")); plain "weight" (option_of (named "u32"));
  plain "eye_colour" (option_of (named "EyeColour")); plain "hair_colour" (option_of (named "HairColour"));
  plain "birth_place" (option_of (named "Latin1")); plain "resident_address" (option_of (named "Latin1"));
  plain "portrait_capture_date" (option_of (named "TDate")); plain "age_in_years" (option_of (named "u32"));
  plain "age_birth_year" (option_of (named "u32")); annotated [isomdl [word "many"]] "age_over_xx" (named "AgeOver");
  annotated [isomdl [word "dynamic_parse"]] "issuing_jurisdiction" (option_of (named "IssuingJurisdiction"));
  plain "nationality" (option_of (named "Alpha2")); plain "resident_city" (option_of (named "Latin1"));
  plain "resident_state" (option_of (named "Latin1")); plain "resident_postal_code" (option_of (named "Latin1"));
  plain "resident_country" (option_of (named "Alpha2"));
  annotated [isomdl [word "many"]] "biometric_template_xx" (named "BiometricTemplate");
  plain "family_name_national_character" (option_of (named "String"));
  plain "given_name_national_character" (option_of (named "String"));
  plain "signature_usual_mark" (option_of (named "ByteStr"))].
Definition DomesticDrivingPrivilege_input : DeriveInput := struct_input "DomesticDrivingPrivilege" 0 [
  plain "domestic_vehicle_class" (option_of (named "DomesticVehicleClass"));
  plain "domestic_vehicle_restrictions" (option_of (named "DomesticVehicleRestrictions"));
  plain "domestic_vehicle_endorsements" (option_of (named "DomesticVehicleEndorsements"))].
Definition DomesticVehicleClass_input : DeriveInput := struct_input "DomesticVehicleClass" 0 [
  plain "domestic_vehicle_class_code" (named "String"); plain "domestic_vehicle_class_description" (named "String");
  plain "issue_date" (option_of (named "FullDate")); plain "expiry_date" (option_of (named "FullDate"))].
Definition DomesticVehicleRestriction_input : DeriveInput := struct_input "DomesticVehicleRestriction" 0 [
  plain "domestic_vehicle_restriction_code" (option_of (named "String"));
  plain "domestic_vehicle_restriction_description" (named "String")].
Definition DomesticVehicleEndorsement_input : DeriveInput := struct_input "DomesticVehicleEndorsement" 0 [
  plain "domestic_vehicle_endorsement_code" (option_of (named "String"));
  plain "domestic_vehicle_endorsement_description" (named "String")].
Definition OrgIso1801351Aamva_input : DeriveInput := struct_input "OrgIso1801351Aamva" 2 [
  plain "domestic_driving_privileges" (named "DomesticDrivingPrivileges");
  plain "name_suffix" (option_of (named "NameSuffix")); plain "organ_donor" (option_of (named "Present"));
  plain "veteran" (option_of (named "Present")); plain "family_name_truncation" (named "NameTruncation");
  plain "given_name_truncation" (named "NameTruncation");
  annotated [isomdl [entry "rename" "aka_family_name.v2"]] "aka_family_name_v2" (option_of (named "Latin1"));
  annotated [isomdl [entry "rename" "aka_given_name.v2"]] "aka_given_name_v2" (option_of (named "Latin1"));
  plain "aka_suffix" (option_of (named "NameSuffix")); plain "weight_range" (option_of (named "WeightRange"));
  plain "race_ethnicity" (option_of (named "RaceAndEthnicity"));
  annotated [isomdl [entry "rename" "EDL_credential"]] "edl_credential" (option_of (named "EDLIndicator"));
  plain "sex" (named "Sex");
  annotated [isomdl [entry "rename" "DHS_compliance"]] "dhs_compliance" (named "DHSCompliance");
  plain "resident_county" (option_of (named "CountyCode"));
  plain "hazmat_endorsement_expiration_date" (option_of (named "FullDate"));
  annotated [isomdl [entry "rename" "CDL_indicator"]] "cdl_indicator" (option_of (named "Present"));
  annotated [isomdl [entry "rename" "DHS_compliance_text"]] "dhs_compliance_text" (option_of (named "String"));
  annotated [isomdl [entry "rename" "DHS_temporary_lawful_status"]] "dhs_temporary_lawful_status" (option_of (named "Present"))].

(** Types in scope of the structs of the two namespaces. *)
Section scopes.
Context `{UnicodeCase, DateParse, Rfc3339, Base64Standard}.

Definition string_scope : list (string * Impls) := [("String"%string, field_impls string)].
Definition date_scope : list (string * Impls) := ("FullDate"%string, field_impls FullDate) :: string_scope.
Definition privilege_scope : list (string * Impls) :=
  [("VehicleCategoryCode", field_impls VehicleCategoryCode); ("Codes", field_impls Codes)]%string ++ date_scope.
Definition iso_scope : list (string * Impls) :=
  [("Latin1", field_impls Latin1); ("TDateOrFullDate", field_impls TDateOrFullDate);
   ("Alpha2", field_impls Alpha2Codes.Alpha2); ("ByteStr", field_impls ByteStr);
   ("DrivingPrivileges", field_impls DrivingPrivileges);
   ("UNDistinguishingSign", field_impls UNSigns.UNDistinguishingSign); ("Sex", field_impls Sex); ("u32", field_impls Z);
   ("EyeColour", field_impls EyeColour); ("HairColour", field_impls HairColour); ("TDate", field_impls TDate);
   ("AgeOver", many_impls AgeOver); ("IssuingJurisdiction", dynamic_impls IssuingJurisdiction);
   ("BiometricTemplate", many_impls BiometricTemplate)]%string ++ date_scope.
Definition domestic_scope : list (string * Impls) :=
  [("DomesticVehicleClass", field_impls DomesticVehicleClass);
   ("DomesticVehicleRestrictions", field_impls DomesticVehicleRestrictions);
   ("DomesticVehicleEndorsements", field_impls DomesticVehicleEndorsements)]%string ++ date_scope.
Definition aamva_scope : list (string * Impls) :=
  [("DomesticDrivingPrivileges", field_impls DomesticDrivingPrivileges); ("NameSuffix", field_impls NameSuffix);
   ("Present", field_impls Present); ("NameTruncation", field_impls NameTruncation); ("Latin1", field_impls Latin1);
   ("WeightRange", field_impls WeightRange); ("RaceAndEthnicity", field_impls RaceAndEthnicity);
   ("EDLIndicator", field_impls EDLIndicator); ("Sex", field_impls AamvaSex); ("DHSCompliance", field_impls DHSCompliance);
   ("CountyCode", field_impls CountyCode)]%string ++ date_scope.
End scopes.

(** The conversions of a struct, resolved in a scope. *)
Definition named_of (input : DeriveInput) : list Field :=
  match input_data input with Data_Struct (Fields_Named l) => l | _ => [] end.
Definition readers_of (scope : list (string * Impls)) (input : DeriveInput) : list FieldReader :=
  default [] (option_map (λ l, default [] (mapM (field_reader (resolve scope)) l)) (mapM json_conversion (named_of input))).
Definition writers_of (scope : list (string * Impls)) (input : DeriveInput) : list FieldWriter :=
  default [] (option_map (λ l, default [] (mapM (field_writer (resolve scope)) l)) (mapM cbor_conversion (named_of input))).

Section implements.
Context `{UnicodeCase, ProcMacro}.

(** The macros accept the struct, its conversions resolve in the scope, and the
    generated functions are the given ones. *)
Definition implements_json {T} (scope : list (string * Impls)) (input : DeriveInput)
    (build : constructor (readers_of scope input) T) (from : Json → option (result T FromJsonError)) : Prop :=
  json_readers (resolve scope) (derive_from_json input) = Some (readers_of scope input) ∧
  ∀ j, run_json (readers_of scope input) build j = from j.
Definition implements_ns_map {T} (scope : list (string * Impls)) (input : DeriveInput)
    (p : projections (writers_of scope input) T) (to : T → btree string Value) : Prop :=
  cbor_writers (resolve scope) (derive_to_cbor input) = Some (writers_of scope input) ∧
  ∀ t, run_ns_map (writers_of scope input) p t = to t.

Definition implements_struct {T} scope input build p (from : Json → option (result T FromJsonError))
    (to : T → btree string Value) : Prop :=
  implements_json scope input build from ∧ implements_ns_map scope input p to.

(** The identifiers the macros make for a struct of the crate are valid. *)
Definition valid_names (name : string) : Prop :=
  valid_ident "crate" = true ∧ valid_ident (to_lowercase name +:+ "_from_json_impl") = true ∧
  valid_ident (to_lowercase name +:+ "_to_cbor_impl") = true.

Lemma Ident_new_valid s : valid_ident s = true → Ident_new s = Some s.
Proof. unfold Ident_new. by intros ->. Qed.
Lemma struct_isomdl_path docs :
  valid_ident "crate" = true → isomdl_path (replicate docs doc ++ [isomdl [entry "crate" "crate"]]) = Some "crate"%string.
Proof.
  intros Hcrate. unfold isomdl_path. rewrite omap_app.
  assert (omap crate_path (replicate docs doc) = []) as -> by (induction docs; [done|exact IHdocs]).
  by rewrite <-(Ident_new_valid _ Hcrate).
Qed.
Lemma derive_from_json_struct name docs l : valid_names name →
  derive_from_json (struct_input name docs l) =
    (conversions ← mapM json_conversion l;
     Some (NamedImpl (to_lowercase name +:+ "_from_json_impl") "crate" name conversions)).
Proof.
  intros (Hcrate & Hname & _). unfold derive_from_json, struct_input. cbn [input_attrs]. rewrite (struct_isomdl_path docs Hcrate).
  cbn. unfold FromJson_named_fields. by rewrite (Ident_new_valid _ Hname).
Qed.
Lemma derive_to_cbor_struct name docs l : valid_names name →
  derive_to_cbor (struct_input name docs l) =
    (conversions ← mapM cbor_conversion l;
     Some (NamedImpl (to_lowercase name +:+ "_to_cbor_impl") "crate" name conversions)).
Proof.
  intros (Hcrate & _ & Hname). unfold derive_to_cbor, struct_input. cbn [input_attrs]. rewrite (struct_isomdl_path docs Hcrate).
  cbn. unfold ToCbor_named_fields. by rewrite (Ident_new_valid _ Hname).
Qed.
End implements.
End Macros.

Import Macros.
Ltac derived input := intros Hnames; split; (split; [|reflexivity]);
  [unfold json_readers, input; rewrite (derive_from_json_struct _ _ _ Hnames); reflexivity
  |unfold cbor_writers, input; rewrite (derive_to_cbor_struct _ _ _ Hnames); reflexivity].

(** ** What the macros accept *)

Definition accepted (d : Data) : bool :=
  match d with
  | Data_Struct (Fields_Named _) => true
  | Data_Struct (Fields_Unnamed fields) => bool_decide (length fields = 1)
  | _ => false
  end.
Definition compile_error {C} (o : Output C) : bool := match o with CompileError _ => true | _ => false end.
(** In a struct with named fields every field has a name. *)
Definition well_formed (input : DeriveInput) : Prop := Forall (λ f, is_Some (field_ident f)) (named_of input).
Definition crate_name (input : DeriveInput) : string := default "isomdl"%string (head (omap crate_path (input_attrs input))).

Section outcomes.
Context `{UnicodeCase, ProcMacro}.

(** The outcome of one macro: a panic on an invalid identifier, a compile error for
    the shapes it refuses, an implementation for the others. *)
Definition outcome {C} (suffix : string) (input : DeriveInput) (o : option (Output C)) : Prop :=
  match o with
  | None => valid_ident (crate_name input) = false ∨
      accepted (input_data input) = true ∧ valid_ident (to_lowercase (input_ident input) +:+ suffix) = false
  | Some out => valid_ident (crate_name input) = true ∧ compile_error out = negb (accepted (input_data input)) ∧
      (accepted (input_data input) = true → valid_ident (to_lowercase (input_ident input) +:+ suffix) = true)
  end.

Lemma json_conversions_total l : Forall (λ f, is_Some (field_ident f)) l → is_Some (mapM json_conversion l).
Proof. intros Hl. apply mapM_is_Some_2. eapply Forall_impl; [exact Hl|]. intros f [name Hname]. by eexists; unfold json_conversion; rewrite Hname. Qed.
Lemma cbor_conversions_total l : Forall (λ f, is_Some (field_ident f)) l → is_Some (mapM cbor_conversion l).
Proof. intros Hl. apply mapM_is_Some_2. eapply Forall_impl; [exact Hl|]. intros f [name Hname]. by eexists; unfold cbor_conversion; rewrite Hname. Qed.

Lemma singleton_unnamed (l : list Field) : bool_decide (length l = 1) = match reverse l with [_] => true | _ => false end.
Proof. rewrite <-(length_reverse l). by destruct (reverse l) as [|f [|f' k]]. Qed.
End outcomes.

(** By the shape of the type, after the crate path; the shapes that are accepted by the module name. *)
Ltac solve_outcome input total :=
  unfold derive_from_json, derive_to_cbor, isomdl_path, Ident_new; change (default _ (head _)) with (crate_name input);
  destruct (valid_ident (crate_name input)) eqn:Hcrate; cbn [mbind option_bind]; [|by left];
  unfold well_formed, named_of in *; destruct (input_data input) as [[named|unnamed|]| |] eqn:Hdata;
  [ match goal with Hnames : Forall _ _ |- _ => destruct (total _ Hnames) as [cs Hcs];
      unfold FromJson_named_fields, ToCbor_named_fields, Ident_new; rewrite Hcs; cbn [mbind option_bind] end
  | unfold FromJson_unnamed_fields, ToCbor_unnamed_fields, Ident_new;
    destruct (reverse unnamed) as [|f [|f' k]] eqn:Hrev
  | | | ];
  try (destruct (valid_ident _) eqn:Hname in |- *; cbn [mbind option_bind]);
  cbn [outcome]; rewrite Hdata; cbn [accepted]; rewrite ?singleton_unnamed;
  try match goal with Hrev : reverse _ = _ |- _ => rewrite Hrev end;
  repeat split; auto; discriminate.

(** [derive(FromJson)] and [derive(ToCbor)] accept exactly structs with named fields and tuple structs
    of one field; every other type is a compile error. They panic only when the crate path
    given by the attribute, or the module name made of the type's name, is not an identifier. *)
Theorem derive_outcomes `{UnicodeCase, ProcMacro} input : well_formed input →
  outcome "_from_json_impl" input (derive_from_json input) ∧ outcome "_to_cbor_impl" input (derive_to_cbor input).
Proof.
  intros Hnames. split.
  - solve_outcome input json_conversions_total.

  - solve_outcome input cbor_conversions_total.
Qed.

(** ** What the generated readers do *)

Lemma run_fields_errors {T} map readers (c : Fields (constructor readers T)) :
  errors_of (run_fields readers map c) =
    fold_left (λ acc e, errors ← acc; e ← e; Some (errors ++ e)) (reader_errors map <$> readers) (errors_of c).
Proof.
  revert c. induction readers as [|r readers IH]; intros c; [done|]. cbn [run_fields]. rewrite IH, errors_with_field. done.
Qed.
Lemma run_all_errors {T} map readers (build : constructor readers T) :
  all_errors (reader_errors map <$> readers) = errors_of (run_fields readers map (fields build)).
Proof. by rewrite run_fields_errors. Qed.
Lemma run_fields_ok {T} map readers (c : Fields (constructor readers T)) : fields_ok c → fields_ok (run_fields readers map c).
Proof. revert c. induction readers as [|r readers IH]; intros c Hc; [done|]. apply IH. by apply with_field_ok. Qed.

(** The constructor applied to the values of the fields. *)
Fixpoint built {T} (map : list (string * Json)) (readers : list FieldReader) : constructor readers T → T → Prop :=
  match readers with
  | [] => λ f t, t = f
  | r :: readers => λ f t, ∃ a, reader_value r map = Some (Ok a) ∧ built map readers (f a) t
  end.
Lemma run_fields_built {T} map readers (c : Fields (constructor readers T)) t errors :
  run_fields readers map c = Some (Some t, errors) ↔ ∃ f, c = Some (Some f, errors) ∧ built map readers f t.
Proof.
  revert c. induction readers as [|r readers IH]; intros c; cbn [run_fields built].
  - split; [intros ->; by exists t|]. by intros (f & -> & ->).
  - rewrite IH. setoid_rewrite with_field_Some. split.
    + intros (g & (f & a & -> & Ha & ->) & Hg). eauto.
    + intros (f & -> & a & Ha & Hf). exists (f a). split; [|done]. by exists f, a.
Qed.

(** The function [derive(FromJson)] generates, for any struct and any implementations
    for its fields. It reads every field in declaration order; when all succeed it
    returns the struct's constructor applied to their values, one failing field
    gives its error and several give all of them, each under the field's name;
    the generated [unwrap]s never panic: a panic is one of a field's own reader. *)
Theorem generated_reader {T} readers (build : constructor readers T) map :
  struct_outcome (all_errors (reader_errors map <$> readers)) (run_json readers build (JObject map)) ∧
  (∀ t, run_json readers build (JObject map) = Some (Ok t) ↔ built map readers build t) ∧
  (run_json readers build (JObject map) = None ↔ all_errors (reader_errors map <$> readers) = None).
Proof.
  unfold run_json. cbn [named_fields]. pose proof (run_fields_ok map readers _ (fields_fields_ok build)) as Hok.
  rewrite (run_all_errors map readers build). split_and!.
  - by apply finish_fields_outcome.
  - intros t. rewrite finish_fields_Ok, run_fields_built. split; [by intros (f & [= <-] & Hf)|]. intros Ht. by exists build.
  - rewrite (finish_fields_panics _ Hok). by destruct (run_fields readers map (fields build)).
Qed.

(** ** The two macros on one struct *)

Lemma many_dynamic attr : is_many attr = true → is_dynamic_parse attr = true.
Proof.
  unfold is_many, is_dynamic_parse. destruct (get_isomdl_attributes attr) as [ms|]; [|done].
  rewrite !existsb_exists. intros (m & Hm & Hmany). exists m. split; [done|]. destruct m; [|done]. by rewrite Hmany, orb_true_r.
Qed.

(** A struct that derives both traits is read from the keys it is written to. The
    conversions of the two macros are of the same fields in the same order, with the
    same types and names, and a field that is written as many entries is read
    from the whole object and not from a key of its own. *)
Theorem macros_agree `{UnicodeCase, ProcMacro} input module path ident js module' path' ident' cs :
  derive_from_json input = Some (NamedImpl module path ident js) →
  derive_to_cbor input = Some (NamedImpl module' path' ident' cs) →
  path = path' ∧ ident = ident' ∧
  Forall2 (λ j c, json_field j = cbor_field c ∧ json_ty j = cbor_ty c ∧ json_str j = cbor_str c ∧
             (cbor_writer c = Many → json_reader j = Dynamic)) js cs.
Proof.
  unfold derive_from_json, derive_to_cbor. destruct (isomdl_path _) as [p|]; [|done]. cbn [mbind option_bind].
  destruct (input_data input) as [[named|unnamed|]| |]; try done.
  - unfold FromJson_named_fields, ToCbor_named_fields.
    destruct (mapM json_conversion named) as [js'|] eqn:Hjs; [|done]. destruct (mapM cbor_conversion named) as [cs'|] eqn:Hcs; [|done].
    cbn [mbind option_bind]. destruct (Ident_new _) as [m|]; [|done]. destruct (Ident_new (_ +:+ "_to_cbor_impl")) as [m'|]; [|done].
    intros [= -> -> -> ->] [= -> -> -> ->]. split_and!; [done..|].
    apply mapM_Some in Hjs, Hcs. revert cs Hcs. induction Hjs as [|f j named js Hf _ IH]; intros cs Hcs; inversion Hcs as [|? c ? cs0 Hc Hcs0]; subst; constructor; [|by apply IH].
    unfold json_conversion in Hf. unfold cbor_conversion in Hc. destruct (field_ident f) as [name|]; [|done].
    injection Hf as <-. injection Hc as <-. cbn. split_and!; [done..|].
    destruct (existsb is_many (field_attrs f)) eqn:Hmany; [|by destruct (is_optional _)]. intros _.
    apply existsb_exists in Hmany as (a & Ha & Hmany). assert (existsb is_dynamic_parse (field_attrs f) = true) as ->; [|done].
    apply existsb_exists. exists a. split; [done|]. by apply many_dynamic.
  - unfold FromJson_unnamed_fields. destruct (reverse unnamed) as [|? [|? ?]]; [done| |done]. by destruct (Ident_new _).
Qed.

(** ** The structs of the namespaces *)

Section derived.
Context `{UnicodeCase, DateParse, Rfc3339, Base64Standard, !ProcMacro}.

Definition Code_projections : projections (writers_of string_scope Code_input) Code :=
    (code, (code_sign, (code_value, tt))).
Definition DrivingPrivilege_projections : projections (writers_of privilege_scope DrivingPrivilege_input) DrivingPrivilege :=
    (vehicle_category_code, (privilege_issue_date, (privilege_expiry_date, (privilege_codes, tt)))).
Definition DomesticVehicleClass_projections : projections (writers_of date_scope DomesticVehicleClass_input) DomesticVehicleClass :=
    (domestic_vehicle_class_code, (domestic_vehicle_class_description, (class_issue_date, (class_expiry_date,
    tt)))).
Definition DomesticVehicleRestriction_projections : projections (writers_of string_scope DomesticVehicleRestriction_input) DomesticVehicleRestriction :=
    (domestic_vehicle_restriction_code, (domestic_vehicle_restriction_description, tt)).
Definition DomesticVehicleEndorsement_projections : projections (writers_of string_scope DomesticVehicleEndorsement_input) DomesticVehicleEndorsement :=
    (domestic_vehicle_endorsement_code, (domestic_vehicle_endorsement_description, tt)).
Definition DomesticDrivingPrivilege_projections : projections (writers_of domestic_scope DomesticDrivingPrivilege_input) DomesticDrivingPrivilege :=
    (domestic_vehicle_class, (domestic_vehicle_restrictions, (domestic_vehicle_endorsements, tt))).
Definition OrgIso1801351_projections : projections (writers_of iso_scope OrgIso1801351_input) OrgIso1801351 :=
    (family_name, (given_name, (birth_date, (issue_date, (expiry_date, (issuing_country, (issuing_authority,
    (document_number, (portrait, (driving_privileges, (un_distinguishing_sign, (administrative_number, (sex,
    (height, (weight, (eye_colour, (hair_colour, (birth_place, (resident_address, (portrait_capture_date,
    (age_in_years, (age_birth_year, (age_over_xx, (issuing_jurisdiction, (nationality, (resident_city,
    (resident_state, (resident_postal_code, (resident_country, (biometric_template_xx,
    (family_name_national_character, (given_name_national_character, (signature_usual_mark,
    tt))))))))))))))))))))))))))))))))).
Definition OrgIso1801351Aamva_projections : projections (writers_of aamva_scope OrgIso1801351Aamva_input) OrgIso1801351Aamva :=
    (domestic_driving_privileges, (name_suffix, (organ_donor, (veteran, (family_name_truncation,
    (given_name_truncation, (aka_family_name_v2, (aka_given_name_v2, (aka_suffix, (weight_range,
    (race_ethnicity, (edl_credential, (aamva_sex, (dhs_compliance, (resident_county,
    (hazmat_endorsement_expiration_date, (cdl_indicator, (dhs_compliance_text, (dhs_temporary_lawful_status,
    tt))))))))))))))))))).

Lemma derived_Code : valid_names "Code" →
  implements_struct string_scope Code_input Build_Code Code_projections Code_from_json Code_to_ns_map.
Proof. derived Code_input. Qed.
Lemma derived_DrivingPrivilege : valid_names "DrivingPrivilege" →
  implements_struct privilege_scope DrivingPrivilege_input Build_DrivingPrivilege DrivingPrivilege_projections DrivingPrivilege_from_json DrivingPrivilege_to_ns_map.
Proof. derived DrivingPrivilege_input. Qed.
Lemma derived_DomesticVehicleClass : valid_names "DomesticVehicleClass" →
  implements_struct date_scope DomesticVehicleClass_input Build_DomesticVehicleClass DomesticVehicleClass_projections DomesticVehicleClass_from_json DomesticVehicleClass_to_ns_map.
Proof. derived DomesticVehicleClass_input. Qed.
Lemma derived_DomesticVehicleRestriction : valid_names "DomesticVehicleRestriction" →
  implements_struct string_scope DomesticVehicleRestriction_input Build_DomesticVehicleRestriction DomesticVehicleRestriction_projections DomesticVehicleRestriction_from_json DomesticVehicleRestriction_to_ns_map.
Proof. derived DomesticVehicleRestriction_input. Qed.
Lemma derived_DomesticVehicleEndorsement : valid_names "DomesticVehicleEndorsement" →
  implements_struct string_scope DomesticVehicleEndorsement_input Build_DomesticVehicleEndorsement DomesticVehicleEndorsement_projections DomesticVehicleEndorsement_from_json DomesticVehicleEndorsement_to_ns_map.
Proof. derived DomesticVehicleEndorsement_input. Qed.
Lemma derived_DomesticDrivingPrivilege : valid_names "DomesticDrivingPrivilege" →
  implements_struct domestic_scope DomesticDrivingPrivilege_input Build_DomesticDrivingPrivilege DomesticDrivingPrivilege_projections DomesticDrivingPrivilege_from_json DomesticDrivingPrivilege_to_ns_map.
Proof. derived DomesticDrivingPrivilege_input. Qed.
Lemma derived_OrgIso1801351 : valid_names "OrgIso1801351" →
  implements_struct iso_scope OrgIso1801351_input Build_OrgIso1801351 OrgIso1801351_projections OrgIso1801351_from_json OrgIso1801351_to_ns_map.
Proof. derived OrgIso1801351_input. Qed.
Lemma derived_OrgIso1801351Aamva : valid_names "OrgIso1801351Aamva" →
  implements_struct aamva_scope OrgIso1801351Aamva_input Build_OrgIso1801351Aamva OrgIso1801351Aamva_projections OrgIso1801351Aamva_from_json OrgIso1801351Aamva_to_ns_map.
Proof. derived OrgIso1801351Aamva_input. Qed.

(** The tuple structs, with the implementation of their field. *)
Definition implements_unnamed {T} (scope : list (string * Impls)) (input : DeriveInput) (i : Impls) (build : impl_type i → T)
    (from : Json → option (result T FromJsonError)) : Prop :=
  ∃ module path ident ty f,
    derive_from_json input = Some (UnnamedImpl module path ident ty) ∧ resolve scope ty = Some i ∧
    impl_from_json i = Some f ∧ ∀ j, unnamed_field (H := f) build j = from j.
Lemma implements_unnamed_intro {T} scope i name docs ty build f (from : Json → option (result T FromJsonError)) :
  valid_names name → resolve scope ty = Some i → impl_from_json i = Some f → (∀ j, unnamed_field (H := f) build j = from j) →
  implements_unnamed scope (tuple_input name docs ty) i build from.
Proof.
  intros (Hcrate & Hname & _) Hty Hf Hfrom. eexists _, _, _, _, f. split; [|by repeat split].
  unfold derive_from_json, tuple_input. cbn [input_attrs]. rewrite (struct_isomdl_path docs Hcrate). cbn. unfold FromJson_unnamed_fields.
  by rewrite (Ident_new_valid _ Hname).
Qed.

Definition element_scope : list (string * Impls) :=
  [("DrivingPrivilege", field_impls DrivingPrivilege); ("Code", field_impls Code);
   ("DomesticDrivingPrivilege", field_impls DomesticDrivingPrivilege);
   ("DomesticVehicleRestriction", field_impls DomesticVehicleRestriction);
   ("DomesticVehicleEndorsement", field_impls DomesticVehicleEndorsement)]%string.

Definition struct_names : list string :=
  ["DrivingPrivileges"; "Codes"; "DomesticDrivingPrivileges"; "DomesticVehicleRestrictions";
   "DomesticVehicleEndorsements"; "Code"; "DrivingPrivilege"; "DomesticVehicleClass";
   "DomesticVehicleRestriction"; "DomesticVehicleEndorsement"; "DomesticDrivingPrivilege"; "OrgIso1801351";
   "OrgIso1801351Aamva"]%string.
End derived.

(** The readers and writers this development gives the structs of the two namespaces
    and of their elements are the ones the derive macros generate from the structs'
    declarations: the macros accept each declaration, every conversion they emit calls
    an implementation in scope, and running the generated functions is the
    written-out [from_json] and [to_ns_map]. *)
Theorem derived_structs `{UnicodeCase, DateParse, Rfc3339, Base64Standard, !ProcMacro} :
  Forall valid_names struct_names →
  implements_struct string_scope Code_input Build_Code Code_projections
    Code_from_json Code_to_ns_map ∧
  implements_struct privilege_scope DrivingPrivilege_input Build_DrivingPrivilege DrivingPrivilege_projections
    DrivingPrivilege_from_json DrivingPrivilege_to_ns_map ∧
  implements_struct date_scope DomesticVehicleClass_input Build_DomesticVehicleClass DomesticVehicleClass_projections
    DomesticVehicleClass_from_json DomesticVehicleClass_to_ns_map ∧
  implements_struct string_scope DomesticVehicleRestriction_input Build_DomesticVehicleRestriction DomesticVehicleRestriction_projections
    DomesticVehicleRestriction_from_json DomesticVehicleRestriction_to_ns_map ∧
  implements_struct string_scope DomesticVehicleEndorsement_input Build_DomesticVehicleEndorsement DomesticVehicleEndorsement_projections
    DomesticVehicleEndorsement_from_json DomesticVehicleEndorsement_to_ns_map ∧
  implements_struct domestic_scope DomesticDrivingPrivilege_input Build_DomesticDrivingPrivilege DomesticDrivingPrivilege_projections
    DomesticDrivingPrivilege_from_json DomesticDrivingPrivilege_to_ns_map ∧
  implements_struct iso_scope OrgIso1801351_input Build_OrgIso1801351 OrgIso1801351_projections
    OrgIso1801351_from_json OrgIso1801351_to_ns_map ∧
  implements_struct aamva_scope OrgIso1801351Aamva_input Build_OrgIso1801351Aamva OrgIso1801351Aamva_projections
    OrgIso1801351Aamva_from_json OrgIso1801351Aamva_to_ns_map ∧
  implements_unnamed element_scope (tuple_input "DrivingPrivileges" 1 (of_type "Vec" "DrivingPrivilege"))
    (sequence_impls list (@vec_from) (field_impls DrivingPrivilege))
    Build_DrivingPrivileges DrivingPrivileges_from_json ∧
  implements_unnamed element_scope (tuple_input "Codes" 0 (of_type "NonEmptyVec" "Code"))
    (sequence_impls NonEmptyVec (@non_empty_vec_from) (field_impls Code))
    Build_Codes Codes_from_json ∧
  implements_unnamed element_scope (tuple_input "DomesticDrivingPrivileges" 2 (of_type "Vec" "DomesticDrivingPrivilege"))
    (sequence_impls list (@vec_from) (field_impls DomesticDrivingPrivilege))
    Build_DomesticDrivingPrivileges DomesticDrivingPrivileges_from_json ∧
  implements_unnamed element_scope (tuple_input "DomesticVehicleRestrictions" 0 (of_type "NonEmptyVec" "DomesticVehicleRestriction"))
    (sequence_impls NonEmptyVec (@non_empty_vec_from) (field_impls DomesticVehicleRestriction))
    Build_DomesticVehicleRestrictions DomesticVehicleRestrictions_from_json ∧
  implements_unnamed element_scope (tuple_input "DomesticVehicleEndorsements" 0 (of_type "NonEmptyVec" "DomesticVehicleEndorsement"))
    (sequence_impls NonEmptyVec (@non_empty_vec_from) (field_impls DomesticVehicleEndorsement))
    Build_DomesticVehicleEndorsements DomesticVehicleEndorsements_from_json.
Proof.
  intros Hnames. rewrite Forall_forall in Hnames.
  assert (∀ name, bool_decide (name ∈ struct_names) = true → valid_names name) as Hvalid.
  { intros name Hname%bool_decide_eq_true. by apply Hnames. }
  split_and!;
    [ apply derived_Code | apply derived_DrivingPrivilege | apply derived_DomesticVehicleClass | apply derived_DomesticVehicleRestriction
    | apply derived_DomesticVehicleEndorsement | apply derived_DomesticDrivingPrivilege | apply derived_OrgIso1801351
    | apply derived_OrgIso1801351Aamva
    | eapply implements_unnamed_intro; [|reflexivity..].. ].
  all: by apply Hvalid.
Qed.
