(* ===== verification/CodeTables.v ===== *)
(** * Codes and restricted texts

    The tables of codes are exact in both directions, and the types of restricted
    text hold exactly the texts their rules allow. *)

From S2P Require Export NamespaceErrors.

(** ** Codes *)

(** A table of texts that names every value once reads back what is written. *)
Lemma match_str_exact {T} (arms : list (string * T)) (to_str : T → string) s x (e : ElementError) :
  Forall (λ arm, to_str arm.2 = arm.1) arms → (∀ y, match_str arms (to_str y) = Some y) →
  ok_or e (match_str arms s) = Ok x ↔ to_str x = s.
Proof.
  intros Harms Hall. rewrite <-(match_str_Some arms to_str s x Harms Hall).
  destruct (match_str arms s); cbn [ok_or]; naive_solver.
Qed.
Ltac exact_text arms to_str :=
  apply (match_str_exact arms to_str); [repeat constructor | intros []; reflexivity].

Lemma NameSuffix_exact s x : NameSuffix_from_str s = Ok x ↔ NameSuffix_to_str x = s.
Proof. exact_text NameSuffix_arms NameSuffix_to_str. Qed.
Lemma NameTruncation_exact s x : NameTruncation_from_str s = Ok x ↔ NameTruncation_to_str x = s.
Proof. exact_text [("T", Truncated); ("N", NotTruncated); ("U", UnknownTruncation)]%string NameTruncation_to_str. Qed.
Lemma DHSCompliance_exact s x : DHSCompliance_from_str s = Ok x ↔ DHSCompliance_to_str x = s.
Proof. exact_text [("F", DHS_F); ("N", DHS_N)]%string DHSCompliance_to_str. Qed.
Lemma RaceAndEthnicity_exact s x : RaceAndEthnicity_from_str s = Ok x ↔ RaceAndEthnicity_to_str x = s.
Proof.
  exact_text [("AI", Race_AI); ("AP", Race_AP); ("BK", Race_BK); ("H", Race_H); ("O", Race_O); ("U", Race_U);
    ("W", Race_W)]%string RaceAndEthnicity_to_str.
Qed.
Lemma EyeColour_exact `{UnicodeCase} s x : EyeColour_from_str s = Ok x ↔ EyeColour_to_str x = to_lowercase s.
Proof. exact_text EyeColour_arms EyeColour_to_str. Qed.
Lemma HairColour_exact `{UnicodeCase} s x : HairColour_from_str s = Ok x ↔ HairColour_to_str x = to_lowercase s.
Proof. exact_text HairColour_arms HairColour_to_str. Qed.
Lemma VehicleCategoryCode_exact `{UnicodeCase} s x :
  VehicleCategoryCode_from_json (JString s) = Some (Ok x) ↔ VehicleCategoryCode_as_ref x = to_uppercase s.
Proof.
  transitivity (ok_or VariantNotFound (match_str VehicleCategoryCode_arms (to_uppercase s)) = Ok x).
  - unfold VehicleCategoryCode_from_json. cbn [string_from_json ok obind mbind option_bind].
    destruct (ok_or _ _); cbn [parsing map_err]; (split; [by intros [= ->] || done|by intros [= ->] || done]).
  - exact_text VehicleCategoryCode_arms VehicleCategoryCode_as_ref.
Qed.

(** A numeric code: what [TryFrom] accepts is what [Into] gives. *)
Ltac exact_number u x :=
  split; [|by intros <-; destruct x];
  repeat match goal with |- context [match ?v with _ => _ end] => is_var v; destruct v end; try discriminate; by intros [= <-].
Lemma Sex_exact u x : Sex_try_from u = Ok x ↔ Sex_into_u8 x = u.
Proof. unfold Sex_try_from. exact_number u x. Qed.
Lemma AamvaSex_exact u x : AamvaSex_try_from u = Ok x ↔ AamvaSex_into_u8 x = u.
Proof. unfold AamvaSex_try_from. exact_number u x. Qed.
Lemma EDLIndicator_exact u x : EDLIndicator_try_from u = Ok x ↔ EDLIndicator_into_u8 x = u.
Proof. unfold EDLIndicator_try_from. exact_number u x. Qed.
Lemma WeightRange_exact u x : WeightRange_try_from u = Ok x ↔ WeightRange_into_u8 x = u.
Proof. unfold WeightRange_try_from. exact_number u x. Qed.

Create HintDb codes.
#[export] Hint Resolve Alpha2Codes.Alpha2_from_str_Ok NameSuffix_exact NameTruncation_exact DHSCompliance_exact
  RaceAndEthnicity_exact EyeColour_exact HairColour_exact VehicleCategoryCode_exact Sex_exact AamvaSex_exact
  EDLIndicator_exact WeightRange_exact sign_into_from_string sign_from_into_string : codes.

(** C37: the tables of codes are exact in both directions. For each enumeration of the
    namespaces the reader accepts a text or a number exactly when it is the one that
    some value is written as, and gives that value (after mapping to lower case for
    the colours and to upper case for the vehicle categories); so every value is
    read back from what it is written as, and no two values share a code. A
    distinguishing sign is read from any text and written as the same text; a sign
    held as free text is read back as such exactly when it is not a listed one. *)
Theorem codes_exact `{UnicodeCase} :
  (∀ s x, Alpha2Codes.Alpha2_from_str s = Ok x ↔ Alpha2Codes.Alpha2_as_str x = s) ∧
  (∀ s x, NameSuffix_from_str s = Ok x ↔ NameSuffix_to_str x = s) ∧
  (∀ s x, NameTruncation_from_str s = Ok x ↔ NameTruncation_to_str x = s) ∧
  (∀ s x, DHSCompliance_from_str s = Ok x ↔ DHSCompliance_to_str x = s) ∧
  (∀ s x, RaceAndEthnicity_from_str s = Ok x ↔ RaceAndEthnicity_to_str x = s) ∧
  (∀ s x, EyeColour_from_str s = Ok x ↔ EyeColour_to_str x = to_lowercase s) ∧
  (∀ s x, HairColour_from_str s = Ok x ↔ HairColour_to_str x = to_lowercase s) ∧
  (∀ s x, VehicleCategoryCode_from_json (JString s) = Some (Ok x) ↔ VehicleCategoryCode_as_ref x = to_uppercase s) ∧
  (∀ u x, Sex_try_from u = Ok x ↔ Sex_into_u8 x = u) ∧
  (∀ u x, AamvaSex_try_from u = Ok x ↔ AamvaSex_into_u8 x = u) ∧
  (∀ u x, EDLIndicator_try_from u = Ok x ↔ EDLIndicator_into_u8 x = u) ∧
  (∀ u x, WeightRange_try_from u = Ok x ↔ WeightRange_into_u8 x = u) ∧
  (∀ s, UNSigns.UNDistinguishingSign_into_string (UNSigns.UNDistinguishingSign_from_string s) = s) ∧
  (∀ x, UNSigns.UNDistinguishingSign_from_string (UNSigns.UNDistinguishingSign_into_string x) = x ↔
     match x with UNSigns.NoneApplicable s => s ∉ UNSigns.sign_arms.*1 | _ => True end).
Proof. split_and!; auto with codes. Qed.

(** ** Restricted texts *)

Lemma chars_digit c s : is_digit c = true → chars (char_to_string c +:+ s) = c :: chars s.
Proof.
  intros Hc. rewrite char_to_string_digit by done. apply is_digit_bound in Hc. unfold chars.
  assert (decode_string [c] +:+ s = decode_string (c :: encode_string s))%string as ->
    by (by rewrite (decode_string_cons c (encode_string s)), decode_encode_string).
  rewrite encode_decode_string; [|constructor; [unfold is_byte; lia|apply encode_string_bytes]].
  cbn [utf8_chars]. by destruct (Z.ltb_spec c 0x80); [|lia].
Qed.

Lemma Latin1_exact s l :
  Latin1_from_str s = Ok l ↔ latin1_str l = s ∧ (String.length s ≤ 150)%nat ∧ Forall (λ c, is_latin c) (chars s).
Proof.
  unfold Latin1_from_str. destruct l as [s']. cbn [latin1_str]. destruct (Nat.ltb_spec 150 (String.length s)).
  - split; [done|]. intros (_ & Hlen & _). lia.
  - assert (filter (λ c, ¬ is_latin c) (chars s) = [] ↔ Forall (λ c, is_latin c) (chars s)) as Hfilter.
    { split.
      - intros Hnil. apply Forall_forall. intros c Hc. destruct (is_latin c) eqn:Hl; [done|].
        assert (c ∈ filter (λ c, ¬ is_latin c) (chars s)) as Hin.
        { apply list_elem_of_filter. rewrite Hl. split; [intros []|exact Hc]. }
        rewrite Hnil in Hin. by apply not_elem_of_nil in Hin.
      - intros Hall. induction Hall as [|c cs Hc _ IH]; [done|]. rewrite filter_cons_False; [exact IH|by intros Hn]. }
    destruct (filter _ _) as [|c cs].
    + split; [intros [= ->]; split_and!; [done|lia|by apply Hfilter]|by intros (-> & _)].
    + split; [done|]. intros (_ & _ & Hall). by apply Hfilter in Hall.
Qed.

Lemma to_age_exact s a b :
  to_age s = Some (a, b) ↔
  is_digit a = true ∧ is_digit b = true ∧ s = (char_to_string a +:+ char_to_string b)%string.
Proof.
  split.
  - intros Hs. assert (age_parse ("age_over_" +:+ s)%string = Some (a, b)) as Hk by done.
    apply age_parse_key in Hk. unfold to_age in Hs. destruct (chars s) as [|c1 [|c2 cs]]; [done..|].
    destruct (is_digit c1) eqn:H1; [|done]. destruct (is_digit c2) eqn:H2; [|done]. destruct cs; [|done].
    injection Hs as -> ->. split_and!; [done..|]. injection Hk as Hk. symmetry. exact Hk.
  - intros (Ha & Hb & ->). unfold to_age. rewrite chars_digit, <-(string_append_nil (char_to_string b)), chars_digit by done.
    by cbn [chars encode_string utf8_chars]; rewrite Ha, Hb.
Qed.

Lemma CountyCode_exact s c1 c2 c3 :
  CountyCode_new s = Ok {| county_digits := (c1, c2, c3) |} ↔
  is_digit c1 = true ∧ is_digit c2 = true ∧ is_digit c3 = true ∧
  CountyCode_as_str {| county_digits := (c1, c2, c3) |} = s.
Proof.
  unfold CountyCode_new, CountyCode_as_str, to_treble_digits. cbn [county_digits]. split.
  - destruct (chars s) as [|d1 l1] eqn:H1; [done|]. cbn [next_digit]. destruct (is_digit d1) eqn:Hd1; [|done].
    destruct (digit_text s d1 l1 H1 Hd1) as (s1 & -> & Hs1).
    destruct l1 as [|d2 l2]; [done|]. cbn [rbind next_digit]. destruct (is_digit d2) eqn:Hd2; [|done].
    destruct (digit_text s1 d2 l2 Hs1 Hd2) as (s2 & -> & Hs2).
    destruct l2 as [|d3 l3]; [done|]. cbn [rbind next_digit]. destruct (is_digit d3) eqn:Hd3; [|done].
    destruct (digit_text s2 d3 l3 Hs2 Hd3) as (s3 & -> & Hs3).
    destruct l3; [|done]. intros [= -> -> ->]. apply chars_nil in Hs3 as ->. by rewrite string_append_nil.
  - intros (H1 & H2 & H3 & <-). rewrite !chars_digit, <-(string_append_nil (char_to_string c3)), chars_digit by done.
    cbn [next_digit]. rewrite H1. cbn [rbind next_digit]. rewrite H2. cbn [rbind next_digit]. by rewrite H3.
Qed.

Lemma jurisdiction_exact s country i :
  IssuingJurisdiction_new s country = Ok i ↔
  jurisdiction i = s ∧ ∃ rest, s = (Alpha2Codes.Alpha2_as_str country +:+ rest)%string.
Proof.
  unfold IssuingJurisdiction_new. destruct i as [s']. cbn [jurisdiction].
  destruct (Engagement.strip_prefix _ s) as [r|] eqn:Hs.
  - apply strip_prefix_Some in Hs. split; [intros [= ->]; eauto|by intros (-> & _)].
  - split; [done|]. intros (_ & r & ->). by rewrite Engagement.strip_prefix_app in Hs.
Qed.

(** Dates and ages as decimal digits. *)
Lemma decode_string_length l : String.length (decode_string l) = length l.
Proof. induction l as [|b l IH]; [done|]. cbn. by rewrite <-IH. Qed.
Lemma string_append_length s t : String.length (s +:+ t) = (String.length s + String.length t)%nat.
Proof. induction s as [|a s IH]; [done|]. cbn. by rewrite <-IH. Qed.
Lemma decimal_length n :
  (0 ≤ n < 10000)%Z →
  String.length (decimal n) = (if (n <? 10)%Z then 1 else if (n <? 100)%Z then 2 else if (n <? 1000)%Z then 3 else 4)%nat.
Proof.
  intros Hn. unfold decimal. rewrite (proj2 (Z.ltb_ge n 0)) by lia. rewrite decode_string_length.
  change 10%nat with (S (S (S (S 6)))). cbn [digits].
  destruct (Z.ltb_spec n 10); [done|]. rewrite length_app. destruct (Z.ltb_spec n 100).
  { rewrite (proj2 (Z.ltb_lt (n / 10) 10)); [done|]. apply Z.div_lt_upper_bound; lia. }
  rewrite (proj2 (Z.ltb_ge (n / 10) 10)) by (apply Z.div_le_lower_bound; lia). rewrite length_app.
  rewrite Z.div_div by lia. destruct (Z.ltb_spec n 1000).
  { rewrite (proj2 (Z.ltb_lt (n / (10 * 10)) 10)); [done|]. apply Z.div_lt_upper_bound; lia. }
  rewrite (proj2 (Z.ltb_ge (n / (10 * 10)) 10)) by (apply Z.div_le_lower_bound; lia). rewrite length_app.
  rewrite Z.div_div by lia. rewrite (proj2 (Z.ltb_lt (n / (10 * 10 * 10)) 10)); [done|]. apply Z.div_lt_upper_bound; lia.
Qed.
Lemma pad2_length n : (0 ≤ n < 100)%Z → String.length (pad2 (decimal n)) = 2%nat.
Proof.
  intros Hn. unfold pad2. rewrite (decimal_length n) by lia. destruct (Z.ltb_spec n 10).
  - cbn [Nat.ltb Nat.leb]. rewrite string_append_length, decode_string_length, decimal_length, (proj2 (Z.ltb_lt n 10)) by lia. done.
  - rewrite (proj2 (Z.ltb_lt n 100)) by lia. cbn [Nat.ltb Nat.leb]. rewrite decimal_length by lia.
    by rewrite (proj2 (Z.ltb_ge n 10)), (proj2 (Z.ltb_lt n 100)) by lia.
Qed.
Lemma FullDate_display_length d :
  (0 ≤ date_year (full_date d) < 10000)%Z → (0 ≤ date_month (full_date d) < 100)%Z → (0 ≤ date_day (full_date d) < 100)%Z →
  String.length (FullDate_display d) = 10%nat ↔ (1000 ≤ date_year (full_date d))%Z.
Proof.
  intros Hy Hm Hd. unfold FullDate_display. rewrite !string_append_length, !pad2_length, decimal_length by done. cbn [String.length].
  destruct (Z.ltb_spec (date_year (full_date d)) 10); [lia|]. destruct (Z.ltb_spec (date_year (full_date d)) 100); [lia|].
  destruct (Z.ltb_spec (date_year (full_date d)) 1000); lia.
Qed.
Lemma Age_try_from_exact u :
  (0 ≤ u < 256)%Z →
  Age_try_from u = if (u <? 100)%Z then Ok (48 + u / 10, 48 + u mod 10)%Z else Err (AgeTooLarge u).
Proof.
  intros Hu. assert (Forall (λ u, Age_try_from u = if (u <? 100)%Z then Ok (48 + u / 10, 48 + u mod 10)%Z
    else Err (AgeTooLarge u)) (Z.of_nat <$> seq 0 256)) as Hall by (repeat (constructor; [reflexivity|]); constructor).
  rewrite Forall_forall in Hall. apply Hall. apply list_elem_of_fmap. exists (Z.to_nat u). split; [lia|].
  apply elem_of_seq. lia.
Qed.

(** C38: the types of restricted text accept exactly the texts their rules allow and keep
    them. A Latin-1 text has at most 150 bytes and only printable Latin-1 characters;
    an age over is two ASCII digits, and the number of an age gives them below 100 and
    an error from there on; a county code is three ASCII digits and is written back as
    them; a jurisdiction begins with its country's code; and a full date from the
    years 0 to 9999 is written in the ten characters of its format exactly from the
    year 1000 on (the year is not padded). *)
Theorem restricted_texts :
  (∀ s l, Latin1_from_str s = Ok l ↔
     latin1_str l = s ∧ (String.length s ≤ 150)%nat ∧ Forall (λ c, is_latin c) (chars s)) ∧
  (∀ s a b, to_age s = Some (a, b) ↔
     is_digit a = true ∧ is_digit b = true ∧ s = (char_to_string a +:+ char_to_string b)%string) ∧
  (∀ u, (0 ≤ u < 256)%Z →
     Age_try_from u = if (u <? 100)%Z then Ok (48 + u / 10, 48 + u mod 10)%Z else Err (AgeTooLarge u)) ∧
  (∀ s c1 c2 c3, CountyCode_new s = Ok {| county_digits := (c1, c2, c3) |} ↔
     is_digit c1 = true ∧ is_digit c2 = true ∧ is_digit c3 = true ∧
     CountyCode_as_str {| county_digits := (c1, c2, c3) |} = s) ∧
  (∀ s country i, IssuingJurisdiction_new s country = Ok i ↔
     jurisdiction i = s ∧ ∃ rest, s = (Alpha2Codes.Alpha2_as_str country +:+ rest)%string) ∧
  (∀ y m d, (0 ≤ y < 10000)%Z → (1 ≤ m ≤ 12)%Z → (1 ≤ d ≤ 31)%Z →
     String.length (FullDate_display {| full_date := {| date_year := y; date_month := m; date_day := d |} |}) = 10%nat ↔
     (1000 ≤ y)%Z).
Proof.
  split_and!; [exact Latin1_exact|exact to_age_exact|exact Age_try_from_exact|exact CountyCode_exact|exact jurisdiction_exact|].
  intros y m d Hy Hm Hd. apply FullDate_display_length; cbn; lia.
Qed.
