(* ===== verification/NamespaceExamples.v ===== *)
(** * Namespaces on concrete input

    Calendar, timestamp and base64 functions that evaluate, an mDL and an AAMVA
    namespace in JSON, and the theorems about namespaces and about the derive macros
    applied to them. *)

From S2P Require Export CodeTables.
From S2P Require Import Derive.

#[local] Open Scope string_scope.

(** ** Concrete functions *)

Definition ascii_shift (lo hi : nat) (up : bool) (a : Ascii.ascii) : Ascii.ascii :=
  let n := Ascii.nat_of_ascii a in
  if ((lo <=? n) && (n <=? hi))%nat then Ascii.ascii_of_nat (if up then n - 32 else n + 32)%nat else a.
Fixpoint map_string (f : Ascii.ascii → Ascii.ascii) (s : string) : string :=
  match s with EmptyString => EmptyString | String a s' => String (f a) (map_string f s') end.
#[local] Instance ascii_case : UnicodeCase := {|
  to_uppercase := map_string (ascii_shift 97 122 true);
  to_lowercase := map_string (ascii_shift 65 90 false);
|}.

Definition number (l : list Z) : Z := fold_left (λ n c, n * 10 + (c - 48))%Z l 0%Z.
#[local] Instance calendar : DateParse := λ s,
  match chars s with
  | [y1; y2; y3; y4; 45%Z; m1; m2; 45%Z; d1; d2] =>
      if forallb is_digit [y1; y2; y3; y4; m1; m2; d1; d2]
      then Some {| date_year := number [y1; y2; y3; y4]; date_month := number [m1; m2]; date_day := number [d1; d2] |}
      else None
  | _ => None
  end.

#[local] Existing Instance example_rfc3339.
#[local] Existing Instance example_rfc3339_laws.
#[local] Instance plain_base64 : Base64Standard := {|
  encode := decode_string;
  decode s := Some (encode_string s);
|}.

(** ** Namespaces in JSON *)

Definition example_iso (issue_date : string) : list (string * Json) := [
  ("age_over_18", JBool true); ("age_over_181", JBool false);
  ("biometric_template_face", JString "xyz"); ("birth_date", JString "1980-01-02");
  ("document_number", JString "12345"); ("driving_privileges", JArray [JObject [("vehicle_category_code", JString "a")]]);
  ("expiry_date", JString "2025-09-12"); ("eye_colour", JString "BROWN"); ("family_name", JString "Smith");
  ("given_name", JString "Alice"); ("height", JNull); ("issue_date", JString issue_date);
  ("issuing_authority", JString "NY DMV"); ("issuing_country", JString "US"); ("issuing_jurisdiction", JString "US-NY");
  ("portrait", JString "abc"); ("sex", JNumber 2); ("un_distinguishing_sign", JString "USA"); ("unknown", JNull)].
Definition example_aamva : list (string * Json) := [
  ("DHS_compliance", JString "F"); ("domestic_driving_privileges", JArray []); ("family_name_truncation", JString "N");
  ("given_name_truncation", JString "N"); ("organ_donor", JNumber 1); ("resident_county", JString "001"); ("sex", JNumber 1)].

Example iso_reads_example :
  match OrgIso1801351_from_json (JObject (example_iso "1970-01-01T01:00:00+01:00")) with
  | Some (Ok ns) =>
      let m := OrgIso1801351_to_ns_map ns in
      m !! "issue_date" = Some (Tag 0 (Text "1970-01-01T00:00:00Z")) ∧
      m !! "expiry_date" = Some (Tag 1004 (Text "2025-09-12")) ∧
      m !! "age_over_18" = Some (Bool true) ∧ m !! "age_over_181" = None ∧ m !! "height" = None ∧
      m !! "eye_colour" = Some (Text "brown") ∧ m !! "sex" = Some (Integer 2) ∧ m !! "unknown" = None ∧
      m !! "issuing_jurisdiction" = Some (Text "US-NY") ∧
      m !! "driving_privileges" = Some (Array [Map [(Text "vehicle_category_code", Text "A")]])
  | _ => False
  end.
Proof. vm_compute. by split_and!. Qed.
Example iso_errors_example :
  OrgIso1801351_from_json (JObject (("height", JNumber (-1)) :: example_iso "never")) =
  Some (Err (Multiple [WithContext "issue_date" (Parsing NoDateOrDateTime); WithContext "height" ExpectedPositiveInteger])).
Proof. vm_compute. reflexivity. Qed.

Lemma namespace_conversion_witness :
  NoDup (example_iso "1970-01-01T01:00:00+01:00").*1 ∧
  (∃ ns, OrgIso1801351_from_json (JObject (example_iso "1970-01-01T01:00:00+01:00")) = Some (Ok ns) ∧
     (∀ k, OrgIso1801351_to_ns_map ns !! k = iso_element (example_iso "1970-01-01T01:00:00+01:00") k)) ∧
  (∃ ns, OrgIso1801351Aamva_from_json (JObject example_aamva) = Some (Ok ns) ∧
     (∀ k, OrgIso1801351Aamva_to_ns_map ns !! k = aamva_element example_aamva k)).
Proof.
  assert (NoDup (example_iso "1970-01-01T01:00:00+01:00").*1) as H1 by (apply (bool_decide_unpack _); vm_compute; exact I).
  assert (NoDup example_aamva.*1) as H2 by (apply (bool_decide_unpack _); vm_compute; exact I).
  split; [exact H1|]. split.
  - destruct (OrgIso1801351_from_json _) as [[ns|]|] eqn:Hns; [|vm_compute in Hns; discriminate Hns..].
    exists ns. split; [reflexivity|]. apply (namespace_conversion _ H1). exact Hns.
  - destruct (OrgIso1801351Aamva_from_json _) as [[ns|]|] eqn:Hns; [|vm_compute in Hns; discriminate Hns..].
    exists ns. split; [reflexivity|]. apply (namespace_conversion _ H2). exact Hns.
Defined.

(** One text lies before the year 0 in UTC, the other after the year 9999. *)
Lemma namespace_panics_witness :
  OrgIso1801351_from_json (JObject (example_iso "0000-01-01T00:00:00+01:00")) = None ∧
  OrgIso1801351_from_json (JObject (example_iso "9999-12-31T23:59:59-01:00")) = None.
Proof.
  assert (∀ text d, rfc3339_parse text = Ok d → bool_decide (writable d) = false →
    OrgIso1801351_from_json (JObject (example_iso text)) = None) as Hpanics.
  { intros text d Hd Hw%bool_decide_eq_false. apply namespace_panics. exists (example_iso text), "issue_date", (JString text).
    split; [reflexivity|]. split; [left|]. split; [reflexivity|]. by exists text, d. }
  split; (eapply Hpanics; [reflexivity|vm_compute; reflexivity]).
Defined.

Lemma restricted_texts_witness :
  Age_try_from 21 = Ok (50, 49)%Z ∧
  String.length (FullDate_display {| full_date := {| date_year := 999; date_month := 1; date_day := 1 |} |}) ≠ 10%nat.
Proof.
  destruct restricted_texts as (_ & _ & Hage & _ & _ & Hdate). split; [apply (Hage 21%Z); lia|].
  intros Hlen. apply Hdate in Hlen; lia.
Defined.

(** ** The derive macros *)

Import Macros.

(** Letters, digits and underscores. *)
Definition ident_char (c : Z) : bool :=
  is_digit c || (bool_decide (c = 95) || ((65 <=? c) && (c <=? 90)) || ((97 <=? c) && (c <=? 122)))%Z.
#[local] Instance ascii_idents : ProcMacro := {|
  valid_ident s := match chars s with [] => false | c :: l => negb (is_digit c) && forallb ident_char (c :: l) end;
|}.

Lemma derived_structs_witness :
  Forall valid_names struct_names ∧
  implements_struct iso_scope OrgIso1801351_input Build_OrgIso1801351 OrgIso1801351_projections
    OrgIso1801351_from_json OrgIso1801351_to_ns_map.
Proof.
  assert (Forall valid_names struct_names) as Hnames; [repeat constructor|].
  split; [exact Hnames|]. destruct (derived_structs Hnames) as (_ & _ & _ & _ & _ & _ & Hiso & _). exact Hiso.
Defined.

(** A module path is not an identifier: the macro panics. *)
Definition path_input : DeriveInput :=
  {| input_ident := "S"; input_data := Data_Struct (Fields_Named [plain "a" (option_of (named "u32"))]);
     input_attrs := [isomdl [entry "crate" "my::isomdl"]] |}.
Lemma derive_outcomes_witness :
  well_formed path_input ∧ derive_from_json path_input = None ∧
  outcome "_from_json_impl" path_input (derive_from_json path_input) ∧
  outcome "_to_cbor_impl" path_input (derive_to_cbor path_input).
Proof.
  assert (well_formed path_input) as Hnames; [repeat constructor; by eexists|].
  split; [exact Hnames|]. split; [reflexivity|]. exact (derive_outcomes path_input Hnames).
Defined.

Lemma macros_agree_witness :
  ∃ js cs, derive_from_json OrgIso1801351_input = Some (NamedImpl "orgiso1801351_from_json_impl" "crate" "OrgIso1801351" js) ∧
    derive_to_cbor OrgIso1801351_input = Some (NamedImpl "orgiso1801351_to_cbor_impl" "crate" "OrgIso1801351" cs) ∧
    length js = 33 ∧
    Forall2 (λ j c, json_field j = cbor_field c ∧ json_ty j = cbor_ty c ∧ json_str j = cbor_str c ∧
               (cbor_writer c = Many → json_reader j = Dynamic)) js cs.
Proof.
  eexists _, _. split; [reflexivity|]. split; [reflexivity|]. split; [reflexivity|].
  eapply (macros_agree OrgIso1801351_input); reflexivity.
Defined.

(** Both fields of a struct are missing: two errors, each under its field's name. *)
Example two_missing :
  run_json (readers_of date_scope DomesticVehicleClass_input) Build_DomesticVehicleClass (JObject []) =
    Some (Err (Multiple [WithContext "domestic_vehicle_class_code" Missing;
                         WithContext "domestic_vehicle_class_description" Missing])).
Proof. reflexivity. Qed.
