(* ===== verification/Authentication.v ===== *)
(** * Authentication of responses ([src/presentation/authentication/mdoc.rs],
    [src/presentation/reader_utils.rs])

    Issuer and device authentication of a document, the device authentication
    payload built from raw transcript bytes, and the outcome of validating a
    response. *)

From S2P Require Export Messages Json.

(** ** Device authentication *)

(** [EncodedPoint::as_bytes] *)
Class PointBytes `{Sec1} := point_as_bytes : EncodedPoint → bytes.

Section authentication.
Context `{PointBytes} `{ToBeSigned} `{Sha2} {VK Sig : Type} `{Ecdsa VK Sig}.
Context `{Serde Mso.Mso, Serde Value}.

Definition issuer_authentication `{Der} (x5chain : X5Chain) (issuer_signed : IssuerSigned) :
    option (result unit AuthError) :=
  key ← end_entity_public_key_with_oid NistP256 x5chain SECP_256_R_1;
  Some (let? signer_key := map_err IssuerPublicKey key in
        map_err IssuerAuthentication (into_result (Sign1_verify (issuer_auth issuer_signed) (signer_key : VK) None None))).

Definition verify_device_authentication_payload (document : ResponseDocument) (cbor_payload : bytes) :
    result unit AuthError :=
  let? mso_bytes := ok_or DetachedIssuerAuth (s1_payload (message (issuer_auth (rd_issuer_signed document)))) in
  let? mso := map_err (λ _, MSOParsing) (from_slice (T := Tag24 Mso.Mso) mso_bytes) in
  match device_key (Mso.device_key_info (inner mso)) with
  | EC2 crv x y =>
      let? encoded_point := map_err BadDeviceKey (EncodedPoint_try_from (EC2 crv x y)) in
      let? verifying_key := map_err (λ _, BadSec1Key)
        (PublicKey_from_sec1_bytes NistP256 (point_as_bytes encoded_point)) in
      match device_auth (rd_device_signed document) with
      | DeviceSignature device_signature =>
          map_err DeviceSignatureFailure
            (into_result (Sign1_verify device_signature (verifying_key : VK) (Some cbor_payload) None))
      | DeviceMac _ => Err Unsupported
      end
  | _ => Err UnsupportedDeviceKey
  end.

Definition device_authentication {S} `{Serde (DeviceAuthentication S)} (document : ResponseDocument)
    (session_transcript : S) : result unit AuthError :=
  let? detached_payload := map_err (λ _, AuthCborDecodingError)
    (Tag24_new (DeviceAuthentication_new session_transcript (rd_doc_type document)
                  (dsg_namespaces (rd_device_signed document)))) in
  let? cbor_payload := map_err (λ _, AuthCborDecodingError) (to_vec detached_payload) in
  verify_device_authentication_payload document cbor_payload.
End authentication.

(** ** The payload around raw transcript bytes *)

Definition append_byte_string_header (output : bytes) (length : Z) : bytes :=
  if (length <=? 23)%Z then output ++ [Z.lor 0x40 (length mod 2 ^ 8)]
  else if (length <=? 0xff)%Z then output ++ [0x58; length mod 2 ^ 8]%Z
  else if (length <=? 0xffff)%Z then output ++ [0x59%Z] ++ to_be_bytes 2 (length mod 2 ^ 16)
  else if (length <=? 0xffffffff)%Z then output ++ [0x5a%Z] ++ to_be_bytes 4 (length mod 2 ^ 32)
  else output ++ [0x5b%Z] ++ to_be_bytes 8 (length mod 2 ^ 64).

Section raw_payload.
Context `{Serde string, Serde DeviceNamespaces, Serde Value}.

Definition raw_device_authentication_payload (session_transcript_cbor : bytes) (doc_type : string)
    (namespaces : Tag24 DeviceNamespaces) : result bytes CborError :=
  let? label := to_vec "DeviceAuthentication"%string in
  let? doc_type := to_vec doc_type in
  let? namespaces := to_vec namespaces in
  let device_authentication := [0x84%Z] ++ label ++ session_transcript_cbor ++ doc_type ++ namespaces in
  let tagged := [0xd8; 0x18]%Z in
  let tagged := append_byte_string_header tagged (Z.of_nat (length device_authentication)) in
  Ok (tagged ++ device_authentication).

Context `{PointBytes} `{ToBeSigned} `{Sha2} {VK Sig : Type} `{Ecdsa VK Sig} `{Serde Mso.Mso}.

Definition device_authentication_with_raw_session_transcript (document : ResponseDocument)
    (session_transcript_cbor : bytes) : result unit AuthError :=
  let? _ := map_err (λ _, AuthCborDecodingError) (from_slice (T := Value) session_transcript_cbor) in
  let? cbor_payload := map_err (λ _, AuthCborDecodingError)
    (raw_device_authentication_payload session_transcript_cbor (rd_doc_type document)
       (dsg_namespaces (rd_device_signed document))) in
  verify_device_authentication_payload (VK := VK) (Sig := Sig) document cbor_payload.
End raw_payload.

(** ** Validating a response ([reader_utils.rs]) *)

(** Errors of the reader ([reader.rs]). *)
Inductive ReaderError : Type :=
  | InvalidQrCode (e : QrError)
  | DeviceTransmissionError
  | DocumentTypeError
  | NoMdlDataTransmission
  | IncorrectNamespace
  | HolderError
  | DecryptionError
  | ReaderCborDecodingError
  | ParsingError (found : Value)
  | InvalidRequest
  | X5ChainMissing
  | X5ChainParsing (e : X5ChainError).

(** Causes of the error texts of an outcome. *)
Inductive ResponseProblem : Type :=
  | DecryptionProblem (e : ReaderError)
  | ParsingProblem (e : ReaderError)
  | DeviceAuthProblem (e : AuthError)
  | IssuerAuthProblem (e : AuthError)
  | CertificateProblem (e : ErrorWithContext).

Record ResponseAuthenticationOutcome : Type := {
  response : btree string Json;
  ao_issuer_authentication : AuthenticationStatus;
  ao_device_authentication : AuthenticationStatus;
  ao_errors : btree string (list ResponseProblem);
}.
Definition ResponseAuthenticationOutcome_default : ResponseAuthenticationOutcome :=
  {| response := ∅; ao_issuer_authentication := Unchecked; ao_device_authentication := Unchecked; ao_errors := ∅ |}.

Section validate_response.
Context `{PointBytes} `{ToBeSigned} `{Der, Sha1, Sha2} {VK Sig : Type} `{Ecdsa VK Sig} (now : Z).
Context `{Serde Mso.Mso, Serde Value} {S : Type} `{Serde (DeviceAuthentication S)}.

Definition validate_response (session_transcript : S) (trust_anchor_registry : TrustAnchorRegistry) (x5chain : X5Chain)
    (document : ResponseDocument) (namespaces : btree string Json) : option ResponseAuthenticationOutcome :=
  let '(device_status, errs) :=
    match device_authentication (VK := VK) (Sig := Sig) document session_transcript with
    | Ok _ => (Valid, ∅)
    | Err e => (Invalid, <["device_authentication_errors"%string := [DeviceAuthProblem e]]> ∅)
    end in
  outcome ← validate_x5chain (VK := VK) (Sig := Sig) now Mdl x5chain trust_anchor_registry;
  let validation_errors := errors outcome in
  '(issuer_status, errs) ←
    match validation_errors with
    | [] =>
        r ← issuer_authentication (VK := VK) (Sig := Sig) x5chain (rd_issuer_signed document);
        Some match r with
             | Ok _ => (Valid, errs)
             | Err e => (Invalid, <["issuer_authentication_errors"%string := [IssuerAuthProblem e]]> errs)
             end
    | _ => Some (Invalid, <["certificate_errors"%string := CertificateProblem <$> validation_errors]> errs)
    end;
  Some {| response := namespaces; ao_issuer_authentication := issuer_status;
          ao_device_authentication := device_status; ao_errors := errs |}.
End validate_response.

(** ** Properties *)

(** *** What the statuses mean *)

Section outcome.
Context `{PointBytes} `{ToBeSigned} `{Der, Sha1, Sha2} {VK Sig : Type} `{Ecdsa VK Sig} (now : Z).
Context `{Serde Mso.Mso, Serde Value} {S : Type} `{Serde (DeviceAuthentication S)}.

(** The document's device signature is one over [payload] by the device key that
    its security object names. *)
Definition device_signed_over (document : ResponseDocument) (payload : bytes) : Prop :=
  ∃ mso_bytes mso crv x y point key s,
    s1_payload (message (issuer_auth (rd_issuer_signed document))) = Some mso_bytes ∧
    from_slice (T := Tag24 Mso.Mso) mso_bytes = Ok mso ∧
    device_key (Mso.device_key_info (inner mso)) = EC2 crv x y ∧
    EncodedPoint_try_from (EC2 crv x y) = Ok point ∧
    PublicKey_from_sec1_bytes (VK := VK) (Sig := Sig) NistP256 (point_as_bytes point) = Ok key ∧
    device_auth (rd_device_signed document) = DeviceSignature s ∧
    Sign1_verify s key (Some payload) None = Success.

Lemma into_result_Ok r : into_result r = Ok tt ↔ r = Success.
Proof. by destruct r. Qed.
Lemma map_err_Ok_iff {T E F} (f : E → F) (r : result T E) t : map_err f r = Ok t ↔ r = Ok t.
Proof. destruct r; cbn [map_err]; naive_solver. Qed.
Lemma unit_result {E} (r : result unit E) : is_ok r = true ↔ r = Ok tt.
Proof. destruct r as [[]|]; naive_solver. Qed.

Lemma verify_device_payload_Ok document payload :
  verify_device_authentication_payload (VK := VK) (Sig := Sig) document payload = Ok tt ↔
  device_signed_over document payload.
Proof.
  unfold verify_device_authentication_payload, device_signed_over. split.
  - intros Hv. inv_result. destruct (device_key _) as [crv x y|] eqn:Hk; [|done]. inv_result.
    destruct (device_auth _) as [s|] eqn:Hs; [|done]. rewrite map_err_Ok_iff, into_result_Ok in Hv.
    match goal with
    | Ho : s1_payload _ = Some ?mb, Hm : from_slice _ = Ok ?m, Hp : EncodedPoint_try_from _ = Ok ?p,
      Hpk : PublicKey_from_sec1_bytes _ _ = Ok ?key |- _ => by exists mb, m, crv, x, y, p, key, s
    end.
  - intros (mb & mso & crv & x & y & p & key & s & -> & Hm & Hk & Hp & Hpk & Hs & Hv).
    cbn [ok_or rbind]. rewrite Hm. cbn [map_err rbind]. rewrite Hk, Hp. cbn [map_err rbind]. rewrite Hpk.
    cbn [map_err rbind]. by rewrite Hs, Hv.
Qed.

Lemma device_authentication_Ok document (transcript : S) :
  device_authentication (VK := VK) (Sig := Sig) document transcript = Ok tt ↔
  ∃ t payload,
    Tag24_new (DeviceAuthentication_new transcript (rd_doc_type document) (dsg_namespaces (rd_device_signed document))) = Ok t ∧
    to_vec t = Ok payload ∧ device_signed_over document payload.
Proof.
  unfold device_authentication. split.
  - intros Hv. inv_result. rewrite verify_device_payload_Ok in Hv. by do 2 eexists.
  - intros (t & payload & -> & Hp & Hs). cbn [map_err rbind]. rewrite Hp. cbn [map_err rbind].
    by apply verify_device_payload_Ok.
Qed.

Lemma issuer_authentication_Ok x5chain issuer_signed :
  issuer_authentication (VK := VK) (Sig := Sig) x5chain issuer_signed = Some (Ok tt) ↔
  ∃ leaf key, end_entity_certificate x5chain = Some leaf ∧ public_key_with_oid NistP256 leaf SECP_256_R_1 = Ok key ∧
    Sign1_verify (issuer_auth issuer_signed) (key : VK) None None = Success.
Proof.
  unfold issuer_authentication, end_entity_public_key_with_oid. split.
  - destruct (end_entity_certificate x5chain) as [leaf|]; [|done]. cbn [mbind option_bind]. intros [= Hv].
    inv_result. exists leaf, t. split_and!; [done..|]. by apply into_result_Ok.
  - intros (leaf & key & -> & Hk & Hv). cbn [mbind option_bind]. rewrite Hk. cbn [map_err rbind]. by rewrite Hv.
Qed.

(** The issuer's chain is trusted for mDLs and its key signed the security object. *)
Definition issuer_trusted (registry : TrustAnchorRegistry) (x5chain : X5Chain) (issuer_signed : IssuerSigned) : Prop :=
  ∃ v leaf key, validate_x5chain (VK := VK) (Sig := Sig) now Mdl x5chain registry = Some v ∧ success v = true ∧
    end_entity_certificate x5chain = Some leaf ∧ public_key_with_oid NistP256 leaf SECP_256_R_1 = Ok key ∧
    Sign1_verify (issuer_auth issuer_signed) (key : VK) None None = Success.

Lemma validate_response_verdicts (transcript : S) registry x5chain document namespaces o :
  validate_response (VK := VK) (Sig := Sig) now transcript registry x5chain document namespaces = Some o →
  response o = namespaces ∧
  ao_device_authentication o ≠ Unchecked ∧ ao_issuer_authentication o ≠ Unchecked ∧
  (ao_device_authentication o = Valid ↔
   ∃ t payload,
     Tag24_new (DeviceAuthentication_new transcript (rd_doc_type document) (dsg_namespaces (rd_device_signed document))) = Ok t ∧
     to_vec t = Ok payload ∧ device_signed_over document payload) ∧
  (ao_issuer_authentication o = Valid ↔ issuer_trusted registry x5chain (rd_issuer_signed document)) ∧
  (ao_errors o = ∅ ↔ ao_device_authentication o = Valid ∧ ao_issuer_authentication o = Valid).
Proof.
  rewrite <-device_authentication_Ok. unfold validate_response, issuer_trusted.
  set (dr := device_authentication document transcript).
  set (de := match dr with Ok _ => (Valid, ∅) | Err e => _ end).
  assert ((de.1 = Valid ↔ dr = Ok tt) ∧ (de.2 = ∅ ↔ dr = Ok tt) ∧ de.1 ≠ Unchecked) as (Hd1 & Hd2 & Hd3).
  { unfold de. destruct dr as [[]|e]; cbn [fst snd]; [done|]. by split_and!. }
  destruct de as [device_status errs]. cbn [fst snd] in *.
  destruct (validate_x5chain now Mdl x5chain registry) as [v|] eqn:Hv; [|done]. cbn [mbind option_bind].
  destruct (errors v) as [|err l] eqn:He.
  - destruct (issuer_authentication x5chain (rd_issuer_signed document)) as [r|] eqn:Hr; [|done].
    cbn [mbind option_bind]. pose proof (issuer_authentication_Ok x5chain (rd_issuer_signed document)) as Hi. rewrite Hr in Hi.
    assert (success v = true) as Hsv by by apply success_nil.
    destruct r as [[]|e]; cbn [mbind option_bind]; intros [= <-]; cbn [response ao_device_authentication ao_issuer_authentication ao_errors].
    + destruct Hi as [(leaf & key & Hi) _]; [done|]. split_and!; try done; [|naive_solver].
      split; [intros _; by exists v, leaf, key|done].
    + split_and!; try done.
      * split; [done|]. intros (v' & leaf & key & _ & _ & Hk). destruct Hi as [_ Hi]. specialize (Hi (ex_intro _ leaf (ex_intro _ key Hk))). done.
      * split; [|by intros [_ ?]]. intros Hbad. by apply insert_non_empty in Hbad.
  - intros [= <-]. cbn [response ao_device_authentication ao_issuer_authentication ao_errors].
    split_and!; try done.
    + split; [done|]. intros (v' & leaf & key & [= <-] & Hs & _). apply success_nil in Hs. congruence.
    + split; [|by intros [_ ?]]. intros Hbad. by apply insert_non_empty in Hbad.
Qed.

(** C23: A validated response always carries a verdict on both authentications.  Device
      authentication is valid exactly when the document holds a signature, by the
      P-256 device key that the security object in its issuer signature names, over
      the encoding of this session's transcript, the document type and the device
      namespaces; issuer authentication is valid exactly when the chain passes the
      mDL ruleset and its end-entity key verifies the issuer signature; the errors
      are empty exactly when both are valid. *)
Theorem response_validation_spec (transcript : S) registry x5chain document namespaces o :
  validate_response (VK := VK) (Sig := Sig) now transcript registry x5chain document namespaces = Some o →
  response o = namespaces ∧
  ao_device_authentication o ≠ Unchecked ∧ ao_issuer_authentication o ≠ Unchecked ∧
  (ao_device_authentication o = Valid ↔
   ∃ t payload,
     Tag24_new (DeviceAuthentication_new transcript (rd_doc_type document) (dsg_namespaces (rd_device_signed document))) = Ok t ∧
     to_vec t = Ok payload ∧ device_signed_over document payload) ∧
  (ao_issuer_authentication o = Valid ↔ issuer_trusted registry x5chain (rd_issuer_signed document)) ∧
  (ao_errors o = ∅ ↔ ao_device_authentication o = Valid ∧ ao_issuer_authentication o = Valid).
Proof. apply validate_response_verdicts. Qed.

(** The items a response discloses play no part in either verdict: no digest of the
    security object is compared with them. *)
Definition with_disclosed (items : option IssuerNamespaces) (document : ResponseDocument) : ResponseDocument := {|
  rd_doc_type := rd_doc_type document;
  rd_issuer_signed := {| is_namespaces := items; issuer_auth := issuer_auth (rd_issuer_signed document) |};
  rd_device_signed := rd_device_signed document; rd_errors := rd_errors document |}.
Lemma disclosed_items_unauthenticated (transcript : S) registry x5chain document namespaces items :
  validate_response (VK := VK) (Sig := Sig) now transcript registry x5chain (with_disclosed items document) namespaces =
  validate_response (VK := VK) (Sig := Sig) now transcript registry x5chain document namespaces.
Proof. done. Qed.
End outcome.

(** *** The raw payload *)

(** RFC 8949 item heads: major type and argument, and what follows. *)
Definition argument_width (info : Z) : option nat :=
  match info with 24 => Some 1%nat | 25 => Some 2%nat | 26 => Some 4%nat | 27 => Some 8%nat | _ => None end%Z.
Definition read_head (l : bytes) : option (Z * Z * bytes) :=
  match l with
  | [] => None
  | b :: r =>
      match argument_width (b mod 32) with
      | Some k =>
          if bool_decide (k ≤ length r) then Some (b / 32, from_be_bytes (take k r), drop k r)%Z else None
      | None => if (b mod 32 <=? 23)%Z then Some (b / 32, b mod 32, r)%Z else None
      end
  end.

Lemma read_head_wide b k n (rest : bytes) :
  argument_width (b mod 32) = Some k → (0 ≤ n < 2 ^ (Z.of_nat k * 8))%Z →
  read_head (b :: to_be_bytes (Z.of_nat k) n ++ rest) = Some ((b / 32)%Z, n, rest).
Proof.
  intros Hb Hn. assert (length (to_be_bytes (Z.of_nat k) n) = k) as Hl.
  { apply Nat2Z.inj. by rewrite to_be_bytes_length by lia. }
  cbn [read_head]. rewrite Hb, length_app, take_app_length', drop_app_length' by done.
  rewrite bool_decide_true by lia. by rewrite from_to_be_bytes by lia.
Qed.

Lemma to_be_bytes_1 n : (0 ≤ n < 2 ^ 8)%Z → to_be_bytes 1 n = [n].
Proof.
  intros Hn. unfold to_be_bytes. change 1%Z with (Z.succ 0) at 1. rewrite Z_to_little_endian_succ by lia.
  rewrite Z_to_little_endian_0, Z.land_ones, Z.mod_small by lia. done.
Qed.

(** The header is read back as a byte-string head of the given length, whatever
    follows it. *)
Lemma byte_string_header_reads output n rest :
  (0 ≤ n ≤ u64_max)%Z →
  ∃ h, append_byte_string_header output n = output ++ h ∧ read_head (h ++ rest) = Some (2%Z, n, rest).
Proof.
  unfold u64_max. intros Hn. unfold append_byte_string_header.
  destruct (Z.leb_spec n 23) as [H23|H23].
  { eexists. split; [done|]. rewrite Z.mod_small by lia.
    assert (n ∈ (Z.of_nat <$> seq 0 24)) as Hin.
    { apply list_elem_of_fmap. exists (Z.to_nat n). split; [lia|]. apply elem_of_seq. lia. }
    clear Hn H23. revert n Hin. apply Forall_forall.
    repeat (apply Forall_cons; split; [reflexivity|]). apply Forall_nil_2. }
  destruct (Z.leb_spec n 0xff) as [Hff|Hff].
  { eexists. split; [done|]. rewrite Z.mod_small by lia. rewrite <-(to_be_bytes_1 n) by lia.
    by apply (read_head_wide 88 1); [|lia]. }
  destruct (Z.leb_spec n 0xffff) as [Hffff|Hffff].
  { eexists. split; [done|]. rewrite Z.mod_small by lia. by apply (read_head_wide 89 2); [|lia]. }
  destruct (Z.leb_spec n 0xffffffff) as [H4|H4]; eexists; (split; [done|]); rewrite Z.mod_small by lia.
  - by apply (read_head_wide 90 4); [|lia].
  - by apply (read_head_wide 91 8); [|lia].
Qed.

Section raw_payload_props.
Context `{Serde string, Serde DeviceNamespaces, Serde Value}.

(** The raw device authentication payload is a tag 24 around one byte string whose
      header states its exact length, and that string is the four-element array of the
      context label, the transcript bytes exactly as given, the document type and the
      device namespaces. *)
Theorem raw_payload_spec transcript doc_type namespaces payload :
  raw_device_authentication_payload transcript doc_type namespaces = Ok payload →
  (Z.of_nat (length payload) ≤ u64_max)%Z →
  ∃ label dt ns,
    to_vec "DeviceAuthentication"%string = Ok label ∧ to_vec doc_type = Ok dt ∧ to_vec namespaces = Ok ns ∧
    let body := 0x84%Z :: label ++ transcript ++ dt ++ ns in
    ∃ rest, read_head payload = Some (6, 24, rest)%Z ∧
      read_head rest = Some (2%Z, Z.of_nat (length body), body).
Proof.
  unfold raw_device_authentication_payload. intros Hp Hlen. inv_result.
  match goal with
  | Hl : to_vec "DeviceAuthentication"%string = Ok ?l, Hd : to_vec doc_type = Ok ?d, Hn : to_vec namespaces = Ok ?n |- _ =>
      exists l, d, n; split_and!; [done..|];
      cbv zeta; change ([0x84%Z] ++ l ++ transcript ++ d ++ n) with (0x84%Z :: l ++ transcript ++ d ++ n) in *;
      set (body := 0x84%Z :: l ++ transcript ++ d ++ n) in *;
      change (S (length (l ++ transcript ++ d ++ n))) with (length body) in *
  end. rewrite length_app in Hlen.
  destruct (byte_string_header_reads [0xd8; 0x18]%Z (Z.of_nat (length body)) body) as (h & -> & Hread); [lia|].
  exists (h ++ body). split; [done|exact Hread].
Qed.
End raw_payload_props.

(** *** Both ways of verifying agree *)

Section raw_agrees.
Context `{Serde string, Serde DeviceNamespaces, Serde Value, Serde Mso.Mso}.
Context `{PointBytes} `{ToBeSigned} `{Sha2} {VK Sig : Type} `{Ecdsa VK Sig}.
Context {S : Type} `{Serde S, Serde (DeviceAuthentication S)}.

(** RFC 8949 as [ciborium] writes it: a byte string under tag 24, and a tuple of four
    as an array whose items are written one after the other. *)
Definition tag24_encoding : Prop := ∀ b c, to_vec (Tag 24 (Bytes b)) = Ok c ↔
  c = append_byte_string_header [0xd8; 0x18]%Z (Z.of_nat (length b)) ++ b.
Definition tuple_encoding : Prop := ∀ (x : DeviceAuthentication S) l t d n,
  to_vec (da_label x) = Ok l → to_vec (da_transcript x) = Ok t → to_vec (da_doc_type x) = Ok d →
  to_vec (da_namespaces x) = Ok n → to_vec x = Ok (0x84%Z :: l ++ t ++ d ++ n).

(** Verifying with the raw bytes of a transcript and verifying with the transcript
      itself give the same verdict whenever the bytes are its encoding. *)
Theorem raw_authentication_agrees document (transcript : S) bytes :
  tag24_encoding → tuple_encoding →
  to_vec transcript = Ok bytes → is_ok (from_slice (T := Value) bytes) →
  (∀ s : string, is_ok (to_vec s)) → (∀ v : Value, is_ok (to_vec v)) →
  device_authentication_with_raw_session_transcript (VK := VK) (Sig := Sig) document bytes =
  device_authentication (VK := VK) (Sig := Sig) document transcript.
Proof.
  intros Htag Htuple Ht Hv Hs Hval.
  unfold device_authentication_with_raw_session_transcript, device_authentication, raw_device_authentication_payload.
  destruct (from_slice (T := Value) bytes); [|done]. cbn [map_err rbind].
  set (ns := dsg_namespaces (rd_device_signed document)).
  pose proof (Hs "DeviceAuthentication"%string) as Hl. destruct (to_vec "DeviceAuthentication"%string) as [l|] eqn:El; [|done].
  pose proof (Hs (rd_doc_type document)) as Hd. destruct (to_vec (rd_doc_type document)) as [d|] eqn:Ed; [|done].
  assert (is_ok (to_vec ns)) as Hn by apply (Hval (Tag24_into_value ns)).
  destruct (to_vec ns) as [n|] eqn:En; [|done]. cbn [map_err rbind].
  pose proof (Htuple (DeviceAuthentication_new transcript (rd_doc_type document) ns) l bytes d n El Ht Ed En) as Hda.
  unfold Tag24_new. rewrite Hda. cbn [map_err rbind].
  set (body := 0x84%Z :: l ++ bytes ++ d ++ n). 
  match goal with |- context [map_err _ (to_vec ?t0)] => set (da := t0) end.
  assert (to_vec da = Ok (append_byte_string_header [0xd8; 0x18]%Z (Z.of_nat (length body)) ++ body)) as ->; [|done].
  by apply (Htag body).
Qed.
End raw_agrees.
