(* ===== verification/Device.v ===== *)
(** * The holder's device ([src/presentation/device.rs])

    Engagement, session establishment, request handling with reader
    authentication, selective disclosure of stored documents and the signing state
    machine.  A panic of the code is [None]. *)

From S2P Require Export Messages Mdoc.

(** ** Data *)

Abbreviation IssuerSignedItemBytes := (Tag24 IssuerSignedItem).

(** [Uuid]s are their bytes. *)
Record Document : Type := {
  doc_id : bytes;
  doc_issuer_auth : MaybeTagged CoseSign1;
  doc_mso : Mso.Mso;
  doc_namespaces : NonEmptyMap string (NonEmptyMap string IssuerSignedItemBytes);
}.
Abbreviation Documents := (NonEmptyMap string Document).

Inductive PreparedCose : Type := PreparedSign1 (p : PreparedCoseSign1) | PreparedMac0 (p : PreparedCoseMac0).
Definition prepared_signature_payload (p : PreparedCose) : bytes :=
  match p with PreparedSign1 p => ps1_signature_payload p | PreparedMac0 p => tag_payload p end.

Record PreparedDocument : Type := {
  pd_id : bytes;
  pd_doc_type : string;
  pd_issuer_signed : IssuerSigned;
  pd_device_namespaces : Tag24 DeviceNamespaces;
  pd_prepared_cose : PreparedCose;
  pd_errors : option NamespaceErrors;
}.
Record PreparedDeviceResponse : Type := {
  prepared_documents : list PreparedDocument;
  signed_documents : list ResponseDocument;
  document_errors : option (NonEmptyVec DocumentError);
  prepared_status : ResponseStatus;
}.

Inductive State : Type :=
  | AwaitingRequest
  | Signing (p : PreparedDeviceResponse)
  | ReadyToRespond (response : bytes).

Abbreviation RequestedItems := (list ItemsRequest).
Abbreviation PermittedItems := (btree string (btree string (list string))).

(** ** Selective disclosure *)

(** [request.iter().find(|item| item.doc_type == doc_type)] *)
Definition find_request (request : RequestedItems) (doc_type : string) : option ItemsRequest :=
  snd <$> list_find (λ item, ir_doc_type item = doc_type) request.

Definition filter_elements (req_elems : DataElements) (elems : list string) : list string :=
  filter (λ elem, is_Some (nem req_elems !! elem)) elems.

Definition filter_namespaces (item : ItemsRequest) (namespaces : btree string (list string)) :
    btree string (list string) :=
  collect (filter_map_entries (λ ns elems,
    req_elems ← nem (ir_namespaces item) !! ns; Some (filter_elements req_elems elems)) namespaces).

Definition filter_permitted (request : RequestedItems) (permitted : PermittedItems) : PermittedItems :=
  collect (filter_map_entries (λ doc_type namespaces,
    item ← find_request request doc_type; Some (filter_namespaces item namespaces)) permitted).

(** The items to return so far, and the elements that cannot be returned. *)
Abbreviation Returned := (btree string (NonEmptyVec IssuerSignedItemBytes) * btree string (NonEmptyMap string DocumentErrorCode))%type.

Definition return_item (ns : string) (item : IssuerSignedItemBytes) (s : Returned) : Returned :=
  (match s.1 !! ns with
   | Some returned_items => <[ns := NonEmptyVec_push returned_items item]> s.1
   | None => <[ns := NonEmptyVec_new item]> s.1
   end, s.2).
Definition return_error (ns el : string) (s : Returned) : Returned :=
  (s.1, match s.2 !! ns with
        | Some returned_errors => <[ns := (NonEmptyMap_insert returned_errors el DataNotReturned).1]> s.2
        | None => <[ns := NonEmptyMap_new el DataNotReturned]> s.2
        end).

Definition return_element (issuer_items : option (NonEmptyMap string IssuerSignedItemBytes)) (ns : string)
    (s : Returned) (el : string) : Returned :=
  match issuer_items with
  | Some issuer_items =>
      match nem issuer_items !! el with
      | Some item => return_item ns item s
      | None => return_error ns el s
      end
  | None => return_error ns el s
  end.
Definition return_namespace (document : Document) (s : Returned) (p : string * list string) : Returned :=
  foldl (return_element (nem (doc_namespaces document) !! p.1) p.1) s p.2.

(** ** Preparing a response *)

(** The [DeviceSession] trait. *)
Class DeviceSession (T ST : Type) := {
  session_documents : T → Documents;
  session_transcript_of : T → ST;
  session_device_auth_type : T → DeviceAuthType;
}.

Section prepare.
Context {T ST : Type} `{DeviceSession T ST} `{Serde DeviceNamespaces, Serde (DeviceAuthentication ST), Serde Value}
  `{ToBeSigned}.

(** One round of the loop over the document types; [Err] is the error entry
    [DataNotReturned] for the document type. *)
Definition prepare_document (self : T) (doc_type : string) (namespaces : btree string (list string)) :
    result PreparedDocument unit :=
  let? document := ok_or tt (nem (session_documents self) !! doc_type) in
  let? signature_algorithm := ok_or tt (signature_algorithm (device_key (Mso.device_key_info (doc_mso document)))) in
  let '(issuer_namespaces, errors) := foldl (return_namespace document) (∅, ∅) (entries namespaces) in
  let? device_namespaces := map_err (λ _, tt) (Tag24_new (∅ : DeviceNamespaces)) in
  let device_auth := DeviceAuthentication_new (session_transcript_of self) doc_type device_namespaces in
  let? device_auth := map_err (λ _, tt) (Tag24_new device_auth) in
  let? device_auth_bytes := map_err (λ _, tt) (to_vec device_auth) in
  let header := {| hdr_alg := Some (Assigned signature_algorithm); hdr_rest := [] |} in
  let? prepared_cose :=
    match session_device_auth_type self with
    | Sign1 =>
        rmap PreparedSign1 (map_err (λ _, tt) (PreparedCoseSign1_new
          {| s1_protected := header; s1_unprotected := Header_default; s1_payload := None; s1_signature := [] |}
          (Some device_auth_bytes) None false))
    | Mac0 =>
        rmap PreparedMac0 (map_err (λ _, tt) (PreparedCoseMac0_new
          {| m0_protected := header; m0_unprotected := Header_default; m0_payload := None; m0_tag := [] |}
          (Some device_auth_bytes) None false))
    end in
  Ok {| pd_id := doc_id document; pd_doc_type := doc_type;
        pd_issuer_signed := {| is_namespaces := NonEmptyMap_maybe_new issuer_namespaces;
                               issuer_auth := doc_issuer_auth document |};
        pd_device_namespaces := device_namespaces; pd_prepared_cose := prepared_cose;
        pd_errors := NonEmptyMap_maybe_new errors |}.

Definition prepare_step (self : T) (s : list PreparedDocument * list DocumentError)
    (p : string * btree string (list string)) : list PreparedDocument * list DocumentError :=
  match prepare_document self p.1 p.2 with
  | Ok d => (s.1 ++ [d], s.2)
  | Err _ => (s.1, s.2 ++ [<[p.1 := DataNotReturned]> ∅])
  end.

Definition DeviceSession_prepare_response (self : T) (requests : RequestedItems) (permitted : PermittedItems) :
    PreparedDeviceResponse :=
  let '(prepared, errors) := foldl (prepare_step self) ([], []) (entries (filter_permitted requests permitted)) in
  {| prepared_documents := prepared; document_errors := NonEmptyVec_maybe_new errors;
     prepared_status := OK; signed_documents := [] |}.
End prepare.

(** ** Signing a prepared response *)

Definition PreparedDocument_finalize (d : PreparedDocument) (signature : bytes) : ResponseDocument := {|
  rd_doc_type := pd_doc_type d;
  rd_issuer_signed := pd_issuer_signed d;
  rd_device_signed := {|
    dsg_namespaces := pd_device_namespaces d;
    device_auth := match pd_prepared_cose d with
                   | PreparedSign1 p => DeviceSignature (finalize p signature)
                   | PreparedMac0 p => DeviceMac (Mac0_finalize p signature)
                   end |};
  rd_errors := pd_errors d;
|}.

Definition PreparedDeviceResponse_empty (status : ResponseStatus) : PreparedDeviceResponse := {|
  prepared_status := status; prepared_documents := []; document_errors := None; signed_documents := [] |}.

Definition is_complete (p : PreparedDeviceResponse) : bool :=
  match prepared_documents p with [] => true | _ => false end.

Definition prepared_next_signature_payload (p : PreparedDeviceResponse) : option (bytes * bytes) :=
  (λ d, (pd_id d, prepared_signature_payload (pd_prepared_cose d))) <$> last (prepared_documents p).

(** [Vec::pop] takes the last prepared document. *)
Definition prepared_submit_next_signature (p : PreparedDeviceResponse) (signature : bytes) : PreparedDeviceResponse :=
  match last (prepared_documents p) with
  | None => p
  | Some d => {|
      prepared_documents := take (length (prepared_documents p) - 1) (prepared_documents p);
      signed_documents := signed_documents p ++ [PreparedDocument_finalize d signature];
      document_errors := document_errors p; prepared_status := prepared_status p |}
  end.

Definition response_of (p : PreparedDeviceResponse) : DeviceResponse := {|
  rs_version := DeviceResponse_VERSION; rs_documents := NonEmptyVec_maybe_new (signed_documents p);
  rs_document_errors := document_errors p; rs_status := prepared_status p |}.
Definition finalize_response (p : PreparedDeviceResponse) : DeviceResponse :=
  if is_complete p then response_of p else response_of (PreparedDeviceResponse_empty GeneralError).

(** ** The session manager *)

(** [ReaderAuthentication(String, SessionTranscript180135, ItemsRequestBytes)] *)
Record ReaderAuthentication : Type := {
  ra_label : string;
  ra_transcript : SessionTranscript180135;
  ra_items_request : Tag24 ItemsRequest;
}.

(** Causes of the error texts of request handling. *)
Inductive RequestProblem : Type :=
  | NoRequestsReceived | CannotDecryptRequest | BadSessionData (e : CborError) | UnsupportedRequestVersion.
Inductive ReaderAuthProblem : Type :=
  | NoReaderAuth
  | NoX5Chain
  | X5ChainUndecodable (e : X5ChainError)
  | ChainProblem (e : ErrorWithContext)
  | ReaderKeyUndecodable (e : PublicKeyError)
  | PayloadConstruction (e : Tag24Error)
  | PayloadEncoding (e : CborError)
  | ReaderSignature (e : FailureReason + CoseError).

Record ReaderAuthOutcome : Type := {
  ra_common_name : option string;
  ra_errors : list ReaderAuthProblem;
}.
Record RequestAuthenticationOutcome : Type := {
  ro_items_request : list ItemsRequest;
  ro_common_name : option string;
  ro_reader_authentication : AuthenticationStatus;
  ro_errors : btree string (list RequestProblem);
}.
Definition RequestAuthenticationOutcome_default : RequestAuthenticationOutcome :=
  {| ro_items_request := []; ro_common_name := None; ro_reader_authentication := Unchecked; ro_errors := ∅ |}.
Definition request_failed (key : string) (p : RequestProblem) : RequestAuthenticationOutcome :=
  {| ro_items_request := []; ro_common_name := None; ro_reader_authentication := Unchecked;
     ro_errors := <[key := [p]]> ∅ |}.

(** [ciborium::Value::deserialized], behind [cbor::from_value]. *)
Class FromValue (T : Type) := cbor_from_value : Value → result T CborError.

Record SessionManager : Type := {
  sm_documents : Documents;
  sm_session_transcript : SessionTranscript180135;
  sm_sk_device : bytes;
  device_message_counter : u32;
  sm_sk_reader : bytes;
  reader_message_counter : u32;
  sm_state : State;
  trusted_verifiers : TrustAnchorRegistry;
  sm_device_auth_type : DeviceAuthType;
}.
#[export] Instance SessionManager_session : DeviceSession SessionManager SessionTranscript180135 := {|
  session_documents := sm_documents;
  session_transcript_of := sm_session_transcript;
  session_device_auth_type := sm_device_auth_type;
|}.

(** Assignments to fields of [&mut self]. *)
Definition with_state (s : State) (sm : SessionManager) : SessionManager := {|
  sm_documents := sm_documents sm; sm_session_transcript := sm_session_transcript sm;
  sm_sk_device := sm_sk_device sm; device_message_counter := device_message_counter sm;
  sm_sk_reader := sm_sk_reader sm; reader_message_counter := reader_message_counter sm;
  sm_state := s; trusted_verifiers := trusted_verifiers sm; sm_device_auth_type := sm_device_auth_type sm |}.
Definition with_device_counter (c : u32) (sm : SessionManager) : SessionManager := {|
  sm_documents := sm_documents sm; sm_session_transcript := sm_session_transcript sm;
  sm_sk_device := sm_sk_device sm; device_message_counter := c;
  sm_sk_reader := sm_sk_reader sm; reader_message_counter := reader_message_counter sm;
  sm_state := sm_state sm; trusted_verifiers := trusted_verifiers sm; sm_device_auth_type := sm_device_auth_type sm |}.
Definition with_reader_counter (c : u32) (sm : SessionManager) : SessionManager := {|
  sm_documents := sm_documents sm; sm_session_transcript := sm_session_transcript sm;
  sm_sk_device := sm_sk_device sm; device_message_counter := device_message_counter sm;
  sm_sk_reader := sm_sk_reader sm; reader_message_counter := c;
  sm_state := sm_state sm; trusted_verifiers := trusted_verifiers sm; sm_device_auth_type := sm_device_auth_type sm |}.

Section reader_authentication.
Context `{Serde ReaderAuthentication, Serde Value} `{ToBeSigned} `{Der, Sha1, Sha2} {VK Sig : Type} `{Ecdsa VK Sig}
  (now : Z).

(** The part after the chain has been decoded; [errors] are those of its validation. *)
Definition check_reader_signature (self : SessionManager) (doc_request : DocRequest)
    (reader_auth : MaybeTagged CoseSign1) (verifier : VK) : list ReaderAuthProblem :=
  match Tag24_new {| ra_label := "ReaderAuthentication"; ra_transcript := sm_session_transcript self;
                     ra_items_request := items_request doc_request |} with
  | Err e => [PayloadConstruction e]
  | Ok detached_payload =>
      match to_vec detached_payload with
      | Err e => [PayloadEncoding e]
      | Ok detached_payload =>
          match into_result (Sign1_verify reader_auth verifier (Some detached_payload) None) with
          | Ok _ => []
          | Err e => [ReaderSignature e]
          end
      end
  end.

Definition reader_authentication (self : SessionManager) (doc_request : DocRequest) : option ReaderAuthOutcome :=
  match reader_auth doc_request with
  | None => Some {| ra_common_name := None; ra_errors := [NoReaderAuth] |}
  | Some reader_auth =>
      match x5chain_header (s1_unprotected (message reader_auth)) with
      | None => Some {| ra_common_name := None; ra_errors := [NoX5Chain] |}
      | Some x5chain_cbor =>
          match X5Chain_from_cbor x5chain_cbor with
          | Err e => Some {| ra_common_name := None; ra_errors := [X5ChainUndecodable e] |}
          | Ok x5chain =>
              common_name ← end_entity_common_name x5chain;
              outcome ← validate_x5chain (VK := VK) (Sig := Sig) now MdlReaderOneStep x5chain (trusted_verifiers self);
              key ← end_entity_public_key_with_oid NistP256 x5chain SECP_256_R_1;
              Some {| ra_common_name := Some common_name;
                      ra_errors := (ChainProblem <$> errors outcome) ++
                        match key with
                        | Err e => [ReaderKeyUndecodable e]
                        | Ok verifier => check_reader_signature self doc_request reader_auth verifier
                        end |}
          end
      end
  end.

Definition validate_request (self : SessionManager) (request : DeviceRequest) : option RequestAuthenticationOutcome :=
  let items_request := (λ d, inner (items_request d)) <$> nev (doc_requests request) in
  let errors := if bool_decide (dr_version request = DeviceRequest_VERSION) then ∅
                else <["parsing_errors"%string := [UnsupportedRequestVersion]]> ∅ in
  match head (nev (doc_requests request)) with
  | None => Some {| ro_items_request := items_request; ro_common_name := None;
                    ro_reader_authentication := Unchecked; ro_errors := errors |}
  | Some doc_request =>
      outcome ← reader_authentication self doc_request;
      Some {| ro_items_request := items_request; ro_common_name := ra_common_name outcome;
              ro_reader_authentication := match ra_errors outcome with [] => Valid | _ => Invalid end;
              ro_errors := errors |}
  end.
End reader_authentication.

Section session_manager.
Context `{Serde ReaderAuthentication, Serde Value} `{ToBeSigned} `{Der, Sha1, Sha2} {VK Sig : Type} `{Ecdsa VK Sig}
  (now : Z).
Context `{FromValue DeviceRequest, Serde SessionData, AeadBackend}.

Definition parse_request (request : bytes) : result DeviceRequest PreparedDeviceResponse :=
  let? request := map_err (λ _, PreparedDeviceResponse_empty ResponseCborDecodingError)
                          (from_slice (T := Value) request) in
  map_err (λ _, PreparedDeviceResponse_empty ResponseCborValidationError) (cbor_from_value request).

Definition handle_decoded_request (self : SessionManager) (request : SessionData) :
    option (SessionManager * RequestAuthenticationOutcome) :=
  match sd_data request with
  | None => Some (self, request_failed "parsing_errors" NoRequestsReceived)
  | Some data =>
      let '(c, r) := decrypt_reader_data (sm_sk_reader self) (bytestr data) (reader_message_counter self) in
      let self := with_reader_counter c self in
      match r with
      | Err _ => Some (self, request_failed "decryption_errors" CannotDecryptRequest)
      | Ok decrypted_request =>
          match parse_request decrypted_request with
          | Err e => Some (with_state (Signing e) self, RequestAuthenticationOutcome_default)
          | Ok request =>
              outcome ← validate_request (VK := VK) (Sig := Sig) now self request;
              Some (self, outcome)
          end
      end
  end.

Definition handle_request (self : SessionManager) (request : bytes) :
    option (SessionManager * RequestAuthenticationOutcome) :=
  match from_slice (T := SessionData) request with
  | Err e => Some (self, request_failed "parsing_errors" (BadSessionData e))
  | Ok session_data => handle_decoded_request self session_data
  end.
End session_manager.

Section responding.
Context `{Serde DeviceNamespaces, Serde (DeviceAuthentication SessionTranscript180135), Serde Value} `{ToBeSigned}.
Context `{Serde DeviceResponse, Serde SessionData, AeadBackend}.

Definition prepare_response (self : SessionManager) (requests : RequestedItems) (permitted : PermittedItems) :
    SessionManager :=
  with_state (Signing (DeviceSession_prepare_response self requests permitted)) self.

Definition get_next_signature_payload (self : SessionManager) : option (bytes * bytes) :=
  match sm_state self with Signing p => prepared_next_signature_payload p | _ => None end.

(** The completed branch of [submit_next_signature], entered with the state taken. *)
Definition send_response (self : SessionManager) (response : DeviceResponse) :
    option (SessionManager * result unit CborError) :=
  match to_vec response with
  | Err e => Some (self, Err e)
  | Ok bytes =>
      response2 ← rok (from_slice (T := DeviceResponse) bytes);
      match to_vec response2 with
      | Err e => Some (self, Err e)
      | Ok bytes2 =>
          if negb (bool_decide (bytes = bytes2)) then None else
          match to_vec response with
          | Err e => Some (self, Err e)
          | Ok response_bytes =>
              let '(c, r) := encrypt_device_data (sm_sk_device self) response_bytes (device_message_counter self) in
              let self := with_device_counter c self in
              let session_data :=
                match r with
                | Ok encrypted_response =>
                    {| sd_status := None; sd_data := Some {| bytestr := encrypted_response |} |}
                | Err _ => {| sd_status := Some SessionEncryptionError; sd_data := None |}
                end in
              match to_vec session_data with
              | Err e => Some (self, Err e)
              | Ok encoded_response => Some (with_state (ReadyToRespond encoded_response) self, Ok tt)
              end
          end
      end
  end.

Definition submit_next_signature (self : SessionManager) (signature : bytes) :
    option (SessionManager * result unit CborError) :=
  match sm_state self with
  | Signing p =>
      let self := with_state AwaitingRequest self in
      let p := prepared_submit_next_signature p signature in
      if is_complete p then send_response self (finalize_response p)
      else Some (with_state (Signing p) self, Ok tt)
  | _ => Some (self, Ok tt)
  end.

Definition response_ready (self : SessionManager) : bool :=
  match sm_state self with ReadyToRespond _ => true | _ => false end.

Definition retrieve_response (self : SessionManager) : SessionManager * option bytes :=
  match sm_state self with
  | ReadyToRespond r => (with_state AwaitingRequest self, Some r)
  | _ => (self, None)
  end.
End responding.

(** ** Engagement and session establishment *)

Inductive DeviceSessionError : Type :=
  | EKeyGeneration (e : SessionError)
  | Tag24CborEncoding (e : Tag24Error)
  | SharedSecretGeneration (e : SharedSecretFailure)
  | SessionKeyDerivation (e : DeriveError).

Section engagement.
Context `{Ecdh} `{Serde CoseKey, Serde DeviceEngagement, Serde Value}.

Record SessionManagerInit : Type := {
  init_documents : Documents;
  init_e_device_key : SecretKey;
  init_device_engagement : Tag24 DeviceEngagement;
}.
Record SessionManagerEngaged : Type := {
  eng_documents : Documents;
  eng_e_device_key : SecretKey;
  eng_device_engagement : Tag24 DeviceEngagement;
  eng_handover : Handover;
}.

(** [private_key] is the ephemeral key the generator returned. *)
Definition initialise (private_key : SecretKey) (documents : Documents)
    (device_retrieval_methods : option (NonEmptyVec DeviceRetrievalMethod))
    (server_retrieval_methods : option ServerRetrievalMethods) : result SessionManagerInit DeviceSessionError :=
  let? (e_device_key, e_device_key_pub) := map_err EKeyGeneration (create_p256_ephemeral_keys private_key) in
  let? e_device_key_bytes := map_err Tag24CborEncoding (Tag24_new e_device_key_pub) in
  let security := {| security_cipher := 1; Engagement.e_device_key_bytes := e_device_key_bytes |} in
  let device_engagement := {| version := "1.0"; Engagement.security := security;
    Engagement.device_retrieval_methods := device_retrieval_methods;
    Engagement.server_retrieval_methods := server_retrieval_methods; protocol_info := None |} in
  let? device_engagement := map_err Tag24CborEncoding (Tag24_new device_engagement) in
  Ok {| init_documents := documents; init_e_device_key := e_device_key;
        init_device_engagement := device_engagement |}.

Definition ble_ident `{Hkdf} (self : SessionManagerInit) : result bytes BleError :=
  calculate_ble_ident (e_device_key_bytes (security (inner (init_device_engagement self)))).

Definition qr_engagement `{Base64} (self : SessionManagerInit) : SessionManagerEngaged * string :=
  let qr_code_uri := to_qr_code_uri (init_device_engagement self) in
  ({| eng_documents := init_documents self; eng_device_engagement := init_device_engagement self;
      eng_e_device_key := init_e_device_key self; eng_handover := QR |}, qr_code_uri).
End engagement.

Section establishment.
Context `{Ecdh} `{Serde CoseKey, Serde DeviceEngagement, Serde Value, Serde SessionTranscript180135}.
Context `{Serde ReaderAuthentication} `{ToBeSigned} `{Der, Sha1, Sha2} {VK Sig : Type} `{Ecdsa VK Sig} (now : Z).
Context `{FromValue DeviceRequest, Serde SessionData, AeadBackend, Sha256Compress}.

Definition process_session_establishment (self : SessionManagerEngaged) (session_establishment : SessionEstablishment)
    (trusted_verifiers : TrustAnchorRegistry) :
    option (result (SessionManager * RequestAuthenticationOutcome) DeviceSessionError) :=
  let e_reader_key := e_reader_key session_establishment in
  let session_transcript := {| st_engagement := eng_device_engagement self; st_reader_key := e_reader_key;
                               st_handover := eng_handover self |} in
  match map_err Tag24CborEncoding (Tag24_new session_transcript) with
  | Err e => Some (Err e)
  | Ok session_transcript_bytes =>
      match map_err SharedSecretGeneration (get_shared_secret (inner e_reader_key) (eng_e_device_key self)) with
      | Err e => Some (Err e)
      | Ok shared_secret =>
          sk_reader ← derive_session_key shared_secret session_transcript_bytes true;
          match map_err SessionKeyDerivation sk_reader with
          | Err e => Some (Err e)
          | Ok sk_reader =>
              sk_device ← derive_session_key shared_secret session_transcript_bytes false;
              match map_err SessionKeyDerivation sk_device with
              | Err e => Some (Err e)
              | Ok sk_device =>
                  let sm := {| sm_documents := eng_documents self; sm_session_transcript := session_transcript;
                    sm_sk_device := sk_device; device_message_counter := 0;
                    sm_sk_reader := sk_reader; reader_message_counter := 0;
                    sm_state := AwaitingRequest; Device.trusted_verifiers := trusted_verifiers;
                    sm_device_auth_type := Sign1 |} in
                  r ← handle_decoded_request (VK := VK) (Sig := Sig) now sm
                        {| sd_data := Some (se_data session_establishment); sd_status := None |};
                  Some (Ok r)
              end
          end
      end
  end.
End establishment.

(** ** Stored documents *)

(** [From<Mdoc> for Document]: [id] is the fresh identifier. *)
Definition extract (v : NonEmptyVec IssuerSignedItemBytes) : option (NonEmptyMap string IssuerSignedItemBytes) :=
  rok (NonEmptyMap_try_from (collect ((λ i, (element_identifier (inner i), i)) <$> nev v))).
Definition Document_from_mdoc (id : bytes) (mdoc : Mdoc) : option Document :=
  namespaces ← mapM (λ p : string * NonEmptyVec IssuerSignedItemBytes, m ← extract p.2; Some (p.1, m))
                    (entries (nem (mdoc_namespaces mdoc)));
  namespaces ← rok (NonEmptyMap_try_from (collect namespaces));
  Some {| doc_id := id; doc_mso := mdoc_mso mdoc; doc_namespaces := namespaces;
          doc_issuer_auth := mdoc_issuer_auth mdoc |}.

(** ** Age attestations *)

Inductive AgeError : Type := AgeParsingError | PrefixError.

(** [str::parse::<u8>]: an optional sign, at least one digit, no overflow. *)
Definition digit (c : Ascii.ascii) : option Z :=
  let n := Z.of_nat (Ascii.nat_of_ascii c) in
  if bool_decide (48 ≤ n ≤ 57)%Z then Some (n - 48)%Z else None.
Fixpoint parse_digits (acc : Z) (s : string) : option Z :=
  match s with
  | EmptyString => Some acc
  | String c s' =>
      d ← digit c;
      tens ← checked_mul u8_max acc 10;
      acc ← checked_add u8_max tens d;
      parse_digits acc s'
  end.
Definition parse_u8 (s : string) : option Z :=
  let digits := default s (Engagement.strip_prefix "+" s) in
  if String.eqb digits "" then None else parse_digits 0 digits.

(** [AgeOver::try_from] *)
Definition parse_age_from_element_identifier (element_identifier : string) : result u8 AgeError :=
  match Engagement.strip_prefix "age_over_" element_identifier with
  | Some x => ok_or AgeParsingError (parse_u8 x)
  | None => Err PrefixError
  end.

(** [s.contains(sub)] *)
Fixpoint contains (sub s : string) : bool :=
  match Engagement.strip_prefix sub s, s with
  | Some _, _ => true
  | None, EmptyString => false
  | None, String _ s' => contains sub s'
  end.

(** [iter.min_by_key(..)]: the first least element; [max_by_key]: the last greatest. *)
Definition min_by_key {A} (key : A → Z) (l : list A) : option A :=
  foldl (λ best x, match best with Some b => if (key x <? key b)%Z then Some x else best | None => Some x end) None l.
Definition max_by_key {A} (key : A → Z) (l : list A) : option A :=
  foldl (λ best x, match best with Some b => if (key x <? key b)%Z then best else Some x | None => Some x end) None l.

Definition is_true_claim (claim : Z * IssuerSignedItemBytes) : bool :=
  bool_decide (element_value (inner claim.2) = Bool true).

Definition nearest_age_attestation (element_identifier : string)
    (issuer_items : NonEmptyMap string IssuerSignedItemBytes) : result (option IssuerSignedItemBytes) AgeError :=
  let? requested_age := parse_age_from_element_identifier element_identifier in
  let owned_age_over_claims := filter (λ element, contains "age_over" element.1) (entries (nem issuer_items)) in
  let? age_over_claims_numerical := try_map (λ f : string * IssuerSignedItemBytes,
      let? age := parse_age_from_element_identifier f.1 in Ok (age, f.2)) owned_age_over_claims in
  let true_age_over_claims := filter is_true_claim age_over_claims_numerical in
  let false_age_over_claims := filter (λ x, ¬ is_true_claim x) age_over_claims_numerical in
  match min_by_key fst (filter (λ f, (requested_age ≤ f.1)%Z) true_age_over_claims) with
  | Some age_attestation => Ok (Some age_attestation.2)
  | None =>
      Ok (snd <$> max_by_key fst (filter (λ f, (f.1 ≤ requested_age)%Z) false_age_over_claims))
  end.
