(* ===== verification/Utils.v ===== *)
(** * The command-line utility ([src/bin/utils.rs], [src/bin/x509/mod.rs])

    The two commands: printing the namespaces of a stored document, and validating
    a document signer certificate against a root certificate. Files, base64 and
    the pretty printer of [serde_json] are interfaces; a run gives the text written
    to the standard output with the result of [main]. Arguments are those
    that [clap] parsed. *)

From S2P Require Export Device Json.

(** [File::open] followed by [read_to_end], at a path. *)
Class Files := read_file : string → result bytes unit.
(** [serde_json::to_string_pretty] *)
Class PrettyJson := to_string_pretty : Json → result string unit.
(** The texts of validation errors, which the development keeps as constructors. *)
Class DisplayErrors := display_error : ErrorWithContext → string.

Inductive RuleSet : Type := RuleSet_Iaca | RuleSet_Aamva.
Inductive Action : Type :=
  | GetNamespaces (mdl : string)
  | ValidateCerts (rules : RuleSet) (ds root : string).

Inductive UtilsError : Type :=
  | ParseMdl (e : StringifyError)
  | Unprintable
  | Io (path : string)
  | RootPem
  | ChainError (e : X5ChainError).

(** The printed text and the result of a run. *)
Abbreviation Run := (list string * result unit UtilsError)%type.
Definition run (r : result (list string) UtilsError) : Run :=
  match r with Ok out => (out, Ok tt) | Err e => ([], Err e) end.

Section utils.
Context `{Files, PrettyJson, DisplayErrors, Base64Standard, Serde Document}.
Context `{Pem, Der, Sha1, Sha2} {VK Sig : Type} `{Ecdsa VK Sig} (now : Z).

(** [bin/x509/mod.rs]; [None] is the index panic of [end_entity_certificate]. *)
Definition validate (rules : RuleSet) (signer root : bytes) : option (result (list ErrorWithContext) UtilsError) :=
  match Certificate_from_pem (decode_string root) with
  | Err _ => Some (Err RootPem)
  | Ok root =>
      let trust_anchor := {| certificate := root; purpose := Iaca |} in
      let trust_anchor_registry := {| anchors := [trust_anchor] |} in
      match (let? builder := with_pem_certificate [] signer in build builder) with
      | Err e => Some (Err (ChainError e))
      | Ok x5chain =>
          outcome ← validate_x5chain now (match rules with RuleSet_Iaca => Mdl | RuleSet_Aamva => AamvaMdl end)
            x5chain trust_anchor_registry;
          Some (Ok (errors outcome))
      end
  end.

Definition claims (document : Document) : list (string * list string) :=
  (λ p : string * NonEmptyMap string IssuerSignedItemBytes, (p.1, (entries (nem p.2)).*1)) <$>
    entries (nem (doc_namespaces document)).
Definition claims_json (claims : list (string * list string)) : Json :=
  JObject ((λ p : string * list string, (p.1, JArray (JString <$> p.2))) <$> claims).

Definition print_namespaces (mdl : string) : result (list string) UtilsError :=
  let? document := map_err ParseMdl (parse_string (T := Document) mdl) in
  let claims := entries (collect (claims document)) in
  let? text := map_err (λ _, Unprintable) (to_string_pretty (claims_json claims)) in
  Ok [text].

Definition validate_certs (rules : RuleSet) (ds root : string) : option (result (list string) UtilsError) :=
  match read_file ds with
  | Err _ => Some (Err (Io ds))
  | Ok ds_bytes =>
      match read_file root with
      | Err _ => Some (Err (Io root))
      | Ok root_bytes =>
          validation_errors ← validate rules ds_bytes root_bytes;
          Some (let? validation_errors := validation_errors in
                match validation_errors with
                | [] => Ok ["Validated!"%string]
                | _ => let? text := map_err (λ _, Unprintable)
                         (to_string_pretty (JArray (JString ∘ display_error <$> validation_errors))) in
                       Ok ["Validation errors:"%string; text]
                end)
      end
  end.

Definition main (action : Action) : option Run :=
  match action with
  | GetNamespaces mdl => Some (run (print_namespaces mdl))
  | ValidateCerts rules ds root => run <$> validate_certs rules ds root
  end.
End utils.

(** ** Properties *)

Section utils_props.
Context `{Files, PrettyJson, DisplayErrors, Base64Standard, Serde Document}.
Context `{Pem, Der, Sha1, Sha2} {VK Sig : Type} `{Ecdsa VK Sig} (now : Z).

(** The names of the namespaces and their elements, in key order. *)
Lemma claims_sorted document : entries (collect (claims document)) = claims document.
Proof.
  assert (claims document = entries ((λ i : NonEmptyMap string IssuerSignedItemBytes, (entries (nem i)).*1) <$>
    nem (doc_namespaces document))) as ->; [reflexivity|]. by rewrite collect_entries.
Qed.

Definition ruleset (rules : RuleSet) : ValidationRuleset :=
  match rules with RuleSet_Iaca => Mdl | RuleSet_Aamva => AamvaMdl end.

(** The certificates of a run, and the errors of their validation. *)
Lemma validate_inv rules signer root r :
  validate now rules signer root = Some (Ok r) ↔
  ∃ der leaf anchor o,
    pem_decode signer = Ok der ∧ Certificate_from_der der = Ok leaf ∧
    Certificate_from_pem (decode_string root) = Ok anchor ∧
    validate_x5chain now (ruleset rules) {| x5chain_certs := {| nev := [{| cert_inner := leaf; cert_der := der |}] |} |}
      {| anchors := [{| certificate := anchor; purpose := Iaca |}] |} = Some o ∧ r = errors o.
Proof.
  unfold validate, with_pem_certificate, CertificateWithDer_from_pem, CertificateWithDer_from_der. split.
  - destruct (Certificate_from_pem _) as [anchor|]; [|discriminate].
    destruct (pem_decode signer) as [der|]; cbn [map_err rbind]; [|intros [=]].
    destruct (Certificate_from_der der) as [leaf|] eqn:Hleaf; cbn [map_err rbind app]; [|intros [=]]. 
    intros Ho. exists der, leaf, anchor. eexists. split_and!; [done..| |]. 
   all: destruct rules; cbn in Ho; injection Ho as <-; reflexivity.
  - intros (der & leaf & anchor & o & -> & Hleaf & -> & Ho & ->). cbn [map_err rbind]. rewrite Hleaf. cbn [map_err rbind app].
    destruct rules; cbn in Ho; injection Ho as <-; reflexivity.
Qed.

Lemma validate_total rules signer root : validate now rules signer root ≠ None.
Proof.
  unfold validate, with_pem_certificate. destruct (Certificate_from_pem _) as [anchor|]; [|discriminate].
  destruct (CertificateWithDer_from_pem signer) as [c|]; discriminate.
Qed.

(** The text is printed when there are no errors. *)
Lemma validated_inv rules ds root :
  main now (ValidateCerts rules ds root) = Some (["Validated!"%string], Ok tt) ↔
  ∃ ds_bytes root_bytes, read_file ds = Ok ds_bytes ∧ read_file root = Ok root_bytes ∧
    validate now rules ds_bytes root_bytes = Some (Ok []).
Proof.
  cbn [main]. unfold validate_certs. split.
  - destruct (read_file ds) as [ds_bytes|]; [|intros [=]]. destruct (read_file root) as [root_bytes|]; [|intros [=]].
    intros Hrun. exists ds_bytes, root_bytes. split; [done|]. split; [done|].
    destruct (validate _ _ _ _) as [[[|e l]|e]|]; [done| |discriminate Hrun|discriminate Hrun].
    cbn [mbind option_bind rbind] in Hrun. destruct (to_string_pretty _); discriminate Hrun.
  - by intros (ds_bytes & root_bytes & -> & -> & ->).
Qed.

(** Validation of a chain of one certificate against one anchor. *)
Lemma sole_anchor leaf anchor :
  trusted_issuer now Iaca leaf {| anchors := [{| certificate := anchor; purpose := Iaca |}] |} anchor ↔
  ∃ rest, find_trust_anchor_candidates now leaf {| anchors := [{| certificate := anchor; purpose := Iaca |}] |} Iaca = anchor :: rest.
Proof.
  rewrite <-candidates_spec. split; [|intros [rest ->]; by left].
  destruct (find_trust_anchor_candidates _ _ _ _) as [|root rest] eqn:Hfound; [by intros Hin%elem_of_nil|].
  assert (root ∈ root :: rest) as Hroot by by left. rewrite <-Hfound in Hroot. apply candidates_spec in Hroot as [Hroot _].
  apply list_elem_of_singleton in Hroot. injection Hroot as ->. by exists rest.
Qed.
Lemma sole_candidate leaf anchor root rest :
  find_trust_anchor_candidates now leaf {| anchors := [{| certificate := anchor; purpose := Iaca |}] |} Iaca = root :: rest →
  root = anchor.
Proof.
  intros Hfound. assert (root ∈ root :: rest) as Hroot by by left. rewrite <-Hfound in Hroot.
  apply candidates_spec in Hroot as [Hroot _]. apply list_elem_of_singleton in Hroot. by injection Hroot.
Qed.
Lemma validated_chain rules der leaf anchor o :
  validate_x5chain now (ruleset rules) {| x5chain_certs := {| nev := [{| cert_inner := leaf; cert_der := der |}] |} |}
    {| anchors := [{| certificate := anchor; purpose := Iaca |}] |} = Some o →
  errors o = [] ↔
  in_validity_period now leaf ∧ profile_ok (document_signer_validators leaf) leaf ∧
  trusted_issuer now Iaca leaf {| anchors := [{| certificate := anchor; purpose := Iaca |}] |} anchor ∧
  issuer_requirements (ruleset rules) leaf anchor.
Proof.
  intros Ho. pose proof (λ H, proj1 (chain_validation now (ruleset rules) _ _ o leaf H Ho)) as Hspec.
  specialize (Hspec eq_refl). rewrite success_nil in Hspec. rewrite Hspec, sole_anchor.
  assert (ruleset_purpose (ruleset rules) = Iaca) as -> by by destruct rules.
  assert (leaf_validators (ruleset rules) leaf = document_signer_validators leaf) as -> by by destruct rules.
  split.
  - intros (? & ? & root & rest & Hfound & ?). pose proof (sole_candidate _ _ _ _ Hfound) as ->. eauto.
  - intros (? & ? & [rest Hfound] & ?). eauto 6.
Qed.

(** C40: [isomdl-utils validate-certs] never panics, and it prints [Validated!] exactly when both
    files can be read, each holds a certificate, the signer's certificate is in its
    validity period and has the profile of a document signer, the root vouches for
    it (name, key identifier, signature, validity) and has the profile of an
    IACA certificate, and the two agree on the country and, as the rule set
    demands, on the state. A certificate that fails is no error of the run. *)
Theorem validate_certs_spec rules ds root :
  main now (ValidateCerts rules ds root) ≠ None ∧
  (main now (ValidateCerts rules ds root) = Some (["Validated!"%string], Ok tt) ↔
   ∃ ds_bytes root_bytes der leaf anchor,
     read_file ds = Ok ds_bytes ∧ read_file root = Ok root_bytes ∧
     pem_decode ds_bytes = Ok der ∧ Certificate_from_der der = Ok leaf ∧
     Certificate_from_pem (decode_string root_bytes) = Ok anchor ∧
     in_validity_period now leaf ∧ profile_ok (document_signer_validators leaf) leaf ∧
     trusted_issuer now Iaca leaf {| anchors := [{| certificate := anchor; purpose := Iaca |}] |} anchor ∧
     issuer_requirements (ruleset rules) leaf anchor).
Proof.
  split.
  - cbn [main]. unfold validate_certs. destruct (read_file ds); [|discriminate]. destruct (read_file root); [|discriminate].
    destruct (validate _ _ _ _) eqn:Hv; [discriminate|]. by apply validate_total in Hv.
  - rewrite validated_inv. setoid_rewrite validate_inv. split.
    + intros (ds_bytes & root_bytes & Hds & Hroot & der & leaf & anchor & o & Hder & Hleaf & Hanchor & Ho & Herrors).
      apply validated_chain in Ho. rewrite <-Herrors in Ho. exists ds_bytes, root_bytes, der, leaf, anchor. tauto.
    + intros (ds_bytes & root_bytes & der & leaf & anchor & Hds & Hroot & Hder & Hleaf & Hanchor & Hvalid).
      exists ds_bytes, root_bytes. split; [done|]. split; [done|].
      assert (∃ o, validate_x5chain now (ruleset rules)
        {| x5chain_certs := {| nev := [{| cert_inner := leaf; cert_der := der |}] |} |}
        {| anchors := [{| certificate := anchor; purpose := Iaca |}] |} = Some o) as [o Ho] by by eexists.
      exists der, leaf, anchor, o. split_and!; [done..|]. symmetry. by apply (validated_chain _ _ _ _ _ Ho).
Qed.

(** [isomdl-utils get-namespaces] given the text of a document prints, pretty-printed,
    the map from each of its namespaces to the identifiers of the namespace's
    elements, every one of both and each once, in their order; a text that is not
    base64 or does not hold a document is an error and prints nothing. *)
Theorem get_namespaces_spec mdl :
  match parse_string (T := Document) mdl with
  | Err e => main now (GetNamespaces mdl) = Some ([], Err (ParseMdl e))
  | Ok document =>
      ∃ l, main now (GetNamespaces mdl) = Some (match to_string_pretty (claims_json l) with
             | Ok text => ([text], Ok tt)
             | Err _ => ([], Err Unprintable)
             end) ∧
        StronglySorted key_lt l ∧
        ∀ ns elements, (ns, elements) ∈ l ↔
          ∃ items, nem (doc_namespaces document) !! ns = Some items ∧ elements = (entries (nem items)).*1
  end.
Proof.
  cbn [main]. unfold print_namespaces. destruct (parse_string mdl) as [document|e]; [|done]. cbn [map_err rbind].
  exists (entries (collect (claims document))). split_and!.
  - by destruct (to_string_pretty _).
  - apply btree_sorted.
  - intros ns elements. rewrite claims_sorted. unfold claims. rewrite list_elem_of_fmap. split.
    + intros ([ns' items] & [= -> ->] & Hin). exists items. split; [|done]. by apply entries_lookup.
    + intros (items & Hitems & ->). exists (ns, items). split; [done|]. by apply entries_lookup.
Qed.
End utils_props.
