(* ===== verification/DeviceProps.v ===== *)
(** * Properties of the holder's device

    Selective disclosure and the account a response gives of every document type. *)

From S2P Require Export Device.

(** ** The permitted and requested elements *)

Lemma filter_namespaces_lookup item namespaces ns :
  filter_namespaces item namespaces !! ns =
  elems ← namespaces !! ns; req ← nem (ir_namespaces item) !! ns; Some (filter_elements req elems).
Proof.
  apply (filter_map_lookup (λ ns elems, req ← nem (ir_namespaces item) !! ns; Some (filter_elements req elems))).
Qed.

Lemma filter_permitted_lookup requests permitted dt :
  filter_permitted requests permitted !! dt =
  namespaces ← permitted !! dt; item ← find_request requests dt; Some (filter_namespaces item namespaces).
Proof.
  apply (filter_map_lookup (λ dt namespaces, item ← find_request requests dt; Some (filter_namespaces item namespaces))).
Qed.

(** The user permits the element. *)
Definition user_permits (permitted : PermittedItems) (dt ns el : string) : Prop :=
  ∃ namespaces elems, permitted !! dt = Some namespaces ∧ namespaces !! ns = Some elems ∧ el ∈ elems.
(** The first request for the document type asks for the element. *)
Definition reader_requests (requests : RequestedItems) (dt ns el : string) : Prop :=
  ∃ item req, find_request requests dt = Some item ∧ nem (ir_namespaces item) !! ns = Some req ∧
    is_Some (nem req !! el).

#[export] Instance reader_requests_dec requests dt ns el : Decision (reader_requests requests dt ns el).
Proof.
  unfold reader_requests. destruct (find_request requests dt) as [item|]; [|right; by intros (? & ? & [=] & _)].
  destruct (nem (ir_namespaces item) !! ns) as [req|] eqn:Hreq; [|right; intros (i & r & [= <-] & Hr & _); congruence].
  destruct (decide (is_Some (nem req !! el))) as [He|He];
    [left; by exists item, req|right; intros (i & r & [= <-] & Hr & Hel); congruence].
Defined.

(** What may be shared: the elements that the user permits, in the order in which the user
    lists them and as often, less those that the reader does not ask for. *)
Definition shareable (requests : RequestedItems) (permitted : PermittedItems) (dt ns : string) : list string :=
  filter (λ el, reader_requests requests dt ns el) (default [] (namespaces ← permitted !! dt; namespaces !! ns)).

Lemma filter_none {A} (P : A → Prop) `{∀ x, Decision (P x)} (l : list A) : (∀ x, ¬ P x) → filter P l = [].
Proof. intros Hno. induction l as [|x l IH]; [done|]. by rewrite filter_cons_False. Qed.

(** The device's filter leaves exactly that. *)
Lemma shareable_filtered requests permitted dt ns :
  default [] (namespaces ← filter_permitted requests permitted !! dt; namespaces !! ns) = shareable requests permitted dt ns.
Proof.
  unfold shareable. rewrite filter_permitted_lookup.
  destruct (permitted !! dt) as [nss|]; cbn [mbind option_bind from_option]; [|done].
  destruct (nss !! ns) as [elems|] eqn:Hns; cbn [mbind option_bind default from_option].
  - destruct (find_request requests dt) as [item|] eqn:Hitem; cbn [mbind option_bind from_option].
    + rewrite filter_namespaces_lookup, Hns. cbn [mbind option_bind].
      destruct (nem (ir_namespaces item) !! ns) as [req|] eqn:Hreq; cbn [mbind option_bind from_option].
      * unfold filter_elements, id. apply list_filter_iff. intros el. unfold reader_requests. rewrite Hitem.
        split; [by intros ?; exists item, req|]. intros (item' & req' & [= <-] & Hreq' & Hel). congruence.
      * symmetry. apply filter_none. intros el (item' & req' & Hi & Hreq' & _). congruence.
    + symmetry. apply filter_none. intros el (item' & req' & Hi & _). congruence.
  - destruct (find_request requests dt) as [item|]; cbn [mbind option_bind]; [|done].
    by rewrite filter_namespaces_lookup, Hns.
Qed.

Lemma shareable_elem requests permitted dt ns el :
  el ∈ shareable requests permitted dt ns ↔
  user_permits permitted dt ns el ∧ reader_requests requests dt ns el.
Proof.
  unfold shareable, user_permits. rewrite list_elem_of_filter.
  destruct (permitted !! dt) as [nss|]; cbn [mbind option_bind default from_option].
  - destruct (nss !! ns) as [elems|] eqn:Hns; cbn [default from_option]; unfold id.
    + split; [intros [? ?]; split; [by exists nss, elems|done]|].
      intros [(nss' & elems' & [= <-] & Hns' & Hel) Hr]. split; [done|]. congruence.
    + rewrite elem_of_nil. split; [by intros [_ []]|]. intros [(nss' & elems' & [= <-] & Hns' & _) _]. congruence.
  - rewrite elem_of_nil. split; [by intros [_ []]|]. by intros [(? & ? & [=] & _) _].
Qed.

(** ** What one document returns *)

(** The stored item of an element. *)
Definition stored (document : Document) (ns el : string) : option IssuerSignedItemBytes :=
  m ← nem (doc_namespaces document) !! ns; nem m !! el.

Definition returned_items (document : Document) (ns : string) (els : list string) : list IssuerSignedItemBytes :=
  omap (stored document ns) els.
Definition missing (document : Document) (ns : string) (els : list string) : list string :=
  filter (λ el, stored document ns el = None) els.
Definition missing_errors (document : Document) (ns : string) (els : list string) : btree string DocumentErrorCode :=
  collect ((λ el, (el, DataNotReturned)) <$> missing document ns els).

Lemma return_element_stored document ns s el :
  return_element (nem (doc_namespaces document) !! ns) ns s el =
  match stored document ns el with Some item => return_item ns item s | None => return_error ns el s end.
Proof. unfold return_element, stored. by destruct (nem (doc_namespaces document) !! ns). Qed.

Definition returned_at (document : Document) (els : list string) (ns : string) (s : Returned) : Prop :=
  s.1 !! ns = NonEmptyVec_maybe_new (returned_items document ns els) ∧
  s.2 !! ns = NonEmptyMap_maybe_new (missing_errors document ns els).
Definition same_elsewhere (ns : string) (s s' : Returned) : Prop :=
  ∀ ns', ns' ≠ ns → s'.1 !! ns' = s.1 !! ns' ∧ s'.2 !! ns' = s.2 !! ns'.

Lemma return_element_step document els ns s el :
  returned_at document els ns s →
  let s' := return_element (nem (doc_namespaces document) !! ns) ns s el in
  returned_at document (els ++ [el]) ns s' ∧ same_elsewhere ns s s'.
Proof.
  intros [H1 H2] s'. subst s'. rewrite return_element_stored.
  unfold returned_at, returned_items, missing_errors, missing in *.
  rewrite omap_app, filter_app, fmap_app. cbn [omap list_omap].
  destruct (stored document ns el) as [item|] eqn:Hst.
  - rewrite (filter_cons_False _ el []) by congruence. rewrite filter_nil, fmap_nil, app_nil_r.
    unfold return_item. rewrite H1. split; [split; [|done]|].
    + destruct (omap _ els) as [|x l]; cbn [fst app NonEmptyVec_maybe_new NonEmptyVec_try_from rok];
        by rewrite lookup_insert_eq.
    + intros ns' Hne. split; [|done]. cbn [fst]. destruct (NonEmptyVec_maybe_new _); by rewrite lookup_insert_ne.
  - rewrite (filter_cons_True _ el []) by done. rewrite filter_nil, app_nil_r. cbn [fmap list_fmap].
    rewrite collect_snoc. unfold return_error. rewrite H2. split; [split; [done|]|].
    + set (c := collect _). destruct (NonEmptyMap_maybe_new c) as [m|] eqn:Hc.
      * apply NonEmptyMap_maybe_new_Some in Hc as [_ Hm]. cbn [snd]. rewrite lookup_insert_eq.
        symmetry. apply NonEmptyMap_maybe_new_Some. cbn [NonEmptyMap_insert fst nem]. rewrite Hm.
        split; [apply insert_non_empty|done].
      * apply NonEmptyMap_maybe_new_None in Hc. cbn [snd]. rewrite lookup_insert_eq.
        symmetry. apply NonEmptyMap_maybe_new_Some. rewrite Hc. split; [apply insert_non_empty|done].
    + intros ns' Hne. split; [done|]. cbn [snd]. destruct (NonEmptyMap_maybe_new _); by rewrite lookup_insert_ne.
Qed.

Lemma return_namespace_spec document ns els s :
  s.1 !! ns = None → s.2 !! ns = None →
  returned_at document els ns (return_namespace document s (ns, els)) ∧
  same_elsewhere ns s (return_namespace document s (ns, els)).
Proof.
  intros H1 H2. unfold return_namespace. cbn [fst snd].
  apply (foldl_inv _ (λ done s', returned_at document done ns s' ∧ same_elsewhere ns s s')).
  - split; [|by intros ??]. split; [by rewrite H1|by rewrite H2].
  - intros done el rest s1 _ [Hat Hsame].
    destruct (return_element_step document done ns s1 el Hat) as [Hat' Hsame']. split; [done|].
    intros ns' Hne. destruct (Hsame ns' Hne) as [<- <-]. by apply Hsame'.
Qed.

Definition returned_all (document : Document) (namespaces : btree string (list string)) (s : Returned) : Prop :=
  ∀ ns, s.1 !! ns = (els ← namespaces !! ns; NonEmptyVec_maybe_new (returned_items document ns els)) ∧
        s.2 !! ns = (els ← namespaces !! ns; NonEmptyMap_maybe_new (missing_errors document ns els)).

Lemma return_namespaces_spec document (namespaces : btree string (list string)) :
  returned_all document namespaces (foldl (return_namespace document) (∅, ∅) (entries namespaces)).
Proof.
  rewrite <-(collect_entries namespaces) at 1.
  apply (foldl_inv _ (λ done, returned_all document (collect done))).
  - by intros ns.
  - intros done [ns els] rest s1 Hsplit Hinv.
    assert (collect done !! ns = None) as Hfresh.
    { pose proof (entries_NoDup namespaces) as Hnd. rewrite Hsplit, fmap_app in Hnd.
      apply NoDup_app in Hnd as (_ & Hdis & _). apply collect_fresh. intros Hin. apply (Hdis ns Hin). by left. }
    destruct (Hinv ns) as [H1 H2]. rewrite Hfresh in H1, H2.
    destruct (return_namespace_spec document ns els s1 H1 H2) as [[Hat1 Hat2] Hsame].
    intros ns'. rewrite collect_snoc. destruct (decide (ns' = ns)) as [->|Hne].
    + by rewrite lookup_insert_eq, Hat1, Hat2.
    + rewrite lookup_insert_ne by done. destruct (Hsame ns' Hne) as [-> ->]. apply Hinv.
Qed.

(** ** Selective disclosure *)

(** The items a prepared document discloses in a namespace, and the elements it
    reports as not returned. *)
Definition disclosed (pd : PreparedDocument) (ns : string) : list IssuerSignedItemBytes :=
  default [] (m ← is_namespaces (pd_issuer_signed pd); v ← nem m !! ns; Some (nev v)).
Definition reported (pd : PreparedDocument) (ns el : string) : option DocumentErrorCode :=
  m ← pd_errors pd; es ← nem m !! ns; nem es !! el.

Lemma maybe_vec_default {A} (l : list A) : default [] (v ← NonEmptyVec_maybe_new l; Some (nev v)) = l.
Proof. by destruct l. Qed.

Lemma maybe_map_lookup {V} (m : btree string V) k : (m' ← NonEmptyMap_maybe_new m; nem m' !! k) = m !! k.
Proof.
  destruct (NonEmptyMap_maybe_new m) as [m'|] eqn:E.
  - by apply NonEmptyMap_maybe_new_Some in E as [_ <-].
  - by apply NonEmptyMap_maybe_new_None in E as ->.
Qed.

Lemma maybe_map_bind {V W} (m : btree string V) k (f : V → option W) :
  (m' ← NonEmptyMap_maybe_new m; v ← nem m' !! k; f v) = m !! k ≫= f.
Proof. rewrite <-(maybe_map_lookup m k). by destruct (NonEmptyMap_maybe_new m). Qed.

Lemma missing_errors_lookup document ns els el :
  missing_errors document ns els !! el =
  if decide (el ∈ els ∧ stored document ns el = None) then Some DataNotReturned else None.
Proof.
  unfold missing_errors.
  assert (∀ l, collect ((λ el, (el, DataNotReturned)) <$> l) !! el = if decide (el ∈ l) then Some DataNotReturned else None) as ->.
  { induction l as [|x l IH] using rev_ind; [done|]. rewrite fmap_app. cbn [fmap list_fmap].
    rewrite collect_snoc. destruct (decide (el = x)) as [->|Hne].
    - rewrite lookup_insert_eq, decide_True; [done|]. apply elem_of_app. right. by left.
    - rewrite lookup_insert_ne, IH by done. apply decide_ext. rewrite elem_of_app, list_elem_of_singleton. naive_solver. }
  apply decide_ext. unfold missing. rewrite list_elem_of_filter. naive_solver.
Qed.

Section disclosure.
Context {T ST : Type} `{DeviceSession T ST} `{Serde DeviceNamespaces, Serde (DeviceAuthentication ST), Serde Value}
  `{ToBeSigned}.
Implicit Types (self : T).

(** What a prepared document is, for the elements [namespaces] of its type. *)
Definition prepared_from self (dt : string) (namespaces : btree string (list string)) (pd : PreparedDocument) : Prop :=
  pd_doc_type pd = dt ∧
  ∃ document, nem (session_documents self) !! dt = Some document ∧
    pd_id pd = doc_id document ∧ issuer_auth (pd_issuer_signed pd) = doc_issuer_auth document ∧
    let s := foldl (return_namespace document) (∅, ∅) (entries namespaces) in
    is_namespaces (pd_issuer_signed pd) = NonEmptyMap_maybe_new s.1 ∧ pd_errors pd = NonEmptyMap_maybe_new s.2 ∧
    Tag24_new (∅ : DeviceNamespaces) = Ok (pd_device_namespaces pd).

Lemma prepare_document_from self dt namespaces pd :
  prepare_document self dt namespaces = Ok pd → prepared_from self dt namespaces pd.
Proof.
  unfold prepare_document, prepared_from. intros Hpd. inv_result. rename t into document.
  destruct (foldl _ _ _) as [items errs] eqn:Hf. inv_result. cbv zeta.
  split; [done|]. exists document. rewrite Hf. by split_and!.
Qed.

Lemma prepare_step_fold self l acc :
  let s := foldl (prepare_step self) acc l in
  s.1 = acc.1 ++ omap (λ p, rok (prepare_document self p.1 p.2)) l ∧
  s.2 = acc.2 ++ ((λ p : string * btree string (list string), <[p.1 := DataNotReturned]> (∅ : DocumentError)) <$>
                   filter (λ p, is_ok (prepare_document self p.1 p.2) = false) l).
Proof.
  revert acc. induction l as [|[dt nss] l IH]; intros acc; cbn [foldl]; cbv zeta.
  - cbn [omap list_omap]. by rewrite filter_nil, fmap_nil, !app_nil_r.
  - specialize (IH (prepare_step self acc (dt, nss))). cbv zeta in IH. destruct IH as [-> ->].
    unfold prepare_step. cbn [fst snd omap list_omap].
    destruct (prepare_document self dt nss) as [pd|e] eqn:E; cbn [fst snd rok].
    + rewrite filter_cons_False by (cbn [fst snd]; by rewrite E). by rewrite <-app_assoc.
    + rewrite filter_cons_True by (cbn [fst snd]; by rewrite E). cbn [fmap list_fmap fst]. by rewrite <-app_assoc.
Qed.

Lemma prepared_response_contents self requests permitted :
  let l := entries (filter_permitted requests permitted) in
  let r := DeviceSession_prepare_response self requests permitted in
  prepared_documents r = omap (λ p, rok (prepare_document self p.1 p.2)) l ∧
  document_errors r = NonEmptyVec_maybe_new ((λ p : string * btree string (list string),
    <[p.1 := DataNotReturned]> (∅ : DocumentError)) <$> filter (λ p, is_ok (prepare_document self p.1 p.2) = false) l) ∧
  prepared_status r = OK ∧ signed_documents r = [].
Proof.
  cbv zeta. unfold DeviceSession_prepare_response.
  destruct (prepare_step_fold self (entries (filter_permitted requests permitted)) ([], [])) as [Hr1 Hr2].
  destruct (foldl _ _ _) as [prepared errs]. cbn [fst snd] in *. by subst.
Qed.

Lemma prepared_document_elem self requests permitted pd :
  pd ∈ prepared_documents (DeviceSession_prepare_response self requests permitted) →
  ∃ namespaces, filter_permitted requests permitted !! pd_doc_type pd = Some namespaces ∧
    prepared_from self (pd_doc_type pd) namespaces pd.
Proof.
  destruct (prepared_response_contents self requests permitted) as [-> _].
  intros ([dt nss] & Hin & Hpd)%list_elem_of_omap. cbn [fst snd] in Hpd.
  destruct (prepare_document self dt nss) as [pd'|] eqn:E; [|done]. injection Hpd as ->.
  apply prepare_document_from in E. pose proof (proj1 E) as Hdt. subst dt.
  exists nss. split; [by apply entries_lookup|done].
Qed.

(** What a prepared document discloses and reports. *)
Lemma disclosure_spec self requests permitted pd :
  pd ∈ prepared_documents (DeviceSession_prepare_response self requests permitted) →
  ∃ document,
    nem (session_documents self) !! pd_doc_type pd = Some document ∧
    issuer_auth (pd_issuer_signed pd) = doc_issuer_auth document ∧
    ∀ ns,
      disclosed pd ns = omap (stored document ns) (shareable requests permitted (pd_doc_type pd) ns) ∧
      ∀ el,
        reported pd ns el = (if decide (el ∈ shareable requests permitted (pd_doc_type pd) ns ∧
                                        stored document ns el = None) then Some DataNotReturned else None) ∧
        (el ∈ shareable requests permitted (pd_doc_type pd) ns ↔
         user_permits permitted (pd_doc_type pd) ns el ∧ reader_requests requests (pd_doc_type pd) ns el).
Proof.
  intros (namespaces & Hf & _ & document & Hdoc & _ & Hauth & Hitems & Herrs & _)%prepared_document_elem.
  exists document. split_and!; [done..|]. intros ns.
  destruct (return_namespaces_spec document namespaces ns) as [Hr1 Hr2].
  assert (shareable requests permitted (pd_doc_type pd) ns = default [] (namespaces !! ns)) as Hsh
    by (rewrite <-shareable_filtered; by rewrite Hf).
  split; [|intros el; split; [|apply shareable_elem]].
  - unfold disclosed. rewrite Hitems, Hsh, maybe_map_bind, Hr1.
    destruct (namespaces !! ns) as [els|]; cbn [mbind option_bind from_option id]; [|done].
    apply maybe_vec_default.
  - unfold reported. rewrite Herrs, Hsh, maybe_map_bind, Hr2.
    destruct (namespaces !! ns) as [els|]; cbn [mbind option_bind from_option id].
    + by rewrite maybe_map_lookup, missing_errors_lookup.
    + rewrite decide_False; [done|]. by intros [?%elem_of_nil _].
Qed.

(** C12: A prepared document discloses exactly the stored items of the elements that the
      user permits and the reader's first request for that document type asks for,
      in the user's order, and nothing else; each such element the document does not
      hold is reported as not returned, and nothing else is. *)
Theorem selective_disclosure self requests permitted pd :
  pd ∈ prepared_documents (DeviceSession_prepare_response self requests permitted) →
  ∃ document,
    nem (session_documents self) !! pd_doc_type pd = Some document ∧
    issuer_auth (pd_issuer_signed pd) = doc_issuer_auth document ∧
    ∀ ns,
      disclosed pd ns = omap (stored document ns) (shareable requests permitted (pd_doc_type pd) ns) ∧
      ∀ el,
        reported pd ns el = (if decide (el ∈ shareable requests permitted (pd_doc_type pd) ns ∧
                                        stored document ns el = None) then Some DataNotReturned else None) ∧
        (el ∈ shareable requests permitted (pd_doc_type pd) ns ↔
         user_permits permitted (pd_doc_type pd) ns el ∧ reader_requests requests (pd_doc_type pd) ns el).
Proof. apply disclosure_spec. Qed.
End disclosure.

(** ** Every document type is accounted for *)

Section accounting.
Context {T ST : Type} `{DeviceSession T ST} `{Serde DeviceNamespaces, Serde (DeviceAuthentication ST), Serde Value}
  `{ToBeSigned}.

(** The holder owns a document of the type and its device key can sign. *)
Definition answerable (self : T) (dt : string) : Prop :=
  is_Some (document ← nem (session_documents self) !! dt;
           signature_algorithm (device_key (Mso.device_key_info (doc_mso document)))).
#[local] Instance answerable_dec self dt : Decision (answerable self dt).
Proof. unfold answerable. apply _. Defined.

Context (Hnamespaces : is_ok (to_vec (∅ : DeviceNamespaces)))
  (Hauthentication : ∀ x : DeviceAuthentication ST, is_ok (to_vec x)) (Hvalue : ∀ v : Value, is_ok (to_vec v)).

Lemma prepare_document_answerable self dt namespaces :
  is_ok (prepare_document self dt namespaces) = true ↔ answerable self dt.
Proof.
  unfold prepare_document, answerable.
  destruct (nem (session_documents self) !! dt) as [document|]; cbn [ok_or rbind mbind option_bind];
    [|split; [done|by intros []]].
  destruct (signature_algorithm _) as [alg|]; cbn [ok_or rbind]; [|split; [done|by intros []]].
  destruct (foldl _ _ _) as [items errs].
  destruct (Tag24_new_total (∅ : DeviceNamespaces) Hnamespaces) as [tn ->]. cbn [map_err rbind].
  destruct (Tag24_new_total (DeviceAuthentication_new (session_transcript_of self) dt tn) (Hauthentication _))
    as [ta ->]. cbn [map_err rbind].
  assert (is_ok (to_vec ta)) as Hta by apply (Hvalue (Tag24_into_value ta)).
  destruct (to_vec ta) as [bt|]; [|done]. cbn [map_err rbind].
  destruct (session_device_auth_type self); done.
Qed.

(** C30: The document types that the permitted and requested elements name are each
      answered exactly once: with a prepared document when the holder owns one whose
      device key can sign, and with a "data not returned" error otherwise, both in
      the order of the document types. *)
Theorem response_accounts self requests permitted :
  let types := (entries (filter_permitted requests permitted)).*1 in
  let r := DeviceSession_prepare_response self requests permitted in
  pd_doc_type <$> prepared_documents r = filter (answerable self) types ∧
  document_errors r = NonEmptyVec_maybe_new
    ((λ dt, <[dt := DataNotReturned]> (∅ : DocumentError)) <$> filter (λ dt, ¬ answerable self dt) types) ∧
  NoDup types ∧ ∀ dt, dt ∈ types ↔ is_Some (permitted !! dt) ∧ is_Some (find_request requests dt).
Proof.
  cbv zeta. destruct (prepared_response_contents self requests permitted) as (-> & -> & _).
  split_and!.
  - induction (entries (filter_permitted requests permitted)) as [|[dt nss] l IH]; [done|].
    cbn [omap list_omap fst snd fmap list_fmap]. pose proof (prepare_document_answerable self dt nss) as Ha.
    destruct (prepare_document self dt nss) as [pd|] eqn:E; cbn [rok fmap list_fmap is_ok] in *.
    + apply prepare_document_from in E as [-> _]. rewrite filter_cons_True by (by apply Ha). f_equal. apply IH.
    + rewrite filter_cons_False by (by intros ?%Ha). apply IH.
  - f_equal. induction (entries (filter_permitted requests permitted)) as [|[dt nss] l IH]; [done|].
    cbn [fmap list_fmap fst]. pose proof (prepare_document_answerable self dt nss) as Ha.
    destruct (decide (answerable self dt)) as [Hans|Hans].
    + apply Ha in Hans as Hok. rewrite filter_cons_False by (cbn [fst snd]; congruence).
      rewrite filter_cons_False by tauto. apply IH.
    + assert (is_ok (prepare_document self dt nss) = false) as Hok by (apply not_true_iff_false; by rewrite Ha).
      rewrite filter_cons_True by done.
      rewrite filter_cons_True by done. cbn [fmap list_fmap fst]. f_equal. apply IH.
  - apply entries_NoDup.
  - intros dt. rewrite <-collect_dom, collect_entries, filter_permitted_lookup.
    destruct (permitted !! dt), (find_request requests dt); cbn [mbind option_bind]; split; try done;
      intros; destruct_and?; try done; repeat match goal with H : is_Some None |- _ => by destruct H end.
Qed.
End accounting.

(** ** Age attestations *)

Lemma min_by_key_spec {A} (key : A → Z) l :
  match min_by_key key l with
  | Some x => x ∈ l ∧ ∀ y, y ∈ l → (key x ≤ key y)%Z
  | None => l = []
  end.
Proof.
  unfold min_by_key.
  apply (foldl_inv _ (λ done best, match best with
    | Some x => x ∈ done ∧ ∀ y, y ∈ done → (key x ≤ key y)%Z | None => done = [] end)); [done|].
  intros done x rest [b|] _ H.
  - destruct H as [Hin Hle]. destruct (Z.ltb_spec (key x) (key b)); (split; [set_solver|]).
    + intros y [Hy| ->%list_elem_of_singleton]%elem_of_app; [specialize (Hle y Hy)|]; lia.
    + intros y [Hy| ->%list_elem_of_singleton]%elem_of_app; [by apply Hle|lia].
  - subst done. split; [set_solver|]. intros y ->%list_elem_of_singleton. lia.
Qed.

Lemma max_by_key_spec {A} (key : A → Z) l :
  match max_by_key key l with
  | Some x => x ∈ l ∧ ∀ y, y ∈ l → (key y ≤ key x)%Z
  | None => l = []
  end.
Proof.
  unfold max_by_key.
  apply (foldl_inv _ (λ done best, match best with
    | Some x => x ∈ done ∧ ∀ y, y ∈ done → (key y ≤ key x)%Z | None => done = [] end)); [done|].
  intros done x rest [b|] _ H.
  - destruct H as [Hin Hle]. destruct (Z.ltb_spec (key x) (key b)); (split; [set_solver|]).
    + intros y [Hy| ->%list_elem_of_singleton]%elem_of_app; [by apply Hle|lia].
    + intros y [Hy| ->%list_elem_of_singleton]%elem_of_app; [specialize (Hle y Hy)|]; lia.
  - subst done. split; [set_solver|]. intros y ->%list_elem_of_singleton. lia.
Qed.

(** A stored age claim: its number and its item. *)
Definition age_claim (items : NonEmptyMap string IssuerSignedItemBytes) (a : Z) (t : IssuerSignedItemBytes) : Prop :=
  ∃ el, nem items !! el = Some t ∧ contains "age_over" el = true ∧ parse_age_from_element_identifier el = Ok a.
Definition claims_true (t : IssuerSignedItemBytes) : Prop := element_value (inner t) = Bool true.

(** [t] attests the nearest age at or above [n] that holds. *)
Definition nearest_over (items : NonEmptyMap string IssuerSignedItemBytes) (n : Z) (t : IssuerSignedItemBytes) : Prop :=
  ∃ a, age_claim items a t ∧ claims_true t ∧ (n ≤ a)%Z ∧
    ∀ a' t', age_claim items a' t' → claims_true t' → (n ≤ a')%Z → (a ≤ a')%Z.
Definition nearest_under (items : NonEmptyMap string IssuerSignedItemBytes) (n : Z) (t : IssuerSignedItemBytes) : Prop :=
  ∃ a, age_claim items a t ∧ ¬ claims_true t ∧ (a ≤ n)%Z ∧
    ∀ a' t', age_claim items a' t' → ¬ claims_true t' → (a' ≤ n)%Z → (a' ≤ a)%Z.

Lemma age_claims_elem (items : NonEmptyMap string IssuerSignedItemBytes) claims :
  try_map (λ f : string * IssuerSignedItemBytes,
      let? age := parse_age_from_element_identifier f.1 in Ok (age, f.2))
    (filter (λ element, contains "age_over" element.1) (entries (nem items))) = Ok claims →
  ∀ a t, (a, t) ∈ claims ↔ age_claim items a t.
Proof.
  intros Hc%try_map_Ok a t. unfold age_claim. split.
  - intros [i Hi]%list_elem_of_lookup. destruct (Forall2_lookup_r _ _ _ _ _ Hc Hi) as ([el t'] & Hl & Ha).
    cbn [fst snd] in Ha. inv_result. simplify_eq.
    apply list_elem_of_lookup_2, list_elem_of_filter in Hl as [Hcon Hin]. apply entries_lookup in Hin.
    exists el. split_and!; [done|by destruct (contains _ _)|done].
  - intros (el & Hel & Hcon & Ha). assert ((el, t) ∈ filter (λ element, contains "age_over" element.1) (entries (nem items))) as Hin.
    { apply list_elem_of_filter. split; [by cbn [fst]; rewrite Hcon|by apply entries_lookup]. }
    apply list_elem_of_lookup in Hin as [i Hi]. destruct (Forall2_lookup_l _ _ _ _ _ Hc Hi) as ([a' t'] & Hl & Heq).
    cbn [fst snd] in Heq. rewrite Ha in Heq. cbn [rbind] in Heq. injection Heq as <- <-. by eapply list_elem_of_lookup_2.
Qed.

(** The stored identifiers that mention an age are read exactly when each is well-formed. *)
Lemma age_claims_ok (items : NonEmptyMap string IssuerSignedItemBytes) :
  is_ok (try_map (λ f : string * IssuerSignedItemBytes,
      let? age := parse_age_from_element_identifier f.1 in Ok (age, f.2))
    (filter (λ element, contains "age_over" element.1) (entries (nem items)))) = true ↔
  ∀ el, is_Some (nem items !! el) → contains "age_over" el = true → is_ok (parse_age_from_element_identifier el).
Proof.
  set (l := filter _ _). assert (∀ el t, (el, t) ∈ l ↔ nem items !! el = Some t ∧ contains "age_over" el = true) as Hl.
  { intros el t. unfold l. rewrite list_elem_of_filter, entries_lookup. cbn [fst]. destruct (contains _ _); naive_solver. }
  transitivity (Forall (λ p : string * IssuerSignedItemBytes, is_ok (parse_age_from_element_identifier p.1)) l).
  - clear. induction l as [|[el t] l IH]; [by split|]. cbn [try_map fst snd]. rewrite Forall_cons. cbn [fst].
    destruct (parse_age_from_element_identifier el); cbn [rbind is_ok]; [|naive_solver].
    destruct (try_map _ l); cbn [rbind is_ok] in *; naive_solver.
  - rewrite Forall_forall. split.
    + intros Hall el [t Ht] Hcon. by apply (Hall (el, t)), Hl.
    + intros Hall [el t] [Ht Hcon]%Hl. apply Hall; [by eexists|done].
Qed.

(** C31: The call succeeds exactly when the requested identifier and every stored identifier that
    mentions an age are well-formed; stored identifiers of any other kind do not matter.
    The answer is then the true claim of the least age at or above the requested one;
    only if there is none, the claim that is not true of the greatest age at or below it;
    and nothing only if there is neither. *)
Theorem nearest_age_attestation_spec id items :
  (is_ok (nearest_age_attestation id items) = true ↔
   is_ok (parse_age_from_element_identifier id) ∧
   ∀ el, is_Some (nem items !! el) → contains "age_over" el = true → is_ok (parse_age_from_element_identifier el)) ∧
  ∀ n r, parse_age_from_element_identifier id = Ok n → nearest_age_attestation id items = Ok r →
    match r with
    | Some t => nearest_over items n t ∨ ((∀ t', ¬ nearest_over items n t') ∧ nearest_under items n t)
    | None => ∀ a t, age_claim items a t → if decide (claims_true t) then (a < n)%Z else (n < a)%Z
    end.
Proof.
  split.
  { unfold nearest_age_attestation. rewrite <-age_claims_ok.
    destruct (parse_age_from_element_identifier id); cbn [rbind is_ok]; [|naive_solver].
    destruct (try_map _ _); cbn [rbind is_ok]; [|naive_solver]. destruct (min_by_key _ _); naive_solver. }
  unfold nearest_age_attestation. intros n r Hid Hr. rewrite Hid in Hr. cbn [rbind] in Hr. inv_result. rename t into claims.
  match goal with Hc : try_map _ _ = Ok claims |- _ => pose proof (age_claims_elem items claims Hc) as Hel end.
  assert (∀ a t, is_true_claim (a, t) ↔ claims_true t) as Htrue.
  { intros a t. unfold is_true_claim, claims_true. cbn [snd]. by rewrite bool_decide_spec. }
  pose proof (min_by_key_spec fst (filter (λ f, (n ≤ f.1)%Z) (filter is_true_claim claims))) as Hmin.
  destruct (min_by_key _ _) as [[a t]|].
  - injection Hr as <-. left. destruct Hmin as [Hin Hle].
    apply list_elem_of_filter in Hin as [Hna (Ht & Hin)%list_elem_of_filter]. apply Htrue in Ht. cbn [fst snd] in *.
    exists a. split_and!; [by apply Hel|done|done|]. intros a' t' Hc Ht' Hn'. apply (Hle (a', t')).
    apply list_elem_of_filter. split; [done|]. apply list_elem_of_filter. split; [by apply Htrue|by apply Hel].
  - assert (∀ a t, age_claim items a t → claims_true t → (a < n)%Z) as Hnone.
    { intros a t Hc Ht. apply Z.nle_gt, (filter_nil_not _ _ (a, t) Hmin), list_elem_of_filter.
      split; [by apply Htrue|by apply Hel]. }
    pose proof (max_by_key_spec fst (filter (λ f, (f.1 ≤ n)%Z) (filter (λ x, ¬ is_true_claim x) claims))) as Hmax.
    destruct (max_by_key _ _) as [[a t]|]; injection Hr as <-.
    + right. split. { intros t' (a' & Hc & Ht & Hn & _). specialize (Hnone a' t' Hc Ht). lia. }
      destruct Hmax as [Hin Hle]. apply list_elem_of_filter in Hin as [Hna (Ht & Hin)%list_elem_of_filter].
      cbn [fst snd] in *. exists a. split_and!; [by apply Hel|by rewrite <-(Htrue a)|done|].
      intros a' t' Hc Ht' Hn'. apply (Hle (a', t')). apply list_elem_of_filter. split; [done|].
      apply list_elem_of_filter. split; [by rewrite Htrue|by apply Hel].
    + intros a t Hc. destruct (decide (claims_true t)) as [Ht|Ht]; [by eapply Hnone|].
      apply Z.nle_gt, (filter_nil_not _ _ (a, t) Hmax), list_elem_of_filter. split; [by rewrite Htrue|by apply Hel].
Qed.
