(* ===== verification/DeviceMachine.v ===== *)
(** * The signing state machine of the device

    What a sequence of signatures does to a prepared response, what is sent, and
    the invariant under which no call of the session manager panics. *)

From S2P Require Export DeviceProps.

(** ** Signing *)

(** The response once every prepared document, last one first, has its signature. *)
Definition signed_all (p : PreparedDeviceResponse) (signatures : list bytes) : DeviceResponse := {|
  rs_version := DeviceResponse_VERSION;
  rs_documents := NonEmptyVec_maybe_new
    (signed_documents p ++ zip_with PreparedDocument_finalize (reverse (prepared_documents p)) signatures);
  rs_document_errors := document_errors p; rs_status := prepared_status p |}.

(** The response after the first [k] signatures. *)
Definition signed_after (p : PreparedDeviceResponse) (signatures : list bytes) : PreparedDeviceResponse := {|
  prepared_documents := take (length (prepared_documents p) - length signatures) (prepared_documents p);
  signed_documents := signed_documents p ++
    zip_with PreparedDocument_finalize (take (length signatures) (reverse (prepared_documents p))) signatures;
  document_errors := document_errors p; prepared_status := prepared_status p |}.

Section signing.
Context `{Serde Value} `{ToBeSigned}.
Context `{Serde DeviceResponse, Serde SessionData, AeadBackend}.

(** Submitting signatures one after the other; [None] is a panic. *)
Fixpoint submit_all (self : SessionManager) (signatures : list bytes) : option (SessionManager * result unit CborError) :=
  match signatures with
  | [] => Some (self, Ok tt)
  | signature :: signatures' =>
      '(self, r) ← submit_next_signature self signature;
      match r with Ok _ => submit_all self signatures' | Err e => Some (self, Err e) end
  end.
End signing.

Lemma with_state_twice s1 s2 sm : with_state s1 (with_state s2 sm) = with_state s1 sm.
Proof. done. Qed.
Lemma with_state_same sm s : sm_state sm = s → with_state s sm = sm.
Proof. intros <-. by destruct sm. Qed.

Lemma prepared_submit_snoc p ds d signature :
  prepared_documents p = ds ++ [d] →
  prepared_submit_next_signature p signature = {|
    prepared_documents := ds; signed_documents := signed_documents p ++ [PreparedDocument_finalize d signature];
    document_errors := document_errors p; prepared_status := prepared_status p |}.
Proof.
  intros Hd. unfold prepared_submit_next_signature. rewrite Hd, last_snoc, length_app. cbn [length].
  by rewrite take_app_length' by lia.
Qed.

Section submit.
Context `{Serde Value} `{ToBeSigned}.
Context `{Serde DeviceResponse, Serde SessionData, AeadBackend}.
Implicit Types (self : SessionManager) (p : PreparedDeviceResponse).

Lemma submit_all_complete ds self p signatures :
  sm_state self = Signing p → prepared_documents p = ds → ds ≠ [] → length signatures = length ds →
  submit_all self signatures = send_response (with_state AwaitingRequest self) (signed_all p signatures).
Proof.
  revert self p signatures. induction ds as [|d ds IH] using rev_ind; intros self p sigs Hst Hp Hne Hl; [done|].
  rewrite length_app in Hl. cbn [length] in Hl. destruct sigs as [|sig sigs]; [simpl in Hl; lia|].
  cbn [length] in Hl. cbn [submit_all]. unfold submit_next_signature. rewrite Hst.
  rewrite (prepared_submit_snoc p ds d sig Hp). unfold signed_all. rewrite Hp, reverse_snoc. cbn [zip_with].
  set (p' := {| prepared_documents := ds |}). destruct (decide (ds = [])) as [->|Hds].
  - destruct sigs; [|simpl in Hl; lia]. cbn [is_complete prepared_documents p' finalize_response].
    unfold finalize_response, response_of. cbn [is_complete prepared_documents p' signed_documents document_errors prepared_status].
    change (reverse []) with ([] : list PreparedDocument). cbn [zip_with].
    destruct (send_response _ _) as [[self' [[]|e]]|]; done.
  - assert (is_complete p' = false) as -> by (unfold p', is_complete; cbn; by destruct ds).
    cbn [mbind option_bind]. rewrite (IH _ p' sigs); [|done|done|done|lia].
    rewrite with_state_twice. unfold signed_all. cbn [p' prepared_documents signed_documents document_errors prepared_status].
    by rewrite <-app_assoc.
Qed.

(** Fewer signatures than prepared documents leave the rest to sign, last one first. *)
Lemma submit_all_partial signatures self p :
  sm_state self = Signing p → length signatures < length (prepared_documents p) →
  ∃ q, submit_all self signatures = Some (with_state (Signing q) self, Ok tt) ∧
    last (prepared_documents q) = reverse (prepared_documents p) !! length signatures.
Proof.
  revert self p. induction signatures as [|sig sigs IH]; intros self p Hst Hl; cbn [submit_all length] in *.
  - exists p. rewrite with_state_same by done. split; [done|].
    by rewrite <-(reverse_involutive (prepared_documents p)) at 1; rewrite last_reverse, head_lookup.
  - destruct (prepared_documents p) as [|d ds _] eqn:Hp using rev_ind; [simpl in Hl; lia|].
    rewrite length_app in Hl. cbn [length] in Hl.
    unfold submit_next_signature. rewrite Hst, (prepared_submit_snoc p ds d sig Hp).
    set (p' := {| prepared_documents := ds |}).
    assert (is_complete p' = false) as -> by (unfold p', is_complete; cbn; destruct ds; [simpl in Hl; lia|done]).
    cbn [mbind option_bind]. destruct (IH (with_state (Signing p') (with_state AwaitingRequest self)) p') as (q & -> & Hq).
    + done.
    + cbn [p' prepared_documents]. lia.
    + exists q. rewrite !with_state_twice. split; [done|]. rewrite Hq, reverse_snoc. done.
Qed.
End submit.

(** ** The well-formedness invariant *)

Section invariant.
Context `{Serde IssuerSignedItem, Serde DeviceNamespaces}.

(** Every stored item is the decoding of its bytes. *)
Definition documents_wf (ds : Documents) : Prop :=
  ∀ dt d ns m el t, nem ds !! dt = Some d → nem (doc_namespaces d) !! ns = Some m → nem m !! el = Some t → Tag24_wf t.
Definition PreparedDocument_wf (pd : PreparedDocument) : Prop :=
  IssuerSigned_wf (pd_issuer_signed pd) ∧ Tag24_wf (pd_device_namespaces pd) ∧ opt_wf errors_wf (pd_errors pd).
Definition prepared_wf (p : PreparedDeviceResponse) : Prop :=
  Forall PreparedDocument_wf (prepared_documents p) ∧ Forall ResponseDocument_wf (signed_documents p) ∧
  opt_wf (λ es, NonEmptyVec_wf es ∧ Forall document_error_wf (nev es)) (document_errors p).
Definition state_wf (s : State) : Prop := match s with Signing p => prepared_wf p | _ => True end.
Definition session_wf (sm : SessionManager) : Prop := documents_wf (sm_documents sm) ∧ state_wf (sm_state sm).

Lemma finalize_wf pd signature : PreparedDocument_wf pd → ResponseDocument_wf (PreparedDocument_finalize pd signature).
Proof. by intros (? & ? & ?). Qed.

Lemma prepared_submit_wf p signature : prepared_wf p → prepared_wf (prepared_submit_next_signature p signature).
Proof.
  intros (Hp & Hs & He). unfold prepared_submit_next_signature.
  destruct (last (prepared_documents p)) as [d|] eqn:Hd; [|done].
  split_and!; cbn [prepared_documents signed_documents document_errors].
  - by apply Forall_take.
  - apply Forall_app; split; [done|]. constructor; [|done]. apply finalize_wf.
    apply last_Some_elem_of in Hd. rewrite Forall_forall in Hp. by apply Hp.
  - done.
Qed.

Lemma response_of_wf p : prepared_wf p → DeviceResponse_wf (response_of p).
Proof.
  intros (_ & Hs & He). split; cbn [response_of rs_documents rs_document_errors]; [|done].
  destruct (NonEmptyVec_maybe_new (signed_documents p)) as [v|] eqn:Hv; cbn [opt_wf]; [|done].
  apply NonEmptyVec_maybe_new_Some in Hv as [Hne Hv]. by rewrite Hv.
Qed.

Lemma empty_wf status : prepared_wf (PreparedDeviceResponse_empty status).
Proof. by repeat constructor. Qed.

Lemma finalize_response_wf p : prepared_wf p → DeviceResponse_wf (finalize_response p).
Proof. intros. unfold finalize_response. destruct (is_complete p); apply response_of_wf; [done|apply empty_wf]. Qed.

Lemma not_returned_wf dt : document_error_wf (<[dt := DataNotReturned]> ∅).
Proof. intros dt' c Hc. apply lookup_insert_Some in Hc as [[_ <-]|[_ []%lookup_empty_Some]]. done. Qed.

Context `{!SerdeLaws DeviceNamespaces} {T ST : Type} `{DeviceSession T ST} `{Serde (DeviceAuthentication ST), Serde Value}
  `{ToBeSigned}.

Lemma prepared_from_wf (self : T) dt namespaces pd :
  documents_wf (session_documents self) → prepared_from self dt namespaces pd → PreparedDocument_wf pd.
Proof.
  intros Hwf (_ & document & Hdoc & _ & _ & Hitems & Herrs & Hdn).
  pose proof (return_namespaces_spec document namespaces) as Hret.
  unfold PreparedDocument_wf, IssuerSigned_wf. rewrite Hitems, Herrs. split_and!.
  - destruct (NonEmptyMap_maybe_new (fst _)) as [m|] eqn:Hm; cbn [opt_wf]; [|done].
    apply NonEmptyMap_maybe_new_Some in Hm as [Hne Hm]. split; [done|]. intros ns items Hns.
    rewrite Hm in Hns. destruct (Hret ns) as [Hat _]. rewrite Hns in Hat.
    destruct (namespaces !! ns) as [els|]; cbn [mbind option_bind] in Hat; [|done].
    symmetry in Hat. apply NonEmptyVec_maybe_new_Some in Hat as [? Hnev]. split; [done|].
    rewrite Hnev. apply Forall_forall. intros t (el & _ & Hst)%list_elem_of_omap.
    unfold stored in Hst. destruct (nem (doc_namespaces document) !! ns) as [m'|] eqn:Hm'; [|done]. by eapply Hwf.
  - by apply Tag24_new_wf in Hdn as [? _].
  - destruct (NonEmptyMap_maybe_new (snd _)) as [m|] eqn:Hm; cbn [opt_wf]; [|done].
    apply NonEmptyMap_maybe_new_Some in Hm as [Hne Hm]. split; [done|]. intros ns es Hns.
    rewrite Hm in Hns. destruct (Hret ns) as [_ Hat]. rewrite Hns in Hat.
    destruct (namespaces !! ns) as [els|]; cbn [mbind option_bind] in Hat; [|done].
    symmetry in Hat. apply NonEmptyMap_maybe_new_Some in Hat as [? Hes]. split; [done|].
    intros el c. rewrite Hes, missing_errors_lookup. case_decide; [|done]. by intros [= <-].
Qed.

Lemma prepare_response_wf (self : T) requests permitted :
  documents_wf (session_documents self) → prepared_wf (DeviceSession_prepare_response self requests permitted).
Proof.
  intros Hwf. destruct (prepared_response_contents self requests permitted) as (_ & Herrs & _ & Hs).
  split_and!.
  - apply Forall_forall. intros pd (nss & _ & Hfrom)%prepared_document_elem. by eapply prepared_from_wf.
  - by rewrite Hs.
  - rewrite Herrs. destruct (NonEmptyVec_maybe_new _) as [v|] eqn:Hv; cbn [opt_wf]; [|done].
    apply NonEmptyVec_maybe_new_Some in Hv as [Hne Hv]. split; [done|]. rewrite Hv.
    apply Forall_fmap, Forall_forall. intros p _. apply not_returned_wf.
Qed.
End invariant.

(** ** Sending *)

Section sending.
Context `{Serde IssuerSignedItem, Serde DeviceNamespaces, !SerdeLaws DeviceNamespaces}.
Context `{Serde DeviceResponse, !SerdeWf DeviceResponse DeviceResponse_wf, Serde SessionData, AeadBackend}.
Implicit Types (self : SessionManager).

(** The message for the outcome of encrypting a response. *)
Definition response_message (r : result bytes unit) : SessionData :=
  match r with
  | Ok c => {| sd_status := None; sd_data := Some {| bytestr := c |} |}
  | Err _ => {| sd_status := Some SessionEncryptionError; sd_data := None |}
  end.

Lemma send_response_spec self response :
  DeviceResponse_wf response →
  send_response self response =
  Some match to_vec response with
       | Err e => (self, Err e)
       | Ok b =>
           let '(c, r) := encrypt_device_data (sm_sk_device self) b (device_message_counter self) in
           match to_vec (response_message r) with
           | Err e => (with_device_counter c self, Err e)
           | Ok encoded => (with_state (ReadyToRespond encoded) (with_device_counter c self), Ok tt)
           end
       end.
Proof.
  intros Hwf. unfold send_response. destruct (to_vec response) as [b|e] eqn:Hb; [|done].
  rewrite (from_slice_to_vec_wf _ _ Hwf Hb). cbn [rok mbind option_bind]. rewrite Hb.
  rewrite bool_decide_true by done. cbn [negb].
  destruct (encrypt_device_data _ _ _) as [c r]. fold (response_message r). by destruct (to_vec (response_message r)).
Qed.

(** What no call ever changes. *)
Definition same_session self self' : Prop :=
  sm_documents self' = sm_documents self ∧ sm_session_transcript self' = sm_session_transcript self ∧
  sm_sk_device self' = sm_sk_device self ∧ sm_sk_reader self' = sm_sk_reader self ∧
  trusted_verifiers self' = trusted_verifiers self ∧ sm_device_auth_type self' = sm_device_auth_type self.
#[export] Instance same_session_preorder : PreOrder same_session.
Proof. split; [by intros ?|]. unfold same_session. intros s1 s2 s3. naive_solver congruence. Qed.

(** One call keeps the session, its invariant and the order of the counters. *)
Definition device_step_ok self self' : Prop :=
  same_session self self' ∧ session_wf self' ∧
  counter_step (device_message_counter self) (device_message_counter self') ∧
  counter_step (reader_message_counter self) (reader_message_counter self').

Lemma counter_step_refl c : counter_step c c.
Proof. by split; [lia|]. Qed.
Lemma counter_step_trans c1 c2 c3 : counter_step c1 c2 → counter_step c2 c3 → counter_step c1 c3.
Proof. unfold counter_step. intros [? ?] [? ?]. split; [lia|auto]. Qed.

Lemma send_response_ok self response :
  session_wf self → DeviceResponse_wf response →
  ∃ self' r, send_response self response = Some (self', r) ∧ device_step_ok self self'.
Proof.
  intros [Hd Hs] Hwf. rewrite send_response_spec by done.
  destruct (to_vec response) as [b|e]; [|by eexists _, _; split_and!; [done|by split_and!..]].
  pose proof (encrypt_counter (sm_sk_device self) b (device_message_counter self) false) as Hc.
  unfold encrypt_device_data. destruct (encrypt _ _ _ _) as [c r]. cbn [fst] in Hc.
  destruct (to_vec (response_message r)); eexists _, _; split; try done; split_and!; try done; try apply counter_step_refl.
Qed.

Lemma submit_ok self signature :
  session_wf self →
  ∃ self' r, submit_next_signature self signature = Some (self', r) ∧ device_step_ok self self'.
Proof.
  intros [Hd Hs]. unfold submit_next_signature.
  destruct (sm_state self) as [|p|resp] eqn:Hst; cbn [state_wf] in Hs.
  1, 3: eexists _, _; split; [done|]; split_and!; try done; [split; [done|by rewrite Hst]|apply counter_step_refl..].
  pose proof (prepared_submit_wf p signature Hs) as Hp. destruct (is_complete _).
  - destruct (send_response_ok (with_state AwaitingRequest self) (finalize_response (prepared_submit_next_signature p signature)))
      as (self' & r & -> & Hok); [done|by apply finalize_response_wf|]. by exists self', r.
  - eexists _, _. split; [done|]. split_and!; try done; try apply counter_step_refl.
Qed.
End sending.

(** ** Requests *)

Section requests.
Context `{Serde IssuerSignedItem, Serde DeviceNamespaces}.
Context `{Serde ReaderAuthentication, Serde Value} `{ToBeSigned} `{Der, Sha1, Sha2} {VK Sig : Type} `{Ecdsa VK Sig}
  (now : Z).
Context `{FromValue DeviceRequest, Serde SessionData, AeadBackend}.
Implicit Types (self : SessionManager).

(** Reader authentication never panics: a decoded chain has an end entity. *)
Lemma reader_authentication_total self doc_request :
  ∃ o, reader_authentication (VK := VK) (Sig := Sig) now self doc_request = Some o.
Proof.
  unfold reader_authentication. destruct (reader_auth doc_request) as [ra|]; [|by eexists].
  destruct (x5chain_header _) as [v|]; [|by eexists].
  destruct (X5Chain_from_cbor v) as [x|] eqn:Hx; [|by eexists].
  apply X5Chain_from_cbor_wf in Hx as [_ [leaf Hleaf]].
  unfold end_entity_common_name, validate_x5chain, end_entity_public_key_with_oid. rewrite Hleaf.
  cbn [mbind option_bind]. by eexists.
Qed.

Lemma validate_request_total self request :
  ∃ o, validate_request (VK := VK) (Sig := Sig) now self request = Some o.
Proof.
  unfold validate_request. cbv zeta. destruct (head _) as [d|]; [|by eexists].
  destruct (reader_authentication_total self d) as [o ->]. by eexists.
Qed.

Lemma handle_decoded_request_ok self data :
  session_wf self →
  ∃ self' o, handle_decoded_request (VK := VK) (Sig := Sig) now self data = Some (self', o) ∧ device_step_ok self self'.
Proof.
  intros [Hd Hs]. unfold handle_decoded_request.
  destruct (sd_data data) as [d|]; [|by eexists _, _; split; [done|]; split_and!; try done; try apply counter_step_refl].
  pose proof (decrypt_counter (sm_sk_reader self) (bytestr d) (reader_message_counter self) true) as Hc.
  unfold decrypt_reader_data. destruct (decrypt _ _ _ _) as [c [m|e]]; cbn [fst] in Hc.
  - destruct (parse_request m) as [request|e] eqn:He.
    + destruct (validate_request_total (with_reader_counter c self) request) as [o ->].
      eexists _, _. split; [done|]. split_and!; try done; try apply counter_step_refl.
    + eexists _, _. split; [done|]. split_and!; try done; try apply counter_step_refl.
      split; [done|]. cbn [with_state sm_state state_wf].
      unfold parse_request in He. destruct (from_slice m) as [v|]; cbn [map_err rbind] in He.
      * destruct (cbor_from_value v); cbn [map_err] in He; [done|]. injection He as <-. apply empty_wf.
      * injection He as <-. apply empty_wf.
  - eexists _, _. split; [done|]. split_and!; try done; try apply counter_step_refl.
Qed.
End requests.

(** ** Arbitrary calls *)

Inductive DeviceCall : Type :=
  | HandleRequest (request : bytes)
  | PrepareResponse (requests : RequestedItems) (permitted : PermittedItems)
  | SubmitNextSignature (signature : bytes)
  | RetrieveResponse.

Section calls.
Context `{Serde IssuerSignedItem, Serde DeviceNamespaces, !SerdeLaws DeviceNamespaces}.
Context `{Serde DeviceResponse, !SerdeWf DeviceResponse DeviceResponse_wf, Serde SessionData, AeadBackend}.
Context `{Serde (DeviceAuthentication SessionTranscript180135), Serde ReaderAuthentication, Serde Value} `{ToBeSigned}.
Context `{Der, Sha1, Sha2} {VK Sig : Type} `{Ecdsa VK Sig} `{FromValue DeviceRequest} (now : Z).

(** The state after a call; [None] is a panic. *)
Definition device_call (self : SessionManager) (c : DeviceCall) : option SessionManager :=
  match c with
  | HandleRequest request => fst <$> handle_request (VK := VK) (Sig := Sig) now self request
  | PrepareResponse requests permitted => Some (prepare_response self requests permitted)
  | SubmitNextSignature signature => fst <$> submit_next_signature self signature
  | RetrieveResponse => Some (retrieve_response self).1
  end.
Fixpoint device_calls (self : SessionManager) (cs : list DeviceCall) : option SessionManager :=
  match cs with
  | [] => Some self
  | c :: cs' => self' ← device_call self c; device_calls self' cs'
  end.

Lemma device_call_ok self c : session_wf self → ∃ self', device_call self c = Some self' ∧ device_step_ok self self'.
Proof.
  intros Hwf. destruct c as [request|requests permitted|signature|]; cbn [device_call].
  - unfold handle_request. destruct (from_slice request) as [data|e].
    + destruct (handle_decoded_request_ok (VK := VK) (Sig := Sig) now self data Hwf) as (self' & o & -> & Hok). by exists self'.
    + exists self. split; [done|]. split_and!; try done; try apply counter_step_refl.
  - eexists. split; [done|]. destruct Hwf as [Hd _]. split_and!; try done; try apply counter_step_refl.
    split; [done|]. apply (prepare_response_wf self), Hd.
  - destruct (submit_ok self signature Hwf) as (self' & r & -> & Hok). by exists self'.
  - eexists. split; [done|]. unfold retrieve_response. destruct Hwf as [Hd Hs].
    destruct (sm_state self) eqn:Hst; split_and!; try done; try apply counter_step_refl; (split; [done|]); cbn; by rewrite ?Hst.
Qed.

(** C17: Whatever the reader sends and in whatever order the application calls the
      session manager, no call panics: the documents, keys and transcript stay what
      they were, stored and prepared items stay the decoding of their bytes, and the
      message counters only grow and never leave their 32-bit range. *)
Theorem device_never_panics self calls :
  session_wf self → is_u32 (device_message_counter self) → is_u32 (reader_message_counter self) →
  ∃ self', device_calls self calls = Some self' ∧ session_wf self' ∧ same_session self self' ∧
    (device_message_counter self ≤ device_message_counter self' ≤ u32_max)%Z ∧
    (reader_message_counter self ≤ reader_message_counter self' ≤ u32_max)%Z.
Proof.
  intros Hwf Hcd Hcr.
  cut (∃ self', device_calls self calls = Some self' ∧ device_step_ok self self').
  { intros (self' & Hc & Hsame & Hwf' & [? Hd] & [? Hr]). exists self'. unfold is_u32 in *. by split_and!; auto; try apply Hd; try apply Hr. }
  clear Hcd Hcr. revert self Hwf. induction calls as [|c calls IH]; intros self Hwf; cbn [device_calls].
  - exists self. split; [done|]. split_and!; try done; try apply counter_step_refl.
  - destruct (device_call_ok self c Hwf) as (self1 & -> & Hsame1 & Hwf1 & Hd1 & Hr1). cbn [mbind option_bind].
    destruct (IH self1 Hwf1) as (self2 & Hc & Hsame2 & Hwf2 & Hd2 & Hr2). exists self2. split; [done|].
    split_and!; [by transitivity self1|apply Hwf2| |]; by eapply counter_step_trans.
Qed.
End calls.

(** ** The two ends of the signing state *)

Section signing_ends.
Context `{Serde IssuerSignedItem, Serde DeviceNamespaces, !SerdeLaws DeviceNamespaces}.
Context `{Serde DeviceResponse, !SerdeWf DeviceResponse DeviceResponse_wf, Serde SessionData, AeadBackend}.
Context `{Serde ReaderAuthentication, Serde Value} `{ToBeSigned}.
Context `{Der, Sha1, Sha2} {VK Sig : Type} `{Ecdsa VK Sig} `{FromValue DeviceRequest} (now : Z).
Implicit Types (self : SessionManager).

Lemma signed_all_wf p signatures : prepared_wf p → DeviceResponse_wf (signed_all p signatures).
Proof.
  intros (Hp & Hs & He). split; cbn [signed_all rs_documents rs_document_errors]; [|done].
  destruct (NonEmptyVec_maybe_new _) as [v|] eqn:Hv; cbn [opt_wf]; [|done].
  apply NonEmptyVec_maybe_new_Some in Hv as [Hne Hv]. split; [done|]. rewrite Hv.
  apply Forall_app; split; [done|]. apply Forall_forall. intros d Hd.
  apply list_elem_of_lookup in Hd as [i Hi]. apply lookup_zip_with_Some in Hi as (pd & signature & -> & Hpd & _).
  apply finalize_wf. apply list_elem_of_lookup_2 in Hpd. rewrite elem_of_reverse in Hpd.
  rewrite Forall_forall in Hp. by apply Hp.
Qed.

(** C20: While documents remain to be signed the session manager offers the last
      prepared one and has nothing to send; after one signature for each prepared
      document, last one first, it sends exactly the response that carries those
      signatures, encrypted under the device key and counter (or the encryption-error
      status), and handing it over returns it to waiting for a request. *)
Theorem signing_completes self p :
  sm_state self = Signing p → prepared_documents p ≠ [] → session_wf self →
  (∀ r : DeviceResponse, is_ok (to_vec r)) → (∀ d : SessionData, is_ok (to_vec d)) →
  ∀ signatures,
  (length signatures < length (prepared_documents p) →
     ∃ self', submit_all self signatures = Some (self', Ok tt) ∧ same_session self self' ∧
       get_next_signature_payload self' =
         (λ d, (pd_id d, prepared_signature_payload (pd_prepared_cose d))) <$>
           reverse (prepared_documents p) !! length signatures ∧
       retrieve_response self' = (self', None)) ∧
  (length signatures = length (prepared_documents p) →
     ∃ b c r encoded,
       to_vec (signed_all p signatures) = Ok b ∧
       encrypt_device_data (sm_sk_device self) b (device_message_counter self) = (c, r) ∧
       to_vec (response_message r) = Ok encoded ∧
       let self' := with_state (ReadyToRespond encoded) (with_device_counter c self) in
       submit_all self signatures = Some (self', Ok tt) ∧
       retrieve_response self' = (with_state AwaitingRequest (with_device_counter c self), Some encoded)).
Proof.
  intros Hst Hne [_ Hwf] Hresp Hdata signatures. rewrite Hst in Hwf. split; intros Hl.
  - destruct (submit_all_partial signatures self p Hst Hl) as (q & Hs & Hq).
    eexists. split; [exact Hs|]. split_and!; try done.
    unfold get_next_signature_payload, prepared_next_signature_payload. cbn [with_state sm_state]. by rewrite Hq.
  - rewrite (submit_all_complete (prepared_documents p) self p signatures) by done.
    rewrite send_response_spec by by apply signed_all_wf.
    specialize (Hresp (signed_all p signatures)). destruct (to_vec (signed_all p signatures)) as [b|]; [|done].
    cbn [with_state sm_sk_device device_message_counter].
    destruct (encrypt_device_data _ b _) as [c r] eqn:He.
    specialize (Hdata (response_message r)). destruct (to_vec (response_message r)) as [encoded|] eqn:Henc; [|done].
    exists b, c, r, encoded. by split_and!.
Qed.

(** C35: A request that decrypts but does not decode is answered with a status and no
      documents: the caller gets an outcome without errors, no payload is ever
      offered for signing and no response is available, until a signature (any
      bytes) is submitted; then the status response is sent. *)
Theorem undecodable_request self data c m e :
  sd_data data = Some {| bytestr := m |} →
  decrypt_reader_data (sm_sk_reader self) m (reader_message_counter self) = (c, Ok e) →
  (∀ v, from_slice (T := Value) e = Ok v → is_ok (cbor_from_value (T := DeviceRequest) v) = false) →
  ∃ status self',
    (status = ResponseCborDecodingError ∨ status = ResponseCborValidationError) ∧
    handle_decoded_request (VK := VK) (Sig := Sig) now self data = Some (self', RequestAuthenticationOutcome_default) ∧
    get_next_signature_payload self' = None ∧ retrieve_response self' = (self', None) ∧
    ∀ signature, submit_next_signature self' signature =
      send_response (with_state AwaitingRequest self') (response_of (PreparedDeviceResponse_empty status)).
Proof.
  intros Hd Hdec Hbad. unfold handle_decoded_request. rewrite Hd. cbn [bytestr]. rewrite Hdec.
  assert (∃ status, (status = ResponseCborDecodingError ∨ status = ResponseCborValidationError) ∧
    parse_request e = Err (PreparedDeviceResponse_empty status)) as (status & Hs & ->).
  { unfold parse_request. destruct (from_slice e) as [v|]; cbn [map_err rbind]; [|by eexists; split; [by left|]].
    specialize (Hbad v eq_refl). destruct (cbor_from_value v); [done|]. eexists. by split; [by right|]. }
  exists status. eexists. split; [done|]. split; [done|]. by split_and!.
Qed.
End signing_ends.
