(* ===== verification/RequestAuth.v ===== *)
(** * Authentication of the reader by the device

    When the device's outcome for a request calls the reader's authentication valid
    ([handle_request], [validate_request] and [reader_authentication] of
    [src/presentation/device.rs]). *)

From S2P Require Export Authentication DeviceMachine.

Section request_auth.
Context `{Serde ReaderAuthentication, Serde Value} `{ToBeSigned} `{Der, Sha1, Sha2} {VK Sig : Type} `{Ecdsa VK Sig}
  (now : Z).

(** The reader signed the requested items and this session's transcript, with the key of
    a certificate that a trusted reader authority vouches for. *)
Definition reader_trusted (self : SessionManager) (d : DocRequest) (common_name : string) : Prop :=
  ∃ auth header x outcome leaf key t payload,
    reader_auth d = Some auth ∧ x5chain_header (s1_unprotected (message auth)) = Some header ∧
    X5Chain_from_cbor header = Ok x ∧
    validate_x5chain (VK := VK) (Sig := Sig) now MdlReaderOneStep x (trusted_verifiers self) = Some outcome ∧
    success outcome = true ∧ end_entity_certificate x = Some leaf ∧ common_name_or_unknown leaf = common_name ∧
    public_key_with_oid NistP256 leaf SECP_256_R_1 = Ok (key : VK) ∧
    Tag24_new {| ra_label := "ReaderAuthentication"; ra_transcript := sm_session_transcript self;
                 ra_items_request := items_request d |} = Ok t ∧
    to_vec t = Ok payload ∧ Sign1_verify auth key (Some payload) None = Success.

Lemma check_reader_signature_nil self d auth (key : VK) :
  check_reader_signature self d auth key = [] ↔
  ∃ t payload,
    Tag24_new {| ra_label := "ReaderAuthentication"; ra_transcript := sm_session_transcript self;
                 ra_items_request := items_request d |} = Ok t ∧
    to_vec t = Ok payload ∧ Sign1_verify auth key (Some payload) None = Success.
Proof.
  unfold check_reader_signature. destruct (Tag24_new _) as [t|]; [|split; [done|]; by intros (? & ? & ? & _)].
  destruct (to_vec t) as [payload|] eqn:Hp; [|split; [done|]; intros (? & ? & [= <-] & Hp' & _); congruence].
  split.
  - intros Hr. exists t, payload. split_and!; [done..|]. by destruct (Sign1_verify auth key (Some payload) None).
  - intros (t' & payload' & [= <-] & Hp' & Hv). rewrite Hp in Hp'. injection Hp' as <-. by rewrite Hv.
Qed.

Lemma reader_authentication_spec self d o :
  reader_authentication (VK := VK) (Sig := Sig) now self d = Some o →
  ra_errors o = [] ↔ ∃ name, ra_common_name o = Some name ∧ reader_trusted self d name.
Proof.
  unfold reader_authentication, reader_trusted. destruct (reader_auth d) as [auth|]; [|intros [= <-]; split; [done|]; by intros (? & ? & _)].
  destruct (x5chain_header _) as [header|] eqn:Hh; [|intros [= <-]; split; [done|]; by intros (? & ? & _)].
  destruct (X5Chain_from_cbor header) as [x|] eqn:Hx; [|intros [= <-]; split; [done|]; by intros (? & ? & _)].
  unfold end_entity_common_name, end_entity_public_key_with_oid.
  destruct (end_entity_certificate x) as [leaf|] eqn:Hl; cbn [mbind option_bind]; [|done].
  destruct (validate_x5chain _ _ _ _) as [outcome|] eqn:Hv; cbn [mbind option_bind]; [|done]. intros [= <-].
  cbn [ra_errors ra_common_name]. rewrite app_nil_iff, fmap_nil_iff.
  assert (success outcome = true ↔ errors outcome = []) as Hsuccess by (unfold success; by destruct (errors outcome)).
  destruct (public_key_with_oid NistP256 leaf SECP_256_R_1) as [key|] eqn:Hk.
  2:{ split; [by intros [_ [=]]|]. intros (name & _ & auth' & header' & x' & outcome' & leaf' & key' & ? & ? & [= <-] & Hh' & Hx' & _ & _ & Hl' & _ & Hk' & _).
      congruence. }
  rewrite check_reader_signature_nil, <-Hsuccess. split.
  - intros (? & t & payload & ? & ? & ?). eexists. split; [done|].
    exists auth, header, x, outcome, leaf, key, t, payload. by split_and!.
  - intros (name & _ & auth' & header' & x' & outcome' & leaf' & key' & t & payload & [= <-] & Hh' & Hx' & Hv' & Hs & Hl' & _ & Hk' & Hrest).
    rewrite Hh in Hh'. injection Hh' as <-. rewrite Hx in Hx'. injection Hx' as <-. rewrite Hv in Hv'. injection Hv' as <-.
    rewrite Hl in Hl'. injection Hl' as <-. rewrite Hk in Hk'. injection Hk' as <-. split; [done|]. by exists t, payload.
Qed.

Lemma validate_request_spec self request o :
  validate_request (VK := VK) (Sig := Sig) now self request = Some o →
  ro_items_request o = (λ d, inner (items_request d)) <$> nev (doc_requests request) ∧
  (ro_errors o = ∅ ↔ dr_version request = DeviceRequest_VERSION) ∧
  (ro_reader_authentication o = Valid ↔
     ∃ d ds name, nev (doc_requests request) = d :: ds ∧ ro_common_name o = Some name ∧ reader_trusted self d name).
Proof.
  unfold validate_request. cbv zeta. set (errs := if bool_decide _ then _ else _).
  assert (errs = ∅ ↔ dr_version request = DeviceRequest_VERSION) as Herrs.
  { unfold errs. case_bool_decide; [done|]. split; [|done]. intros He. apply (f_equal (λ m, m !! "parsing_errors"%string)) in He.
    by rewrite lookup_insert in He. }
  destruct (nev (doc_requests request)) as [|d ds]; cbn [head].
  - intros [= <-]. split_and!; [done|exact Herrs|]. cbn. split; [done|]. by intros (? & ? & ? & ? & _).
  - destruct (reader_authentication _ self d) as [outcome|] eqn:Ho; cbn [mbind option_bind]; [|done]. intros [= <-].
    split_and!; [done|exact Herrs|]. cbn [ro_reader_authentication ro_common_name].
    apply reader_authentication_spec in Ho. split.
    + intros Hvalid. destruct (proj1 Ho) as (name & Hname & Htrusted); [by destruct (ra_errors outcome)|].
      by exists d, ds, name.
    + intros (d' & ds' & name & [= <- <-] & Hname & Htrusted). by rewrite (proj2 Ho) by (by exists name).
Qed.

Context `{FromValue DeviceRequest, Serde SessionData, AeadBackend}.

(** The request in a message that opens under the reader's key at the next counter. *)
Definition opened_request (self : SessionManager) (msg : bytes) : option DeviceRequest :=
  data ← rok (from_slice (T := SessionData) msg);
  ct ← sd_data data;
  m ← rok (decrypt_reader_data (sm_sk_reader self) (bytestr ct) (reader_message_counter self)).2;
  rok (parse_request m).

Lemma handle_request_opened self msg :
  match opened_request self msg with
  | Some request =>
      let self' := with_reader_counter (reader_message_counter self + 1) self in
      handle_request (VK := VK) (Sig := Sig) now self msg =
        (o ← validate_request (VK := VK) (Sig := Sig) now self' request; Some (self', o))
  | None =>
      ∃ self' o, handle_request (VK := VK) (Sig := Sig) now self msg = Some (self', o) ∧ ro_reader_authentication o = Unchecked
  end.
Proof.
  unfold opened_request, handle_request. destruct (from_slice msg) as [data|e]; cbn [rok mbind option_bind]; [|by do 2 eexists].
  unfold handle_decoded_request. destruct (sd_data data) as [ct|]; cbn [mbind option_bind]; [|by do 2 eexists].
  unfold decrypt_reader_data.
  destruct (decrypt_result (sm_sk_reader self) (bytestr ct) (reader_message_counter self) true) as [Hd|(iv & m & _ & _ & _ & Hd)];
    rewrite Hd; cbn [snd rok mbind option_bind]; [by do 2 eexists|].
  destruct (parse_request m) as [request|]; cbn [rok]; [done|by do 2 eexists].
Qed.

(** C14: The device calls a reader authenticated exactly when it is, for the first
    document it asks for. Whatever message arrives, the outcome's verdict is valid iff the
    message opened at the next counter to a request whose first document request
    carries a signature that verifies, under the P-256 key of a certificate chain
    which the device's trusted verifiers vouch for as a reader's, over the label
    [ReaderAuthentication], this session's transcript and the items of that document
    request; the reported name is that certificate's. The items returned are those of
    all document requests: the verdict reads no signature but the first. *)
Theorem verified_request self msg self' o :
  handle_request (VK := VK) (Sig := Sig) now self msg = Some (self', o) →
  (ro_reader_authentication o = Valid ↔
     ∃ request d ds name, opened_request self msg = Some request ∧ nev (doc_requests request) = d :: ds ∧
       ro_common_name o = Some name ∧ reader_trusted self d name) ∧
  ∀ request, opened_request self msg = Some request →
    self' = with_reader_counter (reader_message_counter self + 1) self ∧
    ro_items_request o = (λ d, inner (items_request d)) <$> nev (doc_requests request) ∧
    (ro_errors o = ∅ ↔ dr_version request = DeviceRequest_VERSION).
Proof.
  intros Hh. pose proof (handle_request_opened self msg) as Hopened. destruct (opened_request self msg) as [request|].
  - cbv zeta in Hopened. rewrite Hh in Hopened. symmetry in Hopened.
    destruct (validate_request _ _ request) as [o'|] eqn:Hv; [|done]. injection Hopened as <- <-.
    apply validate_request_spec in Hv as (Hitems & Herrs & Hvalid). split; [|by intros request' [= <-]]. rewrite Hvalid. split.
    + intros (d & ds & name & Hrest). exists request, d, ds, name. by split.
    + intros (request' & d & ds & name & [= <-] & Hrest). by exists d, ds, name.
  - destruct Hopened as (self1 & o1 & Hh1 & Ho1). rewrite Hh in Hh1. injection Hh1 as <- <-. rewrite Ho1.
    split; [|done]. split; [done|]. by intros (request & d & ds & name & ? & _).
Qed.
End request_auth.
