(* ===== verification/Reader.v ===== *)
(** * The verifier's reader ([src/presentation/reader.rs])

    Session establishment from a QR code, requests, decryption of responses and
    the extraction of JSON values from a response.  A panic is [None]. *)

From S2P Require Export Authentication Device.

(** ** JSON values of a response *)

(** [json!(i)] for an [i128]: without its feature [arbitrary_precision], [serde_json] takes
    exactly the integers that are a [u64] or an [i64], and [json!] panics on the others. *)
Class JsonInteger := json_integer : Z → option Z.
Class JsonIntegerLaws `{JsonInteger} : Prop := {
  json_integer_spec i : json_integer i = if bool_decide (- 2 ^ 63 ≤ i ≤ u64_max)%Z then Some i else None;
}.

(** [serde_json::Map::insert] *)
Definition json_insert (k : string) (v : Json) (m : list (string * Json)) : list (string * Json) :=
  raw_alter (λ _, Some v) k m.

Section parse_response.
Context `{JsonInteger}.

Fixpoint parse_response (value : Value) : option (result Json ReaderError) :=
  match value with
  | Text s => Some (Ok (JString s))
  | Tag _ v =>
      match v with
      | Text d => Some (Ok (JString d))
      | a => Some (Err (ParsingError a))
      end
  | Array v =>
      (fix go (array_response : list Json) (v : list Value) : option (result Json ReaderError) :=
         match v with
         | [] => Some (Ok (JArray array_response))
         | a :: v' =>
             r ← parse_response a;
             match r with
             | Err e => Some (Err e)
             | Ok r => go (array_response ++ [r]) v'
             end
         end) [] v
  | Map m =>
      (fix go (map_response : list (string * Json)) (m : list (Value * Value)) : option (result Json ReaderError) :=
         match m with
         | [] => Some (Ok (JObject map_response))
         | (key, value) :: m' =>
             match key with
             | Text k =>
                 parsed ← parse_response value;
                 match parsed with
                 | Err e => Some (Err e)
                 | Ok parsed => go (json_insert k parsed map_response) m'
                 end
             | _ => go map_response m'
             end
         end) [] m
  | Bytes b => Some (Ok (JArray (JNumber <$> b)))
  | Bool b => Some (Ok (JBool b))
  | Integer i => n ← json_integer i; Some (Ok (JNumber n))
  | a => Some (Err (ParsingError a))
  end.

(** The [for_each] over the items of a namespace: unreadable values are skipped. *)
Definition parse_item (acc : option (btree string Json)) (item : IssuerSignedItemBytes) : option (btree string Json) :=
  namespace ← acc;
  value ← parse_response (element_value (inner item));
  Some match value with
       | Ok val => <[element_identifier (inner item) := val]> namespace
       | Err _ => namespace
       end.
Definition parse_items (items : NonEmptyVec IssuerSignedItemBytes) : option (btree string Json) :=
  foldl parse_item (Some ∅) (nev items).
End parse_response.

Definition MDL_DOC_TYPE : string := "org.iso.18013.5.1.mDL".
Definition CORE_NAMESPACE : string := "org.iso.18013.5.1".
Definition AAMVA_NAMESPACE : string := "org.iso.18013.5.1.aamva".

Definition get_document (device_response : DeviceResponse) : result ResponseDocument ReaderError :=
  let? documents := ok_or DeviceTransmissionError (rs_documents device_response) in
  ok_or DocumentTypeError (snd <$> list_find (λ doc, rd_doc_type doc = MDL_DOC_TYPE) (nev documents)).

Definition parse_namespaces `{JsonInteger} (device_response : DeviceResponse) :
    option (result (btree string Json) ReaderError) :=
  match
    let? documents := ok_or DeviceTransmissionError (rs_documents device_response) in
    let? doc := ok_or DocumentTypeError
      (snd <$> list_find (λ doc, rd_doc_type doc = MDL_DOC_TYPE) (nev documents)) in
    let? namespaces := ok_or NoMdlDataTransmission (is_namespaces (rd_issuer_signed doc)) in
    let? core := ok_or IncorrectNamespace (nem namespaces !! CORE_NAMESPACE) in
    Ok (core, delete CORE_NAMESPACE (nem namespaces))
  with
  | Err e => Some (Err e)
  | Ok (core, namespaces) =>
      core_namespace ← parse_items core;
      let parsed_response : btree string Json := <[CORE_NAMESPACE := JObject (entries core_namespace)]> ∅ in
      match namespaces !! AAMVA_NAMESPACE with
      | Some aamva_response =>
          aamva_namespace ← parse_items aamva_response;
          Some (Ok (<[AAMVA_NAMESPACE := JObject (entries aamva_namespace)]> parsed_response))
      | None => Some (Ok parsed_response)
      end
  end.

Definition parse `{JsonInteger, Der} (device_response : DeviceResponse) :
    option (result (ResponseDocument * X5Chain * btree string Json) ReaderError) :=
  match
    let? document := get_document device_response in
    let? header := ok_or X5ChainMissing (x5chain_header (s1_unprotected (message (issuer_auth (rd_issuer_signed document))))) in
    let? x5chain := map_err X5ChainParsing (X5Chain_from_cbor header) in
    Ok (document, x5chain)
  with
  | Err e => Some (Err e)
  | Ok (document, x5chain) =>
      parsed ← parse_namespaces device_response;
      Some (let? parsed_response := parsed in Ok (document, x5chain, parsed_response))
  end.

(** [_validate_request]: an absent core namespace is an [unwrap] panic. *)
Definition _validate_request (namespaces : RequestNamespaces) : option (result bool ReaderError) :=
  k ← nem namespaces !! CORE_NAMESPACE;
  let age_over_nn_requested := filter (λ x : string * bool, contains "age_over" x.1) (entries (nem k)) in
  Some (if bool_decide (2 < length age_over_nn_requested) then Err InvalidRequest else Ok true).

(** ** The session manager *)

Record ReaderSession : Type := {
  rdr_session_transcript : SessionTranscript180135;
  rdr_sk_device : bytes;
  rdr_device_message_counter : u32;
  rdr_sk_reader : bytes;
  rdr_reader_message_counter : u32;
  rdr_trust_anchor_registry : TrustAnchorRegistry;
}.
Definition rdr_with_reader_counter (c : u32) (s : ReaderSession) : ReaderSession := {|
  rdr_session_transcript := rdr_session_transcript s; rdr_sk_device := rdr_sk_device s;
  rdr_device_message_counter := rdr_device_message_counter s; rdr_sk_reader := rdr_sk_reader s;
  rdr_reader_message_counter := c; rdr_trust_anchor_registry := rdr_trust_anchor_registry s |}.
Definition rdr_with_device_counter (c : u32) (s : ReaderSession) : ReaderSession := {|
  rdr_session_transcript := rdr_session_transcript s; rdr_sk_device := rdr_sk_device s;
  rdr_device_message_counter := c; rdr_sk_reader := rdr_sk_reader s;
  rdr_reader_message_counter := rdr_reader_message_counter s; rdr_trust_anchor_registry := rdr_trust_anchor_registry s |}.

Inductive RequestError : Type :=
  | ItemsRequestEncoding (e : Tag24Error) | RequestEncoding (e : CborError) | RequestEncryption.

Section requests.
Context `{Serde ItemsRequest, Serde DeviceRequest, Serde SessionData, AeadBackend}.

Definition mdl_request (namespaces : RequestNamespaces) : ItemsRequest :=
  {| ir_doc_type := MDL_DOC_TYPE; ir_namespaces := namespaces; request_info := None |}.

Definition build_request (self : ReaderSession) (namespaces : RequestNamespaces) :
    ReaderSession * result bytes RequestError :=
  match map_err ItemsRequestEncoding (Tag24_new (mdl_request namespaces)) with
  | Err e => (self, Err e)
  | Ok items_request =>
      let doc_request := {| reader_auth := None; Messages.items_request := items_request |} in
      let device_request := {| dr_version := DeviceRequest_VERSION; doc_requests := NonEmptyVec_new doc_request;
                               device_request_info := None; reader_auth_all := None |} in
      match map_err RequestEncoding (to_vec device_request) with
      | Err e => (self, Err e)
      | Ok device_request_bytes =>
          let '(c, r) := encrypt_reader_data (rdr_sk_reader self) device_request_bytes (rdr_reader_message_counter self) in
          (rdr_with_reader_counter c self, map_err (λ _, RequestEncryption) r)
      end
  end.

Definition new_request (self : ReaderSession) (namespaces : RequestNamespaces) :
    ReaderSession * result bytes RequestError :=
  match build_request self namespaces with
  | (self, Err e) => (self, Err e)
  | (self, Ok request) =>
      let session := {| sd_data := Some {| bytestr := request |}; sd_status := None |} in
      (self, map_err RequestEncoding (to_vec session))
  end.
End requests.

(** The UUID of the first BLE method with a central client mode. *)
Definition first_central_client_uuid (self : ReaderSession) : option bytes :=
  ms ← device_retrieval_methods (inner (st_engagement (rdr_session_transcript self)));
  head (omap (λ m, match m with
                   | BLE opt => ccm_uuid <$> central_client_mode opt
                   | _ => None
                   end) (nev ms)).

Inductive EstablishError : Type :=
  | BadQrCode (e : QrError)
  | ReaderKeyGeneration (e : SessionError)
  | ReaderKeyEncoding (e : Tag24Error)
  | ReaderBleIdent (e : BleError)
  | ReaderSharedSecret (e : SharedSecretFailure)
  | TranscriptFailure (e : Tag24Error)
  | ReaderKeyDerivation (e : DeriveError)
  | BuildRequest (e : RequestError)
  | EstablishmentEncoding (e : CborError).

Section establish.
Context `{Ecdh} `{Base64, Hkdf} `{Serde CoseKey, Serde DeviceEngagement, Serde Value, Serde SessionTranscript180135}.
Context `{Serde ItemsRequest, Serde DeviceRequest, Serde SessionEstablishment, AeadBackend, Sha256Compress}.

(** [private_key] is the ephemeral key the generator returned. *)
Definition establish_session (private_key : SecretKey) (qr_code : string) (namespaces : RequestNamespaces)
    (trust_anchor_registry : TrustAnchorRegistry) :
    option (result (ReaderSession * bytes * bytes) EstablishError) :=
  match
    let? device_engagement_bytes := map_err BadQrCode (from_qr_code_uri qr_code) in
    let? key_pair := map_err ReaderKeyGeneration (create_p256_ephemeral_keys private_key) in
    let? e_reader_key_public := map_err ReaderKeyEncoding (Tag24_new key_pair.2) in
    let e_device_key := e_device_key_bytes (security (inner device_engagement_bytes)) in
    let? ble_ident := map_err ReaderBleIdent (calculate_ble_ident e_device_key) in
    let? shared_secret := map_err ReaderSharedSecret (get_shared_secret (inner e_device_key) key_pair.1) in
    let session_transcript := {| st_engagement := device_engagement_bytes; st_reader_key := e_reader_key_public;
                                 st_handover := QR |} in
    let? session_transcript_bytes := map_err TranscriptFailure (Tag24_new session_transcript) in
    Ok (e_reader_key_public, ble_ident, shared_secret, session_transcript, session_transcript_bytes)
  with
  | Err e => Some (Err e)
  | Ok (e_reader_key_public, ble_ident, shared_secret, session_transcript, session_transcript_bytes) =>
      sk_reader ← derive_session_key shared_secret session_transcript_bytes true;
      match map_err ReaderKeyDerivation sk_reader with
      | Err e => Some (Err e)
      | Ok sk_reader =>
          sk_device ← derive_session_key shared_secret session_transcript_bytes false;
          match map_err ReaderKeyDerivation sk_device with
          | Err e => Some (Err e)
          | Ok sk_device =>
              let session_manager := {| rdr_session_transcript := session_transcript; rdr_sk_device := sk_device;
                rdr_device_message_counter := 0; rdr_sk_reader := sk_reader; rdr_reader_message_counter := 0;
                rdr_trust_anchor_registry := trust_anchor_registry |} in
              match build_request session_manager namespaces with
              | (_, Err e) => Some (Err (BuildRequest e))
              | (session_manager, Ok request) =>
                  let session := {| se_data := {| bytestr := request |}; e_reader_key := e_reader_key_public |} in
                  Some (let? session_request := map_err EstablishmentEncoding (to_vec session) in
                        Ok (session_manager, session_request, ble_ident))
              end
          end
      end
  end.
End establish.

Section responses.
Context `{Serde SessionData, Serde DeviceResponse, AeadBackend}.

Definition decrypt_response (self : ReaderSession) (response : bytes) : ReaderSession * result DeviceResponse ReaderError :=
  match map_err (λ _, ReaderCborDecodingError) (from_slice (T := SessionData) response) with
  | Err e => (self, Err e)
  | Ok session_data =>
      match sd_data session_data with
      | None => (self, Err HolderError)
      | Some encrypted_response =>
          let '(c, r) := decrypt_device_data (rdr_sk_device self) (bytestr encrypted_response) (rdr_device_message_counter self) in
          (rdr_with_device_counter c self,
           let? decrypted_response := map_err (λ _, DecryptionError) r in
           map_err (λ _, ReaderCborDecodingError) (from_slice (T := DeviceResponse) decrypted_response))
      end
  end.

Context `{PointBytes} `{ToBeSigned} `{Der, Sha1, Sha2} {VK Sig : Type} `{Ecdsa VK Sig} (now : Z) `{JsonInteger}.
Context `{Serde Mso.Mso, Serde Value} `{Serde (DeviceAuthentication SessionTranscript180135)}.

Definition response_failed (key : string) (p : ResponseProblem) : ResponseAuthenticationOutcome :=
  {| response := ∅; ao_issuer_authentication := Unchecked; ao_device_authentication := Unchecked;
     ao_errors := <[key := [p]]> ∅ |}.

Definition handle_response (self : ReaderSession) (response : bytes) :
    option (ReaderSession * ResponseAuthenticationOutcome) :=
  match decrypt_response self response with
  | (self, Err e) => Some (self, response_failed "decryption_errors" (DecryptionProblem e))
  | (self, Ok device_response) =>
      r ← parse device_response;
      match r with
      | Ok (document, x5chain, namespaces) =>
          outcome ← validate_response (VK := VK) (Sig := Sig) now (rdr_session_transcript self)
                      (rdr_trust_anchor_registry self) x5chain document namespaces;
          Some (self, outcome)
      | Err e => Some (self, response_failed "parsing_errors" (ParsingProblem e))
      end
  end.
End responses.
