(* ===== verification/ReaderProps.v ===== *)
(** * Properties of the reader

    When response values have a JSON form, that extracting them does not panic, and
    what an outcome without errors guarantees. *)

From S2P Require Export Reader.

(** ** JSON values *)

(** Neither a float nor a null is reached, and tags only hold text. *)
Fixpoint readable (v : Value) : bool :=
  match v with
  | Text _ | Bytes _ | Bool _ | Integer _ => true
  | Tag _ w => match w with Text _ => true | _ => false end
  | Array l => forallb readable l
  | Map m => forallb (λ kv : Value * Value, match kv.1 with Text _ => readable kv.2 | _ => true end) m
  | Float _ | Null => false
  end.

Section json.
Context `{JsonInteger}.

(** Every integer that is reached fits a JSON number. *)
Fixpoint integers_fit (v : Value) : bool :=
  match v with
  | Integer i => bool_decide (is_Some (json_integer i))
  | Array l => forallb integers_fit l
  | Map m => forallb (λ kv : Value * Value, match kv.1 with Text _ => integers_fit kv.2 | _ => true end) m
  | _ => true
  end.

(** Extraction returns, with a value exactly for readable input. *)
Definition parses (v : Value) : Prop :=
  integers_fit v = true → ∃ r, parse_response v = Some r ∧ is_ok r = readable v.

Lemma parse_array_ok l :
  Forall parses l → forallb integers_fit l = true →
  ∃ r, parse_response (Array l) = Some r ∧ is_ok r = forallb readable l.
Proof.
  intros Hall. cbn [parse_response]. generalize (@nil Json) at 2 as acc.
  induction Hall as [|v l Hv _ IH]; intros acc Hfit; cbn [forallb] in *; [by eexists|].
  bool_to_prop. destruct (Hv ltac:(done)) as (r & Hr & Hok). cbn [parse_response] in Hr. rewrite Hr.
  cbn [mbind option_bind]. rewrite <-Hok. destruct r as [j|e]; cbn [is_ok andb]; [by apply IH|by eexists].
Qed.

Lemma parse_map_ok m :
  Forall (λ kv : Value * Value, parses kv.1 ∧ parses kv.2) m → integers_fit (Map m) = true →
  ∃ r, parse_response (Map m) = Some r ∧ is_ok r = readable (Map m).
Proof.
  intros Hall. cbn [parse_response integers_fit readable]. generalize (@nil (string * Json)) as acc.
  induction Hall as [|[k v] m [_ Hv] _ IH]; intros acc Hfit; cbn [forallb fst snd] in *; [by eexists|].
  destruct k; try by apply IH.
  bool_to_prop. destruct (Hv ltac:(done)) as (r & Hr & Hok). cbn [parse_response] in Hr. rewrite Hr.
  cbn [mbind option_bind]. rewrite <-Hok. destruct r as [j|e]; cbn [is_ok andb]; [by apply IH|by eexists].
Qed.

Lemma parse_response_parses v : parses v.
Proof.
  induction v as [i|b|f|s|b| |t v IH|l IH|m IH] using Value_nested_ind; unfold parses; intros Hfit; try by eexists.
  - cbn [integers_fit] in Hfit. bool_to_prop. destruct Hfit as [n Hn]. cbn [parse_response]. rewrite Hn. by eexists.
  - cbn [parse_response readable]. destruct v; by eexists.
  - by apply parse_array_ok.
  - by apply parse_map_ok.
Qed.

Lemma parse_items_total items :
  Forall (λ t : IssuerSignedItemBytes, integers_fit (element_value (inner t)) = true) (nev items) →
  is_Some (parse_items items).
Proof.
  unfold parse_items. intros Hall. assert (is_Some (Some (∅ : btree string Json))) as Hs by done. revert Hs.
  generalize (Some (∅ : btree string Json)). induction Hall as [|t l Ht _ IH]; intros acc Hs; [done|].
  cbn [foldl]. apply IH. destruct Hs as [m ->]. unfold parse_item. cbn [mbind option_bind].
  destruct (parse_response_parses _ Ht) as (r & -> & _). cbn [mbind option_bind]. by eexists.
Qed.

(** Every reported value is the JSON form of an item's value. *)
Lemma parse_items_sound items object :
  parse_items items = Some object →
  ∀ el j, object !! el = Some j →
  ∃ item, item ∈ nev items ∧ element_identifier (inner item) = el ∧
    parse_response (element_value (inner item)) = Some (Ok j).
Proof.
  unfold parse_items. generalize (nev items) as l. intros l.
  apply (foldl_inv parse_item (λ done acc, ∀ object, acc = Some object → ∀ el j, object !! el = Some j →
    ∃ item, item ∈ done ∧ element_identifier (inner item) = el ∧ parse_response (element_value (inner item)) = Some (Ok j))).
  - intros o [= <-] el j. by rewrite lookup_empty.
  - intros done item rest acc _ IH o. unfold parse_item. destruct acc as [m|]; [|done]. cbn [mbind option_bind].
    destruct (parse_response _) as [[j|e]|] eqn:Hj; cbn [mbind option_bind]; [| |done]; intros [= <-] el j'.
    + intros [[<- <-]|[_ Hm]]%lookup_insert_Some; [by exists item; rewrite elem_of_app, list_elem_of_singleton; eauto|].
      destruct (IH m eq_refl el j' Hm) as (item' & ? & ? & ?). exists item'. rewrite elem_of_app. eauto.
    + intros Hm. destruct (IH m eq_refl el j' Hm) as (item' & ? & ? & ?). exists item'. rewrite elem_of_app. eauto.
Qed.

(** A reported namespace is the core or the AAMVA one, and its object comes from the
    items that a document of the mDL type holds for it. *)
Lemma parse_namespaces_sound r parsed ns j :
  parse_namespaces r = Some (Ok parsed) → parsed !! ns = Some j →
  ns ∈ [CORE_NAMESPACE; AAMVA_NAMESPACE] ∧
  ∃ docs d m items object, rs_documents r = Some docs ∧ d ∈ nev docs ∧ rd_doc_type d = MDL_DOC_TYPE ∧
    is_namespaces (rd_issuer_signed d) = Some m ∧ nem m !! ns = Some items ∧
    parse_items items = Some object ∧ j = JObject (entries object).
Proof.
  unfold parse_namespaces. destruct (rs_documents r) as [docs|]; cbn [ok_or rbind]; [|done].
  destruct (list_find _ (nev docs)) as [[k d]|] eqn:Hd; cbn [fmap option_fmap option_map snd ok_or rbind]; [|done].
  apply list_find_Some in Hd as (Hd & Hdt & _). apply list_elem_of_lookup_2 in Hd.
  destruct (is_namespaces (rd_issuer_signed d)) as [m|] eqn:Hm; cbn [ok_or rbind]; [|done].
  destruct (nem m !! CORE_NAMESPACE) as [core|] eqn:Hc; cbn [ok_or rbind]; [|done].
  destruct (parse_items core) as [object|] eqn:Hcore; cbn [mbind option_bind]; [|done].
  rewrite lookup_delete_ne by done. destruct (nem m !! AAMVA_NAMESPACE) as [aamva|] eqn:Ha.
  - destruct (parse_items aamva) as [object'|] eqn:Haamva; cbn [mbind option_bind]; [|done]. intros Heq.
    assert (parsed = <[AAMVA_NAMESPACE := JObject (entries object')]> (<[CORE_NAMESPACE := JObject (entries object)]> ∅)) as ->
      by congruence.
    intros [[<- <-]|[_ [[<- <-]|[_ []%lookup_empty_Some]]%lookup_insert_Some]]%lookup_insert_Some.
    + split; [by right; left|]. by exists docs, d, m, aamva, object'.
    + split; [by left|]. by exists docs, d, m, core, object.
  - intros Heq. assert (parsed = <[CORE_NAMESPACE := JObject (entries object)]> ∅) as -> by congruence.
    intros [[<- <-]|[_ []%lookup_empty_Some]]%lookup_insert_Some.
    split; [by left|]. by exists docs, d, m, core, object.
Qed.
End json.

(** *** Exactly when extraction succeeds, fails or panics *)

(** The entries of a map that are read, in order. *)
Definition text_entries (m : list (Value * Value)) : list (string * Value) :=
  omap (λ kv : Value * Value, match kv.1 with Text k => Some (k, kv.2) | _ => None end) m.

(** What has a JSON form: tags hold text, integers are a [u64] or an [i64], and there are
    no floats and nulls, in everything that is read. *)
Inductive convertible : Value → Prop :=
  | conv_text s : convertible (Text s)
  | conv_bytes b : convertible (Bytes b)
  | conv_bool b : convertible (Bool b)
  | conv_integer i : (- 2 ^ 63 ≤ i ≤ u64_max)%Z → convertible (Integer i)
  | conv_tag t s : convertible (Tag t (Text s))
  | conv_array l : Forall convertible l → convertible (Array l)
  | conv_map m : Forall (λ e : string * Value, convertible e.2) (text_entries m) → convertible (Map m).
(** An integer that is neither is reached, after nothing but values with a JSON form. *)
Inductive overflows : Value → Prop :=
  | over_integer i : ¬ (- 2 ^ 63 ≤ i ≤ u64_max)%Z → overflows (Integer i)
  | over_array l v k : Forall convertible l → overflows v → overflows (Array (l ++ v :: k))
  | over_map m l key v k :
      text_entries m = l ++ (key, v) :: k → Forall (λ e : string * Value, convertible e.2) l → overflows v →
      overflows (Map m).

(** A fallible map over what succeeds exactly on [P] and panics exactly on [Q]. *)
Lemma otry_map_outcome {A B E} (f : A → option (result B E)) (P Q : A → Prop) l :
  Forall (λ x, ((∃ y, f x = Some (Ok y)) ↔ P x) ∧ (f x = None ↔ Q x)) l →
  ((∃ ys, otry_map f l = Some (Ok ys)) ↔ Forall P l) ∧
  (otry_map f l = None ↔ ∃ l1 x l2, l = l1 ++ x :: l2 ∧ Forall P l1 ∧ Q x).
Proof.
  induction 1 as [|x l [HP HQ] _ [IHP IHQ]]; cbn [otry_map].
  { split; [split; [constructor|by exists []]|]. split; [done|]. by intros ([|] & ? & ? & [=] & _). }
  destruct (f x) as [[y|e]|] eqn:Hx; cbn [obind mbind option_bind].
  - assert (P x) as HPx by (apply HP; by exists y). split.
    + rewrite Forall_cons, <-IHP. destruct (otry_map f l) as [[ys|]|]; cbn [obind mbind option_bind ok]; naive_solver.
    + transitivity (otry_map f l = None); [by destruct (otry_map f l) as [[]|]|]. rewrite IHQ. split.
      * intros (l1 & x' & l2 & -> & Hl1 & Hx'). exists (x :: l1), x', l2. split_and!; [done|by constructor|done].
      * intros ([|x1 l1] & x' & l2 & [= <- ->] & Hl1 & Hx'); [by apply HQ in Hx'|]. apply Forall_cons in Hl1 as [_ Hl1].
        by exists l1, x', l2.
  - assert (¬ P x) as HPx by by intros [? [=]]%HP. split; [rewrite Forall_cons; naive_solver|]. split; [done|].
    intros ([|x1 l1] & x' & l2 & [= <- ->] & Hl1 & Hx'); [by apply HQ in Hx'|]. by apply Forall_cons in Hl1 as [? _].
  - assert (¬ P x) as HPx by by intros [? [=]]%HP. split; [rewrite Forall_cons; naive_solver|]. split; [|done].
    intros _. exists [], x, l. split_and!; [done|constructor|by apply HQ].
Qed.

Section outcomes.
Context `{JsonInteger}.

(** The loops of the extraction, without their accumulators. *)
Lemma parse_response_array l :
  parse_response (Array l) = let* js := otry_map parse_response l in Some (Ok (JArray js)).
Proof.
  cbn [parse_response]. match goal with |- ?g [] l = _ => set (go := g) end.
  enough (∀ acc, go acc l = let* js := otry_map parse_response l in Some (Ok (JArray (acc ++ js)))) as Hgo by apply Hgo.
  induction l as [|v l IH]; intros acc; cbn [otry_map].
  { change (@Some (result Json ReaderError) (Ok (JArray acc)) = Some (Ok (JArray (acc ++ [])))). by rewrite app_nil_r. }
  cbn [go].
  destruct (parse_response v) as [[j|e]|]; cbn [obind mbind option_bind]; [|done..]. rewrite IH.
  destruct (otry_map parse_response l) as [[js|]|]; cbn [obind mbind option_bind ok]; [|done..]. by rewrite <-app_assoc.
Qed.
Definition parse_entry (e : string * Value) : option (result (string * Json) ReaderError) :=
  let* j := parse_response e.2 in Some (Ok (e.1, j)).
Lemma parse_response_map m :
  parse_response (Map m) =
  let* ps := otry_map parse_entry (text_entries m) in
  Some (Ok (JObject (foldl (λ object p, json_insert p.1 p.2 object) [] ps))).
Proof.
  cbn [parse_response]. match goal with |- ?g [] m = _ => set (go := g) end.
  enough (∀ acc, go acc m = let* ps := otry_map parse_entry (text_entries m) in
    Some (Ok (JObject (foldl (λ object p, json_insert p.1 p.2 object) acc ps)))) as Hgo by apply Hgo.
  induction m as [|[k v] m IH]; intros acc; [done|]. cbn [go]. unfold text_entries. cbn [omap list_omap fst snd].
  destruct k; try apply IH. fold (text_entries m). cbn [otry_map]. change (parse_entry (s, v)) with (let* j := parse_response v in Some (Ok (s, j))).
  destruct (parse_response v) as [[j|e]|]; cbn [obind mbind option_bind]; [|done..]. rewrite IH.
  by destruct (otry_map parse_entry (text_entries m)) as [[ps|]|].
Qed.

Context `{!JsonIntegerLaws}.

Definition outcome_of (v : Value) : Prop :=
  ((∃ j, parse_response v = Some (Ok j)) ↔ convertible v) ∧ (parse_response v = None ↔ overflows v).

Lemma array_outcome l : Forall outcome_of l → outcome_of (Array l).
Proof.
  intros [Hok Hnone]%otry_map_outcome. unfold outcome_of. rewrite parse_response_array. split.
  - transitivity (Forall convertible l); [rewrite <-Hok; destruct (otry_map _ _) as [[]|]; cbn [obind mbind option_bind]; naive_solver|].
    split; [by constructor|]. intros Hc. by inversion Hc.
  - transitivity (otry_map parse_response l = None); [by destruct (otry_map _ _) as [[]|]; cbn [obind mbind option_bind]|]. rewrite Hnone. split.
    + intros (l1 & v & l2 & -> & Hl1 & Hv). by constructor.
    + intros Ho. inversion Ho as [|l1 v l2 Hl1 Hv Heq|]. by exists l1, v, l2.
Qed.
Lemma map_outcome m : Forall (λ kv : Value * Value, outcome_of kv.1 ∧ outcome_of kv.2) m → outcome_of (Map m).
Proof.
  intros Hall. assert (Forall (λ e : string * Value,
    ((∃ p, parse_entry e = Some (Ok p)) ↔ convertible e.2) ∧ (parse_entry e = None ↔ overflows e.2)) (text_entries m)) as Hentries.
  { apply Forall_forall. intros e (kv & Hkv & He)%list_elem_of_omap.
    destruct (proj1 (Forall_forall _ _) Hall kv Hkv) as [_ [Hok Hnone]].
    destruct kv as [k v]. cbn [fst snd] in *. destruct k; try done. injection He as <-. unfold parse_entry. cbn [fst snd].
    rewrite <-Hok, <-Hnone. destruct (parse_response v) as [[]|]; cbn [obind mbind option_bind]; naive_solver. }
  apply otry_map_outcome in Hentries as [Hok Hnone]. unfold outcome_of. rewrite parse_response_map. split.
  - transitivity (Forall (λ e : string * Value, convertible e.2) (text_entries m));
      [rewrite <-Hok; destruct (otry_map _ _) as [[]|]; cbn [obind mbind option_bind]; naive_solver|].
    split; [by constructor|]. intros Hc. by inversion Hc.
  - transitivity (otry_map parse_entry (text_entries m) = None); [by destruct (otry_map _ _) as [[]|]; cbn [obind mbind option_bind]|]. rewrite Hnone. split.
    + intros (l1 & [k v] & l2 & Heq & Hl1 & Hv). by apply (over_map m l1 k v l2).
    + intros Ho. inversion Ho as [| |m' l1 k v l2 Heq Hl1 Hv]. subst m'. by exists l1, (k, v), l2.
Qed.
Lemma parse_response_outcome v : outcome_of v.
Proof.
  induction v as [i|b|f|s|b| |t v IH|l IH|m IH] using Value_nested_ind; [|..|by apply array_outcome|by apply map_outcome].
  - unfold outcome_of. cbn [parse_response]. rewrite json_integer_spec. case_bool_decide as Hi; cbn [mbind option_bind].
    + split; [split; [by constructor|by eexists]|]. split; [done|]. intros Ho. by inversion Ho.
    + split; [split; [by intros [? [=]]|intros Hc; by inversion Hc]|]. split; [by constructor|done].
  - split; [split; [constructor|by eexists]|]. split; [done|]. intros Ho. by inversion Ho.
  - split; [split; [by intros [? [=]]|intros Hc; by inversion Hc]|]. split; [done|]. intros Ho. by inversion Ho.
  - split; [split; [constructor|by eexists]|]. split; [done|]. intros Ho. by inversion Ho.
  - split; [split; [constructor|by eexists]|]. split; [done|]. intros Ho. by inversion Ho.
  - split; [split; [by intros [? [=]]|intros Hc; by inversion Hc]|]. split; [done|]. intros Ho. by inversion Ho.
  - split.
    + cbn [parse_response]. split; [|intros Hc; inversion Hc; by eexists]. destruct v; try (by intros [? [=]]). constructor.
    + cbn [parse_response]. split; [by destruct v|]. intros Ho. by inversion Ho.
Qed.
End outcomes.

(** C34: A value is turned into JSON exactly when all that is read of it has a JSON form: no
    float or null, text under every tag, and integers that are a [u64] or an [i64].
    The extraction panics exactly when it reaches an integer that is neither after nothing
    but values with such a form; in all other cases it fails with an error. And the JSON
    has the form one expects: elements in their order, entries with text keys, the last
    one of a key, and numbers as they are. *)
Theorem parse_response_spec `{JsonIntegerLaws} v :
  ((∃ j, parse_response v = Some (Ok j)) ↔ convertible v) ∧
  (parse_response v = None ↔ overflows v) ∧
  (∀ i, convertible (Integer i) → parse_response (Integer i) = Some (Ok (JNumber i))) ∧
  (∀ l j, parse_response (Array l) = Some (Ok j) ↔
     ∃ js, Forall2 (λ v j, parse_response v = Some (Ok j)) l js ∧ j = JArray js) ∧
  (∀ m j, parse_response (Map m) = Some (Ok j) ↔
     ∃ js, Forall2 (λ e j, parse_response e.2 = Some (Ok j)) (text_entries m) js ∧
       j = JObject (foldl (λ object p, json_insert p.1 p.2 object) [] (zip (text_entries m).*1 js))).
Proof.
  destruct (parse_response_outcome v) as [Hok Hnone]. split; [exact Hok|]. split; [exact Hnone|]. split_and!.
  - intros i Hi. inversion Hi. cbn [parse_response]. by rewrite json_integer_spec, bool_decide_true.
  - intros l j. rewrite parse_response_array, obind_Ok. setoid_rewrite otry_map_Ok. naive_solver.
  - intros m j. rewrite parse_response_map, obind_Ok. setoid_rewrite otry_map_Ok.
    split.
    + intros (ps & Hps & [= <-]). exists ps.*2.
      enough (Forall2 (λ e j, parse_response e.2 = Some (Ok j)) (text_entries m) ps.*2 ∧ zip (text_entries m).*1 ps.*2 = ps)
        as [Hjs ->] by done.
      induction Hps as [|e p l ps Hp _ [IHl IHz]]; [done|]. apply obind_Ok in Hp as (j & Hj & [= <-]).
      rewrite !fmap_cons. cbn [zip zip_with snd]. split; [by constructor|by f_equal].
    + intros (js & Hjs & ->). eexists. split; [|reflexivity].
      induction Hjs as [|e j l js Hj _ IH]; [constructor|]. rewrite fmap_cons. constructor; [|exact IH].
      apply obind_Ok. by exists j.
Qed.

(** ** What an outcome without errors guarantees *)

Section accepted.
Context `{Serde SessionData, Serde DeviceResponse, AeadBackend}.
Context `{PointBytes} `{ToBeSigned} `{Der, Sha1, Sha2} {VK Sig : Type} `{Ecdsa VK Sig} (now : Z) `{JsonInteger}.
Context `{Serde Mso.Mso, Serde Value} `{Serde (DeviceAuthentication SessionTranscript180135)}.

Lemma decrypt_response_Ok self resp self' d :
  decrypt_response self resp = (self', Ok d) →
  ∃ data ct m, from_slice (T := SessionData) resp = Ok data ∧ sd_data data = Some ct ∧
    decrypt_device_data (rdr_sk_device self) (bytestr ct) (rdr_device_message_counter self) =
      ((rdr_device_message_counter self + 1)%Z, Ok m) ∧
    from_slice m = Ok d ∧ self' = rdr_with_device_counter (rdr_device_message_counter self + 1) self.
Proof.
  unfold decrypt_response. destruct (from_slice resp) as [data|]; cbn [map_err]; [|done].
  destruct (sd_data data) as [ct|] eqn:Hct; [|done]. unfold decrypt_device_data.
  destruct (decrypt_result (rdr_sk_device self) (bytestr ct) (rdr_device_message_counter self) false)
    as [Hx|(iv & m & _ & _ & _ & Hx)]; rewrite Hx; [done|].
  cbn [map_err rbind]. destruct (from_slice m) as [d'|] eqn:Hd; [|done]. intros [= <- <-]. by exists data, ct, m.
Qed.

Lemma parse_Ok d document x5chain namespaces :
  parse d = Some (Ok (document, x5chain, namespaces)) →
  get_document d = Ok document ∧
  (∃ h, x5chain_header (s1_unprotected (message (issuer_auth (rd_issuer_signed document)))) = Some h ∧
        X5Chain_from_cbor h = Ok x5chain) ∧
  parse_namespaces d = Some (Ok namespaces).
Proof.
  unfold parse. destruct (get_document d) as [doc|]; [|done]. cbn [rbind].
  destruct (x5chain_header _) as [h|] eqn:Hh; [|done]. cbn [ok_or rbind].
  destruct (X5Chain_from_cbor h) as [x|] eqn:Hx; [|done]. cbn [map_err rbind].
  destruct (parse_namespaces d) as [[ns|]|]; [|done..]. cbn [mbind option_bind rbind]. intros [= <- <- <-].
  split_and!; [done| |done]. by exists h.
Qed.

(** C13: If the reader reports no error for a received message, then the message decrypted
      under the device key at the next counter to a response with an mDL document;
      that document's issuer signature verifies under a certificate chain trusted for
      mDLs, its device signature is one by the device key of the signed security
      object over this session's own transcript, and the reported values are those of
      that response. *)
Theorem accepted_response self resp self' o :
  handle_response (VK := VK) (Sig := Sig) now self resp = Some (self', o) → ao_errors o = ∅ →
  ∃ data ct m d document x5chain t payload,
    from_slice (T := SessionData) resp = Ok data ∧ sd_data data = Some ct ∧
    decrypt_device_data (rdr_sk_device self) (bytestr ct) (rdr_device_message_counter self) =
      ((rdr_device_message_counter self + 1)%Z, Ok m) ∧
    self' = rdr_with_device_counter (rdr_device_message_counter self + 1) self ∧
    from_slice m = Ok d ∧ get_document d = Ok document ∧ parse_namespaces d = Some (Ok (response o)) ∧
    issuer_trusted (VK := VK) (Sig := Sig) now (rdr_trust_anchor_registry self) x5chain (rd_issuer_signed document) ∧
    Tag24_new (DeviceAuthentication_new (rdr_session_transcript self) (rd_doc_type document)
      (dsg_namespaces (rd_device_signed document))) = Ok t ∧ to_vec t = Ok payload ∧
    device_signed_over (VK := VK) (Sig := Sig) document payload.
Proof.
  unfold handle_response. destruct (decrypt_response self resp) as [self1 [d|e]] eqn:Hd.
  2:{ by intros [= <- <-] He. }
  apply decrypt_response_Ok in Hd as (data & ct & m & Hdata & Hct & Hdec & Hm & ->).
  destruct (parse d) as [[[[document x5chain] namespaces]|e]|] eqn:Hp; cbn [mbind option_bind]; [| |done].
  2:{ by intros [= <- <-] He. }
  apply parse_Ok in Hp as (Hdoc & _ & Hns). cbn [rdr_with_device_counter rdr_session_transcript rdr_trust_anchor_registry].
  destruct (validate_response _ _ _ _ _ _) as [o'|] eqn:Hv; [|done]. cbn [mbind option_bind]. intros [= <- <-] He.
  apply validate_response_verdicts in Hv as (Hresp & _ & _ & Hdev & Hiss & Herr).
  apply Herr in He as [Hdv Hiv]. apply Hdev in Hdv as (t & payload & Ht & Hpl & Hsig). apply Hiss in Hiv.
  exists data, ct, m, d, document, x5chain, t, payload. rewrite Hresp. by split_and!.
Qed.
End accepted.
