(* ===== verification/Protocol.v ===== *)
(** * Device and reader together

    The two session managers of [src/presentation] run against each other: a
    session established through a QR code, and any number of request and response
    exchanges over it. *)

From S2P Require Export DeviceMachine Reader.

(** ** What the encoders of the crates promise *)

(** Encoded values are byte strings. *)
Class SerdeBytes (T : Type) `{Serde T} : Prop := {
  to_vec_bytes x b : to_vec x = Ok b → Forall is_byte b;
}.
(** A written value is also read by decoding it to a [Value] first. *)
Class FromValueWf (T : Type) (wf : T → Prop) `{Serde T, Serde Value, FromValue T} : Prop := {
  from_value_to_vec x b : wf x → to_vec x = Ok b → ∃ v, from_slice (T := Value) b = Ok v ∧ cbor_from_value v = Ok x;
}.

Definition RequestNamespaces_wf (m : RequestNamespaces) : Prop :=
  NonEmptyMap_wf m ∧ ∀ ns es, nem m !! ns = Some es → NonEmptyMap_wf es.
Definition ItemsRequest_wf (r : ItemsRequest) : Prop := RequestNamespaces_wf (ir_namespaces r).

(** ** Two ends of one session *)

(** The session managers hold the same transcript and keys, and each counter has the
    same value at both ends. *)
Definition linked (dev : SessionManager) (rdr : ReaderSession) : Prop :=
  sm_session_transcript dev = rdr_session_transcript rdr ∧
  sm_sk_device dev = rdr_sk_device rdr ∧ sm_sk_reader dev = rdr_sk_reader rdr ∧
  device_message_counter dev = rdr_device_message_counter rdr ∧
  reader_message_counter dev = rdr_reader_message_counter rdr.

Section exchange.
Context `{Serde ItemsRequest, !SerdeWf ItemsRequest ItemsRequest_wf, Serde DeviceRequestInfo}.
Context `{Serde DeviceRequest, Serde Value, FromValue DeviceRequest, !FromValueWf DeviceRequest DeviceRequest_wf}.
Context `{Serde IssuerSignedItem, Serde DeviceNamespaces, !SerdeLaws DeviceNamespaces}.
Context `{Serde DeviceResponse, !SerdeWf DeviceResponse DeviceResponse_wf, Serde SessionData, !SerdeLaws SessionData}.
Context `{AeadBackendLaws}.
Context `{Serde (DeviceAuthentication SessionTranscript180135), Serde ReaderAuthentication} `{ToBeSigned}.
Context `{Der, Sha1, Sha2} {VK Sig : Type} `{Ecdsa VK Sig} (now : Z).

(** The reader asks, and the device answers with what the user permits and the
    application signs: the message to the reader. *)
Definition answered (dev : SessionManager) (rdr : ReaderSession)
    (turn : RequestNamespaces * PermittedItems * list bytes) : option (SessionManager * ReaderSession * bytes) :=
  let '(namespaces, permitted, signatures) := turn in
  let '(rdr, r) := new_request rdr namespaces in
  msg ← rok r;
  '(dev, outcome) ← handle_request (VK := VK) (Sig := Sig) now dev msg;
  let dev := prepare_response dev (ro_items_request outcome) permitted in
  '(dev, r) ← submit_all dev signatures;
  _ ← rok r;
  let '(dev, answer) := retrieve_response dev in
  answer ← answer;
  Some (dev, rdr, answer).
(** One exchange: the reader decrypts the answer. *)
Definition exchange (dev : SessionManager) (rdr : ReaderSession)
    (turn : RequestNamespaces * PermittedItems * list bytes) :
    option (SessionManager * ReaderSession * result DeviceResponse ReaderError) :=
  '(dev, rdr, answer) ← answered dev rdr turn;
  let '(rdr, received) := decrypt_response rdr answer in
  Some (dev, rdr, received).

Lemma mdl_items_request_wf namespaces : RequestNamespaces_wf namespaces → ItemsRequest_wf (mdl_request namespaces).
Proof. done. Qed.

(** The bytes the reader encrypts for a request. *)
Definition encodes_request (namespaces : RequestNamespaces) (b : bytes) : Prop :=
  ∃ ir, Tag24_new (mdl_request namespaces) = Ok ir ∧
    to_vec {| dr_version := DeviceRequest_VERSION;
              doc_requests := NonEmptyVec_new {| reader_auth := None; items_request := ir |};
              device_request_info := None; reader_auth_all := None |} = Ok b.

(** A request is built under the next value of the counter, or the session stays as it is. *)
Lemma build_request_result rdr namespaces :
  (∃ e, build_request rdr namespaces = (rdr, Err e)) ∨
  ∃ b ct, encodes_request namespaces b ∧ (rdr_reader_message_counter rdr + 1 ≤ u32_max)%Z ∧
    encrypt (rdr_sk_reader rdr) b (rdr_reader_message_counter rdr) true = ((rdr_reader_message_counter rdr + 1)%Z, Ok ct) ∧
    build_request rdr namespaces = (rdr_with_reader_counter (rdr_reader_message_counter rdr + 1) rdr, Ok ct).
Proof.
  unfold build_request. destruct (Tag24_new (mdl_request namespaces)) as [ir|] eqn:Hir; cbn [map_err]; [|left; by eexists].
  set (request := {| dr_version := _ |}). destruct (to_vec request) as [b|] eqn:Hb; cbn [map_err]; [|left; by eexists].
  unfold encrypt_reader_data.
  destruct (encrypt_result (rdr_sk_reader rdr) b (rdr_reader_message_counter rdr) true)
    as [->|(iv & ct & _ & Hmax & _ & He)]; [left; destruct rdr; by eexists|].
  right. rewrite He. exists b, ct. split_and!; try done. by exists ir.
Qed.

(** Its bytes are read back as the request, and the reader of it is not authenticated. *)
Lemma encoded_request_read self namespaces b :
  RequestNamespaces_wf namespaces → encodes_request namespaces b →
  ∃ request outcome, parse_request b = Ok request ∧
    validate_request (VK := VK) (Sig := Sig) now self request = Some outcome ∧
    ro_items_request outcome = [mdl_request namespaces] ∧ ro_errors outcome = ∅ ∧
    ro_reader_authentication outcome = Invalid.
Proof.
  intros Hwf (ir & Hir & Hb).
  assert (Tag24_wf ir ∧ inner ir = mdl_request namespaces) as [Hirwf Hirin].
  { apply Tag24_new_into_inner in Hir as [Hin Hto]. split; [|done]. unfold Tag24_wf. rewrite Hin.
    apply (from_slice_to_vec_wf (mdl_request namespaces)); [exact Hwf|exact Hto]. }
  set (request := {| dr_version := _ |}) in Hb.
  assert (DeviceRequest_wf request) as Hreqwf by (split_and!; [done|by repeat constructor|done]).
  destruct (from_value_to_vec request b Hreqwf Hb) as (v & Hv & Hfrom).
  unfold parse_request. rewrite Hv. cbn [map_err rbind]. rewrite Hfrom. cbn [map_err].
  do 2 eexists. split; [done|]. split; [done|]. cbn. by rewrite Hirin.
Qed.

(** A request opens under the key and the counter value it was sealed with. *)
Lemma request_opens dev namespaces b c ct data :
  RequestNamespaces_wf namespaces → encodes_request namespaces b →
  encrypt (sm_sk_reader dev) b (reader_message_counter dev) true = (c, Ok ct) →
  sd_data data = Some {| bytestr := ct |} →
  ∃ outcome,
    handle_decoded_request (VK := VK) (Sig := Sig) now dev data = Some (with_reader_counter c dev, outcome) ∧
    ro_items_request outcome = [mdl_request namespaces] ∧ ro_errors outcome = ∅ ∧ ro_reader_authentication outcome = Invalid.
Proof.
  intros Hwf Henc He Hd. unfold handle_decoded_request. rewrite Hd. cbn [bytestr]. unfold decrypt_reader_data.
  rewrite (encrypt_decrypt _ _ _ _ _ _ He).
  destruct (encoded_request_read (with_reader_counter c dev) _ _ Hwf Henc) as (request & outcome & -> & -> & Hrest).
  by exists outcome.
Qed.

(** A request arrives as it was asked, and the counters stay equal. *)
Lemma request_delivered dev rdr namespaces rdr' ct :
  linked dev rdr → RequestNamespaces_wf namespaces → build_request rdr namespaces = (rdr', Ok ct) →
  ∃ outcome,
    let dev' := with_reader_counter (rdr_reader_message_counter rdr') dev in
    handle_decoded_request (VK := VK) (Sig := Sig) now dev {| sd_data := Some {| bytestr := ct |}; sd_status := None |} =
      Some (dev', outcome) ∧
    linked dev' rdr' ∧ ro_items_request outcome = [mdl_request namespaces] ∧ ro_errors outcome = ∅ ∧
    ro_reader_authentication outcome = Invalid ∧
    rdr_reader_message_counter rdr' = (rdr_reader_message_counter rdr + 1)%Z ∧
    rdr_device_message_counter rdr' = rdr_device_message_counter rdr.
Proof.
  intros (Htr & Hskd & Hskr & Hcd & Hcr) Hwf Hbuild.
  destruct (build_request_result rdr namespaces) as [[e He]|(b & ct' & Henc & _ & He & Heq)]; [by rewrite He in Hbuild|].
  rewrite Heq in Hbuild. injection Hbuild as <- ->. rewrite <-Hskr, <-Hcr in He.
  destruct (request_opens dev namespaces b _ ct {| sd_data := Some {| bytestr := ct |}; sd_status := None |} Hwf Henc He)
    as (outcome & Hh & ? & ? & ?); [done|].
  exists outcome. cbv zeta. cbn [rdr_with_reader_counter rdr_reader_message_counter]. by rewrite <-Hcr.
Qed.

(** A response opens under the key and the counter value it was sealed with. *)
Lemma response_opens rdr response b c ct data msg :
  DeviceResponse_wf response → to_vec response = Ok b →
  encrypt (rdr_sk_device rdr) b (rdr_device_message_counter rdr) false = (c, Ok ct) →
  from_slice (T := SessionData) msg = Ok data → sd_data data = Some {| bytestr := ct |} →
  decrypt_response rdr msg = (rdr_with_device_counter c rdr, Ok response).
Proof.
  intros Hwf Hb He Hmsg Hd. unfold decrypt_response. rewrite Hmsg. cbn [map_err]. rewrite Hd. cbn [bytestr].
  unfold decrypt_device_data. rewrite (encrypt_decrypt _ _ _ _ _ _ He). cbn [map_err rbind].
  by rewrite (from_slice_to_vec_wf _ _ Hwf Hb).
Qed.

(** The response the application signs for one turn. *)
Definition turn_prepared (dev : SessionManager) (turn : RequestNamespaces * PermittedItems * list bytes) :
    PreparedDeviceResponse :=
  DeviceSession_prepare_response dev [mdl_request turn.1.1] turn.1.2.
Definition turn_answer (dev : SessionManager) (turn : RequestNamespaces * PermittedItems * list bytes) : DeviceResponse :=
  signed_all (turn_prepared dev turn) turn.2.
(** A turn in which the application signs every prepared document, of which there is one. *)
Definition turn_complete (dev : SessionManager) (turn : RequestNamespaces * PermittedItems * list bytes) : Prop :=
  RequestNamespaces_wf turn.1.1 ∧ prepared_documents (turn_prepared dev turn) ≠ [] ∧
  length turn.2 = length (prepared_documents (turn_prepared dev turn)).

Lemma turn_prepared_same dev dev' turn : same_session dev dev' → turn_prepared dev' turn = turn_prepared dev turn.
Proof.
  destruct dev, dev'. intros (Hdocs & Htr & _ & _ & _ & Hauth). cbn in Hdocs, Htr, Hauth. by subst.
Qed.
Lemma turn_answer_same dev dev' turn : same_session dev dev' → turn_answer dev' turn = turn_answer dev turn.
Proof. intros Hs. unfold turn_answer. by rewrite (turn_prepared_same dev dev'). Qed.
Lemma turn_complete_same dev dev' turn : same_session dev dev' → turn_complete dev turn → turn_complete dev' turn.
Proof. intros Hs. unfold turn_complete. by rewrite (turn_prepared_same dev dev'). Qed.

Context (Hitems : ∀ x : ItemsRequest, is_ok (to_vec x)) (Hrequest : ∀ x : DeviceRequest, is_ok (to_vec x))
  (Hresponse : ∀ x : DeviceResponse, is_ok (to_vec x)) (Hdata : ∀ x : SessionData, is_ok (to_vec x)).

(** The cipher accepts the session's keys. *)
Definition keys_work (dev : SessionManager) : Prop :=
  ∀ iv m, is_ok (encrypt_with_backend (sm_sk_device dev) iv m) ∧ is_ok (encrypt_with_backend (sm_sk_reader dev) iv m).

Lemma build_request_succeeds dev rdr namespaces :
  linked dev rdr → keys_work dev → (reader_message_counter dev + 1 ≤ u32_max)%Z →
  ∃ rdr' ct, build_request rdr namespaces = (rdr', Ok ct).
Proof.
  intros (_ & _ & Hsk & _ & Hc) Hkeys Hmax. unfold build_request.
  destruct (Tag24_new_total (mdl_request namespaces) (Hitems _)) as [ir ->]. cbn [map_err].
  set (request := {| dr_version := _ |}). specialize (Hrequest request). destruct (to_vec request) as [b|]; [|done].
  cbn [map_err]. unfold encrypt_reader_data. rewrite <-Hsk, <-Hc.
  destruct (encrypt_succeeds (sm_sk_reader dev) b (reader_message_counter dev) true Hmax) as [ct ->];
    [intros iv; by destruct (Hkeys iv b)|]. by do 2 eexists.
Qed.

(** A complete answer arrives as it was signed, and the counters stay equal. *)
Lemma answer_delivered dev rdr p signatures :
  linked dev rdr → session_wf dev → keys_work dev → (device_message_counter dev + 1 ≤ u32_max)%Z →
  sm_state dev = Signing p → prepared_documents p ≠ [] → length signatures = length (prepared_documents p) →
  ∃ encoded,
    let dev' := with_device_counter (device_message_counter dev + 1) dev in
    submit_all dev signatures = Some (with_state (ReadyToRespond encoded) dev', Ok tt) ∧
    decrypt_response rdr encoded =
      (rdr_with_device_counter (device_message_counter dev + 1) rdr, Ok (signed_all p signatures)).
Proof.
  intros (_ & Hskd & _ & Hcd & _) [_ Hwf] Hkeys Hmax Hst Hne Hl. rewrite Hst in Hwf.
  rewrite (submit_all_complete (prepared_documents p) dev p signatures) by done.
  pose proof (signed_all_wf p signatures Hwf) as Hrwf. rewrite send_response_spec by done.
  pose proof (Hresponse (signed_all p signatures)) as Hb.
  destruct (to_vec (signed_all p signatures)) as [b|] eqn:Eb; [|done].
  cbn [with_state sm_sk_device device_message_counter]. unfold encrypt_device_data.
  destruct (encrypt_succeeds (sm_sk_device dev) b (device_message_counter dev) false Hmax) as [ct He]; [intros iv; by destruct (Hkeys iv b)|].
  rewrite He. pose proof (Hdata (response_message (Ok ct))) as Hm.
  destruct (to_vec (response_message (Ok ct))) as [encoded|] eqn:Em; [|done].
  exists encoded. split; [done|]. rewrite Hskd, Hcd in He. rewrite Hcd.
  by eapply response_opens; [exact Hrwf|exact Eb|exact He|exact (from_slice_to_vec _ _ Em)|].
Qed.

Lemma build_request_registry rdr namespaces rdr' r :
  build_request rdr namespaces = (rdr', r) → rdr_trust_anchor_registry rdr' = rdr_trust_anchor_registry rdr.
Proof.
  unfold build_request. destruct (map_err _ (Tag24_new _)); [|by intros [= <- _]].
  destruct (map_err _ (to_vec _)); [|by intros [= <- _]]. destruct (encrypt_reader_data _ _ _). by intros [= <- _].
Qed.

(** A complete turn is answered, and the answer decrypts to what the device signed. *)
Lemma answered_delivers dev rdr turn :
  linked dev rdr → session_wf dev → keys_work dev →
  (device_message_counter dev + 1 ≤ u32_max)%Z → (reader_message_counter dev + 1 ≤ u32_max)%Z →
  turn_complete dev turn →
  ∃ dev' rdr1 rdr' encoded, answered dev rdr turn = Some (dev', rdr1, encoded) ∧
    decrypt_response rdr1 encoded = (rdr', Ok (turn_answer dev turn)) ∧
    rdr_trust_anchor_registry rdr' = rdr_trust_anchor_registry rdr ∧
    linked dev' rdr' ∧ session_wf dev' ∧ same_session dev dev' ∧
    device_message_counter dev' = (device_message_counter dev + 1)%Z ∧
    reader_message_counter dev' = (reader_message_counter dev + 1)%Z.
Proof.
  destruct turn as [[namespaces permitted] signatures]. intros Hlink [Hdocs Hstate] Hkeys Hmaxd Hmaxr (Hns & Hne & Hl).
  cbn [fst snd] in *. unfold answered, new_request.
  destruct (build_request_succeeds dev rdr namespaces Hlink Hkeys Hmaxr) as (rdr1 & ct & Hb).
  pose proof (build_request_registry _ _ _ _ Hb) as Hreg. rewrite Hb.
  set (data := {| sd_data := Some {| bytestr := ct |}; sd_status := None |}).
  pose proof (Hdata data) as Hm. destruct (to_vec data) as [msg|] eqn:Em; [|done]. cbn [map_err rok mbind option_bind].
  destruct (request_delivered dev rdr namespaces rdr1 ct Hlink Hns Hb) as (outcome & Hh & Hlink1 & Hitem & _ & _ & Hcr & Hcd).
  unfold handle_request. rewrite (from_slice_to_vec _ _ Em). unfold data. rewrite Hh. cbn [mbind option_bind]. rewrite Hitem.
  set (dev1 := with_reader_counter _ dev) in *.
  set (p := turn_prepared dev (namespaces, permitted, signatures)) in *.
  change (prepare_response dev1 [mdl_request namespaces] permitted) with (with_state (Signing p) dev1).
  set (dev2 := with_state (Signing p) dev1).
  assert (session_wf dev2) as Hwf2 by (split; [done|]; by apply (prepare_response_wf dev)).
  destruct (answer_delivered dev2 rdr1 p signatures) as (encoded & -> & Hdec); [done..|].
  cbn [mbind option_bind rok]. unfold retrieve_response at 1. cbn [with_state sm_state mbind option_bind].
  do 4 eexists. split; [done|]. split; [exact Hdec|]. split; [exact Hreg|].
  destruct Hlink as (_ & _ & _ & _ & Hcr0), Hlink1 as (? & ? & ? & ? & ?).
  split; [by split_and!|]. split_and!; try done; cbn; congruence.
Qed.

(** One complete exchange. *)
Lemma exchange_delivers dev rdr turn :
  linked dev rdr → session_wf dev → keys_work dev →
  (device_message_counter dev + 1 ≤ u32_max)%Z → (reader_message_counter dev + 1 ≤ u32_max)%Z →
  turn_complete dev turn →
  ∃ dev' rdr', exchange dev rdr turn = Some (dev', rdr', Ok (turn_answer dev turn)) ∧
    linked dev' rdr' ∧ session_wf dev' ∧ same_session dev dev' ∧
    device_message_counter dev' = (device_message_counter dev + 1)%Z ∧
    reader_message_counter dev' = (reader_message_counter dev + 1)%Z.
Proof.
  intros Hlink Hwf Hkeys Hmaxd Hmaxr Hturn.
  destruct (answered_delivers dev rdr turn Hlink Hwf Hkeys Hmaxd Hmaxr Hturn)
    as (dev' & rdr1 & rdr' & encoded & Ha & Hdec & _ & Hrest).
  unfold exchange. rewrite Ha. cbn [mbind option_bind]. rewrite Hdec. by exists dev', rdr'.
Qed.

(** Any number of exchanges; what the reader received, in order. *)
Fixpoint exchanges (dev : SessionManager) (rdr : ReaderSession)
    (turns : list (RequestNamespaces * PermittedItems * list bytes)) :
    option (SessionManager * ReaderSession * list (result DeviceResponse ReaderError)) :=
  match turns with
  | [] => Some (dev, rdr, [])
  | turn :: turns' =>
      '(dev, rdr, received) ← exchange dev rdr turn;
      '(dev, rdr, rest) ← exchanges dev rdr turns';
      Some (dev, rdr, received :: rest)
  end.

(** C1: Two linked sessions are a faithful channel: over any sequence of complete
      exchanges, as long as neither counter is exhausted, nothing fails, the reader
      receives in order exactly the responses the device signed for exactly the items
      the reader asked for, and afterwards both ends still agree on the transcript,
      the keys and both counters, each advanced by one per exchange. *)
Theorem exchanges_faithful dev rdr turns :
  linked dev rdr → session_wf dev → keys_work dev →
  (device_message_counter dev + Z.of_nat (length turns) ≤ u32_max)%Z →
  (reader_message_counter dev + Z.of_nat (length turns) ≤ u32_max)%Z →
  Forall (turn_complete dev) turns →
  ∃ dev' rdr', exchanges dev rdr turns = Some (dev', rdr', Ok ∘ turn_answer dev <$> turns) ∧
    linked dev' rdr' ∧ same_session dev dev' ∧
    device_message_counter dev' = (device_message_counter dev + Z.of_nat (length turns))%Z ∧
    reader_message_counter dev' = (reader_message_counter dev + Z.of_nat (length turns))%Z.
Proof.
  revert dev rdr. induction turns as [|turn turns IH]; intros dev rdr Hlink Hwf Hkeys Hmaxd Hmaxr Hturns.
  - exists dev, rdr. cbn [length exchanges]. split_and!; try done; lia.
  - cbn [length] in *. apply Forall_cons in Hturns as [Hturn Hturns].
    destruct (exchange_delivers dev rdr turn Hlink Hwf Hkeys ltac:(lia) ltac:(lia) Hturn)
      as (dev1 & rdr1 & He & Hlink1 & Hwf1 & Hsame1 & Hcd1 & Hcr1).
    cbn [exchanges]. rewrite He. cbn [mbind option_bind].
    destruct (IH dev1 rdr1) as (dev2 & rdr2 & -> & Hlink2 & Hsame2 & Hcd2 & Hcr2); try done; try lia.
    { destruct Hsame1 as (_ & _ & Hskd & Hskr & _). intros iv m. rewrite Hskd, Hskr. apply Hkeys. }
    { eapply Forall_impl; [exact Hturns|]. intros t. by apply turn_complete_same. }
    cbn [mbind option_bind]. exists dev2, rdr2. split_and!; try done; [|by transitivity dev1|lia..].
    do 2 f_equal. rewrite fmap_cons. f_equal. apply list_fmap_ext. intros _ t _. cbn. by rewrite (turn_answer_same dev dev1).
Qed.
End exchange.

(** ** Establishing a session *)

Section establishment.
Context `{SerdeLaws Value, !SerdeBytes Value}.
#[local] Instance cose_key_serde : Serde CoseKey := serde_via_value CoseKey CoseKeyError.
#[local] Instance cose_key_serde_laws : SerdeLaws CoseKey.
Proof. apply serde_via_value_laws; apply _. Qed.
Context `{!EngagementReaders, !EngagementReadersLaws}.
#[local] Instance engagement_serde : Serde DeviceEngagement := serde_via_value DeviceEngagement EngagementError.
Context `{EcdhLaws, Base64Laws, Hkdf, Serde SessionTranscript180135, Sha256Compress}.
Context `{Serde ItemsRequest, !SerdeWf ItemsRequest ItemsRequest_wf, Serde DeviceRequestInfo}.
Context `{Serde DeviceRequest, FromValue DeviceRequest, !FromValueWf DeviceRequest DeviceRequest_wf}.
Context `{Serde SessionData, AeadBackendLaws}.
Context `{Serde SessionEstablishment, !SerdeWf SessionEstablishment SessionEstablishment_wf}.
Context `{Serde ReaderAuthentication} `{ToBeSigned} `{Der, Sha1, Sha2} {VK Sig : Type} `{Ecdsa VK Sig} (now : Z).

(** What the Rust types of the retrieval methods guarantee. *)
Definition retrieval_wf (drms : option (NonEmptyVec DeviceRetrievalMethod)) (srms : option ServerRetrievalMethods) : Prop :=
  opt_all (λ ms, NonEmptyVec_wf ms ∧ Forall DeviceRetrievalMethod_wf (nev ms)) drms ∧
  opt_all (λ m, opt_all (λ t, is_u64 t.1.1) (web_api m) ∧ opt_all (λ t, is_u64 t.1.1) (oidc m)) srms.

Lemma initialise_wf sk documents drms srms init :
  retrieval_wf drms srms → initialise sk documents drms srms = Ok init →
  Tag24_wf (init_device_engagement init) ∧ Forall is_byte (inner_bytes (init_device_engagement init)) ∧
  init_e_device_key init = sk ∧ init_documents init = documents ∧
  ∃ k, create_p256_ephemeral_keys sk = Ok (sk, k) ∧
    inner (e_device_key_bytes (security (inner (init_device_engagement init)))) = k.
Proof.
  intros [Hd Hs]. unfold initialise. intros Hi. inv_result. destruct t as [sk' k]. cbn [rbind] in Hi. inv_result.
  pose proof Hr0 as Hcreate. apply create_p256_ephemeral_keys_point in Hcreate as [-> _].
  cbn [init_device_engagement init_e_device_key init_documents].
  match goal with Ht : Tag24_new k = Ok ?t |- _ => apply Tag24_new_wf in Ht as [Hkwf Hk] end.
  match goal with Ht : Tag24_new _ = Ok ?t |- context [Tag24_wf ?t] => apply Tag24_new_into_inner in Ht as [Hin Hto] end.
  set (de := {| version := "1.0" |}) in *.
  assert (from_slice (inner_bytes t0) = Ok de) as Hread.
  { cbn [to_vec engagement_serde serde_via_value into_value DeviceEngagement_value] in Hto.
    cbn [from_slice engagement_serde serde_via_value try_from_value DeviceEngagement_value].
    rewrite (from_slice_to_vec _ _ Hto). cbn [rbind]. rewrite DeviceEngagement_reads; [done|]. by split_and!. }
  split_and!; try done.
  - unfold Tag24_wf. by rewrite Hin.
  - by apply (to_vec_bytes (DeviceEngagement_into_value de)).
  - exists k. split; [done|]. by rewrite Hin.
Qed.

(** A reader that reads the QR code of a freshly initialised device establishes a session. *)
Lemma session_establishes sk_d sk_r documents drms srms init eng uri namespaces reg_r reg_d rdr msg ident :
  retrieval_wf drms srms → RequestNamespaces_wf namespaces →
  initialise sk_d documents drms srms = Ok init → qr_engagement init = (eng, uri) →
  establish_session sk_r uri namespaces reg_r = Some (Ok (rdr, msg, ident)) →
  ∃ establishment dev outcome,
    from_slice (T := SessionEstablishment) msg = Ok establishment ∧
    process_session_establishment (VK := VK) (Sig := Sig) now eng establishment reg_d = Some (Ok (dev, outcome)) ∧
    linked dev rdr ∧ sm_state dev = AwaitingRequest ∧ sm_documents dev = documents ∧
    device_message_counter dev = 0%Z ∧ reader_message_counter dev = 1%Z ∧
    ro_items_request outcome = [mdl_request namespaces] ∧ ro_errors outcome = ∅ ∧ ble_ident init = Ok ident.
Proof.
  intros Hret Hns Hinit [= <- <-] Hest.
  destruct (initialise_wf _ _ _ _ _ Hret Hinit) as (Hwf & Hbytes & Hsk & Hdocs & k_d & Hkd & Hkin).
  unfold establish_session in Hest. rewrite (qr_code_reads _ Hwf Hbytes) in Hest. cbn [map_err rbind] in Hest.
  destruct (create_p256_ephemeral_keys sk_r) as [[sk_r' k_r]|] eqn:Hkr; [|done]. cbn [map_err rbind fst snd] in Hest.
  pose proof Hkr as Hkr'. apply create_p256_ephemeral_keys_point in Hkr' as [-> _].
  destruct (Tag24_new k_r) as [t_r|] eqn:Htr; [|done]. cbn [map_err rbind] in Hest.
  apply Tag24_new_wf in Htr as [Htrwf Htrin].
  destruct (calculate_ble_ident _) as [ident'|] eqn:Hble; [|done]. cbn [map_err rbind] in Hest.
  destruct (ephemeral_secrets_agree sk_d sk_r sk_d sk_r k_d k_r Hkd Hkr) as (secret & Hsd & Hsr).
  rewrite Hkin, Hsr in Hest. cbn [map_err rbind] in Hest.
  set (transcript := {| st_engagement := _; st_reader_key := t_r; st_handover := QR |}) in *.
  destruct (Tag24_new transcript) as [tb|] eqn:Htb; [|done]. cbn [map_err rbind] in Hest.
  destruct (derive_session_key secret tb true) as [[skr|]|] eqn:Hskr; [|done..]. cbn [mbind option_bind map_err] in Hest.
  destruct (derive_session_key secret tb false) as [[skd|]|] eqn:Hskd; [|done..]. cbn [mbind option_bind map_err] in Hest.
  set (rdr0 := {| rdr_sk_reader := skr |}) in *.
  destruct (build_request rdr0 namespaces) as [rdr1 [ct|]] eqn:Hb; [|done].
  set (establishment := {| e_reader_key := t_r |}) in *.
  destruct (to_vec establishment) as [msg'|] eqn:Hmsg; [|done]. cbn [map_err rbind] in Hest. injection Hest as <- <- <-.
  set (dev0 := {| sm_documents := documents; sm_session_transcript := transcript; sm_sk_device := skd;
    device_message_counter := 0; sm_sk_reader := skr; reader_message_counter := 0; sm_state := AwaitingRequest;
    trusted_verifiers := reg_d; sm_device_auth_type := Sign1 |}).
  destruct (request_delivered (VK := VK) (Sig := Sig) now dev0 rdr0 namespaces rdr1 ct)
    as (outcome & Hh & Hlink & Hitems & Herrs & _ & Hcr & _); [done|done|done|].
  exists establishment. do 2 eexists. split; [by apply from_slice_to_vec_wf|]. split.
  { unfold process_session_establishment. cbn [e_reader_key establishment se_data eng_device_engagement eng_handover eng_e_device_key eng_documents].
    change {| st_engagement := init_device_engagement init; st_reader_key := t_r; st_handover := QR |} with transcript.
    rewrite Htb. cbn [map_err]. rewrite Htrin, Hsk, Hsd. cbn [map_err]. rewrite Hskr. cbn [mbind option_bind map_err].
    rewrite Hskd. cbn [mbind option_bind map_err]. rewrite Hdocs. fold dev0. rewrite Hh. done. }
  by split_and!.
Qed.

(** C2: A reader that reads the QR code of a freshly initialised device establishes the
      session: the device accepts the reader's first message, both ends hold the same
      transcript and the same two keys, both have counted one reader message and no
      device message, the device sees exactly the reader's items without an error,
      and both know the same BLE identifier. *)
Theorem session_established sk_d sk_r documents drms srms init eng uri namespaces reg_r reg_d rdr msg ident :
  retrieval_wf drms srms → RequestNamespaces_wf namespaces →
  initialise sk_d documents drms srms = Ok init → qr_engagement init = (eng, uri) →
  establish_session sk_r uri namespaces reg_r = Some (Ok (rdr, msg, ident)) →
  ∃ establishment dev outcome,
    from_slice (T := SessionEstablishment) msg = Ok establishment ∧
    process_session_establishment (VK := VK) (Sig := Sig) now eng establishment reg_d = Some (Ok (dev, outcome)) ∧
    linked dev rdr ∧ sm_state dev = AwaitingRequest ∧ sm_documents dev = documents ∧
    device_message_counter dev = 0%Z ∧ reader_message_counter dev = 1%Z ∧
    ro_items_request outcome = [mdl_request namespaces] ∧ ro_errors outcome = ∅ ∧ ble_ident init = Ok ident.
Proof. apply session_establishes. Qed.
End establishment.
