(* ===== verification/Lifecycle.v ===== *)
(** * From issuance to acceptance

    The three parties together: what an issuer prepared and completed, the document
    the wallet stores for it, what its device discloses of it, and what the
    reader that receives it concludes and reports. *)

From S2P Require Export Protocol ReaderProps.

(** ** The document of a credential *)

(** The entry that [extract] makes of a list of items: the last one of an identifier,
    which is the only one when identifiers are distinct. *)
Definition item_ids (l : list IssuerSignedItemBytes) : list string := (λ i, element_identifier (inner i)) <$> l.
Lemma extract_lookup v m el item :
  extract v = Some m → NoDup (item_ids (nev v)) →
  nem m !! el = Some item ↔ item ∈ nev v ∧ element_identifier (inner item) = el.
Proof.
  unfold extract. set (l := (λ i, (element_identifier (inner i), i)) <$> nev v). intros Hm Hnd.
  destruct (NonEmptyMap_try_from (collect l)) as [m'|] eqn:Htry; [|done]. injection Hm as <-.
  unfold NonEmptyMap_try_from in Htry. case_match; [done|]. injection Htry as <-. cbn [nem].
  assert (l.*1 = item_ids (nev v)) as Hids by (unfold l; by rewrite <-list_fmap_compose).
  rewrite collect_lookup by by rewrite Hids. unfold l. rewrite list_elem_of_fmap. split.
  - by intros (i & [= -> ->] & Hin).
  - intros [Hin <-]. by exists item.
Qed.

(** A credential whose items have distinct identifiers within each namespace. *)
Definition distinct_items (mdoc : Mdoc) : Prop :=
  Forall (λ ns : string * NonEmptyVec IssuerSignedItemBytes, NoDup (item_ids (nev ns.2))) (entries (nem (mdoc_namespaces mdoc))).

Lemma stored_spec id mdoc document ns el item :
  Document_from_mdoc id mdoc = Some document → distinct_items mdoc →
  stored document ns el = Some item ↔
  ∃ items, nem (mdoc_namespaces mdoc) !! ns = Some items ∧ item ∈ nev items ∧ element_identifier (inner item) = el.
Proof.
  unfold Document_from_mdoc, stored. intros Hdoc Hdistinct.
  destruct (mapM _ _) as [l|] eqn:Hl; [|done]. cbn [mbind option_bind] in Hdoc.
  destruct (rok _) as [m|] eqn:Hm; [|done]. injection Hdoc as <-. cbn [doc_namespaces].
  assert (nem m = collect l) as ->.
  { unfold NonEmptyMap_try_from in Hm. case_match; [done|]. by injection Hm as <-. }
  apply mapM_Some in Hl.
  assert (l.*1 = (entries (nem (mdoc_namespaces mdoc))).*1) as Hkeys.
  { clear -Hl. induction Hl as [|[k v] y l l' Hx _ IH]; [done|]. cbn [fst snd] in Hx.
    destruct (extract v); [|done]. injection Hx as <-. rewrite !fmap_cons. by f_equal. }
  assert (NoDup l.*1) as Hnd by (rewrite Hkeys; apply entries_NoDup).
  split.
  - destruct (collect l !! ns) as [s|] eqn:Hs; [|done]. cbn [mbind option_bind]. intros Hitem.
    apply (collect_lookup _ _ _ Hnd) in Hs. apply list_elem_of_lookup in Hs as [i Hi].
    destruct (Forall2_lookup_r _ _ _ _ _ Hl Hi) as ([k v] & Hk & Hx). cbn [fst snd] in Hx.
    destruct (extract v) as [s'|] eqn:He; [|done]. injection Hx as -> ->.
    exists v. split; [by apply entries_lookup, list_elem_of_lookup_2 with i|].
    apply (extract_lookup _ _ _ _ He); [|done]. apply (Forall_lookup_1 _ _ _ _ Hdistinct Hk).
  - intros (v & Hv & Hitem). apply entries_lookup, list_elem_of_lookup in Hv as [i Hi].
    destruct (Forall2_lookup_l _ _ _ _ _ Hl Hi) as (y & Hy & Hx). cbn [fst snd] in Hx.
    destruct (extract v) as [s|] eqn:He; [|done]. injection Hx as <-.
    assert (collect l !! ns = Some s) as ->.
    { apply (collect_lookup _ _ _ Hnd). by eapply list_elem_of_lookup_2. }
    cbn [mbind option_bind]. apply (extract_lookup _ _ _ _ He); [|done]. apply (Forall_lookup_1 _ _ _ _ Hdistinct Hi).
Qed.

(** The elements an issuer was given. *)
Definition given (namespaces : Namespaces) (ns el : string) : option Value := m ← namespaces !! ns; m !! el.

(** An item that carries a given element and whose digest the security object holds. *)
Definition carries `{Serde IssuerSignedItem, Serde Value, Sha2} (mso : Mso.Mso) (ns el : string) (v : Value)
    (item : IssuerSignedItemBytes) : Prop :=
  element_identifier (inner item) = el ∧ element_value (inner item) = v ∧
  ∃ b, to_vec item = Ok b ∧
    (digests ← Mso.value_digests mso !! ns; digests !! digest_id (inner item)) =
      Some {| bytestr := digest (Mso.digest_algorithm mso) b |}.

(** ** A credential from its issuer *)

Section issued.
Context {fuel : RetryFuel} {R E : Type} `{RngLaws R} `{Serde IssuerSignedItem, Serde Value, Serde Mso.Mso} `{ToBeSigned}
  `{Sha2Laws} `{!DigestExecutor E, !DigestExecutorCorrect E}.
Context `{Der} {VK Sig : Type} `{Ecdsa VK Sig}.

(** The whole issuance: preparation, completion with the signature of a remote signer
    and its certificate chain, and the document that a wallet stores. *)
Record issuance : Type := {
  iss_doc_type : string;
  iss_namespaces : Namespaces;
  iss_validity : ValidityInfo;
  iss_digest : DigestAlgorithm;
  iss_key_info : DeviceKeyInfo;
  iss_algorithm : Algorithm;
  iss_decoys : bool;
  iss_rng : R;
  iss_executor : E;
  iss_chain : X5Chain;
  iss_signature : bytes;
  iss_document_id : bytes;
}.
Definition issue_prepared (i : issuance) : result (PreparedMdoc * R) MdocError :=
  prepare_with_validated_inputs_rng_and_digest_executor (iss_doc_type i) (iss_namespaces i) (iss_validity i)
    (iss_digest i) (iss_key_info i) (iss_algorithm i) (iss_decoys i) (iss_rng i) (iss_executor i).
Definition issue (i : issuance) : option (result (Mdoc * Document) MdocError) :=
  match issue_prepared i with
  | Err e => Some (Err e)
  | Ok (prepared, _) =>
      completed ← complete (VK := VK) (Sig := Sig) prepared (iss_chain i) (iss_signature i);
      match completed with
      | Err e => Some (Err e)
      | Ok mdoc => document ← Document_from_mdoc (iss_document_id i) mdoc; Some (Ok (mdoc, document))
      end
  end.

Lemma issue_inv i mdoc document :
  issue i = Some (Ok (mdoc, document)) →
  ∃ prepared r, issue_prepared i = Ok (prepared, r) ∧
    complete (VK := VK) (Sig := Sig) prepared (iss_chain i) (iss_signature i) = Some (Ok mdoc) ∧
    Document_from_mdoc (iss_document_id i) mdoc = Some document.
Proof.
  unfold issue. destruct (issue_prepared i) as [[prepared r]|]; [|done].
  destruct (complete _ _ _) as [[m|]|] eqn:Hc; cbn [mbind option_bind]; [|done..].
  destruct (Document_from_mdoc _ m) as [d|] eqn:Hd; [|done]. intros [= <- <-]. by exists prepared, r.
Qed.

Lemma item_ids_for elements items : Forall2 item_for elements items → item_ids items = elements.*1.
Proof. induction 1 as [|x y l k (Hx & _) _ IH]; [done|]. unfold item_ids in *. rewrite !fmap_cons. by f_equal. Qed.

(** The items of a namespace are made for its elements. *)
Lemma namespace_items namespaces (m : IssuerNamespaces) ns :
  Forall2 (λ ns y, namespace_for ns y) (entries namespaces) (entries (nem m)) →
  match namespaces !! ns with
  | Some elements => ∃ items, nem m !! ns = Some items ∧ Forall2 item_for (entries elements) (nev items)
  | None => nem m !! ns = None
  end.
Proof.
  intros Hall. destruct (namespaces !! ns) as [elements|] eqn:Hns.
  - apply entries_lookup, list_elem_of_lookup in Hns as [k Hk].
    destruct (Forall2_lookup_l _ _ _ _ _ Hall Hk) as ([ns' items] & Hk' & Hname & Hitems & _). cbn [fst snd] in *. subst ns'.
    exists items. split; [|done]. by apply entries_lookup, list_elem_of_lookup_2 with k.
  - destruct (nem m !! ns) as [items|] eqn:Hitems; [|done]. apply entries_lookup, list_elem_of_lookup in Hitems as [k Hk].
    destruct (Forall2_lookup_r _ _ _ _ _ Hall Hk) as ([ns' elements] & Hk' & Hname & _). cbn [fst] in Hname. subst ns'.
    apply list_elem_of_lookup_2, entries_lookup in Hk'. congruence.
Qed.
Lemma namespaces_distinct namespaces (m : IssuerNamespaces) :
  Forall2 (λ ns y, namespace_for ns y) (entries namespaces) (entries (nem m)) →
  Forall (λ ns : string * NonEmptyVec IssuerSignedItemBytes, NoDup (item_ids (nev ns.2))) (entries (nem m)).
Proof.
  intros Hall. induction Hall as [|x y l k (_ & Hitems & _) _ IH]; constructor; [|done].
  rewrite (item_ids_for _ _ Hitems). apply entries_NoDup.
Qed.

Lemma Document_from_mdoc_fields id mdoc document :
  Document_from_mdoc id mdoc = Some document →
  doc_id document = id ∧ doc_mso document = mdoc_mso mdoc ∧ doc_issuer_auth document = mdoc_issuer_auth mdoc.
Proof.
  unfold Document_from_mdoc. destruct (mapM _ _); [|done]. cbn [mbind option_bind].
  destruct (rok _); [|done]. by intros [= <-].
Qed.
(** A prepared credential has namespaces and items, so that its document can be made. *)
Lemma collect_not_empty {V} (p : string * V) l : is_empty (collect (p :: l)) = false.
Proof.
  assert (is_Some (collect (p :: l) !! p.1)) as [v Hv] by (apply collect_dom; by left).
  apply entries_lookup in Hv. unfold is_empty. by destruct (entries (collect (p :: l))); [apply elem_of_nil in Hv|].
Qed.
Lemma prepared_document i prepared r id mdoc :
  issue_prepared i = Ok (prepared, r) → mdoc_namespaces mdoc = pm_namespaces prepared →
  ∃ document, Document_from_mdoc id mdoc = Some document.
Proof.
  intros Hp Hitems. unfold Document_from_mdoc. rewrite Hitems.
  destruct (prepared_commitment _ _ _ _ _ _ _ _ _ _ _ Hp) as (_ & Hns & _).
  destruct (prepare_inv _ _ _ _ _ _ _ _ _ _ _ Hp) as (m & r1 & contents & Hm & _ & _ & Hf).
  destruct (finish_inv _ _ _ _ _ _ _ _ Hf) as (_ & Hpm & _). rewrite Hpm in *.
  assert (entries (nem m) ≠ []) as Hne.
  { unfold to_issuer_namespaces in Hm. inv_result. destruct t. inv_result. simplify_eq.
    match goal with Hm : NonEmptyMap_try_from _ = Ok _ |- _ => apply NonEmptyMap_try_from_spec in Hm as [Hwf _] end.
    intros Hnil. apply Hwf, is_empty_spec. unfold is_empty. by rewrite Hnil. }
  set (f := λ p : string * NonEmptyVec IssuerSignedItemBytes, _).
  assert (is_Some (mapM f (entries (nem m)))) as [l Hl].
  { apply mapM_is_Some_2, Forall_forall. intros [ns items] Hin. apply list_elem_of_lookup in Hin as [k Hk].
    destruct (Forall2_lookup_r _ _ _ _ _ Hns Hk) as (e & _ & _ & _ & _ & Hnev). cbn [snd] in Hnev.
    unfold f, extract, NonEmptyMap_try_from. cbn [compose fst snd]. destruct (nev items) as [|item rest]; [done|].
    rewrite fmap_cons, collect_not_empty. by eexists. }
  rewrite Hl. cbn [mbind option_bind]. apply mapM_Some in Hl.
  destruct Hl as [|p y k l' _ _]; [done|]. unfold NonEmptyMap_try_from. rewrite collect_not_empty. by eexists.
Qed.

(** Issuance never panics under a non-empty certificate chain, and when preparation succeeds it
    returns a credential with its document exactly when the remote signature, over the
    payload that preparation handed out, verifies under the key of the chain. *)
Theorem issue_outcome i prepared r leaf :
  issue_prepared i = Ok (prepared, r) → end_entity_certificate (iss_chain i) = Some leaf →
  issue i ≠ None ∧
  ((∃ mdoc document, issue i = Some (Ok (mdoc, document))) ↔
   ∃ curve hash sig key, remote_suite (iss_algorithm i) = Some (curve, hash) ∧
     Signature_from_slice curve (iss_signature i) = Ok sig ∧
     public_key_with_oid curve leaf (CURVE_OID curve) = Ok (key : VK) ∧
     verify_prehashed curve key (hash (signature_payload prepared)) (sig : Sig) = Ok tt).
Proof.
  intros Hp Hleaf. unfold issue. rewrite Hp.
  assert (prepared_algorithm (prepared_sig prepared) = Some (iss_algorithm i)) as Halg.
  { destruct (prepare_inv _ _ _ _ _ _ _ _ _ _ _ Hp) as (m & r1 & contents & _ & _ & _ & Hf).
    destruct (finish_inv _ _ _ _ _ _ _ _ Hf) as (_ & _ & _ & t & b & _ & _ & _ & Hprot & _).
    unfold prepared_algorithm. by rewrite Hprot. }
  pose proof (complete_iff (VK := VK) (Sig := Sig) prepared (iss_chain i) (iss_signature i)) as Hiff.
  destruct (complete (VK := VK) (Sig := Sig) prepared (iss_chain i) (iss_signature i)) as [[mdoc|e]|] eqn:Hc; cbn [mbind option_bind].
  - pose proof (proj1 (Hiff mdoc) eq_refl) as (a & curve & hash & sig & leaf' & key & Ha & Hs & Hsig & Hl & Hk & Hv & Hm). cbv zeta in Hm.
    destruct (prepared_document i prepared r (iss_document_id i) mdoc Hp) as [document Hd]; [by rewrite Hm|].
    rewrite Hd. cbn [mbind option_bind]. split; [done|]. split; [|by intros _; exists mdoc, document]. intros _.
    rewrite Halg in Ha. injection Ha as <-. rewrite Hleaf in Hl. injection Hl as <-. by exists curve, hash, sig, key.
  - split; [done|]. split; [by intros (? & ? & ?)|]. intros (curve & hash & sig & key & Hs & Hsig & Hk & Hv). exfalso.
    enough (∃ m : Mdoc, @Some (result Mdoc MdocError) (Err e) = Some (Ok m)) as [m Hx] by discriminate Hx. eexists. apply Hiff.
    exists (iss_algorithm i), curve, hash, sig, leaf, key. do 6 (split; [assumption|]). cbv zeta. reflexivity.
  - exfalso. unfold complete in Hc. rewrite Halg in Hc.
    unfold verify_remote_signature, verify_on_curve, end_entity_public_key_with_oid in Hc. rewrite Hleaf in Hc.
    destruct (iss_algorithm i); cbn [mbind option_bind] in Hc; try discriminate Hc;
      destruct (Signature_from_slice _ _); discriminate Hc.
Qed.
(** What an issued document and its credential are made of. *)
Lemma issue_fields i mdoc document :
  issue i = Some (Ok (mdoc, document)) →
  ∃ prepared r, issue_prepared i = Ok (prepared, r) ∧
    complete (VK := VK) (Sig := Sig) prepared (iss_chain i) (iss_signature i) = Some (Ok mdoc) ∧
    Document_from_mdoc (iss_document_id i) mdoc = Some document ∧
    doc_mso document = pm_mso prepared ∧ mdoc_namespaces mdoc = pm_namespaces prepared ∧
    doc_issuer_auth document = push_unprotected (LabelInt X5CHAIN_COSE_HEADER_LABEL, X5Chain_into_cbor (iss_chain i))
      (finalize (prepared_sig prepared) (iss_signature i)).
Proof.
  intros (prepared & r & Hp & Hc & Hd)%issue_inv. pose proof (Document_from_mdoc_fields _ _ _ Hd) as (_ & Hmso & Hauth).
  pose proof Hc as (a & curve & hash & sig & leaf & key & _ & _ & _ & _ & _ & _ & Hm)%complete_iff. cbv zeta in Hm.
  exists prepared, r. rewrite Hmso, Hauth. split_and!; [done..| | |]; by rewrite Hm.
Qed.

(** The stored document holds exactly the given elements. *)
Lemma issued_stored i mdoc document ns el :
  issue i = Some (Ok (mdoc, document)) →
  match given (iss_namespaces i) ns el with
  | Some v => ∃ item, stored document ns el = Some item ∧ carries (doc_mso document) ns el v item
  | None => stored document ns el = None
  end.
Proof.
  intros (prepared & r & Hp & Hc & Hd & Hmso & Hitems & _)%issue_fields.
  destruct (prepared_commitment _ _ _ _ _ _ _ _ _ _ _ Hp) as ((_ & _ & _ & Halg & _ & _) & Hns & _ & Hdigests & _).
  assert (∀ item, stored document ns el = Some item ↔ _) as Hstored by
    (intros item; apply (stored_spec _ _ _ ns el item Hd); unfold distinct_items; rewrite Hitems; by apply (namespaces_distinct _ _ Hns)).
  rewrite Hitems in Hstored. pose proof (namespace_items _ _ ns Hns) as Hnamespace. unfold given.
  destruct (iss_namespaces i !! ns) as [elements|]; cbn [mbind option_bind].
  2:{ destruct (stored document ns el) as [item|]; [|done].
      destruct (proj1 (Hstored item) eq_refl) as (items & Hsome & _). congruence. }
  destruct Hnamespace as (items & Hsome & Hall). destruct (elements !! el) as [v|] eqn:Hel.
  - apply entries_lookup, list_elem_of_lookup in Hel as [k Hk].
    destruct (Forall2_lookup_l _ _ _ _ _ Hall Hk) as (item & Hitem & Hid & Hvalue & _). cbn [fst snd] in *.
    apply list_elem_of_lookup_2 in Hitem. exists item. split; [apply Hstored; eauto|].
    destruct (Hdigests ns items Hsome) as (digests & Hvd & Hdigest & _). destruct (Hdigest item Hitem) as (b & Hb & Hlookup).
    split_and!; [done..|]. exists b. split; [done|]. rewrite Hmso, Hvd, Halg. exact Hlookup.
  - destruct (stored document ns el) as [item|]; [|done].
    destruct (proj1 (Hstored item) eq_refl) as (items' & Hsome' & Hin & <-). rewrite Hsome in Hsome'. injection Hsome' as <-.
    apply list_elem_of_lookup in Hin as [k Hk].
    destruct (Forall2_lookup_r _ _ _ _ _ Hall Hk) as ([el' v] & Hk' & Hid & _). cbn [fst] in Hid. rewrite Hid in Hel.
    apply list_elem_of_lookup_2, entries_lookup in Hk'. congruence.
Qed.
(** The signature of the issuer covers the stored security object. *)
Lemma issued_payload i mdoc document :
  issue i = Some (Ok (mdoc, document)) →
  mso_doc_type (doc_mso document) = iss_doc_type i ∧ Mso.device_key_info (doc_mso document) = iss_key_info i ∧
  ∃ t b, Tag24_new (doc_mso document) = Ok t ∧ to_vec t = Ok b ∧
    s1_payload (message (doc_issuer_auth document)) = Some b.
Proof.
  intros (prepared & r & Hp & _ & _ & Hmso & _ & Hauth)%issue_fields.
  destruct (prepared_commitment _ _ _ _ _ _ _ _ _ _ _ Hp) as ((_ & Hdt & _ & _ & Hinfo & _) & _ & _ & _ & t & b & Ht & Hb & Hpl & _).
  rewrite Hmso, Hauth. split_and!; [done..|]. exists t, b. by split_and!.
Qed.

(** *** What its holder discloses *)

Context {T ST : Type} `{DeviceSession T ST} `{Serde DeviceNamespaces, Serde (DeviceAuthentication ST)}.

(** The shareable elements that the issuer was given, with their values. *)
Definition shared (i : issuance) (requests : RequestedItems) (permitted : PermittedItems) (ns : string) : list (string * Value) :=
  omap (λ el, v ← given (iss_namespaces i) ns el; Some (el, v)) (shareable requests permitted (iss_doc_type i) ns).

Lemma shared_elem i requests permitted ns el v :
  (el, v) ∈ shared i requests permitted ns ↔
  (user_permits permitted (iss_doc_type i) ns el ∧ reader_requests requests (iss_doc_type i) ns el) ∧
  given (iss_namespaces i) ns el = Some v.
Proof.
  unfold shared. rewrite list_elem_of_omap, <-shareable_elem. split.
  - intros (el' & Hel & Hv). destruct (given _ ns el') as [v'|] eqn:Hgiven; [|done]. by injection Hv as -> ->.
  - intros [Hel Hv]. exists el. by rewrite Hv.
Qed.

Lemma omap_Forall2 {A B C} (f : A → option B) (g : A → option C) (P : B → C → Prop) l :
  (∀ x, match f x, g x with Some y, Some z => P y z | None, None => True | _, _ => False end) →
  Forall2 P (omap f l) (omap g l).
Proof.
  intros Hfg. induction l as [|x l IH]; [constructor|]. specialize (Hfg x). cbn [omap list_omap].
  destruct (f x), (g x); try done; by constructor.
Qed.

Lemma disclosed_carries i mdoc document (self : T) requests permitted pd :
  issue i = Some (Ok (mdoc, document)) → nem (session_documents self) !! iss_doc_type i = Some document →
  pd ∈ prepared_documents (DeviceSession_prepare_response self requests permitted) → pd_doc_type pd = iss_doc_type i →
  issuer_auth (pd_issuer_signed pd) = doc_issuer_auth document ∧
  ∀ ns,
    Forall2 (λ p item, carries (doc_mso document) ns p.1 p.2 item) (shared i requests permitted ns) (disclosed pd ns) ∧
    ∀ el, reported pd ns el =
      if decide (el ∈ shareable requests permitted (iss_doc_type i) ns ∧ given (iss_namespaces i) ns el = None)
      then Some DataNotReturned else None.
Proof.
  intros Hissue Hdoc Hpd Hdt. destruct (disclosure_spec self requests permitted pd Hpd) as (document' & Hdoc' & Hauth & Hns).
  rewrite Hdt, Hdoc in Hdoc'. injection Hdoc' as <-. split; [done|]. intros ns. destruct (Hns ns) as [-> Hel]. rewrite Hdt. split.
  - apply omap_Forall2. intros el. pose proof (issued_stored _ _ _ ns el Hissue) as Hst.
    destruct (given _ ns el) as [v|]; cbn [mbind option_bind].
    + destruct Hst as (item & -> & Hitem). exact Hitem.
    + rewrite Hst. exact I.
  - intros el. destruct (Hel el) as [-> _]. rewrite Hdt. apply decide_ext. pose proof (issued_stored _ _ _ ns el Hissue) as Hst.
    destruct (given _ ns el) as [v|]; [|rewrite Hst; tauto]. destruct Hst as (item & -> & _). split; intros [_ Hx]; discriminate Hx.
Qed.

(** C11: From issuance to disclosure. When a credential was prepared from the issuer's elements,
    completed with a remote signature and stored, what its holder's device discloses
    in any namespace is, element by element and in the user's order, the issuer's value
    for each element that the user permits, the reader asks for and the issuer gave,
    in an item whose digest is in the signed security object under the item's
    identifier; the permitted and requested elements that the issuer did not give,
    and no others, are reported as not returned; and the issuer's signature that goes
    with them covers that same security object. *)
Theorem disclosed_issued i mdoc document (self : T) requests permitted pd :
  issue i = Some (Ok (mdoc, document)) → nem (session_documents self) !! iss_doc_type i = Some document →
  pd ∈ prepared_documents (DeviceSession_prepare_response self requests permitted) → pd_doc_type pd = iss_doc_type i →
  (∃ t b, Tag24_new (doc_mso document) = Ok t ∧ to_vec t = Ok b ∧
     s1_payload (message (issuer_auth (pd_issuer_signed pd))) = Some b) ∧
  ∀ ns,
    Forall2 (λ p item, carries (doc_mso document) ns p.1 p.2 item) (shared i requests permitted ns) (disclosed pd ns) ∧
    (∀ el v, (el, v) ∈ shared i requests permitted ns ↔
       user_permits permitted (iss_doc_type i) ns el ∧ reader_requests requests (iss_doc_type i) ns el ∧
       given (iss_namespaces i) ns el = Some v) ∧
    (∀ el, is_Some (reported pd ns el) ↔
       user_permits permitted (iss_doc_type i) ns el ∧ reader_requests requests (iss_doc_type i) ns el ∧
       given (iss_namespaces i) ns el = None).
Proof.
  intros Hissue Hdoc Hpd Hdt. destruct (disclosed_carries _ _ _ _ _ _ _ Hissue Hdoc Hpd Hdt) as [-> Hns].
  split; [by apply (issued_payload _ _ _ Hissue)|]. intros ns. destruct (Hns ns) as [Hitems Hreported]. split_and!.
  - done.
  - intros el v. rewrite shared_elem. tauto.
  - intros el. rewrite Hreported. pose proof (shareable_elem requests permitted (iss_doc_type i) ns el).
    destruct (decide _) as [|Hn]; split; intros Hx; try tauto; [by eexists|by destruct Hx].
Qed.
End issued.

(** The items of an issued document decode to themselves. *)
Lemma issued_wf {fuel : RetryFuel} {R E} `{RngLaws R} `{Serde IssuerSignedItem, !SerdeLaws IssuerSignedItem, Serde Value, Serde Mso.Mso}
    `{ToBeSigned} `{Sha2Laws} `{!DigestExecutor E, !DigestExecutorCorrect E} `{Der} {VK Sig} `{Ecdsa VK Sig}
    (i : issuance (R := R) (E := E)) mdoc document ns el item :
  issue (VK := VK) (Sig := Sig) i = Some (Ok (mdoc, document)) → stored document ns el = Some item → Tag24_wf item.
Proof.
  intros (prepared & r & Hp & Hc & Hd & Hmso & Hitems & _)%issue_fields Hst.
  destruct (prepared_commitment _ _ _ _ _ _ _ _ _ _ _ Hp) as (_ & Hns & _).
  apply (stored_spec _ _ _ ns el item Hd) in Hst as (items & Hin & Hitem & _);
    [|unfold distinct_items; rewrite Hitems; by apply (namespaces_distinct _ _ Hns)].
  rewrite Hitems in Hin. pose proof (namespace_items _ _ ns Hns) as Hnamespace.
  destruct (iss_namespaces i !! ns) as [elements|]; [|congruence].
  destruct Hnamespace as (items' & Hin' & Hall). rewrite Hin in Hin'. injection Hin' as <-.
  apply list_elem_of_lookup in Hitem as [k Hk].
  destruct (Forall2_lookup_r _ _ _ _ _ Hall Hk) as (e & _ & _ & _ & _ & _ & Hb). by apply from_slice_to_vec.
Qed.

(** ** What the reader concludes *)

(** *** The issuer's signature and chain *)

Section issuer_side.
Context {fuel : RetryFuel} {R E : Type} `{RngLaws R} `{Serde IssuerSignedItem, SerdeLaws Value}
  `{!Serde Mso.Mso, !Rfc3339, !Rfc3339Laws, !MsoSerde} `{ToBeSigned}
  `{Sha2Laws} `{!DigestExecutor E, !DigestExecutorCorrect E}.
Context `{Der} {VK Sig : Type} `{Ecdsa VK Sig}.

Lemma finish_unprotected doc_type m vinfo alg info sigalg digests prepared :
  finish_preparation doc_type m vinfo alg info sigalg digests = Ok prepared →
  s1_unprotected (message (cose_sign1 (prepared_sig prepared))) = Header_default.
Proof.
  unfold finish_preparation, PreparedCoseSign1_new. intros Hf. cbn [s1_payload select_payload rbind] in Hf.
  inv_result. reflexivity.
Qed.

(** The security object that a reader gets: the dates in whole seconds of UTC. *)
Definition mso_read (m : Mso.Mso) : Mso.Mso := with_validity (ValidityInfo_trimmed (Mso.validity_info m)) m.

(** The stored signature verifies under the key of the chain it travels with, and the
    chain and the security object are read back from it. *)
Lemma issued_auth (i : issuance (R := R) (E := E)) mdoc document :
  issue (VK := VK) (Sig := Sig) i = Some (Ok (mdoc, document)) → iss_algorithm i = ES256 → X5Chain_wf (iss_chain i) →
  DeviceKeyInfo_wf (iss_key_info i) →
  let auth := doc_issuer_auth document in
  (∃ leaf key, end_entity_certificate (iss_chain i) = Some leaf ∧ public_key_with_oid NistP256 leaf SECP_256_R_1 = Ok key ∧
     Sign1_verify auth (key : VK) None None = Success) ∧
  (∃ h, x5chain_header (s1_unprotected (message auth)) = Some h ∧ X5Chain_from_cbor h = Ok (iss_chain i)) ∧
  ∃ b t, s1_payload (message auth) = Some b ∧ from_slice (T := Tag24 Mso.Mso) b = Ok t ∧ inner t = mso_read (doc_mso document).
Proof.
  intros (prepared & r & Hp & Hc & _ & Hmso & _ & Hauth)%issue_fields Halg Hchain Hinfo. cbv zeta. rewrite Hauth, Hmso.
  destruct (prepare_inv _ _ _ _ _ _ _ _ _ _ _ Hp) as (m & r1 & contents & _ & _ & _ & Hf).
  pose proof (finish_unprotected _ _ _ _ _ _ _ _ Hf) as Hun.
  destruct (finish_inv _ _ _ _ _ _ _ _ Hf) as (_ & _ & _ & t & b & Ht & Hb & Hpl & Hprot & _ & Hsp).
  rewrite Halg in *. split_and!.
  - apply complete_iff in Hc as (a & curve & hash & sig & leaf & key & Ha & Hsuite & Hsig & Hleaf & Hkey & Hverify & _).
    unfold prepared_algorithm in Ha. rewrite Hprot in Ha. cbn [hdr_alg] in Ha. injection Ha as <-.
    cbn [remote_suite] in Hsuite. injection Hsuite as <- <-.
    exists leaf, key. split_and!; [done..|]. unfold Sign1_verify, push_unprotected, finalize. cbn [message s1_protected s1_payload s1_signature].
    rewrite Hprot, Hpl. unfold algorithm_mismatch. cbn [hdr_alg verifier_algorithm P256Verifier select_payload signature_try_from default].
    rewrite Hsig. cbn. unfold P256Verifier_verify. rewrite Hsp in Hverify. by rewrite Hverify.
  - exists (X5Chain_into_cbor (iss_chain i)). split; [|by apply X5Chain_roundtrip].
    unfold x5chain_header, push_unprotected, finalize. cbn [message s1_unprotected hdr_rest]. rewrite Hun. reflexivity.
  - exists b, {| inner := mso_read (pm_mso prepared); inner_bytes := inner_bytes t |}. split; [exact Hpl|]. split; [|reflexivity].
    refine (Tag24_new_read _ _ _ _ Ht _ Hb). intros bs. apply Mso_reads_trimmed. by apply (prepared_wf _ _ _ _ _ _ _ _ _ _ _ Hp).
Qed.
End issuer_side.

(** *** The device's signature *)

Section device_side.
Context {T ST : Type} `{DeviceSession T ST} `{Serde DeviceNamespaces, Serde (DeviceAuthentication ST), Serde Value, Serde Mso.Mso}
  `{ToBeSigned} `{PointBytes} `{Sha2} {VK Sig : Type} `{Ecdsa VK Sig}.

(** The payload that a device under signature authentication hands to its signer is the
    to-be-signed structure over the authentication bytes of the transcript. *)
Lemma prepare_document_sign1 (self : T) dt namespaces pd document :
  prepare_document self dt namespaces = Ok pd → session_device_auth_type self = Sign1 →
  nem (session_documents self) !! dt = Some document →
  ∃ alg t payload,
    signature_algorithm (device_key (Mso.device_key_info (doc_mso document))) = Some alg ∧
    Tag24_new (DeviceAuthentication_new (session_transcript_of self) dt (pd_device_namespaces pd)) = Ok t ∧
    to_vec t = Ok payload ∧
    let header := {| hdr_alg := Some (Assigned alg); hdr_rest := [] |} in
    pd_prepared_cose pd = PreparedSign1 {|
      cose_sign1 := {| tagged := false; message :=
        {| s1_protected := header; s1_unprotected := Header_default; s1_payload := None; s1_signature := [] |} |};
      ps1_signature_payload := sig_structure_data header [] payload |}.
Proof.
  unfold prepare_document. intros Hpd Hauth Hdoc. rewrite Hdoc in Hpd. cbn [ok_or rbind] in Hpd.
  destruct (signature_algorithm _) as [alg|]; [|done]. cbn [ok_or rbind] in Hpd. destruct (foldl _ _ _) as [items errs].
  rewrite Hauth in Hpd. inv_result. cbn [pd_device_namespaces pd_prepared_cose].
  match goal with
  | Ht : Tag24_new (DeviceAuthentication_new _ _ _) = Ok ?t, Hb : to_vec _ = Ok ?b |- _ => exists alg, t, b; split_and!; [done..|]
  end.
  unfold PreparedCoseSign1_new in *. cbn [s1_payload select_payload rbind s1_protected default map_err rmap] in *. congruence.
Qed.

(** The signer's answer for a prepared document is a P-256 signature under [key]. *)
Definition signed_by (key : VK) (pd : PreparedDocument) (signature : bytes) : Prop :=
  ∃ s, Signature_from_slice NistP256 signature = Ok s ∧
    verify_prehashed NistP256 key (Sha256_digest (prepared_signature_payload (pd_prepared_cose pd))) s = Ok tt.

Lemma device_signature_verifies (self : T) dt namespaces pd document b mso x y point key signature :
  prepare_document self dt namespaces = Ok pd → session_device_auth_type self = Sign1 →
  nem (session_documents self) !! dt = Some document → pd_doc_type pd = dt →
  s1_payload (message (issuer_auth (pd_issuer_signed pd))) = Some b → from_slice (T := Tag24 Mso.Mso) b = Ok mso →
  Mso.device_key_info (inner mso) = Mso.device_key_info (doc_mso document) →
  device_key (Mso.device_key_info (doc_mso document)) = EC2 P256 x y →
  EncodedPoint_try_from (EC2 P256 x y) = Ok point → PublicKey_from_sec1_bytes NistP256 (point_as_bytes point) = Ok key →
  signed_by key pd signature →
  ∃ t payload,
    let document := PreparedDocument_finalize pd signature in
    Tag24_new (DeviceAuthentication_new (session_transcript_of self) (rd_doc_type document)
      (dsg_namespaces (rd_device_signed document))) = Ok t ∧ to_vec t = Ok payload ∧
    device_signed_over (VK := VK) (Sig := Sig) document payload.
Proof.
  intros Hpd Hauth Hdoc Hdt Hb Hmso Hin Hkey Hpoint Hvk (s & Hs & Hverify).
  destruct (prepare_document_sign1 _ _ _ _ _ Hpd Hauth Hdoc) as (alg & t & payload & Halg & Ht & Hp & Hcose). cbv zeta in Hcose.
  rewrite Hkey in Halg. cbn [signature_algorithm] in Halg. injection Halg as <-.
  exists t, payload. cbv zeta. cbn [PreparedDocument_finalize rd_doc_type rd_device_signed dsg_namespaces]. rewrite Hdt.
  split; [done|]. split; [done|]. rewrite Hcose in Hverify. cbn [prepared_signature_payload ps1_signature_payload] in Hverify.
  unfold device_signed_over. cbn [PreparedDocument_finalize rd_issuer_signed rd_device_signed device_auth]. rewrite Hcose.
  eexists b, mso, P256, x, y, point, key, _. rewrite Hin. split_and!; [done..|].
  unfold Sign1_verify, finalize. cbn. rewrite Hs. unfold P256Verifier_verify. by rewrite Hverify.
Qed.
End device_side.

(** *** The reported values *)

Section reported.
Context `{JsonInteger}.

(** The reader's object for a namespace: exactly the values with a JSON form. *)
Definition reports (object : btree string Json) (l : list (string * Value)) : Prop :=
  ∀ el j, object !! el = Some j ↔ ∃ v, (el, v) ∈ l ∧ parse_response v = Some (Ok j).
Definition functional (l : list (string * Value)) : Prop := ∀ el v v', (el, v) ∈ l → (el, v') ∈ l → v = v'.

Lemma parse_items_reports l (items : NonEmptyVec IssuerSignedItemBytes) :
  Forall2 (λ p item, element_identifier (inner item) = p.1 ∧ element_value (inner item) = p.2) l (nev items) →
  functional l → (∀ el v, (el, v) ∈ l → integers_fit v = true) →
  ∃ object, parse_items items = Some object ∧ reports object l.
Proof.
  unfold parse_items. generalize (nev items). intros k Hall. revert k Hall.
  induction l as [|[el v] l IH] using rev_ind; intros k Hall Hfun Hfit.
  { inversion Hall. exists ∅. split; [done|]. intros el j. split; [done|]. by intros (v & Hv%elem_of_nil & _). }
  apply Forall2_app_inv_l in Hall as (k1 & k2 & Hall & Hone & ->).
  apply Forall2_cons_inv_l in Hone as (item & k3 & [Hid Hvalue] & Hnil & ->). inversion Hnil; subst k3. cbn [fst snd] in *.
  destruct (IH k1 Hall) as (object & Hobject & Hrep).
  { intros e w w' ??. apply (Hfun e); set_solver. } { intros e w ?. apply (Hfit e); set_solver. }
  rewrite foldl_app, Hobject. cbn [foldl]. unfold parse_item at 1. cbn [mbind option_bind]. rewrite Hid, Hvalue.
  destruct (parse_response_parses v) as (r & Hr & _); [apply (Hfit el); set_solver|]. rewrite Hr. cbn [mbind option_bind].
  eexists. split; [done|]. intros el' j.
  assert (∀ v', (el', v') ∈ l ++ [(el, v)] ↔ (el', v') ∈ l ∨ el' = el ∧ v' = v) as Hin.
  { intros v'. rewrite elem_of_app, list_elem_of_singleton. split; (intros [?|Heq]; [by left|right]); [by injection Heq|by destruct Heq as [-> ->]]. }
  setoid_rewrite Hin. destruct r as [j'|e].
  - destruct (decide (el' = el)) as [->|Hne].
    + rewrite lookup_insert_eq. split; [intros [= <-]; exists v; auto|]. intros (v' & Hv' & Hp). f_equal.
      assert (v' = v) as -> by (destruct Hv' as [?|[_ ?]]; [apply (Hfun el); set_solver|done]). congruence.
    + rewrite lookup_insert_ne by done. rewrite (Hrep el' j). naive_solver.
  - rewrite (Hrep el' j). split; [naive_solver|]. intros (v' & [Hv'|[-> ->]] & Hp); [eauto|congruence].
Qed.
End reported.

(** *** A whole presentation *)

Lemma entries_singleton {V} (m : btree string V) k v :
  m !! k = Some v → (∀ k', k' ≠ k → m !! k' = None) → entries m = [(k, v)].
Proof.
  intros Hk Hother. assert (m = <[k := v]> ∅) as ->; [|reflexivity]. apply map_eq. intros k'.
  destruct (decide (k' = k)) as [->|Hne]; [by rewrite lookup_insert_eq|]. rewrite lookup_insert_ne by done.
  by rewrite (Hother k' Hne), lookup_empty.
Qed.

Lemma mdl_permitted namespaces permitted nss :
  permitted !! MDL_DOC_TYPE = Some nss →
  entries (filter_permitted [mdl_request namespaces] permitted) =
    [(MDL_DOC_TYPE, filter_namespaces (mdl_request namespaces) nss)].
Proof.
  intros Hnss. apply entries_singleton.
  - rewrite filter_permitted_lookup, Hnss. reflexivity.
  - intros dt Hne. rewrite filter_permitted_lookup. destruct (permitted !! dt); [|done]. cbn [mbind option_bind].
    unfold find_request. cbn [list_find mdl_request ir_doc_type]. by rewrite decide_False.
Qed.

(** A response with one mDL document is read as that document. *)
Definition sole_response (r : DeviceResponse) (d : ResponseDocument) : Prop :=
  rs_documents r = Some {| nev := [d] |} ∧ rd_doc_type d = MDL_DOC_TYPE.
Lemma sole_document r d : sole_response r d → get_document r = Ok d.
Proof. intros [Hd Hdt]. unfold get_document. rewrite Hd. cbn [ok_or rbind nev list_find]. by rewrite decide_True. Qed.

(** The items a document discloses in a namespace. *)
Definition document_items (d : ResponseDocument) (ns : string) : option (NonEmptyVec IssuerSignedItemBytes) :=
  m ← is_namespaces (rd_issuer_signed d); nem m !! ns.

Section reading.
Context `{JsonInteger}.

(** What the reader reports of the items of a namespace. *)
Definition reported_as (l : list (string * Value)) (o : option Json) : Prop :=
  match l with [] => o = None | _ => ∃ object, o = Some (JObject (entries object)) ∧ reports object l end.

Lemma parse_namespaces_reports r d (l : string → list (string * Value)) :
  sole_response r d → l CORE_NAMESPACE ≠ [] →
  (∀ ns, Forall2 (λ p item, element_identifier (inner item) = p.1 ∧ element_value (inner item) = p.2) (l ns)
           (default [] (nev <$> document_items d ns)) ∧
         (∀ items, document_items d ns = Some items → nev items ≠ []) ∧ functional (l ns) ∧
         ∀ el v, (el, v) ∈ l ns → integers_fit v = true) →
  ∃ parsed, parse_namespaces r = Some (Ok parsed) ∧
    ∀ ns, reported_as (if decide (ns ∈ [CORE_NAMESPACE; AAMVA_NAMESPACE]) then l ns else []) (parsed !! ns).
Proof.
  intros [Hdocs Hdt] Hcore Hl. unfold parse_namespaces. rewrite Hdocs. cbn [ok_or rbind nev list_find].
  rewrite decide_True by done. cbn [fmap option_fmap option_map snd ok_or rbind].
  destruct (Hl CORE_NAMESPACE) as (Hcitems & _ & Hcfun & Hcfit). unfold document_items in Hl, Hcitems.
  destruct (is_namespaces (rd_issuer_signed d)) as [m|]; cbn [mbind option_bind ok_or rbind] in *.
  2:{ cbn in Hcitems. inversion Hcitems as [Hnil|]. by rewrite <-Hnil in Hcore. }
  destruct (nem m !! CORE_NAMESPACE) as [core|] eqn:Hc; cbn in Hcitems.
  2:{ inversion Hcitems as [Hnil|]. by rewrite <-Hnil in Hcore. }
  cbn [ok_or rbind]. destruct (parse_items_reports _ _ Hcitems Hcfun Hcfit) as (object & -> & Hobject). cbn [mbind option_bind].
  rewrite lookup_delete_ne by done. destruct (Hl AAMVA_NAMESPACE) as (Haitems & Hane & Hafun & Hafit).
  assert (∀ o, reported_as (if decide (CORE_NAMESPACE ∈ [CORE_NAMESPACE; AAMVA_NAMESPACE]) then l CORE_NAMESPACE else []) o ↔
    ∃ object, o = Some (JObject (entries object)) ∧ reports object (l CORE_NAMESPACE)) as Hcase.
  { intros o. rewrite decide_True by by left. unfold reported_as. by destruct (l CORE_NAMESPACE). }
  destruct (nem m !! AAMVA_NAMESPACE) as [aamva|] eqn:Ha; cbn in Haitems.
  - destruct (parse_items_reports _ _ Haitems Hafun Hafit) as (object' & -> & Hobject'). cbn [mbind option_bind].
    eexists. split; [done|]. intros ns. destruct (decide (ns = AAMVA_NAMESPACE)) as [->|Hna].
    { rewrite lookup_insert_eq, decide_True by by right; left. unfold reported_as.
      destruct (l AAMVA_NAMESPACE) eqn:El; [|by exists object'].
      inversion Haitems as [Hnil|]. by destruct (Hane _ eq_refl). }
    rewrite lookup_insert_ne by done. destruct (decide (ns = CORE_NAMESPACE)) as [->|Hnc].
    { rewrite lookup_insert_eq. apply Hcase. by exists object. }
    rewrite lookup_insert_ne, lookup_empty, decide_False by (done || set_solver). done.
  - eexists. split; [done|]. intros ns. destruct (decide (ns = CORE_NAMESPACE)) as [->|Hnc].
    { rewrite lookup_insert_eq. apply Hcase. by exists object. }
    rewrite lookup_insert_ne, lookup_empty by done. destruct (decide (ns = AAMVA_NAMESPACE)) as [->|Hna].
    + rewrite decide_True by by right; left. by inversion Haitems.
    + rewrite decide_False by set_solver. done.
Qed.
End reading.

Section presentation.
Context `{Serde ItemsRequest, !SerdeWf ItemsRequest ItemsRequest_wf, Serde DeviceRequestInfo}.
Context `{Serde DeviceRequest, SerdeLaws Value, FromValue DeviceRequest, !FromValueWf DeviceRequest DeviceRequest_wf}.
Context `{Serde IssuerSignedItem, Serde DeviceNamespaces, !SerdeLaws DeviceNamespaces}.
Context `{!Serde Mso.Mso, !Rfc3339, !Rfc3339Laws, !MsoSerde}.
Context `{Serde DeviceResponse, !SerdeWf DeviceResponse DeviceResponse_wf, Serde SessionData, !SerdeLaws SessionData}.
Context `{AeadBackendLaws}.
Context `{Serde (DeviceAuthentication SessionTranscript180135), Serde ReaderAuthentication} `{ToBeSigned} `{PointBytes}.
Context `{Der, Sha1, Sha2Laws} {VK Sig : Type} `{Ecdsa VK Sig} (now : Z) `{JsonInteger}.
Context {fuel : RetryFuel} {R E : Type} `{RngLaws R} `{!DigestExecutor E, !DigestExecutorCorrect E}.
Context (Hitems : ∀ x : ItemsRequest, is_ok (to_vec x)) (Hrequest : ∀ x : DeviceRequest, is_ok (to_vec x))
  (Hresponse : ∀ x : DeviceResponse, is_ok (to_vec x)) (Hdata : ∀ x : SessionData, is_ok (to_vec x)).
Context (Hnamespaces : is_ok (to_vec (∅ : DeviceNamespaces)))
  (Hauthentication : ∀ x : DeviceAuthentication SessionTranscript180135, is_ok (to_vec x))
  (Hvalue : ∀ v : Value, is_ok (to_vec v)).

(** One exchange that ends with the reader's outcome. *)
Definition presentation (dev : SessionManager) (rdr : ReaderSession)
    (turn : RequestNamespaces * PermittedItems * list bytes) :
    option (SessionManager * ReaderSession * ResponseAuthenticationOutcome) :=
  '(dev, rdr, answer) ← answered (VK := VK) (Sig := Sig) now dev rdr turn;
  '(rdr, outcome) ← handle_response (VK := VK) (Sig := Sig) now rdr answer;
  Some (dev, rdr, outcome).

(** A holder of the document whose device key is an EC2 key on P-256. *)
Definition presentable (dev : SessionManager) (document : Document) (key : VK) : Prop :=
  nem (sm_documents dev) !! MDL_DOC_TYPE = Some document ∧ sm_device_auth_type dev = Sign1 ∧
  ∃ x y point, device_key (Mso.device_key_info (doc_mso document)) = EC2 P256 x y ∧
    EncodedPoint_try_from (EC2 P256 x y) = Ok point ∧
    PublicKey_from_sec1_bytes NistP256 (point_as_bytes point) = Ok key.

(** The one document that the device prepares. *)
Lemma sole_prepared dev document key namespaces permitted nss signatures :
  presentable dev document key → permitted !! MDL_DOC_TYPE = Some nss →
  ∃ pd, prepare_document dev MDL_DOC_TYPE (filter_namespaces (mdl_request namespaces) nss) = Ok pd ∧
    prepared_documents (turn_prepared dev (namespaces, permitted, signatures)) = [pd] ∧
    signed_documents (turn_prepared dev (namespaces, permitted, signatures)) = [].
Proof.
  intros (Hdoc & _ & x & y & point & Hkey & _) Hnss. unfold turn_prepared. cbn [fst snd].
  destruct (prepared_response_contents dev [mdl_request namespaces] permitted) as (Hprep & _ & _ & Hsigned).
  rewrite Hprep, Hsigned, (mdl_permitted _ _ nss Hnss). cbn [omap list_omap fst snd].
  assert (is_ok (prepare_document dev MDL_DOC_TYPE (filter_namespaces (mdl_request namespaces) nss)) = true) as Hok.
  { apply (prepare_document_answerable Hnamespaces Hauthentication Hvalue). unfold answerable.
    cbn [session_documents SessionManager_session]. rewrite Hdoc. cbn [mbind option_bind]. rewrite Hkey. by eexists. }
  destruct (prepare_document _ _ _) as [pd|]; [|done]. by exists pd.
Qed.

Lemma disclosed_items pd signature ns :
  disclosed pd ns = default [] (nev <$> document_items (PreparedDocument_finalize pd signature) ns).
Proof.
  unfold disclosed, document_items. cbn [PreparedDocument_finalize rd_issuer_signed].
  destruct (is_namespaces _) as [m|]; [|done]. cbn [mbind option_bind]. by destruct (nem m !! ns).
Qed.
Lemma disclosed_non_empty dev requests permitted pd signature ns items :
  pd ∈ prepared_documents (DeviceSession_prepare_response (T := SessionManager) dev requests permitted) →
  document_items (PreparedDocument_finalize pd signature) ns = Some items → nev items ≠ [].
Proof.
  intros (nss & _ & _ & document & _ & _ & _ & Hns & _)%prepared_document_elem. unfold document_items.
  cbn [PreparedDocument_finalize rd_issuer_signed]. rewrite Hns, maybe_map_lookup. destruct (return_namespaces_spec document nss ns) as [-> _].
  destruct (nss !! ns) as [els|]; [|done]. cbn [mbind option_bind].
  destruct (NonEmptyVec_maybe_new _) as [v|] eqn:Hv; [|done]. cbn [mbind option_bind]. intros [= <-].
  by apply NonEmptyVec_maybe_new_Some in Hv as [? _].
Qed.

(** The shareable elements that a document holds, with their values. *)
Definition held (document : Document) (requests : RequestedItems) (permitted : PermittedItems) (ns : string) : list (string * Value) :=
  omap (λ el, item ← stored document ns el; Some (el, element_value (inner item))) (shareable requests permitted MDL_DOC_TYPE ns).
(** Items are stored under their own identifiers. *)
Definition well_keyed (document : Document) : Prop :=
  ∀ ns el item, stored document ns el = Some item → element_identifier (inner item) = el.

Lemma held_functional document requests permitted ns : functional (held document requests permitted ns).
Proof.
  assert (∀ el v, (el, v) ∈ held document requests permitted ns → ∃ item, stored document ns el = Some item ∧ v = element_value (inner item)) as Hheld.
  { intros el v (el' & _ & Hv)%list_elem_of_omap. destruct (stored document ns el') as [item|] eqn:Hst; [|done].
    injection Hv as -> <-. by exists item. }
  intros el v v' (item & Hst & ->)%Hheld (item' & Hst' & ->)%Hheld. congruence.
Qed.
Lemma held_permitted document requests permitted ns :
  held document requests permitted ns ≠ [] → is_Some (permitted !! MDL_DOC_TYPE).
Proof.
  intros Hne. destruct (permitted !! MDL_DOC_TYPE) eqn:Hp; [by eexists|]. exfalso. apply Hne. unfold held, shareable.
  by rewrite Hp.
Qed.

Lemma parse_sole r d h x parsed :
  sole_response r d → x5chain_header (s1_unprotected (message (issuer_auth (rd_issuer_signed d)))) = Some h →
  X5Chain_from_cbor h = Ok x → parse_namespaces r = Some (Ok parsed) → parse r = Some (Ok (d, x, parsed)).
Proof.
  intros Hsole Hh Hx Hparsed. unfold parse. rewrite (sole_document _ _ Hsole). cbn [rbind]. rewrite Hh. cbn [ok_or rbind].
  rewrite Hx. cbn [map_err rbind]. by rewrite Hparsed.
Qed.

(** A response whose two signatures verify is valid. *)
Lemma validate_accepts (transcript : SessionTranscript180135) registry x d parsed :
  issuer_trusted (VK := VK) (Sig := Sig) now registry x (rd_issuer_signed d) →
  (∃ t payload, Tag24_new (DeviceAuthentication_new transcript (rd_doc_type d) (dsg_namespaces (rd_device_signed d))) = Ok t ∧
     to_vec t = Ok payload ∧ device_signed_over (VK := VK) (Sig := Sig) d payload) →
  ∃ o, validate_response (VK := VK) (Sig := Sig) now transcript registry x d parsed = Some o ∧
    ao_issuer_authentication o = Valid ∧ ao_device_authentication o = Valid ∧ ao_errors o = ∅ ∧ response o = parsed.
Proof.
  intros Htrusted Hdevice. pose proof Htrusted as (v & leaf & key & Hv & _ & Hleaf & Hkey & _).
  destruct (validate_response now transcript registry x d parsed) as [o|] eqn:Ho.
  - apply validate_response_verdicts in Ho as (Hr & _ & _ & Hdev & Hiss & Herr). apply Hiss in Htrusted. apply Hdev in Hdevice.
    exists o. split_and!; try done. by apply Herr.
  - exfalso. unfold validate_response in Ho. destruct (match device_authentication _ _ with Ok _ => _ | Err _ => _ end) as [ds errs].
    rewrite Hv in Ho. cbn [mbind option_bind] in Ho. destruct (errors v); [|done].
    unfold issuer_authentication, end_entity_public_key_with_oid in Ho. rewrite Hleaf in Ho. cbn [mbind option_bind] in Ho.
    by destruct (rbind _ _).
Qed.

(** The issuer's signature of a document is trusted, and its chain and the security object
    with the document's device key are read back from it. *)
Definition authentic (registry : TrustAnchorRegistry) (document : Document) : Prop :=
  let auth := doc_issuer_auth document in
  ∃ x, issuer_trusted (VK := VK) (Sig := Sig) now registry x {| is_namespaces := None; issuer_auth := auth |} ∧
    (∃ h, x5chain_header (s1_unprotected (message auth)) = Some h ∧ X5Chain_from_cbor h = Ok x) ∧
    ∃ b t, s1_payload (message auth) = Some b ∧ from_slice (T := Tag24 Mso.Mso) b = Ok t ∧
      Mso.device_key_info (inner t) = Mso.device_key_info (doc_mso document).

(** What the device signs for the document. *)
Lemma held_response document dev key namespaces permitted nss signature pd :
  presentable dev document key → well_keyed document → signed_by (VK := VK) (Sig := Sig) key pd signature →
  (∃ b t, s1_payload (message (doc_issuer_auth document)) = Some b ∧ from_slice (T := Tag24 Mso.Mso) b = Ok t ∧
     Mso.device_key_info (inner t) = Mso.device_key_info (doc_mso document)) →
  prepare_document dev MDL_DOC_TYPE (filter_namespaces (mdl_request namespaces) nss) = Ok pd →
  pd ∈ prepared_documents (DeviceSession_prepare_response dev [mdl_request namespaces] permitted) →
  let d := PreparedDocument_finalize pd signature in
  rd_doc_type d = MDL_DOC_TYPE ∧ issuer_auth (rd_issuer_signed d) = doc_issuer_auth document ∧
  (∃ t payload, Tag24_new (DeviceAuthentication_new (sm_session_transcript dev) (rd_doc_type d)
       (dsg_namespaces (rd_device_signed d))) = Ok t ∧ to_vec t = Ok payload ∧
     device_signed_over (VK := VK) (Sig := Sig) d payload) ∧
  ∀ ns, Forall2 (λ p item, element_identifier (inner item) = p.1 ∧ element_value (inner item) = p.2)
          (held document [mdl_request namespaces] permitted ns) (default [] (nev <$> document_items d ns)) ∧
        ∀ items, document_items d ns = Some items → nev items ≠ [].
Proof.
  intros (Hdoc & Hauth & x & y & point & Hkey & Hpoint & Hvk) Hkeyed Hsig (b & t & Hb & Ht & Hmso) Hpd Hin. cbv zeta.
  pose proof (prepare_document_from _ _ _ _ Hpd) as (Hpdt & _).
  destruct (disclosure_spec dev [mdl_request namespaces] permitted pd Hin) as (document' & Hdoc' & Hia & Hns).
  rewrite Hpdt in Hdoc', Hns. cbn [session_documents SessionManager_session] in Hdoc'. rewrite Hdoc in Hdoc'. injection Hdoc' as <-.
  cbn [PreparedDocument_finalize rd_doc_type rd_issuer_signed]. split_and!; [done..| |].
  - pose proof (device_signature_verifies (T := SessionManager) (ST := SessionTranscript180135) dev MDL_DOC_TYPE _ pd document
      b t x y point key signature Hpd Hauth Hdoc Hpdt) as Hdevice. rewrite Hia in Hdevice.
    exact (Hdevice Hb Ht Hmso Hkey Hpoint Hvk Hsig).
  - intros ns. split; [|intros items; by apply (disclosed_non_empty dev [mdl_request namespaces] permitted pd signature)].
    rewrite <-disclosed_items. destruct (Hns ns) as [-> _]. apply omap_Forall2. intros el.
    destruct (stored document ns el) as [item|] eqn:Hst; [|done]. cbn [mbind option_bind fst snd]. split; [by apply (Hkeyed ns)|done].
Qed.

(** A document with an authentic signature is accepted, with whatever items it holds. *)
Lemma held_accepted document dev rdr key namespaces permitted signature :
  authentic (rdr_trust_anchor_registry rdr) document → well_keyed document →
  presentable dev document key → linked dev rdr → session_wf dev → keys_work dev →
  (device_message_counter dev + 1 ≤ u32_max)%Z → (reader_message_counter dev + 1 ≤ u32_max)%Z →
  RequestNamespaces_wf namespaces → held document [mdl_request namespaces] permitted CORE_NAMESPACE ≠ [] →
  (∀ ns el w, (el, w) ∈ held document [mdl_request namespaces] permitted ns → integers_fit w = true) →
  Forall (λ pd, signed_by (VK := VK) (Sig := Sig) key pd signature)
    (prepared_documents (turn_prepared dev (namespaces, permitted, [signature]))) →
  ∃ dev' rdr' o, presentation dev rdr (namespaces, permitted, [signature]) = Some (dev', rdr', o) ∧
    linked dev' rdr' ∧ ao_issuer_authentication o = Valid ∧ ao_device_authentication o = Valid ∧ ao_errors o = ∅ ∧
    ∀ ns, reported_as (if decide (ns ∈ [CORE_NAMESPACE; AAMVA_NAMESPACE])
                       then held document [mdl_request namespaces] permitted ns else []) (response o !! ns).
Proof.
  intros (x & Htrusted & (h & Hh & Hx) & Hmso) Hkeyed Hpres Hlink Hwf Hkeys Hmaxd Hmaxr Hns Hcore Hfit Hsigned.
  destruct (held_permitted _ _ _ _ Hcore) as [nss Hnss].
  destruct (sole_prepared dev document key namespaces permitted nss [signature] Hpres Hnss) as (pd & Hpd & Hprep & Hnone).
  set (turn := (namespaces, permitted, [signature])) in *.
  assert (turn_complete dev turn) as Hturn by (split; [done|]; rewrite Hprep; by split).
  destruct (answered_delivers (VK := VK) (Sig := Sig) now Hitems Hrequest Hresponse Hdata dev rdr turn Hlink Hwf Hkeys Hmaxd Hmaxr Hturn)
    as (dev' & rdr1 & rdr' & encoded & Ha & Hdec & Hreg & Hlink' & _ & Hsame & _).
  unfold presentation. rewrite Ha. cbn [mbind option_bind]. unfold handle_response. rewrite Hdec.
  destruct (held_response document dev key namespaces permitted nss signature pd) as (Hd & Hia & Hdevice & Hl); try done.
  { rewrite Hprep in Hsigned. apply Forall_cons in Hsigned as [Hsig _]. exact Hsig. }
  { change (pd ∈ prepared_documents (turn_prepared dev turn)). rewrite Hprep. by left. }
  set (d := PreparedDocument_finalize pd signature) in *.
  assert (sole_response (turn_answer dev turn) d) as Hsole.
  { split; [|done]. unfold turn_answer, signed_all. cbn [rs_documents turn snd]. by rewrite Hnone, Hprep. }
  destruct (parse_namespaces_reports (turn_answer dev turn) d (held document [mdl_request namespaces] permitted) Hsole Hcore)
    as (parsed & Hparsed & Hreports).
  { intros ns. destruct (Hl ns) as [Hcar Hne]. split_and!; [done..|apply held_functional|apply Hfit]. }
  rewrite <-Hia in Hh. rewrite (parse_sole _ _ _ _ _ Hsole Hh Hx Hparsed). cbn [mbind option_bind].
  destruct (validate_accepts (rdr_session_transcript rdr') (rdr_trust_anchor_registry rdr') x d parsed)
    as (o & -> & Hiv & Hdv & Herr & Hresp).
  { rewrite Hreg. unfold issuer_trusted in *. cbn [issuer_auth] in Htrusted. by rewrite Hia. }
  { destruct Hlink' as [<- _], Hsame as (_ & -> & _). exact Hdevice. }
  cbn [mbind option_bind]. exists dev', rdr', o. split_and!; [done..|]. by rewrite Hresp.
Qed.

(** *** Issued and forged credentials *)

(** A credential for the reader's ruleset: an mDL signed with ES256 under a trusted chain, for
    a device key whose information the Rust type can hold. *)
Definition accepted_issuance (registry : TrustAnchorRegistry) (i : issuance (R := R) (E := E)) : Prop :=
  iss_doc_type i = MDL_DOC_TYPE ∧ iss_algorithm i = ES256 ∧ X5Chain_wf (iss_chain i) ∧ DeviceKeyInfo_wf (iss_key_info i) ∧
  ∃ v, validate_x5chain (VK := VK) (Sig := Sig) now Mdl (iss_chain i) registry = Some v ∧ success v = true.

Lemma issued_authentic registry (i : issuance (R := R) (E := E)) mdoc document forged :
  issue (VK := VK) (Sig := Sig) i = Some (Ok (mdoc, document)) → accepted_issuance registry i →
  doc_issuer_auth forged = doc_issuer_auth document → doc_mso forged = doc_mso document → authentic registry forged.
Proof.
  intros Hissue (_ & Halg & Hchain & Hinfo & v & Hv & Hsuccess) Hauth Hmso. unfold authentic. rewrite Hauth, Hmso.
  destruct (issued_auth i mdoc document Hissue Halg Hchain Hinfo)
    as ((leaf & key & Hleaf & Hkey & Hverify) & Hheader & b & t & Hb & Ht & Hin).
  exists (iss_chain i). split; [|split; [done|exists b, t; by rewrite Hin]]. exists v, leaf, key. by split_and!.
Qed.
Lemma issued_held (i : issuance (R := R) (E := E)) mdoc document requests permitted ns :
  issue (VK := VK) (Sig := Sig) i = Some (Ok (mdoc, document)) → iss_doc_type i = MDL_DOC_TYPE →
  held document requests permitted ns = shared i requests permitted ns.
Proof.
  intros Hissue Hdt. unfold held, shared. rewrite Hdt. apply list_omap_ext, Forall2_same_length_lookup. split; [done|].
  intros k x y Hx Hy. rewrite Hx in Hy. injection Hy as <-. pose proof (issued_stored _ _ _ ns x Hissue) as Hst.
  destruct (given _ ns x) as [w|]; [|by rewrite Hst]. by destruct Hst as (item & -> & _ & <- & _).
Qed.
Lemma issued_keyed (i : issuance (R := R) (E := E)) mdoc document :
  issue (VK := VK) (Sig := Sig) i = Some (Ok (mdoc, document)) → well_keyed document.
Proof.
  intros Hissue ns el item Hst. pose proof (issued_stored _ _ _ ns el Hissue) as Hgiven.
  destruct (given _ ns el) as [w|]; [|congruence]. destruct Hgiven as (item' & Hst' & Hid & _). congruence.
Qed.

(** The outcome of presenting an issued credential. *)
Lemma accepted_report (i : issuance (R := R) (E := E)) mdoc document dev rdr key namespaces permitted signature :
  issue (VK := VK) (Sig := Sig) i = Some (Ok (mdoc, document)) → accepted_issuance (rdr_trust_anchor_registry rdr) i →
  presentable dev document key → linked dev rdr → session_wf dev → keys_work dev →
  (device_message_counter dev + 1 ≤ u32_max)%Z → (reader_message_counter dev + 1 ≤ u32_max)%Z →
  RequestNamespaces_wf namespaces → shared i [mdl_request namespaces] permitted CORE_NAMESPACE ≠ [] →
  (∀ ns el w, (el, w) ∈ shared i [mdl_request namespaces] permitted ns → integers_fit w = true) →
  Forall (λ pd, signed_by (VK := VK) (Sig := Sig) key pd signature)
    (prepared_documents (turn_prepared dev (namespaces, permitted, [signature]))) →
  ∃ dev' rdr' o, presentation dev rdr (namespaces, permitted, [signature]) = Some (dev', rdr', o) ∧
    linked dev' rdr' ∧ ao_issuer_authentication o = Valid ∧ ao_device_authentication o = Valid ∧ ao_errors o = ∅ ∧
    ∀ ns, reported_as (if decide (ns ∈ [CORE_NAMESPACE; AAMVA_NAMESPACE])
                       then shared i [mdl_request namespaces] permitted ns else []) (response o !! ns).
Proof.
  intros Hissue Haccepted Hpres Hlink Hwf Hkeys Hmaxd Hmaxr Hns Hcore Hfit Hsigned.
  assert (∀ ns, shared i [mdl_request namespaces] permitted ns = held document [mdl_request namespaces] permitted ns) as Hshared.
  { intros ns. symmetry. by apply (issued_held _ _ _ _ _ _ Hissue), Haccepted. }
  rewrite Hshared in Hcore. setoid_rewrite Hshared in Hfit.
  destruct (held_accepted document dev rdr key namespaces permitted signature) as (dev' & rdr' & o & Ho & Hl & Hi & Hd & He & Hr);
    try done; [by eapply issued_authentic|by eapply issued_keyed|].
  exists dev', rdr', o. split_and!; [done..|]. intros ns. by rewrite Hshared.
Qed.

(** C10: An issued credential is accepted. Take an mDL that an issuer prepared for the holder's P-256
    device key and signed with ES256 under a chain that the reader's registry trusts,
    stored by the holder's device; let the two sessions be linked, let the reader ask for
    elements of the core namespace of which the user permits some that the issuer gave,
    and let the application sign the one payload it is handed with the device key.
    Then the whole exchange succeeds: both verdicts are valid, no error is reported, the
    sessions stay linked, and the reader reports for the core namespace, and for the
    AAMVA namespace when anything of it is shared, an object with exactly the issuer's
    values that were permitted and requested and have a JSON form, and nothing for any
    other namespace. *)
Theorem issued_credential_accepted (i : issuance (R := R) (E := E)) mdoc document dev rdr key namespaces permitted signature :
  issue (VK := VK) (Sig := Sig) i = Some (Ok (mdoc, document)) → accepted_issuance (rdr_trust_anchor_registry rdr) i →
  presentable dev document key → linked dev rdr → session_wf dev → keys_work dev →
  (device_message_counter dev + 1 ≤ u32_max)%Z → (reader_message_counter dev + 1 ≤ u32_max)%Z →
  RequestNamespaces_wf namespaces → shared i [mdl_request namespaces] permitted CORE_NAMESPACE ≠ [] →
  (∀ ns el w, (el, w) ∈ shared i [mdl_request namespaces] permitted ns → integers_fit w = true) →
  Forall (λ pd, signed_by (VK := VK) (Sig := Sig) key pd signature)
    (prepared_documents (turn_prepared dev (namespaces, permitted, [signature]))) →
  ∃ dev' rdr' o, presentation dev rdr (namespaces, permitted, [signature]) = Some (dev', rdr', o) ∧
    linked dev' rdr' ∧ ao_issuer_authentication o = Valid ∧ ao_device_authentication o = Valid ∧ ao_errors o = ∅ ∧
    ∀ ns, reported_as (if decide (ns ∈ [CORE_NAMESPACE; AAMVA_NAMESPACE])
                       then shared i [mdl_request namespaces] permitted ns else []) (response o !! ns).
Proof. apply accepted_report. Qed.

(** C19: The reader reports what the holder says. Let the device hold, for an mDL that was issued
    and is accepted as above, a document with the issuer's signature and security object
    but any items at all, stored under their identifiers. Then the exchange succeeds
    just the same, both verdicts valid and no error, and the reported values are those
    of the holder's items, whatever the issuer gave: no digest of the security
    object is compared with an item. *)
Theorem forged_values_accepted (i : issuance (R := R) (E := E)) mdoc document forged dev rdr key namespaces permitted signature :
  issue (VK := VK) (Sig := Sig) i = Some (Ok (mdoc, document)) → accepted_issuance (rdr_trust_anchor_registry rdr) i →
  doc_issuer_auth forged = doc_issuer_auth document → doc_mso forged = doc_mso document → well_keyed forged →
  presentable dev forged key → linked dev rdr → session_wf dev → keys_work dev →
  (device_message_counter dev + 1 ≤ u32_max)%Z → (reader_message_counter dev + 1 ≤ u32_max)%Z →
  RequestNamespaces_wf namespaces → held forged [mdl_request namespaces] permitted CORE_NAMESPACE ≠ [] →
  (∀ ns el w, (el, w) ∈ held forged [mdl_request namespaces] permitted ns → integers_fit w = true) →
  Forall (λ pd, signed_by (VK := VK) (Sig := Sig) key pd signature)
    (prepared_documents (turn_prepared dev (namespaces, permitted, [signature]))) →
  ∃ dev' rdr' o, presentation dev rdr (namespaces, permitted, [signature]) = Some (dev', rdr', o) ∧
    linked dev' rdr' ∧ ao_issuer_authentication o = Valid ∧ ao_device_authentication o = Valid ∧ ao_errors o = ∅ ∧
    ∀ ns, reported_as (if decide (ns ∈ [CORE_NAMESPACE; AAMVA_NAMESPACE])
                       then held forged [mdl_request namespaces] permitted ns else []) (response o !! ns).
Proof.
  intros Hissue Haccepted Hauth Hmso Hkeyed Hpres Hlink Hwf Hkeys Hmaxd Hmaxr Hns Hcore Hfit Hsigned.
  apply (held_accepted forged dev rdr key); try done. by eapply issued_authentic.
Qed.
End presentation.
