(* ===== verification/Network.v ===== *)
(** * Device and reader on an adversary's network

    The two session managers of [src/presentation] on a network that belongs to an
    adversary, who delivers any bytes to either end, in any order and any number of
    times, what the ends sent included: the steps of a run, what they record, and the
    invariants they keep.  Abstractly there are two queues, of requests and of
    responses. *)

From S2P Require Export Protocol ReaderProps.

(** ** The abstract channel *)

(** What was put into the queue, and what has been taken out of it so far. *)
Inductive queue_step {A} : list A * list A → list A * list A → Prop :=
  | queue_put sent received x : queue_step (sent, received) (sent ++ [x], received)
  | queue_take sent received x :
      sent !! length received = Some x → queue_step (sent, received) (sent, received ++ [x]).

(** Requests in one direction and responses in the other. *)
Record queues : Type := {
  request_queue : list (list ItemsRequest) * list (list ItemsRequest);
  response_queue : list DeviceResponse * list DeviceResponse;
}.
Inductive queues_step : queues → queues → Prop :=
  | request_step q q' r : queue_step q q' →
      queues_step {| request_queue := q; response_queue := r |} {| request_queue := q'; response_queue := r |}
  | response_step q r r' : queue_step r r' →
      queues_step {| request_queue := q; response_queue := r |} {| request_queue := q; response_queue := r' |}.

Definition queue_ordered {A} (q : list A * list A) : Prop := q.2 = take (length q.2) q.1.

Lemma queue_ordered_prefix {A} (q : list A * list A) : queue_ordered q → q.2 `prefix_of` q.1.
Proof. intros Hq. rewrite Hq. exists (drop (length q.2) q.1). by rewrite take_drop. Qed.
Lemma queue_ordered_length {A} (q : list A * list A) : queue_ordered q → length q.2 ≤ length q.1.
Proof. intros Hq. apply (f_equal length) in Hq. rewrite length_take in Hq. lia. Qed.
Lemma queue_step_ordered {A} (q q' : list A * list A) : queue_step q q' → queue_ordered q → queue_ordered q'.
Proof.
  intros [sent received x|sent received x Hx] Hq; pose proof (queue_ordered_length _ Hq) as Hlen;
    unfold queue_ordered in *; cbn [fst snd] in *.
  - by rewrite take_app_le.
  - rewrite length_app, Nat.add_1_r, (take_S_r _ _ _ Hx). by rewrite <-Hq.
Qed.

(** ** Counters and nonces *)

(** The initialization vector of the message after [c] others. *)
Definition nonce_of (c : u32) (reader : bool) : bytes := default [] (rok (get_initialization_vector c reader).2).

Lemma nonce_of_iv c reader :
  (c + 1 ≤ u32_max)%Z → get_initialization_vector c reader = ((c + 1)%Z, Ok (nonce_of c reader)).
Proof. intros Hc. unfold nonce_of. by rewrite get_iv_spec, decide_True by done. Qed.
Lemma nonce_of_length c reader : (c + 1 ≤ u32_max)%Z → length (nonce_of c reader) = 12.
Proof. intros Hc. unfold nonce_of. rewrite get_iv_spec, decide_True by done. by destruct reader. Qed.
Lemma nonce_of_inj c c' reader reader' :
  (0 ≤ c)%Z → (c + 1 ≤ u32_max)%Z → (0 ≤ c')%Z → (c' + 1 ≤ u32_max)%Z →
  nonce_of c reader = nonce_of c' reader' → c = c' ∧ reader = reader'.
Proof.
  intros ? Hc ? Hc' Heq. apply (get_iv_inj c c' reader reader' (c + 1) (c' + 1) (nonce_of c reader)); unfold is_u32; try lia.
  - by apply nonce_of_iv.
  - rewrite Heq. by apply nonce_of_iv.
Qed.

(** Decryption under a counter: the cipher opens the message with the counter's nonce. *)
Lemma decrypt_nonce `{AeadBackend} key ct c reader :
  decrypt key ct c reader = (c, Err tt) ∨
  ∃ m, (c + 1 ≤ u32_max)%Z ∧ decrypt_with_backend key (nonce_of c reader) ct = Ok m ∧
    decrypt key ct c reader = ((c + 1)%Z, Ok m).
Proof.
  destruct (decrypt_result key ct c reader) as [?|(iv & m & Hiv & Hc & Hd & He)]; [by left|right].
  exists m. rewrite (nonce_of_iv c reader Hc) in Hiv. by injection Hiv as <-.
Qed.

(** ** The network *)

(** Both ends; everything that was ever sealed, with the key and the nonce; what the
    reader asked for and the device was shown, what the application then had the
    device prepare, and what the device responded and the reader received, the
    ciphertexts included where they were made. *)
Record channel : Type := {
  ch_dev : SessionManager;
  ch_rdr : ReaderSession;
  sealed : list (bytes * bytes * bytes);
  requested : list (RequestNamespaces * bytes);
  shown : list (list ItemsRequest);
  permissions : list (RequestedItems * PermittedItems);
  responded : list (DeviceResponse * bytes);
  received : list DeviceResponse;
}.

Section network.
Context `{Serde ItemsRequest, !SerdeWf ItemsRequest ItemsRequest_wf, Serde DeviceRequestInfo}.
Context `{Serde DeviceRequest, Serde Value, FromValue DeviceRequest, !FromValueWf DeviceRequest DeviceRequest_wf}.
Context `{Serde IssuerSignedItem, Serde DeviceNamespaces, !SerdeLaws DeviceNamespaces, !Serde Mso.Mso}.
Context `{Serde DeviceResponse, !SerdeWf DeviceResponse DeviceResponse_wf, Serde SessionData}.
Context `{AeadBackendLaws}.
Context `{Serde (DeviceAuthentication SessionTranscript180135), Serde ReaderAuthentication} `{ToBeSigned} `{PointBytes}.
Context `{Der, Sha1, Sha2} {VK Sig : Type} `{Ecdsa VK Sig} (now : Z) `{JsonInteger}.
Implicit Types (ch : channel).

(** The ciphertext in a message. *)
Definition carried (msg : bytes) : option bytes :=
  data ← rok (from_slice (T := SessionData) msg); bytestr <$> sd_data data.

(** The adversary does not forge: what opens under a key and a nonce of AES-GCM's
    length was sealed under that key and that nonce by one of the ends. *)
Definition unforged ch (key msg : bytes) : Prop :=
  ∀ ct iv p, carried msg = Some ct → length iv = 12 → decrypt_with_backend key iv ct = Ok p → (key, iv, ct) ∈ sealed ch.

(** What a call seals: the ciphertext of a request, and of a completed response. *)
Definition request_sealed (rdr : ReaderSession) (namespaces : RequestNamespaces) : option bytes :=
  rok (build_request rdr namespaces).2.
Definition response_sealed (dev : SessionManager) (signature : bytes) : option (DeviceResponse * bytes) :=
  match sm_state dev with
  | Signing p =>
      let p := prepared_submit_next_signature p signature in
      if is_complete p then
        b ← rok (to_vec (finalize_response p));
        ct ← rok (encrypt_device_data (sm_sk_device dev) b (device_message_counter dev)).2;
        Some (finalize_response p, ct)
      else None
  | _ => None
  end.

(** The items that the device's outcome shows to the user, when it reports no error. *)
Definition shown_items (o : RequestAuthenticationOutcome) : list (list ItemsRequest) :=
  match entries (ro_errors o) with [] => [ro_items_request o] | _ => [] end.

(** The calls of the reader, with their effect on the session. *)
Definition reader_asks ch (namespaces : RequestNamespaces) : channel :=
  let new := request_sealed (ch_rdr ch) namespaces in {|
    ch_dev := ch_dev ch; ch_rdr := (new_request (ch_rdr ch) namespaces).1;
    sealed := sealed ch ++ option_list ((λ ct, (rdr_sk_reader (ch_rdr ch),
                                           nonce_of (rdr_reader_message_counter (ch_rdr ch)) true, ct)) <$> new);
    requested := requested ch ++ option_list ((λ ct, (namespaces, ct)) <$> new);
    shown := shown ch; permissions := permissions ch; responded := responded ch; received := received ch |}.
Definition reader_receives ch (msg : bytes) (rdr : ReaderSession) : channel := {|
  ch_dev := ch_dev ch; ch_rdr := rdr; sealed := sealed ch; requested := requested ch; shown := shown ch;
  permissions := permissions ch; responded := responded ch; received := received ch ++ option_list (rok (decrypt_response (ch_rdr ch) msg).2) |}.

(** The calls of the device. *)
Definition device_receives ch (dev : SessionManager) (o : RequestAuthenticationOutcome) : channel := {|
  ch_dev := dev; ch_rdr := ch_rdr ch; sealed := sealed ch; requested := requested ch;
  shown := shown ch ++ shown_items o; permissions := permissions ch; responded := responded ch; received := received ch |}.
Definition device_signs ch (signature : bytes) (dev : SessionManager) : channel :=
  let new := response_sealed (ch_dev ch) signature in {|
    ch_dev := dev; ch_rdr := ch_rdr ch;
    sealed := sealed ch ++ option_list ((λ r, (sm_sk_device (ch_dev ch),
                                           nonce_of (device_message_counter (ch_dev ch)) false, r.2)) <$> new);
    requested := requested ch; shown := shown ch; permissions := permissions ch;
    responded := responded ch ++ option_list new; received := received ch |}.
Definition device_becomes ch (dev : SessionManager) (permissions : list (RequestedItems * PermittedItems)) : channel := {|
  ch_dev := dev; ch_rdr := ch_rdr ch; sealed := sealed ch; requested := requested ch; shown := shown ch;
  permissions := permissions; responded := responded ch; received := received ch |}.

Inductive channel_step ch : channel → Prop :=
  | step_ask namespaces :
      RequestNamespaces_wf namespaces → channel_step ch (reader_asks ch namespaces)
  | step_request_arrives msg dev o :
      unforged ch (sm_sk_reader (ch_dev ch)) msg →
      handle_request (VK := VK) (Sig := Sig) now (ch_dev ch) msg = Some (dev, o) →
      channel_step ch (device_receives ch dev o)
  | step_prepare requests permitted :
      channel_step ch (device_becomes ch (prepare_response (ch_dev ch) requests permitted)
                         (permissions ch ++ [(requests, permitted)]))
  | step_sign signature dev r :
      submit_next_signature (ch_dev ch) signature = Some (dev, r) → channel_step ch (device_signs ch signature dev)
  | step_retrieve :
      channel_step ch (device_becomes ch (retrieve_response (ch_dev ch)).1 (permissions ch))
  | step_response_arrives msg rdr o :
      unforged ch (rdr_sk_device (ch_rdr ch)) msg →
      handle_response (VK := VK) (Sig := Sig) now (ch_rdr ch) msg = Some (rdr, o) →
      channel_step ch (reader_receives ch msg rdr).

(** *** Running a network *)

(** The arrival of a message and the submission of a signature, executed. *)
Definition device_after ch (msg : bytes) : channel :=
  match handle_request (VK := VK) (Sig := Sig) now (ch_dev ch) msg with
  | Some (dev, o) => device_receives ch dev o
  | None => ch
  end.
Definition reader_after ch (msg : bytes) : channel :=
  match handle_response (VK := VK) (Sig := Sig) now (ch_rdr ch) msg with
  | Some (rdr, _) => reader_receives ch msg rdr
  | None => ch
  end.
Definition device_prepares ch (requests : RequestedItems) (permitted : PermittedItems) : channel :=
  device_becomes ch (prepare_response (ch_dev ch) requests permitted) (permissions ch ++ [(requests, permitted)]).
Definition sign_after ch (signature : bytes) : channel :=
  match submit_next_signature (ch_dev ch) signature with
  | Some (dev, _) => device_signs ch signature dev
  | None => ch
  end.
Definition device_retrieves ch : channel := device_becomes ch (retrieve_response (ch_dev ch)).1 (permissions ch).

Lemma run_ask ch0 ch namespaces :
  RequestNamespaces_wf namespaces → rtc channel_step ch0 ch → rtc channel_step ch0 (reader_asks ch namespaces).
Proof. intros Hns Hrun. apply (rtc_r _ _ _ Hrun). by apply step_ask. Qed.
Lemma run_device ch0 ch msg :
  unforged ch (sm_sk_reader (ch_dev ch)) msg → rtc channel_step ch0 ch → rtc channel_step ch0 (device_after ch msg).
Proof.
  intros Hauth Hrun. unfold device_after. destruct (handle_request _ _ _) as [[dev o]|] eqn:Hh; [|done].
  apply (rtc_r _ _ _ Hrun). by eapply step_request_arrives.
Qed.
Lemma run_prepare ch0 ch requests permitted :
  rtc channel_step ch0 ch → rtc channel_step ch0 (device_prepares ch requests permitted).
Proof. intros Hrun. apply (rtc_r _ _ _ Hrun), step_prepare. Qed.
Lemma run_sign ch0 ch signature : rtc channel_step ch0 ch → rtc channel_step ch0 (sign_after ch signature).
Proof.
  intros Hrun. unfold sign_after. destruct (submit_next_signature _ _) as [[dev r]|] eqn:Hs; [|done].
  apply (rtc_r _ _ _ Hrun). by eapply step_sign.
Qed.
Lemma run_retrieve ch0 ch : rtc channel_step ch0 ch → rtc channel_step ch0 (device_retrieves ch).
Proof. intros Hrun. apply (rtc_r _ _ _ Hrun), step_retrieve. Qed.
Lemma run_reader ch0 ch msg :
  unforged ch (rdr_sk_device (ch_rdr ch)) msg → rtc channel_step ch0 ch → rtc channel_step ch0 (reader_after ch msg).
Proof.
  intros Hauth Hrun. unfold reader_after. destruct (handle_response _ _ _) as [[rdr o]|] eqn:Hh; [|done].
  apply (rtc_r _ _ _ Hrun). by eapply step_response_arrives.
Qed.

(** A session that has just been established: the ends are linked, and only nonces
    of earlier messages have been used. *)
Definition fresh_channel ch : Prop :=
  linked (ch_dev ch) (ch_rdr ch) ∧ session_wf (ch_dev ch) ∧
  is_u32 (reader_message_counter (ch_dev ch)) ∧ is_u32 (device_message_counter (ch_dev ch)) ∧
  (∀ key iv ct, (key, iv, ct) ∈ sealed ch → ∃ c (reader : bool),
     (0 ≤ c < if reader then reader_message_counter (ch_dev ch) else device_message_counter (ch_dev ch))%Z ∧
     iv = nonce_of c reader) ∧
  sm_state (ch_dev ch) = AwaitingRequest ∧
  requested ch = [] ∧ shown ch = [] ∧ permissions ch = [] ∧ responded ch = [] ∧ received ch = [].

(** The abstract state of a run. *)
Definition queues_of ch : queues := {|
  request_queue := ((λ p, [mdl_request p.1]) <$> requested ch, shown ch);
  response_queue := (fst <$> responded ch, received ch) |}.

(** *** The invariant *)

(** [r0] and [d0] are the counters at the start of the run. *)
Record channel_inv (r0 d0 : Z) ch : Prop := {
  inv_start : (0 ≤ r0)%Z ∧ (0 ≤ d0)%Z;
  inv_keys : sm_sk_device (ch_dev ch) = rdr_sk_device (ch_rdr ch) ∧ sm_sk_reader (ch_dev ch) = rdr_sk_reader (ch_rdr ch);
  inv_wf : session_wf (ch_dev ch);
  inv_requests : queue_ordered (request_queue (queues_of ch));
  inv_responses : queue_ordered (response_queue (queues_of ch));
  inv_reader_counters :
    rdr_reader_message_counter (ch_rdr ch) = (r0 + Z.of_nat (length (requested ch)))%Z ∧
    reader_message_counter (ch_dev ch) = (r0 + Z.of_nat (length (shown ch)))%Z ∧
    (r0 + Z.of_nat (length (requested ch)) ≤ u32_max)%Z;
  inv_device_counters :
    device_message_counter (ch_dev ch) = (d0 + Z.of_nat (length (responded ch)))%Z ∧
    rdr_device_message_counter (ch_rdr ch) = (d0 + Z.of_nat (length (received ch)))%Z ∧
    (d0 + Z.of_nat (length (responded ch)) ≤ u32_max)%Z;
  inv_sealed key iv ct : (key, iv, ct) ∈ sealed ch →
    (∃ c (reader : bool), (0 ≤ c < if reader then r0 else d0)%Z ∧ iv = nonce_of c reader) ∨
    (∃ i ns, requested ch !! i = Some (ns, ct) ∧ iv = nonce_of (r0 + Z.of_nat i) true) ∨
    (∃ i r, responded ch !! i = Some (r, ct) ∧ iv = nonce_of (d0 + Z.of_nat i) false);
  inv_request_open i ns ct : requested ch !! i = Some (ns, ct) →
    RequestNamespaces_wf ns ∧ ∃ b, encodes_request ns b ∧
      encrypt (sm_sk_reader (ch_dev ch)) b (r0 + Z.of_nat i) true = ((r0 + Z.of_nat i + 1)%Z, Ok ct);
  inv_response_open i r ct : responded ch !! i = Some (r, ct) →
    DeviceResponse_wf r ∧ ∃ b, to_vec r = Ok b ∧
      encrypt (sm_sk_device (ch_dev ch)) b (d0 + Z.of_nat i) false = ((d0 + Z.of_nat i + 1)%Z, Ok ct);
}.

Lemma fresh_channel_inv ch :
  fresh_channel ch → channel_inv (reader_message_counter (ch_dev ch)) (device_message_counter (ch_dev ch)) ch.
Proof.
  intros ((_ & Hskd & Hskr & Hcd & Hcr) & Hwf & [? ?] & [? ?] & Hsealed & _ & Hreq & Hsh & _ & Hresp & Hrec).
  split; rewrite ?Hreq, ?Hsh, ?Hresp, ?Hrec; cbn [length]; try done.
  - unfold queue_ordered, queues_of. cbn. by rewrite Hreq, Hsh.
  - unfold queue_ordered, queues_of. cbn. by rewrite Hresp, Hrec.
  - split_and!; lia.
  - split_and!; lia.
  - intros key iv ct Hin. left. by eapply Hsealed.
Qed.

(** The sealed messages that one end accepts: only its peer's next one. *)
Lemma sealed_next_request r0 d0 ch key ct :
  channel_inv r0 d0 ch → (reader_message_counter (ch_dev ch) + 1 ≤ u32_max)%Z →
  (key, nonce_of (reader_message_counter (ch_dev ch)) true, ct) ∈ sealed ch →
  ∃ ns, requested ch !! length (shown ch) = Some (ns, ct).
Proof.
  intros Hinv Hmax Hin. pose proof (inv_start _ _ _ Hinv) as [? ?].
  pose proof (inv_reader_counters _ _ _ Hinv) as (_ & Hc & ?). pose proof (inv_device_counters _ _ _ Hinv) as (_ & _ & ?).
  apply (inv_sealed _ _ _ Hinv) in Hin as [(c & reader & Hlt & Hiv)|[(i & ns & Hi & Hiv)|(i & r & Hi & Hiv)]].
  - apply nonce_of_inj in Hiv as [Heq Hr]; [subst reader; lia|destruct reader; lia..].
  - pose proof (lookup_lt_Some _ _ _ Hi). apply nonce_of_inj in Hiv as [Hiv _]; [|lia..].
    replace (length (shown ch)) with i by lia. by exists ns.
  - pose proof (lookup_lt_Some _ _ _ Hi). apply nonce_of_inj in Hiv as [_ [=]]; lia.
Qed.
Lemma sealed_next_response r0 d0 ch key ct :
  channel_inv r0 d0 ch → (rdr_device_message_counter (ch_rdr ch) + 1 ≤ u32_max)%Z →
  (key, nonce_of (rdr_device_message_counter (ch_rdr ch)) false, ct) ∈ sealed ch →
  ∃ r, responded ch !! length (received ch) = Some (r, ct).
Proof.
  intros Hinv Hmax Hin. pose proof (inv_start _ _ _ Hinv) as [? ?].
  pose proof (inv_reader_counters _ _ _ Hinv) as (_ & _ & ?). pose proof (inv_device_counters _ _ _ Hinv) as (_ & Hc & ?).
  apply (inv_sealed _ _ _ Hinv) in Hin as [(c & reader & Hlt & Hiv)|[(i & ns & Hi & Hiv)|(i & r & Hi & Hiv)]].
  - apply nonce_of_inj in Hiv as [Heq Hr]; [subst reader; lia|destruct reader; lia..].
  - pose proof (lookup_lt_Some _ _ _ Hi). apply nonce_of_inj in Hiv as [_ [=]]; lia.
  - pose proof (lookup_lt_Some _ _ _ Hi). apply nonce_of_inj in Hiv as [Hiv _]; [|lia..].
    replace (length (received ch)) with i by lia. by exists r.
Qed.

(** What an end does with a message that was not forged. *)
Lemma request_arrives r0 d0 ch msg :
  channel_inv r0 d0 ch → unforged ch (sm_sk_reader (ch_dev ch)) msg →
  (∃ ns ct o, requested ch !! length (shown ch) = Some (ns, ct) ∧ carried msg = Some ct ∧
     handle_request (VK := VK) (Sig := Sig) now (ch_dev ch) msg =
       Some (with_reader_counter (reader_message_counter (ch_dev ch) + 1) (ch_dev ch), o) ∧
     ro_items_request o = [mdl_request ns] ∧ ro_errors o = ∅) ∨
  (∀ ns ct, requested ch !! length (shown ch) = Some (ns, ct) → carried msg ≠ Some ct) ∧
  ∃ key p, handle_request (VK := VK) (Sig := Sig) now (ch_dev ch) msg = Some (ch_dev ch, request_failed key p).
Proof.
  intros Hinv Hauth. pose proof (inv_reader_counters _ _ _ Hinv) as (_ & Hc & _). unfold unforged, carried in *.
  unfold handle_request. destruct (from_slice (T := SessionData) msg) as [data|e] eqn:Hdata; cbn [rok mbind option_bind] in *;
    [|right; split; [done|by do 2 eexists]].
  destruct (sd_data data) as [[ct]|] eqn:Hd; cbn [fmap option_fmap option_map bytestr] in *;
    [|right; split; [done|unfold handle_decoded_request; rewrite Hd; by do 2 eexists]].
  assert (∀ ns ct', requested ch !! length (shown ch) = Some (ns, ct') → ct = ct' →
     ∃ o, handle_decoded_request (VK := VK) (Sig := Sig) now (ch_dev ch) data =
       Some (with_reader_counter (reader_message_counter (ch_dev ch) + 1) (ch_dev ch), o) ∧
     ro_items_request o = [mdl_request ns] ∧ ro_errors o = ∅) as Hnext.
  { intros ns ct' Hns <-. destruct (inv_request_open _ _ _ Hinv _ _ _ Hns) as (Hwf & b & Henc & He). rewrite <-Hc in He.
    destruct (request_opens (VK := VK) (Sig := Sig) now _ ns b _ ct data Hwf Henc He Hd) as (o & ? & ? & ? & _). by exists o. }
  destruct (decrypt_nonce (sm_sk_reader (ch_dev ch)) ct (reader_message_counter (ch_dev ch)) true) as [Hdec|(m & Hmax & Hopen & _)].
  - right. split.
    + intros ns ct' Hns [= Heq]. destruct (inv_request_open _ _ _ Hinv _ _ _ Hns) as (_ & b & _ & He).
      apply encrypt_decrypt in He. by rewrite <-Hc, <-Heq, Hdec in He.
    + unfold handle_decoded_request. rewrite Hd. unfold decrypt_reader_data. cbn [bytestr]. rewrite Hdec.
      do 2 eexists. by destruct (ch_dev ch).
  - left. destruct (sealed_next_request _ _ _ _ _ Hinv Hmax (Hauth ct _ m eq_refl (nonce_of_length _ _ Hmax) Hopen)) as [ns Hns].
    destruct (Hnext ns ct Hns eq_refl) as (o & Hh & Ho). by exists ns, ct, o.
Qed.
Lemma response_arrives r0 d0 ch msg :
  channel_inv r0 d0 ch → unforged ch (rdr_sk_device (ch_rdr ch)) msg →
  (∃ r ct, responded ch !! length (received ch) = Some (r, ct) ∧ carried msg = Some ct ∧
     decrypt_response (ch_rdr ch) msg =
       (rdr_with_device_counter (rdr_device_message_counter (ch_rdr ch) + 1) (ch_rdr ch), Ok r)) ∨
  (∀ r ct, responded ch !! length (received ch) = Some (r, ct) → carried msg ≠ Some ct) ∧
  ∃ e, decrypt_response (ch_rdr ch) msg = (ch_rdr ch, Err e).
Proof.
  intros Hinv Hauth. pose proof (inv_device_counters _ _ _ Hinv) as (_ & Hc & _).
  pose proof (inv_keys _ _ _ Hinv) as [Hsk _]. unfold unforged, carried in *.
  destruct (from_slice (T := SessionData) msg) as [data|e] eqn:Hdata; cbn [rok mbind option_bind] in *;
    [|right; split; [done|unfold decrypt_response; rewrite Hdata; by eexists]].
  destruct (sd_data data) as [[ct]|] eqn:Hd; cbn [fmap option_fmap option_map bytestr] in *;
    [|right; split; [done|unfold decrypt_response; rewrite Hdata; cbn [map_err]; rewrite Hd; by eexists]].
  destruct (decrypt_nonce (rdr_sk_device (ch_rdr ch)) ct (rdr_device_message_counter (ch_rdr ch)) false)
    as [Hdec|(m & Hmax & Hopen & _)].
  - right. split.
    + intros r ct' Hr [= Heq]. destruct (inv_response_open _ _ _ Hinv _ _ _ Hr) as (_ & b & _ & He).
      apply encrypt_decrypt in He. by rewrite <-Hc, <-Heq, Hsk, Hdec in He.
    + unfold decrypt_response. rewrite Hdata. cbn [map_err]. rewrite Hd. unfold decrypt_device_data. cbn [bytestr].
      rewrite Hdec. eexists. by destruct (ch_rdr ch).
  - left. destruct (sealed_next_response _ _ _ _ _ Hinv Hmax (Hauth ct _ m eq_refl (nonce_of_length _ _ Hmax) Hopen)) as [r Hr].
    exists r, ct. split; [done|]. split; [done|]. destruct (inv_response_open _ _ _ Hinv _ _ _ Hr) as (Hwf & b & Hb & He).
    rewrite <-Hc, Hsk in He. by eapply response_opens.
Qed.

(** *** The steps *)

Lemma option_list_Some {A} (x : A) : option_list (Some x) = [x].
Proof. done. Qed.

Lemma new_request_result rdr namespaces :
  (request_sealed rdr namespaces = None ∧ (new_request rdr namespaces).1 = rdr) ∨
  ∃ b ct, request_sealed rdr namespaces = Some ct ∧ encodes_request namespaces b ∧
    (rdr_reader_message_counter rdr + 1 ≤ u32_max)%Z ∧
    encrypt (rdr_sk_reader rdr) b (rdr_reader_message_counter rdr) true = ((rdr_reader_message_counter rdr + 1)%Z, Ok ct) ∧
    (new_request rdr namespaces).1 = rdr_with_reader_counter (rdr_reader_message_counter rdr + 1) rdr.
Proof.
  unfold request_sealed, new_request.
  destruct (build_request_result rdr namespaces) as [[e ->]|(b & ct & Henc & Hmax & He & ->)]; [by left|right].
  by exists b, ct.
Qed.

Lemma ask_step r0 d0 ch namespaces :
  channel_inv r0 d0 ch → RequestNamespaces_wf namespaces →
  channel_inv r0 d0 (reader_asks ch namespaces) ∧ rtc queues_step (queues_of ch) (queues_of (reader_asks ch namespaces)).
Proof.
  intros Hinv Hns. unfold reader_asks. pose proof (inv_reader_counters _ _ _ Hinv) as (Hc & Hc' & Hbound).
  destruct (new_request_result (ch_rdr ch) namespaces) as [[-> ->]|(b & ct & -> & Henc & Hmax & He & ->)].
  { cbn [fmap option_fmap option_map option_list]. rewrite !app_nil_r. destruct ch. by split. }
  cbn [fmap option_fmap option_map]. rewrite !option_list_Some.
  assert (queue_step (request_queue (queues_of ch))
    ((λ p, [mdl_request p.1]) <$> (requested ch ++ [(namespaces, ct)]), shown ch)) as Hput by (rewrite fmap_app; apply queue_put).
  split.
  - destruct Hinv as [? [Hskd Hskr] ? ? ? _ ? Hsealed Hreq Hresp]. split; try done.
    + by eapply queue_step_ordered.
    + cbn. rewrite length_app. cbn [length]. split_and!; lia.
    + intros key iv ct'. cbn [sealed requested responded]. rewrite elem_of_app, list_elem_of_singleton.
      intros [[?|[(i & ns & Hi & ?)|?]]%Hsealed|[= -> -> ->]]; [by left| |by right; right|]; right; left.
      * exists i, ns. split; [by apply lookup_app_l_Some|done].
      * exists (length (requested ch)), namespaces. by rewrite lookup_app_r, Nat.sub_diag, <-Hc.
    + intros i ns ct'. cbn [requested ch_dev]. rewrite lookup_snoc_Some.
      intros [[_ Hi]|[-> [= <- <-]]]; [by apply Hreq|]. split; [done|]. exists b. by rewrite Hskr, <-Hc.
  - apply rtc_once. by apply request_step.
Qed.

Lemma submit_result self signature :
  session_wf self →
  ∃ self' r, submit_next_signature self signature = Some (self', r) ∧ device_step_ok self self' ∧
    reader_message_counter self' = reader_message_counter self ∧
    match response_sealed self signature with
    | None => device_message_counter self' = device_message_counter self
    | Some (response, ct) =>
        DeviceResponse_wf response ∧ (device_message_counter self + 1 ≤ u32_max)%Z ∧
        device_message_counter self' = (device_message_counter self + 1)%Z ∧
        ∃ b, to_vec response = Ok b ∧
          encrypt (sm_sk_device self) b (device_message_counter self) false = ((device_message_counter self + 1)%Z, Ok ct)
    end.
Proof.
  intros Hwf. destruct (submit_ok self signature Hwf) as (self' & r & Hs & Hok). exists self', r.
  split; [done|]. split; [done|]. unfold submit_next_signature, response_sealed in *. destruct Hwf as [_ Hst].
  destruct (sm_state self) as [|p|]; [by injection Hs as <- _| |by injection Hs as <- _].
  set (p' := prepared_submit_next_signature p signature) in *. destruct (is_complete p'); [|by injection Hs as <- _].
  pose proof (finalize_response_wf p' (prepared_submit_wf p signature Hst)) as Hwf'.
  rewrite send_response_spec in Hs by done. destruct (to_vec (finalize_response p')) as [b|] eqn:Hb; [|by injection Hs as <- _].
  cbn [rok mbind option_bind with_state sm_sk_device device_message_counter] in *. unfold encrypt_device_data in *.
  destruct (encrypt_result (sm_sk_device self) b (device_message_counter self) false)
    as [He|(iv & ct & _ & Hmax & _ & He)]; rewrite He in *; cbn [snd rok].
  - destruct (to_vec (response_message (Err tt))); by injection Hs as <- _.
  - destruct (to_vec (response_message (Ok ct))); injection Hs as <- _; (split; [done|]);
      cbn [mbind option_bind]; split_and!; try done; by exists b.
Qed.

Lemma sign_step r0 d0 ch signature dev r :
  channel_inv r0 d0 ch → submit_next_signature (ch_dev ch) signature = Some (dev, r) →
  channel_inv r0 d0 (device_signs ch signature dev) ∧
  rtc queues_step (queues_of ch) (queues_of (device_signs ch signature dev)).
Proof.
  intros Hinv Hsub. unfold device_signs. pose proof (inv_device_counters _ _ _ Hinv) as (Hc & Hc' & Hbound).
  destruct (submit_result (ch_dev ch) signature (inv_wf _ _ _ Hinv)) as (dev' & r' & Heq & (Hsame & Hwf & _) & Hcr & Hnew).
  rewrite Hsub in Heq. injection Heq as <- <-. destruct Hsame as (_ & _ & Hskd & Hskr & _).
  destruct Hinv as [? [Hkd Hkr] ? Hqreq Hqresp ? _ Hsealed Hreq Hresp].
  destruct (response_sealed (ch_dev ch) signature) as [[response ct]|]; cbn [fmap option_fmap option_map snd];
    rewrite ?option_list_Some.
  - destruct Hnew as (Hrwf & Hmax & Hcd & b & Hb & He).
    assert (queue_step (response_queue (queues_of ch)) (fst <$> (responded ch ++ [(response, ct)]), received ch)) as Hput
      by (rewrite fmap_app; apply queue_put).
    split; [|by apply rtc_once, response_step]. split; cbn [ch_dev ch_rdr sealed requested shown responded received]; try done.
    + by rewrite Hskd, Hskr.
    + by eapply queue_step_ordered.
    + by rewrite Hcr.
    + rewrite length_app. cbn [length]. split_and!; lia.
    + intros key iv ct'. rewrite elem_of_app, list_elem_of_singleton.
      intros [[?|[?|(i & x & Hi & ?)]]%Hsealed|[= -> -> ->]]; [by left|by right; left|right; right..].
      * exists i, x. split; [by apply lookup_app_l_Some|done].
      * exists (length (responded ch)), response. by rewrite lookup_app_r, Nat.sub_diag, <-Hc.
    + intros i ns ct' Hi. rewrite Hskr. by apply Hreq.
    + intros i x ct'. rewrite Hskd, lookup_snoc_Some. intros [[_ Hi]|[-> [= <- <-]]]; [by apply Hresp|].
      split; [done|]. exists b. by rewrite <-Hc.
  - rewrite !app_nil_r. split; [|done].
    split; cbn [ch_dev ch_rdr sealed requested shown responded received]; rewrite ?Hskd, ?Hskr, ?Hcr, ?Hnew; done.
Qed.

(** A call of the device that touches neither keys nor counters. *)
Lemma becomes_step r0 d0 ch dev ps :
  channel_inv r0 d0 ch → same_session (ch_dev ch) dev → session_wf dev →
  device_message_counter dev = device_message_counter (ch_dev ch) →
  reader_message_counter dev = reader_message_counter (ch_dev ch) →
  channel_inv r0 d0 (device_becomes ch dev ps) ∧ rtc queues_step (queues_of ch) (queues_of (device_becomes ch dev ps)).
Proof.
  intros [] (_ & _ & Hskd & Hskr & _) Hwf Hcd Hcr. split; [|done].
  split; cbn [device_becomes ch_dev ch_rdr sealed requested shown responded received]; rewrite ?Hskd, ?Hskr, ?Hcd, ?Hcr; done.
Qed.

(** Beyond decrypting, [handle_response] leaves the session as it is. *)
Lemma handle_response_session rdr msg rdr' o :
  handle_response (VK := VK) (Sig := Sig) now rdr msg = Some (rdr', o) → rdr' = (decrypt_response rdr msg).1.
Proof.
  unfold handle_response. destruct (decrypt_response rdr msg) as [rdr1 [response|e]]; [|by intros [= <- _]].
  destruct (parse response) as [[[[document x] ns]|e]|]; cbn [mbind option_bind]; [|by intros [= <- _]|done].
  destruct (validate_response _ _ _ _ _ _) as [o'|]; cbn [mbind option_bind]; [by intros [= <- _]|done].
Qed.

Lemma request_arrives_step r0 d0 ch msg dev o :
  channel_inv r0 d0 ch → unforged ch (sm_sk_reader (ch_dev ch)) msg →
  handle_request (VK := VK) (Sig := Sig) now (ch_dev ch) msg = Some (dev, o) →
  channel_inv r0 d0 (device_receives ch dev o) ∧ rtc queues_step (queues_of ch) (queues_of (device_receives ch dev o)).
Proof.
  intros Hinv Hauth Hh. unfold device_receives, shown_items.
  destruct (request_arrives r0 d0 ch msg Hinv Hauth) as [(ns & ct & o' & Hns & _ & Heq & Ho & Herr)|(_ & key & p & Heq)];
    rewrite Hh in Heq; injection Heq as -> ->.
  - rewrite Herr, Ho. change (entries ∅) with (@nil (string * list RequestProblem)). cbv iota.
    assert (queue_step (request_queue (queues_of ch))
      ((λ p, [mdl_request p.1]) <$> requested ch, shown ch ++ [[mdl_request ns]])) as Htake
      by (apply queue_take; by rewrite list_lookup_fmap, Hns).
    destruct Hinv as [? ? ? Hq ? (? & Hc & ?) ? ? ? ?]. apply lookup_lt_Some in Hns.
    split; [|by apply rtc_once, request_step]. split; try done.
    + by eapply queue_step_ordered.
    + cbn [ch_dev ch_rdr requested shown with_reader_counter reader_message_counter]. rewrite length_app. cbn [length].
      split_and!; lia.
  - cbn. rewrite app_nil_r. destruct ch. by split.
Qed.

Lemma response_arrives_step r0 d0 ch msg rdr o :
  channel_inv r0 d0 ch → unforged ch (rdr_sk_device (ch_rdr ch)) msg →
  handle_response (VK := VK) (Sig := Sig) now (ch_rdr ch) msg = Some (rdr, o) →
  channel_inv r0 d0 (reader_receives ch msg rdr) ∧ rtc queues_step (queues_of ch) (queues_of (reader_receives ch msg rdr)).
Proof.
  intros Hinv Hauth Hh%handle_response_session. unfold reader_receives. rewrite Hh.
  destruct (response_arrives r0 d0 ch msg Hinv Hauth) as [(r & ct & Hr & _ & ->)|(_ & e & ->)]; cbn [fst snd rok];
    rewrite ?option_list_Some.
  - assert (queue_step (response_queue (queues_of ch)) (fst <$> responded ch, received ch ++ [r])) as Htake
      by (apply queue_take; by rewrite list_lookup_fmap, Hr).
    destruct Hinv as [? ? ? ? Hq ? (? & Hc & ?) ? ? ?]. apply lookup_lt_Some in Hr.
    split; [|by apply rtc_once, response_step]. split; try done.
    + by eapply queue_step_ordered.
    + cbn [ch_dev ch_rdr responded received rdr_with_device_counter rdr_device_message_counter]. rewrite length_app.
      cbn [length]. split_and!; lia.
  - cbn [option_list option_rect]. rewrite app_nil_r. destruct ch. by split.
Qed.

(** Every step keeps the invariant and is a step of the queues, or none. *)
Lemma channel_step_refines r0 d0 ch ch' :
  channel_inv r0 d0 ch → channel_step ch ch' → channel_inv r0 d0 ch' ∧ rtc queues_step (queues_of ch) (queues_of ch').
Proof.
  intros Hinv Hstep. pose proof (inv_wf _ _ _ Hinv) as [Hdocs Hst].
  destruct Hstep as [ns Hns|msg dev o Hauth Hh|requests permitted|signature dev r Hs| |msg rdr o Hauth Hh].
  - by apply ask_step.
  - by eapply request_arrives_step.
  - apply becomes_step; try done. split; [done|]. by apply (prepare_response_wf (ch_dev ch)).
  - by eapply sign_step.
  - unfold retrieve_response. destruct (sm_state (ch_dev ch)) eqn:Es;
      (apply becomes_step; [done|done| |done|done]; split; [done|]; cbn [fst]; by rewrite ?Es).
  - by eapply response_arrives_step.
Qed.
Lemma channel_steps_refine r0 d0 ch ch' :
  channel_inv r0 d0 ch → rtc channel_step ch ch' → channel_inv r0 d0 ch' ∧ rtc queues_step (queues_of ch) (queues_of ch').
Proof.
  intros Hinv Hsteps. revert Hinv. induction Hsteps as [|ch ch1 ch' Hstep _ IH]; intros Hinv; [done|].
  destruct (channel_step_refines r0 d0 ch ch1 Hinv Hstep) as [Hinv1 Hq]. destruct (IH Hinv1) as [? ?].
  split; [done|]. by transitivity (queues_of ch1).
Qed.

(** *** What leaves the device *)

Definition items_of (s : IssuerSigned) (ns : string) : list IssuerSignedItemBytes :=
  default [] (m ← is_namespaces s; v ← nem m !! ns; Some (nev v)).

(** The item is the one the device stores, under the signature shown with it, for an
    element that the reader requested and the user permitted in one of the calls. *)
Definition permitted_item ch (dt ns : string) (auth : MaybeTagged CoseSign1) (item : IssuerSignedItemBytes) : Prop :=
  ∃ requests permitted document el, (requests, permitted) ∈ permissions ch ∧
    reader_requests requests dt ns el ∧ user_permits permitted dt ns el ∧
    nem (sm_documents (ch_dev ch)) !! dt = Some document ∧ doc_issuer_auth document = auth ∧
    stored document ns el = Some item.
Definition permitted_document ch (dt : string) (s : IssuerSigned) : Prop :=
  ∀ ns item, item ∈ items_of s ns → permitted_item ch dt ns (issuer_auth s) item.
Definition permitted_prepared ch (p : PreparedDeviceResponse) : Prop :=
  Forall (λ pd, permitted_document ch (pd_doc_type pd) (pd_issuer_signed pd)) (prepared_documents p) ∧
  Forall (λ d, permitted_document ch (rd_doc_type d) (rd_issuer_signed d)) (signed_documents p).
Definition permitted_response ch (r : DeviceResponse) : Prop :=
  Forall (λ d, permitted_document ch (rd_doc_type d) (rd_issuer_signed d)) (default [] (nev <$> rs_documents r)).

Definition permission_inv ch : Prop :=
  (∀ p, sm_state (ch_dev ch) = Signing p → permitted_prepared ch p) ∧ Forall (λ p, permitted_response ch p.1) (responded ch).

(** Permissions are only added. *)
Definition more_permissions ch ch' : Prop :=
  sm_documents (ch_dev ch') = sm_documents (ch_dev ch) ∧ permissions ch ⊆ permissions ch'.
Lemma permitted_document_more ch ch' dt s :
  more_permissions ch ch' → permitted_document ch dt s → permitted_document ch' dt s.
Proof.
  intros [Hdocs Hmore] Hs ns item Hin. destruct (Hs ns item Hin) as (rs & ps & document & el & ? & ? & ? & ? & ? & ?).
  exists rs, ps, document, el. rewrite Hdocs. split_and!; try done. by apply Hmore.
Qed.
Lemma permitted_prepared_more ch ch' p : more_permissions ch ch' → permitted_prepared ch p → permitted_prepared ch' p.
Proof. intros Hm [? ?]. split; (eapply Forall_impl; [done|]); intros; by eapply permitted_document_more. Qed.
Lemma permitted_response_more ch ch' r : more_permissions ch ch' → permitted_response ch r → permitted_response ch' r.
Proof. intros Hm Hr. eapply Forall_impl; [exact Hr|]. intros; by eapply permitted_document_more. Qed.

Lemma permitted_submit ch p signature :
  permitted_prepared ch p → permitted_prepared ch (prepared_submit_next_signature p signature).
Proof.
  intros [Hp Hs]. unfold prepared_submit_next_signature. destruct (last (prepared_documents p)) as [d|] eqn:Hd; [|done].
  split; cbn [prepared_documents signed_documents]; [by apply Forall_take|]. apply Forall_app. split; [done|].
  apply Forall_singleton. apply last_Some_elem_of in Hd. rewrite Forall_forall in Hp. exact (Hp d Hd).
Qed.
Lemma permitted_finalize ch p : permitted_prepared ch p → permitted_response ch (finalize_response p).
Proof.
  intros [_ Hs]. unfold finalize_response. destruct (is_complete p); [|apply Forall_nil_2].
  unfold permitted_response, response_of. cbn [rs_documents]. by destruct (signed_documents p).
Qed.
Lemma permitted_prepare ch requests permitted :
  (requests, permitted) ∈ permissions ch →
  permitted_prepared ch (DeviceSession_prepare_response (ch_dev ch) requests permitted).
Proof.
  intros Hin. destruct (prepared_response_contents (ch_dev ch) requests permitted) as (_ & _ & _ & Hsigned).
  split; [|by rewrite Hsigned]. apply Forall_forall. intros pd Hpd ns item Hitem.
  destruct (disclosure_spec (ch_dev ch) requests permitted pd Hpd) as (document & Hdoc & Hauth & Hns).
  destruct (Hns ns) as [Hdisclosed Hels]. change (items_of (pd_issuer_signed pd) ns) with (disclosed pd ns) in Hitem.
  rewrite Hdisclosed in Hitem. apply list_elem_of_omap in Hitem as (el & Hel & Hst).
  destruct (Hels el) as [_ [Hboth _]]. destruct (Hboth Hel) as [Huser Hreader]. by exists requests, permitted, document, el.
Qed.

(** The device's state and responses after a step, given what it may hold. *)
Lemma permission_step ch ch' :
  permission_inv ch → more_permissions ch ch' →
  (∀ p, sm_state (ch_dev ch') = Signing p → sm_state (ch_dev ch) = Signing p ∨ permitted_prepared ch' p) →
  Forall (λ p, (p ∈ responded ch) ∨ permitted_response ch' p.1) (responded ch') → permission_inv ch'.
Proof.
  intros [Hst Hresp] Hmore Hst' Hresp'. split.
  - intros p Hp. destruct (Hst' p Hp) as [Hold|?]; [|done]. by eapply permitted_prepared_more; [|apply Hst].
  - eapply Forall_impl; [exact Hresp'|]. cbv beta. intros r [Hold|?]; [|done].
    rewrite Forall_forall in Hresp. by eapply permitted_response_more; [|apply Hresp].
Qed.
Lemma old_responses ch (P : DeviceResponse * bytes → Prop) : Forall (λ p, p ∈ responded ch ∨ P p) (responded ch).
Proof. apply Forall_forall. by left. Qed.

Lemma response_sealed_permitted ch signature r ct :
  permission_inv ch → response_sealed (ch_dev ch) signature = Some (r, ct) → permitted_response ch r.
Proof.
  intros [Hst _]. unfold response_sealed. destruct (sm_state (ch_dev ch)) as [|p|]; [done| |done].
  destruct (is_complete _); [|done]. destruct (rok (to_vec _)); [|done]. cbn [mbind option_bind].
  destruct (rok _); [|done]. cbn [mbind option_bind]. intros [= <- _]. by apply permitted_finalize, permitted_submit, Hst.
Qed.

Lemma submit_state self signature self' r p' :
  session_wf self → submit_next_signature self signature = Some (self', r) → sm_state self' = Signing p' →
  ∃ p, sm_state self = Signing p ∧ p' = prepared_submit_next_signature p signature.
Proof.
  intros [_ Hwf]. unfold submit_next_signature. destruct (sm_state self) as [|p|] eqn:Hst.
  1, 3: intros [= <- _]; by rewrite Hst.
  destruct (is_complete _); [|intros [= <- _] [= <-]; by exists p].
  rewrite send_response_spec by (by apply finalize_response_wf, prepared_submit_wf).
  destruct (to_vec (finalize_response _)); [|by intros [= <- _]]. destruct (encrypt_device_data _ _ _) as [c e].
  destruct (to_vec (response_message e)); by intros [= <- _].
Qed.

Lemma channel_step_more r0 d0 ch ch' : channel_inv r0 d0 ch → channel_step ch ch' → more_permissions ch ch'.
Proof.
  intros Hinv Hstep. destruct Hstep as [ns _|msg dev o Hauth Hh|requests permitted|signature dev r Hs| |msg rdr o _ _]; try by split.
  - destruct (request_arrives r0 d0 ch msg Hinv Hauth) as [(ns & ct & o' & _ & _ & Heq & _)|(_ & key & p & Heq)];
      rewrite Hh in Heq; by injection Heq as -> ->.
  - split; [done|]. intros x Hx. apply elem_of_app. by left.
  - destruct (submit_ok (ch_dev ch) signature (inv_wf _ _ _ Hinv)) as (dev' & r' & Heq & [Hdocs _] & _).
    rewrite Hs in Heq. injection Heq as <- <-. by split.
  - split; [|done]. unfold retrieve_response. cbn. by destruct (sm_state (ch_dev ch)).
Qed.

Lemma channel_step_permitted r0 d0 ch ch' :
  channel_inv r0 d0 ch → permission_inv ch → channel_step ch ch' → permission_inv ch'.
Proof.
  intros Hinv Hperm Hstep. pose proof (channel_step_more _ _ _ _ Hinv Hstep) as Hmore.
  apply (permission_step ch ch' Hperm Hmore);
    destruct Hstep as [ns _|msg dev o Hauth Hh|requests permitted|signature dev r Hs| |msg rdr o _ _].
  all: try (by left); try exact (old_responses ch _).
  - destruct (request_arrives r0 d0 ch msg Hinv Hauth) as [(ns & ct & o' & _ & _ & Heq & _)|(_ & key & p & Heq)];
      rewrite Hh in Heq; injection Heq as -> ->; by left.
  - intros p [= <-]. right.
    apply (permitted_prepare (device_becomes ch (ch_dev ch) (permissions ch ++ [(requests, permitted)]))).
    apply elem_of_app. right. by apply list_elem_of_singleton.
  - intros p' Hp'. right. destruct (submit_state _ _ _ _ _ (inv_wf _ _ _ Hinv) Hs Hp') as (p & Hp & ->).
    eapply permitted_prepared_more; [exact Hmore|]. by apply permitted_submit, Hperm.
  - intros p. unfold retrieve_response. cbn. destruct (sm_state (ch_dev ch)) eqn:Est; cbn; try done; rewrite Est; by left.
  - cbn [device_signs responded]. apply Forall_app. split; [exact (old_responses ch _)|].
    destruct (response_sealed (ch_dev ch) signature) as [[resp ct]|] eqn:Hr; [|apply Forall_nil_2].
    apply Forall_singleton. right. cbn [fst]. eapply (permitted_response_more ch); [exact Hmore|].
    by eapply response_sealed_permitted.
Qed.

Lemma channel_steps_permitted r0 d0 ch ch' :
  channel_inv r0 d0 ch → permission_inv ch → rtc channel_step ch ch' →
  permission_inv ch' ∧ sm_documents (ch_dev ch') = sm_documents (ch_dev ch).
Proof.
  intros Hinv Hperm Hsteps. revert Hinv Hperm. induction Hsteps as [|ch ch1 ch' Hstep _ IH]; intros Hinv Hperm; [done|].
  destruct (channel_step_more _ _ _ _ Hinv Hstep) as [<- _].
  apply IH; [by destruct (channel_step_refines r0 d0 ch ch1 Hinv Hstep)|by eapply channel_step_permitted].
Qed.

(** What the reader received was permitted. *)
Lemma received_disclosed ch0 ch r d ns item :
  fresh_channel ch0 → rtc channel_step ch0 ch →
  r ∈ received ch → d ∈ default [] (nev <$> rs_documents r) → item ∈ items_of (rd_issuer_signed d) ns →
  permitted_item ch (rd_doc_type d) ns (issuer_auth (rd_issuer_signed d)) item ∧
  sm_documents (ch_dev ch) = sm_documents (ch_dev ch0).
Proof.
  intros Hfresh Hsteps Hr Hd Hitem. pose proof (fresh_channel_inv _ Hfresh) as Hinv0.
  destruct Hfresh as (_ & _ & _ & _ & _ & Hst & _ & _ & _ & Hresp & _).
  assert (permission_inv ch0) as Hperm0 by (split; [intros p Hp; by rewrite Hst in Hp|by rewrite Hresp]).
  destruct (channel_steps_permitted _ _ _ _ Hinv0 Hperm0 Hsteps) as [[_ Hperm] Hdocs]. split; [|exact Hdocs].
  destruct (channel_steps_refine _ _ _ _ Hinv0 Hsteps) as [[_ _ _ _ Hord _ _ _ _ _] _].
  apply queue_ordered_prefix in Hord as [k Hk]. cbn [queues_of response_queue fst snd] in Hk.
  assert (r ∈ fst <$> responded ch) as Hin by (rewrite Hk; apply elem_of_app; by left).
  apply list_elem_of_fmap in Hin as ([r' ct] & -> & Hin). rewrite Forall_forall in Hperm.
  specialize (Hperm _ Hin). unfold permitted_response in Hperm. rewrite Forall_forall in Hperm.
  exact (Hperm d Hd ns item Hitem).
Qed.
End network.
