(* ===== verification/Channel.v ===== *)
(** * The session as a secure channel

    The properties of runs on an adversary's network ([Network]): they refine two
    queues, each end accepts exactly its next message, nothing is disclosed without the
    user, and of an issued credential the reader receives and reports what the issuer
    gave; and a session established through a QR code has all of them. *)

From S2P Require Export Lifecycle Network.

(** ** Any session *)

Section requirements.
Context `{Serde ItemsRequest, !SerdeWf ItemsRequest ItemsRequest_wf, Serde DeviceRequestInfo}.
Context `{Serde DeviceRequest, Serde Value, FromValue DeviceRequest, !FromValueWf DeviceRequest DeviceRequest_wf}.
Context `{Serde IssuerSignedItem, Serde DeviceNamespaces, !SerdeLaws DeviceNamespaces, !Serde Mso.Mso}.
Context `{Serde DeviceResponse, !SerdeWf DeviceResponse DeviceResponse_wf, Serde SessionData}.
Context `{AeadBackendLaws}.
Context `{Serde (DeviceAuthentication SessionTranscript180135), Serde ReaderAuthentication} `{ToBeSigned} `{PointBytes}.
Context `{Der, Sha1, Sha2} {VK Sig : Type} `{Ecdsa VK Sig} (now : Z) `{JsonInteger}.
Implicit Types (ch : channel).

(** C3: The session is a secure channel. On a network whose adversary delivers to
    either end whatever bytes it likes, replayed, reordered, reflected or made up, and
    only cannot forge a sealed message, every run of a freshly established session
    is a run of two queues: the requests that the device shows without an error are,
    in order and without repetition, the first ones the reader made, the responses
    that the reader decrypts are the first ones the device completed, and each counter
    tells how many messages its end has sent or accepted, within 32 bits. *)
Theorem channel_refines ch0 ch :
  fresh_channel ch0 → rtc (channel_step (VK := VK) (Sig := Sig) now) ch0 ch →
  rtc queues_step (queues_of ch0) (queues_of ch) ∧
  shown ch `prefix_of` ((λ p, [mdl_request p.1]) <$> requested ch) ∧
  received ch `prefix_of` (fst <$> responded ch) ∧
  let sent n c0 c := (c = c0 + Z.of_nat n)%Z ∧ is_u32 c in
  let r0 := reader_message_counter (ch_dev ch0) in
  let d0 := device_message_counter (ch_dev ch0) in
  sent (length (requested ch)) r0 (rdr_reader_message_counter (ch_rdr ch)) ∧
  sent (length (shown ch)) r0 (reader_message_counter (ch_dev ch)) ∧
  sent (length (responded ch)) d0 (device_message_counter (ch_dev ch)) ∧
  sent (length (received ch)) d0 (rdr_device_message_counter (ch_rdr ch)).
Proof.
  intros Hfresh Hsteps. destruct (channel_steps_refine now _ _ _ _ (fresh_channel_inv _ Hfresh) Hsteps) as [Hinv Hq].
  split; [exact Hq|]. destruct Hinv as [? _ _ Hreq Hresp (? & ? & ?) (? & ? & ?) _ _ _].
  pose proof (queue_ordered_length _ Hreq) as Hl1. pose proof (queue_ordered_length _ Hresp) as Hl2.
  cbn [queues_of request_queue response_queue fst snd] in Hl1, Hl2. rewrite length_fmap in Hl1. rewrite length_fmap in Hl2.
  split; [by apply queue_ordered_prefix in Hreq|]. split; [by apply queue_ordered_prefix in Hresp|].
  unfold is_u32. cbv zeta. split_and!; lia.
Qed.

(** The message carries the ciphertext of the request, or of the response, that its
    receiver has to see next. *)
Definition next_request ch (msg : bytes) (namespaces : RequestNamespaces) : Prop :=
  ∃ ct, requested ch !! length (shown ch) = Some (namespaces, ct) ∧ carried msg = Some ct.
Definition next_response ch (msg : bytes) (response : DeviceResponse) : Prop :=
  ∃ ct, responded ch !! length (received ch) = Some (response, ct) ∧ carried msg = Some ct.

(** C5: Exactly the next message is accepted, whatever was delivered before. In any
    run on such a network, a message to the device never makes it panic: when it
    carries the ciphertext of the oldest request the device has not yet shown, exactly
    that request is shown, without an error, and only the counter moves; any other
    message, be it a replay, one from further ahead, one of the device's own or
    garbage, is reported as an error and leaves the device as it was. The same holds
    for the reader, which gets the device's oldest undelivered response or reports
    the message as undecryptable without changing state. *)
Theorem delivery_spec ch0 ch msg :
  fresh_channel ch0 → rtc (channel_step (VK := VK) (Sig := Sig) now) ch0 ch →
  (unforged ch (sm_sk_reader (ch_dev ch)) msg →
     (∃ namespaces o, next_request ch msg namespaces ∧
        handle_request (VK := VK) (Sig := Sig) now (ch_dev ch) msg =
          Some (with_reader_counter (reader_message_counter (ch_dev ch) + 1) (ch_dev ch), o) ∧
        ro_items_request o = [mdl_request namespaces] ∧ ro_errors o = ∅) ∨
     (∀ namespaces, ¬ next_request ch msg namespaces) ∧
     ∃ key p, handle_request (VK := VK) (Sig := Sig) now (ch_dev ch) msg = Some (ch_dev ch, request_failed key p)) ∧
  (unforged ch (rdr_sk_device (ch_rdr ch)) msg →
     (∃ r, next_response ch msg r ∧
        decrypt_response (ch_rdr ch) msg =
          (rdr_with_device_counter (rdr_device_message_counter (ch_rdr ch) + 1) (ch_rdr ch), Ok r)) ∨
     (∀ r, ¬ next_response ch msg r) ∧
     ∃ e, handle_response (VK := VK) (Sig := Sig) now (ch_rdr ch) msg =
       Some (ch_rdr ch, response_failed "decryption_errors" (DecryptionProblem e))).
Proof.
  intros Hfresh Hsteps. destruct (channel_steps_refine now _ _ _ _ (fresh_channel_inv _ Hfresh) Hsteps) as [Hinv _].
  split; intros Hauth.
  - destruct (request_arrives now _ _ ch msg Hinv Hauth) as [(ns & ct & o & Hns & Hct & Ho)|[Hno Herr]].
    + left. exists ns, o. split; [by exists ct|exact Ho].
    + right. split; [|exact Herr]. intros ns (ct & Hns & Hct). by apply (Hno ns ct).
  - destruct (response_arrives _ _ ch msg Hinv Hauth) as [(r & ct & Hr & Hct & Ho)|[Hno [e He]]].
    + left. exists r. split; [by exists ct|exact Ho].
    + right. split; [intros r (ct & Hr & Hct); by apply (Hno r ct)|]. exists e. unfold handle_response. by rewrite He.
Qed.

(** C6: Nothing is disclosed without the user. In any run on such a network, every
    item in every response that the reader receives is an item the device stores for
    an element which, in some call of the run that had the device prepare a response,
    was among the requested elements handed over and among those the user permitted,
    for that document type and namespace; and it comes with the issuer's signature
    stored with it. *)
Theorem received_permitted ch0 ch r d ns item :
  fresh_channel ch0 → rtc (channel_step (VK := VK) (Sig := Sig) now) ch0 ch →
  r ∈ received ch → d ∈ default [] (nev <$> rs_documents r) → item ∈ items_of (rd_issuer_signed d) ns →
  ∃ requests permitted document el, (requests, permitted) ∈ permissions ch ∧
    reader_requests requests (rd_doc_type d) ns el ∧ user_permits permitted (rd_doc_type d) ns el ∧
    nem (sm_documents (ch_dev ch)) !! rd_doc_type d = Some document ∧
    doc_issuer_auth document = issuer_auth (rd_issuer_signed d) ∧ stored document ns el = Some item.
Proof. intros. by destruct (received_disclosed now ch0 ch r d ns item). Qed.
End requirements.

(** ** Issued credentials on the network *)

Section issued.
Context `{Serde ItemsRequest, !SerdeWf ItemsRequest ItemsRequest_wf, Serde DeviceRequestInfo}.
Context `{Serde DeviceRequest, Serde Value, FromValue DeviceRequest, !FromValueWf DeviceRequest DeviceRequest_wf}.
Context `{Serde IssuerSignedItem, Serde DeviceNamespaces, !SerdeLaws DeviceNamespaces, !Serde Mso.Mso}.
Context `{Serde DeviceResponse, !SerdeWf DeviceResponse DeviceResponse_wf, Serde SessionData}.
Context `{AeadBackendLaws}.
Context `{Serde (DeviceAuthentication SessionTranscript180135), Serde ReaderAuthentication} `{ToBeSigned} `{PointBytes}.
Context `{Der, Sha1, Sha2Laws} {VK Sig : Type} `{Ecdsa VK Sig} (now : Z) `{JsonInteger}.
Context {fuel : RetryFuel} {R E : Type} `{RngLaws R} `{!DigestExecutor E, !DigestExecutorCorrect E}.

(** A received item of an issued document carries the issuer's value. *)
Lemma received_carries (i : issuance (R := R) (E := E)) mdoc document ch0 ch r d ns item :
  issue (VK := VK) (Sig := Sig) i = Some (Ok (mdoc, document)) →
  nem (sm_documents (ch_dev ch0)) !! iss_doc_type i = Some document →
  fresh_channel ch0 → rtc (channel_step (VK := VK) (Sig := Sig) now) ch0 ch →
  r ∈ received ch → d ∈ default [] (nev <$> rs_documents r) → rd_doc_type d = iss_doc_type i →
  item ∈ items_of (rd_issuer_signed d) ns →
  ∃ requests permitted el v, (requests, permitted) ∈ permissions ch ∧
    reader_requests requests (iss_doc_type i) ns el ∧ user_permits permitted (iss_doc_type i) ns el ∧
    given (iss_namespaces i) ns el = Some v ∧ carries (doc_mso document) ns el v item ∧
    doc_issuer_auth document = issuer_auth (rd_issuer_signed d).
Proof.
  intros Hissue Hdoc Hfresh Hsteps Hr Hd Hdt Hitem.
  destruct (received_disclosed now ch0 ch r d ns item Hfresh Hsteps Hr Hd Hitem)
    as [(requests & permitted & document' & el & Hin & Hreq & Huser & Hdoc' & Hauth & Hst) Hdocs].
  rewrite Hdt in *. rewrite Hdocs, Hdoc in Hdoc'. injection Hdoc' as <-.
  pose proof (issued_stored _ _ _ ns el Hissue) as Hgiven. destruct (given _ ns el) as [v|] eqn:Hv; [|congruence].
  destruct Hgiven as (item' & Hst' & Hcarries). rewrite Hst in Hst'. injection Hst' as <-.
  by exists requests, permitted, el, v.
Qed.

(** C7: What arrives is what the issuer gave. When the device holds an issued credential,
    then in any run on such a network every item that the reader receives in a
    document of the credential's type carries, for an element that the reader
    requested and the user permitted in some call, exactly the value the issuer was
    given, its digest is in the mobile security object, and that object is the
    payload under the issuer's signature that comes with the item. *)
Theorem received_issued (i : issuance (R := R) (E := E)) mdoc document ch0 ch r d ns item :
  issue (VK := VK) (Sig := Sig) i = Some (Ok (mdoc, document)) →
  nem (sm_documents (ch_dev ch0)) !! iss_doc_type i = Some document →
  fresh_channel ch0 → rtc (channel_step (VK := VK) (Sig := Sig) now) ch0 ch →
  r ∈ received ch → d ∈ default [] (nev <$> rs_documents r) → rd_doc_type d = iss_doc_type i →
  item ∈ items_of (rd_issuer_signed d) ns →
  ∃ requests permitted el v, (requests, permitted) ∈ permissions ch ∧
    reader_requests requests (iss_doc_type i) ns el ∧ user_permits permitted (iss_doc_type i) ns el ∧
    given (iss_namespaces i) ns el = Some v ∧ carries (doc_mso document) ns el v item ∧
    ∃ t b, Tag24_new (doc_mso document) = Ok t ∧ to_vec t = Ok b ∧
      s1_payload (message (issuer_auth (rd_issuer_signed d))) = Some b.
Proof.
  intros Hissue Hdoc Hfresh Hsteps Hr Hd Hdt Hitem.
  destruct (received_carries i mdoc document ch0 ch r d ns item Hissue Hdoc Hfresh Hsteps Hr Hd Hdt Hitem)
    as (requests & permitted & el & v & Hin & Hreq & Huser & Hv & Hcarries & Hauth).
  exists requests, permitted, el, v. rewrite <-Hauth. split_and!; [done..|].
  by destruct (issued_payload _ _ _ Hissue) as (_ & _ & Hpayload).
Qed.

(** What the reader reports comes from a response it decrypted. *)
Lemma handle_response_reports rdr msg rdr' o ns j :
  handle_response (VK := VK) (Sig := Sig) now rdr msg = Some (rdr', o) → response o !! ns = Some j →
  ∃ r parsed, (decrypt_response rdr msg).2 = Ok r ∧ parse_namespaces r = Some (Ok parsed) ∧ parsed !! ns = Some j.
Proof.
  unfold handle_response. destruct (decrypt_response rdr msg) as [rdr1 [r|e]];
    [|intros [= <- <-]; cbn [response response_failed]; by intros ?%lookup_empty_Some].
  destruct (parse r) as [[[[document x] namespaces]|e]|] eqn:Hp; cbn [mbind option_bind]; [| |done].
  2:{ intros [= <- <-]. cbn [response response_failed]. by intros ?%lookup_empty_Some. }
  apply parse_Ok in Hp as (_ & _ & Hns). destruct (validate_response _ _ _ _ _ _) as [o'|] eqn:Hv; [|done].
  cbn [mbind option_bind]. intros [= <- <-] Hj. apply validate_response_verdicts in Hv as (Hresp & _).
  exists r, namespaces. rewrite Hresp in Hj. by split_and!.
Qed.

(** C8: The reader's report is the issuer's word. When the device holds an issued mDL, then
    in any run on such a network, whatever message arrives at the reader: everything
    its outcome reports is, in the core or the AAMVA namespace, an object in which each
    entry is the JSON form of exactly the value that the issuer was given for that
    element, an element which the reader requested and the user permitted in some call
    of the run. *)
Theorem reported_issued (i : issuance (R := R) (E := E)) mdoc document ch0 ch msg rdr o ns j :
  issue (VK := VK) (Sig := Sig) i = Some (Ok (mdoc, document)) → iss_doc_type i = MDL_DOC_TYPE →
  nem (sm_documents (ch_dev ch0)) !! MDL_DOC_TYPE = Some document →
  fresh_channel ch0 → rtc (channel_step (VK := VK) (Sig := Sig) now) ch0 ch →
  unforged ch (rdr_sk_device (ch_rdr ch)) msg →
  handle_response (VK := VK) (Sig := Sig) now (ch_rdr ch) msg = Some (rdr, o) → response o !! ns = Some j →
  ns ∈ [CORE_NAMESPACE; AAMVA_NAMESPACE] ∧
  ∃ object, j = JObject (entries object) ∧
    ∀ el value, object !! el = Some value →
    ∃ requests permitted v, (requests, permitted) ∈ permissions ch ∧
      reader_requests requests MDL_DOC_TYPE ns el ∧ user_permits permitted MDL_DOC_TYPE ns el ∧
      given (iss_namespaces i) ns el = Some v ∧ parse_response v = Some (Ok value).
Proof.
  intros Hissue Hmdl Hdoc Hfresh Hsteps Hauth Hh Hj.
  destruct (handle_response_reports _ _ _ _ _ _ Hh Hj) as (r & parsed & Hdec & Hp & Hparsed).
  destruct (parse_namespaces_sound _ _ _ _ Hp Hparsed)
    as (Hns & docs & d & m & items & object & Hdocs & Hd & Hdt & Hm & Hitems & Hobject & ->).
  split; [exact Hns|]. exists object. split; [done|]. intros el value Hvalue.
  destruct (parse_items_sound _ _ Hobject el value Hvalue) as (item & Hin & Hid & Hjson).
  rewrite <-Hmdl in Hdoc, Hdt.
  destruct (received_carries i mdoc document ch0 (reader_receives ch msg rdr) r d ns item)
    as (requests & permitted & el' & v & Hperm & Hreq & Huser & Hv & (Hid' & Hval & _) & _); try done.
  - apply (rtc_r _ _ _ Hsteps). by eapply step_response_arrives.
  - cbn [reader_receives received]. rewrite Hdec. apply elem_of_app. right. by left.
  - by rewrite Hdocs.
  - unfold items_of. rewrite Hm. cbn [mbind option_bind]. by rewrite Hitems.
  - assert (el' = el) as -> by congruence. exists requests, permitted, v. rewrite <-Hmdl. rewrite Hval in Hjson. by split_and!.
Qed.
End issued.

(** ** From the QR code on *)

Section established.
Context `{SerdeLaws Value, !SerdeBytes Value}.
#[local] Existing Instance cose_key_serde.
#[local] Existing Instance cose_key_serde_laws.
Context `{!EngagementReaders, !EngagementReadersLaws}.
#[local] Existing Instance engagement_serde.
Context `{EcdhLaws, Base64Laws, Hkdf, Serde SessionTranscript180135, Sha256Compress}.
Context `{Serde ItemsRequest, !SerdeWf ItemsRequest ItemsRequest_wf, Serde DeviceRequestInfo}.
Context `{Serde DeviceRequest, FromValue DeviceRequest, !FromValueWf DeviceRequest DeviceRequest_wf}.
Context `{Serde IssuerSignedItem, Serde DeviceNamespaces, !SerdeLaws DeviceNamespaces, !Serde Mso.Mso}.
Context `{Serde DeviceResponse, !SerdeWf DeviceResponse DeviceResponse_wf, Serde SessionData}.
Context `{AeadBackendLaws}.
Context `{Serde SessionEstablishment, !SerdeWf SessionEstablishment SessionEstablishment_wf}.
Context `{Serde (DeviceAuthentication SessionTranscript180135), Serde ReaderAuthentication} `{ToBeSigned} `{!PointBytes}.
Context `{Der, Sha1, Sha2} {VK Sig : Type} `{Ecdsa VK Sig} (now : Z) `{JsonInteger}.

(** The network after the reader's first message has arrived. *)
Definition established_channel (dev : SessionManager) (rdr : ReaderSession) (first : bytes) : channel := {|
  ch_dev := dev; ch_rdr := rdr; sealed := [(rdr_sk_reader rdr, nonce_of 0 true, first)]; requested := []; shown := [];
  permissions := []; responded := []; received := [] |}.

(** C4: A session established through a QR code is a secure channel from its first
    message on. When a reader has scanned the code of a device that was just
    initialised and the device has processed the reader's message, the device shows
    exactly the reader's items, and then, on a network whose adversary delivers
    anything but forgeries, the requests shown to the user are the reader's in order,
    the responses decrypted by the reader are the device's in order, and the
    counters at both ends count the messages of the session, the first included. *)
Theorem established_session_secure sk_d sk_r documents drms srms init eng uri namespaces reg_r reg_d rdr msg ident :
  retrieval_wf drms srms → RequestNamespaces_wf namespaces → documents_wf documents →
  initialise sk_d documents drms srms = Ok init → qr_engagement init = (eng, uri) →
  establish_session sk_r uri namespaces reg_r = Some (Ok (rdr, msg, ident)) →
  ∃ establishment dev outcome,
    from_slice (T := SessionEstablishment) msg = Ok establishment ∧
    process_session_establishment (VK := VK) (Sig := Sig) now eng establishment reg_d = Some (Ok (dev, outcome)) ∧
    ro_items_request outcome = [mdl_request namespaces] ∧ ro_errors outcome = ∅ ∧
    ∀ ch,
      rtc (channel_step (VK := VK) (Sig := Sig) now)
        (established_channel dev rdr (bytestr (se_data establishment))) ch →
      shown ch `prefix_of` ((λ p, [mdl_request p.1]) <$> requested ch) ∧
      received ch `prefix_of` (fst <$> responded ch) ∧
      reader_message_counter (ch_dev ch) = (1 + Z.of_nat (length (shown ch)))%Z ∧
      rdr_device_message_counter (ch_rdr ch) = Z.of_nat (length (received ch)).
Proof.
  intros Hret Hns Hdocs Hinit Hqr Hest.
  destruct (session_establishes (VK := VK) (Sig := Sig) now sk_d sk_r documents drms srms init eng uri namespaces reg_r reg_d
    rdr msg ident Hret Hns Hinit Hqr Hest)
    as (establishment & dev & outcome & Hmsg & Hp & Hlink & Hst & Hdocs' & Hcd & Hcr & Hitems & Herrs & _).
  exists establishment, dev, outcome. do 4 (split; [done|]). intros ch Hsteps.
  set (ch0 := established_channel _ _ _) in Hsteps.
  assert (fresh_channel ch0) as Hfresh.
  { unfold fresh_channel. cbn [ch0 established_channel ch_dev ch_rdr sealed requested shown permissions responded received].
    rewrite Hcd, Hcr. split; [exact Hlink|]. split; [split; [by rewrite Hdocs'|by rewrite Hst]|].
    do 2 (split; [done|]). split; [|done]. intros key iv ct [= -> -> ->]%list_elem_of_singleton. by exists 0%Z, true. }
  destruct (channel_steps_refine now _ _ _ _ (fresh_channel_inv _ Hfresh) Hsteps) as [[_ _ _ Hreq Hresp (_ & Hc & _) (_ & Hc' & _) _ _ _] _].
  split; [by apply queue_ordered_prefix in Hreq|]. split; [by apply queue_ordered_prefix in Hresp|].
  rewrite Hc, Hc'. cbn [ch0 established_channel ch_dev]. by rewrite Hcd, Hcr.
Qed.
End established.
