(* ===== verification/JsonCredential.v ===== *)
(** * A credential made from JSON, and what the reader reports of it

    The values that the namespaces write have a form in the reader's JSON, so that
    the credential issued from a JSON description of its holder is reported
    completely: the theorem about the whole program, from
    [OrgIso1801351::from_json] to the reader's outcome. *)

From S2P Require Export Lifecycle CodeTables.

(** ** Values that the reader can report *)

Section sendable.
Context `{JsonIntegerLaws}.

Definition sendable (v : Value) : bool := readable v && integers_fit v.
(** The element types whose values are all written in a reportable form. *)
Class Sendable (T : Type) `{ToCbor T} : Prop := sendable_cbor (t : T) : sendable (to_cbor t) = true.

Lemma sendable_integer i : (- 2 ^ 63 ≤ i ≤ u64_max)%Z → sendable (Integer i) = true.
Proof. intros Hi. unfold sendable. cbn [readable integers_fit andb]. apply bool_decide_eq_true. by rewrite json_integer_spec, bool_decide_true. Qed.
Lemma sendable_array l : Forall (λ v, sendable v = true) l → sendable (Array l) = true.
Proof.
  intros Hl. unfold sendable in *. cbn [readable integers_fit]. apply andb_true_iff.
  split; apply forallb_forall; intros v Hv%list_elem_of_In; rewrite Forall_forall in Hl; specialize (Hl v Hv);
    by apply andb_true_iff in Hl as [? ?].
Qed.
Lemma sendable_map (m : btree string Value) : (∀ k v, m !! k = Some v → sendable v = true) → sendable (ns_map_to_cbor m) = true.
Proof.
  intros Hm. unfold sendable, ns_map_to_cbor. cbn [readable integers_fit]. apply andb_true_iff.
  split; apply forallb_forall; intros [k v] Hv%list_elem_of_In%list_elem_of_fmap;
    destruct Hv as ([k' v'] & [= -> ->] & Hin%entries_lookup); specialize (Hm _ _ Hin);
    by apply andb_true_iff in Hm as [? ?].
Qed.

(** A map has only the values that were inserted. *)
Lemma collect_values {V} (P : V → Prop) (l : list (string * V)) k v :
  Forall (λ p : string * V, P p.2) l → collect l !! k = Some v → P v.
Proof.
  induction l as [|[k' v'] l IH] using rev_ind; [done|]. intros [Hl Hone]%Forall_app Hv. rewrite collect_snoc in Hv.
  destruct (decide (k = k')) as [->|Hne].
  - rewrite lookup_insert_eq in Hv. injection Hv as <-. by apply Forall_cons in Hone as [? _].
  - rewrite lookup_insert_ne in Hv by done. by apply IH.
Qed.

Definition sendable_conversion (c : Conversion) : Prop := Forall (λ p : string * Value, sendable p.2 = true) c.
Lemma sendable_conversions cs k v :
  Forall sendable_conversion cs → named_to_ns_map cs !! k = Some v → sendable v = true.
Proof. intros Hcs. apply (collect_values (λ v, sendable v = true)), Forall_concat. exact Hcs. Qed.
Lemma mandatory_sendable {T} `{Sendable T} name (t : T) : sendable_conversion (mandatory_field name t).
Proof. constructor; [apply sendable_cbor|constructor]. Qed.
Lemma optional_sendable {T} `{Sendable T} name (o : option T) : sendable_conversion (optional_field name o).
Proof. destruct o; [|constructor]. constructor; [apply sendable_cbor|constructor]. Qed.
Lemma optional_integer_sendable name (o : option u32) :
  match o with Some n => (0 ≤ n ≤ u32_max)%Z | None => True end → sendable_conversion (optional_field name o).
Proof.
  destruct o as [n|]; [|constructor]. intros Hn. constructor; [|constructor].
  apply sendable_integer. unfold u32_max, u64_max in *. lia.
Qed.
Lemma many_sendable {T} `{ToNamespaceMap T} (t : T) :
  (∀ k v, to_ns_map t !! k = Some v → sendable v = true) → sendable_conversion (many_field t).
Proof.
  intros Ht. apply Forall_forall. intros [k v] Hin%entries_lookup. by apply (Ht k).
Qed.

(** *** The element types *)

#[export] Instance sendable_string : Sendable string. Proof. done. Qed.
#[export] Instance sendable_bytestr : Sendable ByteStr. Proof. done. Qed.
#[export] Instance sendable_latin1 : Sendable Latin1. Proof. done. Qed.
#[export] Instance sendable_full_date : Sendable FullDate. Proof. done. Qed.
#[export] Instance sendable_tdate : Sendable TDate. Proof. done. Qed.
#[export] Instance sendable_tdate_or : Sendable TDateOrFullDate. Proof. by intros []. Qed.
#[export] Instance sendable_alpha2 : Sendable Alpha2Codes.Alpha2. Proof. done. Qed.
#[export] Instance sendable_sign : Sendable UNSigns.UNDistinguishingSign. Proof. done. Qed.
#[export] Instance sendable_eye : Sendable EyeColour. Proof. done. Qed.
#[export] Instance sendable_hair : Sendable HairColour. Proof. done. Qed.
#[export] Instance sendable_jurisdiction : Sendable IssuingJurisdiction. Proof. done. Qed.
#[export] Instance sendable_category : Sendable VehicleCategoryCode. Proof. done. Qed.
#[export] Instance sendable_suffix : Sendable NameSuffix. Proof. done. Qed.
#[export] Instance sendable_truncation : Sendable NameTruncation. Proof. done. Qed.
#[export] Instance sendable_compliance : Sendable DHSCompliance. Proof. done. Qed.
#[export] Instance sendable_race : Sendable RaceAndEthnicity. Proof. done. Qed.
#[export] Instance sendable_county : Sendable CountyCode. Proof. done. Qed.
#[export] Instance sendable_sex : Sendable Sex. Proof. intros []; apply sendable_integer; by vm_compute. Qed.
#[export] Instance sendable_aamva_sex : Sendable AamvaSex. Proof. intros []; apply sendable_integer; by vm_compute. Qed.
#[export] Instance sendable_edl : Sendable EDLIndicator. Proof. intros []; apply sendable_integer; by vm_compute. Qed.
#[export] Instance sendable_weight : Sendable WeightRange. Proof. intros []; apply sendable_integer; by vm_compute. Qed.
#[export] Instance sendable_present : Sendable Present. Proof. intros []; apply sendable_integer; by vm_compute. Qed.

Lemma sendable_sequence {T} `{Sendable T} (l : list T) : sendable (Array (to_cbor <$> l)) = true.
Proof. apply sendable_array, Forall_fmap, Forall_forall. intros t _. apply sendable_cbor. Qed.
End sendable.

(** Field by field. *)
Ltac sendable_fields :=
  repeat (apply Forall_cons; split; [first [exact (mandatory_sendable _ _) | exact (optional_sendable _ _)]|]); apply Forall_nil_2.
Ltac sendable_struct := intros ?; apply sendable_map; intros ? ?; apply sendable_conversions; sendable_fields.

Section structs.
Context `{JsonIntegerLaws}.
#[export] Instance sendable_code : Sendable Code. Proof. sendable_struct. Qed.
#[export] Instance sendable_codes : Sendable Codes. Proof. intros c. apply (sendable_sequence (nev (codes_vec c))). Qed.
#[export] Instance sendable_privilege : Sendable DrivingPrivilege. Proof. sendable_struct. Qed.
#[export] Instance sendable_privileges : Sendable DrivingPrivileges. Proof. intros d. apply (sendable_sequence (privileges d)). Qed.
#[export] Instance sendable_class : Sendable DomesticVehicleClass. Proof. sendable_struct. Qed.
#[export] Instance sendable_restriction : Sendable DomesticVehicleRestriction. Proof. sendable_struct. Qed.
#[export] Instance sendable_restrictions : Sendable DomesticVehicleRestrictions.
Proof. intros d. apply (sendable_sequence (nev (restrictions d))). Qed.
#[export] Instance sendable_endorsement : Sendable DomesticVehicleEndorsement. Proof. sendable_struct. Qed.
#[export] Instance sendable_endorsements : Sendable DomesticVehicleEndorsements.
Proof. intros d. apply (sendable_sequence (nev (endorsements d))). Qed.
#[export] Instance sendable_domestic : Sendable DomesticDrivingPrivilege. Proof. sendable_struct. Qed.
#[export] Instance sendable_domestics : Sendable DomesticDrivingPrivileges.
Proof. intros d. apply (sendable_sequence (domestic_privileges d)). Qed.

Lemma age_sendable a : sendable_conversion (many_field (A := AgeOver) a).
Proof.
  apply many_sendable. intros k v. apply (collect_values (λ v, sendable v = true)), Forall_fmap, Forall_forall. done.
Qed.
Lemma biometric_sendable b : sendable_conversion (many_field (A := BiometricTemplate) b).
Proof.
  apply many_sendable. intros k v. apply (collect_values (λ v, sendable v = true)), Forall_fmap, Forall_forall. done.
Qed.

(** *** The namespaces *)

(** The numbers of the namespace are of the type [u32]. *)
Definition is_u32 (o : option Z) : Prop := match o with Some n => (0 ≤ n ≤ u32_max)%Z | None => True end.
Definition iso_numbers (ns : OrgIso1801351) : Prop :=
  is_u32 (height ns) ∧ is_u32 (weight ns) ∧ is_u32 (age_in_years ns) ∧ is_u32 (age_birth_year ns).

Lemma iso_sendable ns k v : iso_numbers ns → OrgIso1801351_to_ns_map ns !! k = Some v → sendable v = true.
Proof.
  intros (Hh & Hw & Ha & Hb). apply sendable_conversions. unfold OrgIso1801351_conversions.
  repeat (apply Forall_cons; split; [first [by apply (optional_integer_sendable (H0 := _)) | exact (mandatory_sendable _ _)
    | exact (optional_sendable _ _) | apply age_sendable | apply biometric_sendable]|]); apply Forall_nil_2.
Qed.
Lemma aamva_sendable ns k v : OrgIso1801351Aamva_to_ns_map ns !! k = Some v → sendable v = true.
Proof. apply sendable_conversions. unfold OrgIso1801351Aamva_conversions. sendable_fields. Qed.
End structs.

(** ** The credential of a JSON description *)

Section described.
Context `{UnicodeCase, DateParse, Rfc3339, Base64Standard}.

Lemma option_u32 o x : from_json_opt (T := option Z) o = Some (Ok x) → is_u32 x.
Proof.
  cbn [from_json_opt option_from].
  destruct o as [[]|]; try by intros [= <-]. unfold option_from_json_opt, from_json, u32_from, FromJson_new, u32_from_json.
  destruct (Z.ltb_spec n 0); [done|]. destruct (Z.leb_spec n u32_max); [|done]. intros [= <-]. cbn. lia.
Qed.
(** Numbers that are read are of the type [u32]. *)
Lemma iso_numbers_read m core : OrgIso1801351_from_json (JObject m) = Some (Ok core) → iso_numbers core.
Proof.
  intros Hcore%finish_fields_Ok. unfold OrgIso1801351_fields in Hcore. inv_fields Hcore.
  repeat split; cbn [height weight age_in_years age_birth_year]; eapply option_u32; eassumption.
Qed.

(** The namespaces of an mDL. *)
Definition mdl_namespaces (core : OrgIso1801351) (aamva : OrgIso1801351Aamva) : Namespaces :=
  collect [(CORE_NAMESPACE, OrgIso1801351_to_ns_map core); (AAMVA_NAMESPACE, OrgIso1801351Aamva_to_ns_map aamva)].
Lemma mdl_namespaces_lookup core aamva :
  mdl_namespaces core aamva !! CORE_NAMESPACE = Some (OrgIso1801351_to_ns_map core) ∧
  mdl_namespaces core aamva !! AAMVA_NAMESPACE = Some (OrgIso1801351Aamva_to_ns_map aamva).
Proof.
  assert (∀ (x y : btree string Value), NoDup [(CORE_NAMESPACE, x); (AAMVA_NAMESPACE, y)].*1) as Hnd.
  { intros x y. apply (bool_decide_unpack _). by vm_compute. }
  unfold mdl_namespaces. split; apply collect_lookup; [by apply Hnd|by left|by apply Hnd|by right; left].
Qed.
End described.

(** ** What is reported *)

Section described_reports.
Context `{JsonIntegerLaws}.

Definition json_of (o : option Value) : option Json := v ← o; r ← parse_response v; rok r.

Lemma sendable_parses v : sendable v = true → is_Some (json_of (Some v)).
Proof.
  intros [Hr Hf]%andb_true_iff. destruct (parse_response_parses v Hf) as (r & Hp & Hok). rewrite Hr in Hok.
  unfold json_of. cbn [mbind option_bind]. rewrite Hp. destruct r; [by eexists|done].
Qed.

(** The report of a namespace: an object with exactly the asked elements that there
    are, each as the JSON form of its value; none if there are none of them. *)
Definition reported_object (asked : string → Prop) (element : string → option Value) (r : option Json) : Prop :=
  match r with
  | Some j => ∃ object, j = JObject (entries object) ∧
      (∀ el, is_Some (object !! el) ↔ asked el ∧ is_Some (element el)) ∧
      (∀ el v, object !! el = Some v → json_of (element el) = Some v)
  | None => ∀ el, asked el → element el = None
  end.

Lemma reported_as_object l asked element r :
  (∀ el v, (el, v) ∈ l ↔ asked el ∧ element el = Some v) → (∀ el v, element el = Some v → sendable v = true) →
  reported_as l r → reported_object asked element r.
Proof.
  intros Hl Hsend Hr. destruct l as [|p l'] eqn:El.
  - cbn [reported_as] in Hr. subst r. intros el Hasked. destruct (element el) as [v|] eqn:Hel; [|done].
    assert ((el, v) ∈ ([] : list (string * Value))) as []%elem_of_nil. by apply Hl.
  - destruct Hr as (object & -> & Hobject). rewrite <-El in Hobject, Hl. exists object. split; [done|]. split.
    + intros el. split.
      * intros [j (v & [? Hv]%Hl & _)%Hobject]. split; [done|by exists v].
      * intros [Hasked [v Hv]]. destruct (sendable_parses v (Hsend _ _ Hv)) as [j Hj]. exists j. apply Hobject. exists v.
        split; [by apply Hl|]. unfold json_of in Hj. cbn [mbind option_bind] in Hj.
        destruct (parse_response v) as [[j'|]|]; [|discriminate Hj..]. cbn [mbind option_bind rok] in Hj. by injection Hj as ->.
    + intros el j (v & [_ Hv]%Hl & Hp)%Hobject. rewrite Hv. unfold json_of. cbn [mbind option_bind]. by rewrite Hp.
Qed.
End described_reports.

Section whole.
Context `{UnicodeCase, DateParse, Rfc3339, Base64Standard}.
Context `{Serde ItemsRequest, !SerdeWf ItemsRequest ItemsRequest_wf, Serde DeviceRequestInfo}.
Context `{Serde DeviceRequest, SerdeLaws Value, FromValue DeviceRequest, !FromValueWf DeviceRequest DeviceRequest_wf}.
Context `{Serde IssuerSignedItem, Serde DeviceNamespaces, !SerdeLaws DeviceNamespaces, !Serde Mso.Mso, !Rfc3339Laws, !MsoSerde}.
Context `{Serde DeviceResponse, !SerdeWf DeviceResponse DeviceResponse_wf, Serde SessionData, !SerdeLaws SessionData}.
Context `{AeadBackendLaws}.
Context `{Serde (DeviceAuthentication SessionTranscript180135), Serde ReaderAuthentication} `{ToBeSigned} `{PointBytes}.
Context `{Der, Sha1, Sha2Laws} {VK Sig : Type} `{Ecdsa VK Sig} (now : Z) `{JsonIntegerLaws}.
Context {fuel : RetryFuel} {R E : Type} `{RngLaws R} `{!DigestExecutor E, !DigestExecutorCorrect E}.
Context (Hitems : ∀ x : ItemsRequest, is_ok (to_vec x)) (Hrequest : ∀ x : DeviceRequest, is_ok (to_vec x))
  (Hresponse : ∀ x : DeviceResponse, is_ok (to_vec x)) (Hdata : ∀ x : SessionData, is_ok (to_vec x)).
Context (Hnamespaces : is_ok (to_vec (∅ : DeviceNamespaces)))
  (Hauthentication : ∀ x : DeviceAuthentication SessionTranscript180135, is_ok (to_vec x))
  (Hvalue : ∀ v : Value, is_ok (to_vec v)).

(** What the issuer was given under each name of the two namespaces. *)
Lemma described_elements (i : issuance (R := R) (E := E)) m a core aamva :
  NoDup m.*1 → OrgIso1801351_from_json (JObject m) = Some (Ok core) →
  OrgIso1801351Aamva_from_json (JObject a) = Some (Ok aamva) → iss_namespaces i = mdl_namespaces core aamva →
  (∀ el, given (iss_namespaces i) CORE_NAMESPACE el = iso_element m el) ∧
  (∀ el, given (iss_namespaces i) AAMVA_NAMESPACE el = aamva_element a el) ∧
  ∀ ns el v, given (iss_namespaces i) ns el = Some v → sendable v = true.
Proof.
  intros Hnd Hcore Haamva ->. destruct (mdl_namespaces_lookup core aamva) as [Hc Ha]. unfold given. rewrite Hc, Ha. cbn [mbind option_bind].
  split_and!; [intros el; by apply iso_reads|intros el; by apply aamva_reads|].
  intros ns el v Hv. destruct (mdl_namespaces core aamva !! ns) as [elements|] eqn:Hns; [|done]. cbn [mbind option_bind] in Hv.
  apply collect_lookup in Hns; [|apply (bool_decide_unpack _); by vm_compute].
  apply elem_of_cons in Hns as [[= -> ->]|[= -> ->]%list_elem_of_singleton].
  - apply (iso_sendable core el); [by apply (iso_numbers_read m)|done].
  - by apply (aamva_sendable aamva el).
Qed.

(** C9: From a JSON description to the reader's report. Let the issuer read the elements of the
    mDL and AAMVA namespaces from two JSON objects, issue a credential of them under
    a chain that the reader's registry trusts, and let the holder's device present it,
    some element of the mDL namespace being asked for, permitted and described. Then
    the exchange succeeds with both verdicts valid and no error, and the reader
    reports for each of the two namespaces exactly the described elements that it asked for
    and the user permitted, none missing and each as the JSON form of the CBOR its JSON
    was read into, and nothing of any other namespace. *)
Theorem described_credential_reported (i : issuance (R := R) (E := E)) m a core aamva mdoc document dev rdr key namespaces
    permitted signature :
  NoDup m.*1 → OrgIso1801351_from_json (JObject m) = Some (Ok core) →
  OrgIso1801351Aamva_from_json (JObject a) = Some (Ok aamva) → iss_namespaces i = mdl_namespaces core aamva →
  issue (VK := VK) (Sig := Sig) i = Some (Ok (mdoc, document)) →
  accepted_issuance (VK := VK) (Sig := Sig) now (rdr_trust_anchor_registry rdr) i →
  presentable (Sig := Sig) dev document key → linked dev rdr → session_wf dev → keys_work dev →
  (device_message_counter dev + 1 ≤ u32_max)%Z → (reader_message_counter dev + 1 ≤ u32_max)%Z → RequestNamespaces_wf namespaces →
  let asked ns el := user_permits permitted MDL_DOC_TYPE ns el ∧ reader_requests [mdl_request namespaces] MDL_DOC_TYPE ns el in
  (∃ el, asked CORE_NAMESPACE el ∧ is_Some (iso_element m el)) →
  Forall (λ pd, signed_by (VK := VK) (Sig := Sig) key pd signature)
    (prepared_documents (turn_prepared dev (namespaces, permitted, [signature]))) →
  ∃ dev' rdr' o,
    presentation (VK := VK) (Sig := Sig) now dev rdr (namespaces, permitted, [signature]) = Some (dev', rdr', o) ∧
    ao_issuer_authentication o = Valid ∧ ao_device_authentication o = Valid ∧ ao_errors o = ∅ ∧
    reported_object (asked CORE_NAMESPACE) (iso_element m) (response o !! CORE_NAMESPACE) ∧
    reported_object (asked AAMVA_NAMESPACE) (aamva_element a) (response o !! AAMVA_NAMESPACE) ∧
    ∀ ns, ns ∉ [CORE_NAMESPACE; AAMVA_NAMESPACE] → response o !! ns = None.
Proof.
  intros Hnd Hcore Haamva Hgiven Hissue Haccepted Hpres Hlink Hwf Hkeys Hmaxd Hmaxr Hrns asked (el & Hasked & v & Hv) Hsigned.
  destruct (described_elements i m a core aamva Hnd Hcore Haamva Hgiven) as (Hiso & Haa & Hsend).
  pose proof Haccepted as (Hdt & _).
  assert (∀ ns el v, (el, v) ∈ shared i [mdl_request namespaces] permitted ns ↔
    asked ns el ∧ given (iss_namespaces i) ns el = Some v) as Hshared by (intros; rewrite shared_elem, Hdt; done).
  destruct (accepted_report now Hitems Hrequest Hresponse Hdata Hnamespaces Hauthentication Hvalue
    i mdoc document dev rdr key namespaces permitted signature) as (dev' & rdr' & o & Ho & _ & Hi & Hd & He & Hr); try done.
  { intros Hnil. assert ((el, v) ∈ shared i [mdl_request namespaces] permitted CORE_NAMESPACE) as Hin
      by (apply Hshared; by rewrite Hiso). rewrite Hnil in Hin. by apply elem_of_nil in Hin. }
  { intros ns el' w [_ Hw]%Hshared. apply Hsend, andb_true_iff in Hw. by destruct Hw. }
  exists dev', rdr', o. split_and!; [done..| | |].
  - pose proof (Hr CORE_NAMESPACE) as Hc. rewrite decide_True in Hc by by left.
    eapply reported_as_object, Hc; [intros; by rewrite Hshared, Hiso|]. intros el' w. rewrite <-Hiso. apply Hsend.
  - pose proof (Hr AAMVA_NAMESPACE) as Hc. rewrite decide_True in Hc by by right; left.
    eapply reported_as_object, Hc; [intros; by rewrite Hshared, Haa|]. intros el' w. rewrite <-Haa. apply Hsend.
  - intros ns Hns. specialize (Hr ns). by rewrite decide_False in Hr.
Qed.
End whole.
