(* ===== verification/Concrete.v ===== *)
(** * Concrete codecs

    A byte-level serialization of every message type, which satisfies all the laws
    the development asks of [ciborium] and [serde].  Only witnesses use it: it shows
    that the hypotheses can hold together. *)

From S2P Require Export Protocol ReaderProps.

(** ** Self-delimiting integer codes *)

Class Codec (T : Type) := {
  enc : T → list Z;
  dec : list Z → option (T * list Z);
  dec_enc x r : dec (enc x ++ r) = Some (x, r);
}.

#[export] Instance Z_codec : Codec Z.
Proof. refine {| enc n := [n]; dec l := match l with n :: r => Some (n, r) | [] => None end |}. done. Defined.

Definition codec_iso {T A} `{Codec A} (f : T → A) (g : A → T) (Hgf : ∀ x, g (f x) = x) : Codec T.
Proof.
  refine {| enc x := enc (f x); dec l := '(a, r) ← dec l; Some (g a, r) |}.
  intros x r. rewrite dec_enc. cbn [mbind option_bind]. by rewrite Hgf.
Defined.

#[export] Instance prod_codec {A B} `{Codec A, Codec B} : Codec (A * B).
Proof.
  refine {| enc p := enc p.1 ++ enc p.2; dec l := '(a, r) ← dec l; '(b, r) ← dec r; Some ((a, b), r) |}.
  intros [a b] r. cbn [fst snd]. rewrite <-app_assoc, dec_enc. cbn [mbind option_bind]. by rewrite dec_enc.
Defined.

#[export] Instance sum_codec {A B} `{Codec A, Codec B} : Codec (A + B).
Proof.
  refine {| enc s := match s with inl a => 0%Z :: enc a | inr b => 1%Z :: enc b end;
            dec l := match l with
                     | 0%Z :: r => '(a, r) ← dec r; Some (inl a, r)
                     | 1%Z :: r => '(b, r) ← dec r; Some (inr b, r)
                     | _ => None
                     end |}.
  intros [a|b] r; cbn [app]; by rewrite dec_enc.
Defined.

#[export] Instance unit_codec : Codec unit.
Proof. refine {| enc _ := []; dec l := Some (tt, l) |}. by intros []. Defined.

#[export] Instance list_codec {A} `{Codec A} : Codec (list A).
Proof.
  refine {| enc l := Z.of_nat (length l) :: concat (enc <$> l);
            dec l := match l with n :: r => decode_many dec (Z.to_nat n) r | [] => None end |}.
  intros l r. cbn [app]. rewrite Nat2Z.id. apply decode_many_spec. apply Forall_forall. intros x _ r'. apply dec_enc.
Defined.

(** ** Bytes for integers *)

Fixpoint pos_bits (p : positive) : list Z :=
  match p with xH => [2%Z] | xO p => 0%Z :: pos_bits p | xI p => 1%Z :: pos_bits p end.
Fixpoint bits_pos (l : list Z) : option (positive * list Z) :=
  match l with
  | 0%Z :: r => '(p, r) ← bits_pos r; Some (xO p, r)
  | 1%Z :: r => '(p, r) ← bits_pos r; Some (xI p, r)
  | 2%Z :: r => Some (xH, r)
  | _ => None
  end.
(** Small numbers are themselves, the others an escape, their sign and their bits. *)
Definition item_bytes (n : Z) : list Z :=
  if bool_decide (0 ≤ n < 250)%Z then [n]
  else match n with Zpos p => 254%Z :: pos_bits p | Zneg p => 255%Z :: pos_bits p | Z0 => [0%Z] end.
Definition bytes_item (l : list Z) : option (Z * list Z) :=
  match l with
  | 254%Z :: r => '(p, r) ← bits_pos r; Some (Zpos p, r)
  | 255%Z :: r => '(p, r) ← bits_pos r; Some (Zneg p, r)
  | n :: r => Some (n, r)
  | [] => None
  end.
Fixpoint bytes_items (fuel : nat) (l : list Z) : list Z :=
  match fuel with
  | O => []
  | S fuel' => match bytes_item l with Some (n, r) => n :: bytes_items fuel' r | None => [] end
  end.
Definition items_bytes (l : list Z) : list Z := concat (item_bytes <$> l).

Lemma bits_pos_bits p r : bits_pos (pos_bits p ++ r) = Some (p, r).
Proof. induction p as [p IH|p IH|]; cbn [pos_bits app bits_pos]; rewrite ?IH; done. Qed.

Lemma bytes_item_bytes n r : bytes_item (item_bytes n ++ r) = Some (n, r).
Proof.
  unfold item_bytes. case_bool_decide as Hn.
  - cbn [app bytes_item]. destruct n as [|p|p]; try done; try lia.
    do 8 (destruct p as [p|p|]; try done; try lia).
  - destruct n as [|p|p]; cbn [app bytes_item]; [done|by rewrite bits_pos_bits..].
Qed.

Lemma item_bytes_length n : 1 ≤ length (item_bytes n).
Proof. unfold item_bytes. case_bool_decide; [done|]. destruct n; simpl; lia. Qed.

Lemma bytes_items_bytes l fuel : length (items_bytes l) ≤ fuel → bytes_items fuel (items_bytes l) = l.
Proof.
  unfold items_bytes. revert fuel. induction l as [|n l IH]; intros fuel Hf; [by destruct fuel|].
  rewrite fmap_cons in *. cbn [concat] in *. rewrite length_app in Hf. pose proof (item_bytes_length n).
  destruct fuel as [|fuel]; [lia|]. cbn [bytes_items]. rewrite bytes_item_bytes. f_equal. apply IH. lia.
Qed.

Lemma items_bytes_is_byte l : Forall is_byte (items_bytes l).
Proof.
  assert (∀ p, Forall is_byte (pos_bits p)) as Hp.
  { induction p; cbn [pos_bits]; constructor; try done; unfold is_byte; lia. }
  apply Forall_concat, Forall_fmap, Forall_forall. intros n _. cbn. unfold item_bytes. case_bool_decide.
  - constructor; [unfold is_byte; lia|done].
  - destruct n; constructor; try done; unfold is_byte; lia.
Qed.

(** ** Serialization through values *)

#[export] Instance byte_serde : Serde Value | 0 := {|
  to_vec v := Ok (items_bytes (raw_encode v));
  from_slice b := let l := bytes_items (length b) b in
                  match raw_decode (length l) l with Some (v, []) => Ok v | _ => Err DecodeFailed end;
|}.
#[export] Instance byte_serde_laws : SerdeLaws Value.
Proof.
  split. intros v b [= <-]. cbn [from_slice byte_serde]. rewrite bytes_items_bytes by done.
  pose proof (raw_decode_encode v _ [] (le_n _)) as Hv. rewrite app_nil_r in Hv. by rewrite Hv.
Qed.
#[export] Instance byte_serde_bytes : SerdeBytes Value.
Proof. split. intros v b [= <-]. apply items_bytes_is_byte. Qed.

Section codec_serde.
Context {T : Type} `{Codec T}.

(** A coded type as an array of integers. *)
Definition codec_into_value (x : T) : Value := Array (Integer <$> enc x).
Definition value_integer (v : Value) : option Z := match v with Integer n => Some n | _ => None end.
Definition codec_try_from (v : Value) : result T unit :=
  match v with
  | Array l => match dec (omap value_integer l) with Some (x, []) => Ok x | _ => Err tt end
  | _ => Err tt
  end.
Lemma codec_roundtrip x : codec_try_from (codec_into_value x) = Ok x.
Proof.
  unfold codec_try_from, codec_into_value.
  assert (omap value_integer (Integer <$> enc x) = enc x) as ->.
  { induction (enc x) as [|n l IH]; [done|]. cbn [fmap list_fmap omap list_omap value_integer]. f_equal. apply IH. }
  pose proof (dec_enc x []) as Hd. rewrite app_nil_r in Hd. by rewrite Hd.
Qed.
Definition codec_conv : ValueConv T unit := {| into_value := codec_into_value; try_from_value := codec_try_from |}.
#[local] Existing Instance codec_conv.
#[export] Instance codec_serde : Serde T | 100 := serde_via_value T unit.
#[export] Instance codec_serde_laws : SerdeLaws T.
Proof. apply serde_via_value_laws; [|apply _]. split. apply codec_roundtrip. Qed.
#[export] Instance codec_serde_wf (wf : T → Prop) : SerdeWf T wf.
Proof. split. intros x b _. apply from_slice_to_vec. Qed.
#[export] Instance codec_from_value : FromValue T | 100 := λ v, map_err (λ _, DecodeFailed) (codec_try_from v).
#[export] Instance codec_from_value_wf (wf : T → Prop) : FromValueWf T wf.
Proof.
  split. intros x b _ Hb. exists (codec_into_value x). split; [by apply from_slice_to_vec|].
  unfold cbor_from_value, codec_from_value. by rewrite codec_roundtrip.
Qed.
Lemma codec_total (x : T) : is_ok (to_vec x).
Proof. done. Qed.
End codec_serde.

(** ** Codes of the data types *)

#[export] Instance bool_codec : Codec bool.
Proof. refine (codec_iso (λ b : bool, if b then inl tt else inr tt) (λ s, match s with inl _ => true | inr _ => false end) _). by intros []. Defined.
#[export] Instance option_codec {A} `{Codec A} : Codec (option A).
Proof.
  refine (codec_iso (λ o, match o with Some x => inl x | None => inr tt end)
    (λ s, match s with inl x => Some x | inr _ => None end) _). by intros [].
Defined.
#[export] Instance string_codec : Codec string.
Proof. refine (codec_iso encode_string decode_string _). apply decode_encode_string. Defined.
#[export] Instance value_codec : Codec Value.
Proof.
  refine {| enc := raw_encode; dec l := raw_decode (length l) l |}.
  intros v r. apply raw_decode_encode. rewrite length_app. lia.
Defined.
#[export] Instance ByteStr_codec : Codec ByteStr.
Proof. refine (codec_iso bytestr (λ b, {| bytestr := b |}) _). by intros []. Defined.
#[export] Instance NonEmptyVec_codec {A} `{Codec A} : Codec (NonEmptyVec A).
Proof. refine (codec_iso nev (λ l, {| nev := l |}) _). by intros []. Defined.
#[export] Instance btree_codec {K V} `{OrdLaws K, EqDecision K, Codec K, Codec V} : Codec (btree K V).
Proof. refine (codec_iso entries collect _). apply collect_entries. Defined.
#[export] Instance NonEmptyMap_codec {K V} `{OrdLaws K, EqDecision K, Codec K, Codec V} : Codec (NonEmptyMap K V).
Proof. refine (codec_iso nem (λ m, {| nem := m |}) _). by intros []. Defined.
#[export] Instance Tag24_codec {A} `{Codec A} : Codec (Tag24 A).
Proof. refine (codec_iso (λ t, (inner t, inner_bytes t)) (λ p, {| inner := p.1; inner_bytes := p.2 |}) _). by intros []. Defined.
#[export] Instance MaybeTagged_codec {A} `{Codec A} : Codec (MaybeTagged A).
Proof. refine (codec_iso (λ t, (tagged t, message t)) (λ p, {| tagged := p.1; message := p.2 |}) _). by intros []. Defined.

(** *** COSE *)

#[export] Instance Algorithm_codec : Codec Algorithm.
Proof.
  refine (codec_iso (λ a, match a with ES256 => 0 | ES384 => 1 | ES512 => 2 | EdDSA => 3 | HMAC_256_256 => 4 end)%Z
    (λ n, match n with 0 => ES256 | 1 => ES384 | 2 => ES512 | 3 => EdDSA | _ => HMAC_256_256 end)%Z _). by intros [].
Defined.
#[export] Instance RegisteredAlgorithm_codec : Codec RegisteredAlgorithm.
Proof.
  refine (codec_iso (λ a, match a with Assigned a => inl a | PrivateUse n => inr (inl n) | AlgorithmText s => inr (inr s) end)
    (λ s, match s with inl a => Assigned a | inr (inl n) => PrivateUse n | inr (inr s) => AlgorithmText s end) _). by intros [].
Defined.
#[export] Instance Label_codec : Codec Label.
Proof.
  refine (codec_iso (λ a, match a with LabelInt n => inl n | LabelText s => inr s end)
    (λ s, match s with inl n => LabelInt n | inr s => LabelText s end) _). by intros [].
Defined.
#[export] Instance Header_codec : Codec Header.
Proof. refine (codec_iso (λ h, (hdr_alg h, hdr_rest h)) (λ p, {| hdr_alg := p.1; hdr_rest := p.2 |}) _). by intros []. Defined.
#[export] Instance CoseSign1_codec : Codec CoseSign1.
Proof.
  refine (codec_iso (λ c, (s1_protected c, s1_unprotected c, s1_payload c, s1_signature c))
    (λ '(a, b, c, d), {| s1_protected := a; s1_unprotected := b; s1_payload := c; s1_signature := d |}) _). by intros [].
Defined.
#[export] Instance CoseMac0_codec : Codec CoseMac0.
Proof.
  refine (codec_iso (λ c, (m0_protected c, m0_unprotected c, m0_payload c, m0_tag c))
    (λ '(a, b, c, d), {| m0_protected := a; m0_unprotected := b; m0_payload := c; m0_tag := d |}) _). by intros [].
Defined.

(** *** Requests *)

#[export] Instance ItemsRequest_codec : Codec ItemsRequest.
Proof.
  refine (codec_iso (λ c, (ir_doc_type c, ir_namespaces c, request_info c))
    (λ '(a, b, c), {| ir_doc_type := a; ir_namespaces := b; request_info := c |}) _). by intros [].
Defined.
#[export] Instance DocRequest_codec : Codec DocRequest.
Proof.
  refine (codec_iso (λ c, (items_request c, reader_auth c)) (λ '(a, b), {| items_request := a; reader_auth := b |}) _). by intros [].
Defined.
#[export] Instance UseCase_codec : Codec UseCase.
Proof.
  refine (codec_iso (λ c, (mandatory c, document_sets c, purpose_hints c))
    (λ '(a, b, c), {| mandatory := a; document_sets := b; purpose_hints := c |}) _). by intros [].
Defined.
#[export] Instance DeviceRequestInfo_codec : Codec DeviceRequestInfo.
Proof. refine (codec_iso use_cases (λ a, {| use_cases := a |}) _). by intros []. Defined.
#[export] Instance DeviceRequest_codec : Codec DeviceRequest.
Proof.
  refine (codec_iso (λ c, (dr_version c, doc_requests c, reader_auth_all c, device_request_info c))
    (λ '(a, b, c, d), {| dr_version := a; doc_requests := b; reader_auth_all := c; device_request_info := d |}) _). by intros [].
Defined.

(** *** Responses *)

#[export] Instance IssuerSignedItem_codec : Codec IssuerSignedItem.
Proof.
  refine (codec_iso (λ c, (digest_id c, random c, element_identifier c, element_value c))
    (λ '(a, b, c, d), {| digest_id := a; random := b; element_identifier := c; element_value := d |}) _). by intros [].
Defined.
#[export] Instance IssuerSigned_codec : Codec IssuerSigned.
Proof.
  refine (codec_iso (λ c, (is_namespaces c, issuer_auth c)) (λ '(a, b), {| is_namespaces := a; issuer_auth := b |}) _). by intros [].
Defined.
#[export] Instance DeviceAuth_codec : Codec DeviceAuth.
Proof.
  refine (codec_iso (λ a, match a with DeviceSignature s => inl s | DeviceMac m => inr m end)
    (λ s, match s with inl s => DeviceSignature s | inr m => DeviceMac m end) _). by intros [].
Defined.
#[export] Instance DeviceSigned_codec : Codec DeviceSigned.
Proof.
  refine (codec_iso (λ c, (dsg_namespaces c, device_auth c)) (λ '(a, b), {| dsg_namespaces := a; device_auth := b |}) _). by intros [].
Defined.
#[export] Instance DocumentErrorCode_codec : Codec DocumentErrorCode.
Proof.
  refine (codec_iso (λ a, match a with DataNotReturned => inl tt | ApplicationSpecific i => inr i end)
    (λ s, match s with inl _ => DataNotReturned | inr i => ApplicationSpecific i end) _). by intros [].
Defined.
#[export] Instance ResponseStatus_codec : Codec ResponseStatus.
Proof.
  refine (codec_iso ResponseStatus_into_u64 (λ n, match ResponseStatus_try_from n with Ok s => s | Err _ => OK end) _). by intros [].
Defined.
#[export] Instance ResponseDocument_codec : Codec ResponseDocument.
Proof.
  refine (codec_iso (λ c, (rd_doc_type c, rd_issuer_signed c, rd_device_signed c, rd_errors c))
    (λ '(a, b, c, d), {| rd_doc_type := a; rd_issuer_signed := b; rd_device_signed := c; rd_errors := d |}) _). by intros [].
Defined.
#[export] Instance DeviceResponse_codec : Codec DeviceResponse.
Proof.
  refine (codec_iso (λ c, (rs_version c, rs_documents c, rs_document_errors c, rs_status c))
    (λ '(a, b, c, d), {| rs_version := a; rs_documents := b; rs_document_errors := c; rs_status := d |}) _). by intros [].
Defined.

(** *** Session messages *)

#[export] Instance SessionStatus_codec : Codec Session.Status.
Proof.
  refine (codec_iso Status_into_u64 (λ n, match Status_try_from n with Ok s => s | Err _ => SessionTermination end) _). by intros [].
Defined.
#[export] Instance SessionData_codec : Codec SessionData.
Proof.
  refine (codec_iso (λ c, (sd_data c, sd_status c)) (λ '(a, b), {| sd_data := a; sd_status := b |}) _). by intros [].
Defined.
#[export] Instance CoseKey_codec : Codec CoseKey.
Proof.
  refine (codec_iso CoseKey_into_value (λ v, match CoseKey_try_from v with Ok k => k | Err _ => OKP X25519 [] end) _).
  intros k. pose proof (try_from_into_value k) as Hk. cbn in Hk. by rewrite Hk.
Defined.
#[export] Instance SessionEstablishment_codec : Codec SessionEstablishment.
Proof.
  refine (codec_iso (λ c, (e_reader_key c, se_data c)) (λ '(a, b), {| e_reader_key := a; se_data := b |}) _). by intros [].
Defined.
