(* ===== verification/PresentationExamples.v ===== *)
(** * A concrete device and reader

    One holder's document, its session and the messages of an exchange over the
    codecs of [Concrete], and the instances of the properties of the presentation
    layer at them. *)

From S2P Require Export Concrete RequestAuth.

(** ** The interfaces at work *)

#[local] Existing Instance toy_aead.
#[local] Existing Instance toy_aead_laws.
#[local] Existing Instance toy_sec1.
#[local] Existing Instance toy_ecdh.
#[local] Existing Instance toy_ecdh_laws.
#[local] Existing Instance latin1_base64.
#[local] Existing Instance latin1_base64_laws.
#[local] Existing Instance toy_sha1.
#[local] Existing Instance toy_sha.
#[local] Existing Instance toy_ecdsa.
#[local] Existing Instance toy_to_be_signed.
#[local] Existing Instance direct_readers.

(** The decoder reads every certificate as the example's document signer. *)
#[local] Instance signer_der : Der := {|
  Certificate_from_der _ := Ok example_signer;
  Certificate_to_der _ := Err tt;
  tbs_to_der := @tbs_to_der toy_der;
  oid_from_der := @oid_from_der toy_der;
  SubjectKeyIdentifier_from_der := @SubjectKeyIdentifier_from_der toy_der;
  AuthorityKeyIdentifier_from_der := @AuthorityKeyIdentifier_from_der toy_der;
  KeyUsage_from_der := @KeyUsage_from_der toy_der;
  BasicConstraints_from_der := @BasicConstraints_from_der toy_der;
  CrlDistributionPoints_from_der := @CrlDistributionPoints_from_der toy_der;
  IssuerAltName_from_der := @IssuerAltName_from_der toy_der;
  ExtendedKeyUsage_from_der := @ExtendedKeyUsage_from_der toy_der;
  string_from_der := @string_from_der toy_der;
|}.
#[local] Instance identity_points : PointBytes := λ b, b.
#[local] Instance range_json : JsonInteger := λ i, if bool_decide (- 2 ^ 63 ≤ i ≤ u64_max)%Z then Some i else None.
#[local] Instance range_json_laws : JsonIntegerLaws.
Proof. by split. Qed.

(** A compression that keeps its state, and an expansion that repeats the input. *)
#[local] Instance still_compress : Sha256Compress := λ s _, s.
#[local] Instance echo_hkdf : Hkdf := λ _ ikm _ n, Ok (take n (ikm ++ replicate n 0%Z)).

(** ** The holder's document *)

Definition example_device_key : CoseKey := EC2 P256 (replicate 32 1%Z) (EC2Y_Value (replicate 32 2%Z)).
Definition example_mso : Mso.Mso := {|
  Mso.mso_version := "1.0"; Mso.digest_algorithm := SHA256; Mso.value_digests := ∅;
  Mso.device_key_info := {| device_key := example_device_key; key_authorizations := None; key_info := None |};
  Mso.mso_doc_type := MDL_DOC_TYPE; Mso.validity_info := example_validity |}.
#[local] Instance example_mso_serde : Serde Mso.Mso := {| to_vec _ := Ok []; from_slice _ := Ok example_mso |}.
(** Structures that are only written. *)
#[local] Instance transcript_serde : Serde SessionTranscript180135 :=
  {| to_vec t := Ok (inner_bytes (st_engagement t) ++ inner_bytes (st_reader_key t)); from_slice _ := Err DecodeFailed |}.
#[local] Instance device_authentication_serde : Serde (DeviceAuthentication SessionTranscript180135) :=
  {| to_vec x := Ok (encode_string (da_doc_type x)); from_slice _ := Err DecodeFailed |}.
#[local] Instance reader_authentication_serde : Serde ReaderAuthentication :=
  {| to_vec x := Ok (encode_string (ra_label x)); from_slice _ := Err DecodeFailed |}.

Definition tagged_as {T} `{Serde T} (x : T) : Tag24 T := {| inner := x; inner_bytes := default [] (rok (to_vec x)) |}.
Definition example_item (n : Z) (el : string) (v : Value) : string * IssuerSignedItemBytes :=
  (el, tagged_as {| digest_id := n; random := {| bytestr := [n] |}; element_identifier := el; element_value := v |}).
Definition example_elements : list (string * IssuerSignedItemBytes) :=
  [example_item 1 "family_name" (Text "Doe"); example_item 2 "age_over_18" (Bool true);
   example_item 3 "age_over_65" (Bool false); example_item 4 "age_over_21" (Bool true)].
Definition example_items : NonEmptyMap string IssuerSignedItemBytes := {| nem := collect example_elements |}.
Definition example_document : Document := {|
  doc_id := [1; 2]%Z;
  doc_issuer_auth := {| tagged := false; message := {|
    s1_protected := {| hdr_alg := Some (Assigned ES256); hdr_rest := [] |};
    s1_unprotected := {| hdr_alg := None; hdr_rest := [(LabelInt X5CHAIN_COSE_HEADER_LABEL, Bytes [])] |};
    s1_payload := rok (to_vec (tagged_as example_mso)); s1_signature := [] |} |};
  doc_mso := example_mso;
  doc_namespaces := {| nem := collect [(CORE_NAMESPACE, example_items)] |} |}.
Definition example_documents : Documents := {| nem := collect [(MDL_DOC_TYPE, example_document)] |}.

Lemma example_documents_wf : documents_wf example_documents.
Proof.
  intros dt d ns m el t Hd Hm Ht. cbn [nem example_documents] in Hd.
  apply collect_lookup in Hd as [= -> ->]%list_elem_of_singleton; [|by apply NoDup_singleton].
  cbn [doc_namespaces example_document nem] in Hm.
  apply collect_lookup in Hm as [= -> ->]%list_elem_of_singleton; [|by apply NoDup_singleton].
  cbn [nem example_items] in Ht. apply collect_lookup in Ht; [|by apply (bool_decide_unpack _); vm_compute].
  assert (Forall (λ p : string * IssuerSignedItemBytes, Tag24_wf p.2) example_elements) as Hall
    by (repeat apply Forall_cons_2; [vm_compute; reflexivity..|apply Forall_nil_2]).
  rewrite Forall_forall in Hall. apply (Hall _ Ht).
Qed.

(** ** The session *)

Definition example_engagement_bytes : Tag24 DeviceEngagement :=
  {| inner := example_engagement; inner_bytes := [1%Z] |}.
Definition example_transcript : SessionTranscript180135 := {|
  st_engagement := example_engagement_bytes; st_reader_key := tagged_as example_device_key; st_handover := QR |}.
Definition example_device : SessionManager := {|
  sm_documents := example_documents; sm_session_transcript := example_transcript;
  sm_sk_device := replicate 32 3%Z; device_message_counter := 5; sm_sk_reader := replicate 32 4%Z;
  reader_message_counter := 7; sm_state := AwaitingRequest; trusted_verifiers := {| anchors := [] |};
  sm_device_auth_type := Sign1 |}.
Definition example_reader : ReaderSession := {|
  rdr_session_transcript := example_transcript; rdr_sk_device := replicate 32 3%Z; rdr_device_message_counter := 5;
  rdr_sk_reader := replicate 32 4%Z; rdr_reader_message_counter := 7; rdr_trust_anchor_registry := example_registry |}.

(** The reader asks for a name, an age and a portrait; the holder permits more than
    that, and holds no portrait. *)
Definition asked (els : list string) : RequestNamespaces :=
  {| nem := collect [(CORE_NAMESPACE, {| nem := collect ((λ el, (el, true)) <$> els) |})] |}.
Definition example_request : RequestNamespaces := asked ["family_name"; "age_over_18"; "portrait"]%string.
Definition example_permitted : PermittedItems :=
  collect [(MDL_DOC_TYPE, collect [(CORE_NAMESPACE, ["age_over_18"; "family_name"; "portrait"; "age_over_65"]%string)])].
Definition example_prepared_response : PreparedDeviceResponse :=
  DeviceSession_prepare_response example_device [mdl_request example_request] example_permitted.
Definition example_signing : SessionManager := with_state (Signing example_prepared_response) example_device.

(** ** The device *)

Lemma selective_disclosure_witness :
  ∃ pd document, pd ∈ prepared_documents example_prepared_response ∧
    omap (stored document CORE_NAMESPACE) ["age_over_18"; "family_name"; "portrait"]%string = disclosed pd CORE_NAMESPACE ∧
    reported pd CORE_NAMESPACE "portrait" = Some DataNotReturned.
Proof.
  destruct (prepared_documents example_prepared_response) as [|pd l] eqn:Hp; [by vm_compute in Hp|].
  assert (pd ∈ prepared_documents example_prepared_response) as Hin by (rewrite Hp; by left).
  destruct (selective_disclosure example_device [mdl_request example_request] example_permitted pd Hin)
    as (document & Hdoc & _ & Hns).
  exists pd, document. split; [by left|].
  assert (pd_doc_type pd = MDL_DOC_TYPE) as Hdt.
  { apply (f_equal (λ l, pd_doc_type <$> head l)) in Hp. vm_compute in Hp. by injection Hp. }
  destruct (Hns CORE_NAMESPACE) as [Hdisc Hrep]. destruct (Hrep "portrait"%string) as [Hportrait _].
  rewrite Hdt in Hdoc, Hdisc, Hportrait. split; [by rewrite Hdisc|]. rewrite Hportrait.
  assert (document = example_document) as -> by (vm_compute in Hdoc; by injection Hdoc).
  by vm_compute.
Defined.

Lemma response_accounts_witness :
  document_errors (DeviceSession_prepare_response example_device
    [mdl_request example_request; {| ir_doc_type := "other"; ir_namespaces := example_request; request_info := None |}]
    (<["other"%string := ∅]> example_permitted)) =
  Some {| nev := [ <["other"%string := DataNotReturned]> ∅ ] |}.
Proof.
  edestruct (response_accounts (T := SessionManager)) as (_ & He & _); [..|etransitivity; [exact He|by vm_compute]].
  - by vm_compute.
  - done.
  - done.
Defined.

(** The document also stores elements that are no ages. *)
Lemma nearest_age_attestation_spec_witness :
  is_ok (nearest_age_attestation "age_over_19" example_items) = true ∧ is_Some (nem example_items !! "family_name"%string) ∧
  ∃ t, nearest_age_attestation "age_over_19" example_items = Ok (Some t) ∧
    (nearest_over example_items 19 t ∨ (∀ t', ¬ nearest_over example_items 19 t') ∧ nearest_under example_items 19 t).
Proof.
  destruct (nearest_age_attestation_spec "age_over_19" example_items) as [Hok Hanswer].
  assert (is_ok (nearest_age_attestation "age_over_19" example_items) = true) as Hsome.
  { apply Hok. split; [by vm_compute|]. intros el [t Ht] Hcon. cbn [nem example_items] in Ht.
    apply collect_lookup in Ht; [|by apply (bool_decide_unpack _); vm_compute].
    assert (Forall (λ p : string * IssuerSignedItemBytes, contains "age_over" p.1 = true → is_ok (parse_age_from_element_identifier p.1))
      example_elements) as Hall by (repeat apply Forall_cons_2; [by vm_compute..|apply Forall_nil_2]).
    exact (proj1 (Forall_forall _ _) Hall (el, t) Ht Hcon). }
  split; [exact Hsome|]. split; [vm_compute; by eexists|].
  destruct (nearest_age_attestation "age_over_19" example_items) as [[t|]|] eqn:Hr; [|by vm_compute in Hr..].
  exists t. split; [done|]. apply (Hanswer 19%Z (Some t)); [vm_compute; reflexivity|reflexivity].
Defined.

Lemma device_never_panics_witness :
  ∃ self', device_calls (VK := bytes) (Sig := bytes) 50 example_device
    [HandleRequest [9%Z]; PrepareResponse [mdl_request example_request] example_permitted; SubmitNextSignature [];
     RetrieveResponse] = Some self' ∧ session_wf self'.
Proof.
  edestruct (device_never_panics (VK := bytes) (Sig := bytes) 50 example_device) as (self' & Hc & Hwf & _).
  - split; [apply example_documents_wf|done].
  - by vm_compute.
  - by vm_compute.
  - exists self'. split; [exact Hc|exact Hwf].
Defined.

(** The cipher takes every key of 32 bytes. *)
Lemma example_keys_work : keys_work example_device.
Proof. intros iv m. by vm_compute. Qed.

Lemma example_signing_wf : session_wf example_signing.
Proof. split; [apply example_documents_wf|]. apply (prepare_response_wf example_device), example_documents_wf. Qed.

Lemma signing_completes_witness :
  ∃ self' encoded, submit_all example_signing [[]] = Some (self', Ok tt) ∧
    retrieve_response self' = (with_state AwaitingRequest (with_device_counter 6 example_signing), Some encoded).
Proof.
  destruct (signing_completes example_signing example_prepared_response) with (signatures := [([] : bytes)])
    as [_ (b & c & r & encoded & _ & He & _ & Hs & Hr)];
    [done|by vm_compute|apply example_signing_wf|by intros ?..|by vm_compute|].
  assert (c = 6%Z) as ->.
  { destruct (encrypt_succeeds (sm_sk_device example_signing) b 5 false) as [ct Hct];
      [by vm_compute|intros iv; apply (example_keys_work iv b)|].
    change (encrypt_device_data _ b _) with (encrypt (sm_sk_device example_signing) b 5 false) in He.
    rewrite Hct in He. by injection He. }
  eexists _, encoded. split; [exact Hs|exact Hr].
Defined.

(** A message under the reader's key that is not a request. *)
Definition example_garbage : bytes := default [] (rok (encrypt_reader_data (replicate 32 4%Z) [] 7).2).

Lemma undecodable_request_witness :
  ∃ self', handle_decoded_request (VK := bytes) (Sig := bytes) 50 example_device
      {| sd_data := Some {| bytestr := example_garbage |}; sd_status := None |} =
      Some (self', RequestAuthenticationOutcome_default) ∧
    get_next_signature_payload self' = None ∧ retrieve_response self' = (self', None).
Proof.
  destruct (undecodable_request (VK := bytes) (Sig := bytes) 50 example_device
    {| sd_data := Some {| bytestr := example_garbage |}; sd_status := None |} 8 example_garbage [])
    as (status & self' & _ & Hh & Hn & Hr & _);
    [done|by vm_compute|intros v Hv; vm_compute in Hv; discriminate Hv|].
  exists self'. by split_and!.
Defined.

(** ** The reader *)

Definition example_response : DeviceResponse := signed_all example_prepared_response [[]].
Definition signed_document : option ResponseDocument := head (default [] (nev <$> rs_documents example_response)).

Lemma response_validation_spec_witness :
  ∃ document o, signed_document = Some document ∧
    validate_response (VK := bytes) (Sig := bytes) 50 example_transcript example_registry example_chain document ∅ = Some o ∧
    ao_errors o = ∅ ∧ issuer_trusted (VK := bytes) (Sig := bytes) 50 example_registry example_chain (rd_issuer_signed document).
Proof.
  destruct signed_document as [document|] eqn:Hdoc; [|by vm_compute in Hdoc].
  destruct (validate_response (VK := bytes) (Sig := bytes) 50 example_transcript example_registry example_chain document ∅)
    as [o|] eqn:Ho; [|vm_compute in Hdoc; injection Hdoc as <-; by vm_compute in Ho].
  assert (ao_errors o = ∅) as He by (vm_compute in Hdoc; injection Hdoc as <-; vm_compute in Ho; by injection Ho as <-).
  exists document, o. split; [done|]. split; [done|]. split; [done|].
  destruct (response_validation_spec (VK := bytes) (Sig := bytes) 50 example_transcript example_registry example_chain document ∅ o Ho)
    as (_ & _ & _ & _ & Hiss & Herr).
  by apply Hiss, Herr.
Defined.

Definition example_payload : bytes :=
  default [] (rok (raw_device_authentication_payload [7; 8]%Z MDL_DOC_TYPE (tagged_as ∅))).

Lemma raw_payload_spec_witness : ∃ rest, read_head example_payload = Some (6, 24, rest)%Z.
Proof.
  destruct (raw_payload_spec [7; 8]%Z MDL_DOC_TYPE (tagged_as ∅) example_payload)
    as (l & dt & ns & _ & _ & _ & rest & Hrest & _); [by vm_compute..|by exists rest].
Defined.

Definition example_value : Value := Map [(Text "a", Array [Integer 5; Bool true; Tag 0 (Text "d")]); (Integer 1, Null)].

Lemma parse_response_spec_witness :
  (∃ j, parse_response example_value = Some (Ok j)) ∧ parse_response (Array [Text "a"; Integer (2 ^ 64)]) = None.
Proof.
  split.
  - apply parse_response_spec, conv_map. apply Forall_cons_2; [|apply Forall_nil_2]. cbn [snd]. apply conv_array.
    repeat first [apply Forall_cons_2 | apply Forall_nil_2]; constructor. unfold u64_max. lia.
  - apply parse_response_spec, (over_array [Text "a"] _ []); [repeat constructor|]. constructor. unfold u64_max. lia.
Defined.

(** What the device sends, and what the reader makes of it. *)
Definition example_answer : bytes :=
  default [] ('(self, _) ← submit_all example_signing [[]]; (retrieve_response self).2).
Definition example_outcome : option (ReaderSession * ResponseAuthenticationOutcome) :=
  handle_response (VK := bytes) (Sig := bytes) 50 example_reader example_answer.

Lemma accepted_response_witness :
  ∃ self' o x5chain document, example_outcome = Some (self', o) ∧
    ao_errors o = ∅ ∧ rdr_device_message_counter self' = 6%Z ∧
    issuer_trusted (VK := bytes) (Sig := bytes) 50 example_registry x5chain document.
Proof.
  destruct example_outcome as [[self' o]|] eqn:Ho; [|by vm_compute in Ho].
  assert (ao_errors ∘ snd <$> example_outcome = Some ∅) as He by (vm_compute; reflexivity).
  rewrite Ho in He. injection He as He. cbn [compose snd] in He.
  destruct (accepted_response (VK := bytes) (Sig := bytes) 50 example_reader example_answer self' o Ho He)
    as (data & ct & m & d & document & x5chain & t & payload & _ & _ & _ & Hself & _ & _ & _ & Hiss & _).
  exists self', o, x5chain, (rd_issuer_signed document). rewrite Hself. by split_and!.
Defined.

(** ** Both ends *)

Lemma collect_non_empty {V} (p : string * V) l : collect (p :: l) ≠ ∅.
Proof.
  intros He. assert (is_Some (collect (p :: l) !! p.1)) as [? Hs] by (apply collect_dom; by left).
  by rewrite He in Hs.
Qed.

Lemma asked_wf el els : RequestNamespaces_wf (asked (el :: els)).
Proof.
  split; [apply collect_non_empty|]. intros ns es Hns. unfold asked in Hns. cbn [nem] in Hns.
  apply collect_lookup in Hns as [= -> ->]%list_elem_of_singleton; [|by apply NoDup_singleton].
  apply collect_non_empty.
Qed.

Definition example_turn (els : list string) : RequestNamespaces * PermittedItems * list bytes :=
  (asked els, example_permitted, [[]]).

Lemma exchanges_faithful_witness :
  ∃ dev' rdr', exchanges (VK := bytes) (Sig := bytes) 50 example_device example_reader
      [example_turn ["family_name"]; example_turn ["age_over_18"; "portrait"]]%string =
      Some (dev', rdr', Ok ∘ turn_answer example_device <$>
        [example_turn ["family_name"]; example_turn ["age_over_18"; "portrait"]]%string) ∧
    device_message_counter dev' = 7%Z ∧ reader_message_counter dev' = 9%Z.
Proof.
  edestruct (exchanges_faithful (VK := bytes) (Sig := bytes) 50) as (dev' & rdr' & He & _ & _ & Hcd & Hcr);
    [by intros ?..| | | | | | |exists dev', rdr'; split; [exact He|split; [exact Hcd|exact Hcr]]].
  - done.
  - split; [apply example_documents_wf|done].
  - apply example_keys_work.
  - by vm_compute.
  - by vm_compute.
  - repeat apply Forall_cons_2; [..|apply Forall_nil_2]; (split; [apply asked_wf|]; split; [by vm_compute|by vm_compute]).
Defined.

Section established.
#[local] Existing Instance cose_key_serde | 0.
#[local] Existing Instance direct_readers_laws.
#[local] Existing Instance engagement_serde | 0.

Definition example_init : result SessionManagerInit DeviceSessionError :=
  initialise (toy_key 5) example_documents (Some {| nev := [NFC NfcOptions_default] |}) None.
Definition example_uri : string := match example_init with Ok init => (qr_engagement init).2 | Err _ => "" end.
Definition example_established : option (result (ReaderSession * bytes * bytes) EstablishError) :=
  establish_session (toy_key 7) example_uri example_request example_registry.

Lemma session_established_witness :
  ∃ init rdr msg ident establishment dev outcome,
    example_init = Ok init ∧ example_established = Some (Ok (rdr, msg, ident)) ∧
    process_session_establishment (VK := bytes) (Sig := bytes) 50 (qr_engagement init).1 establishment
      {| anchors := [] |} = Some (Ok (dev, outcome)) ∧ linked dev rdr.
Proof.
  assert (is_ok example_init = true ∧ is_ok <$> example_established = Some true) as [Hi He] by (by vm_compute).
  destruct example_init as [init|] eqn:Hinit; [|discriminate Hi].
  destruct example_established as [[[[rdr msg] ident]|]|] eqn:Hest; [|discriminate He..].
  exists init, rdr, msg, ident.
  destruct (qr_engagement init) as [eng uri] eqn:Hqr.
  edestruct (session_established (VK := bytes) (Sig := bytes) 50) as (establishment & dev & outcome & _ & Hp & Hl & _);
    [| | exact Hinit| exact Hqr| |exists establishment, dev, outcome; split; [reflexivity|split; [reflexivity|split; [exact Hp|exact Hl]]]].
  - split; [split; [discriminate|]; repeat constructor; vm_compute; discriminate|exact I].
  - apply asked_wf.
  - unfold example_established, example_uri in Hest. rewrite Hinit, Hqr in Hest. exact Hest.
Defined.
End established.

(** ** An authenticated reader *)

Section signed_request.
Definition reader_certificate : Certificate := example_certificate [2]%Z
  [example_extension KeyUsage_OID [1]%Z; example_extension ExtendedKeyUsage_OID mdoc_reader_extended_key_usage_oid;
   {| extn_id := AuthorityKeyIdentifier_OID; critical := false; extn_value := [1]%Z |}].
#[local] Instance reader_der : Der | 0 := {|
  Certificate_from_der _ := Ok reader_certificate;
  Certificate_to_der _ := Err tt;
  tbs_to_der := @tbs_to_der toy_der;
  oid_from_der := @oid_from_der toy_der;
  SubjectKeyIdentifier_from_der := @SubjectKeyIdentifier_from_der toy_der;
  AuthorityKeyIdentifier_from_der := @AuthorityKeyIdentifier_from_der toy_der;
  KeyUsage_from_der := @KeyUsage_from_der toy_der;
  BasicConstraints_from_der := @BasicConstraints_from_der toy_der;
  CrlDistributionPoints_from_der := @CrlDistributionPoints_from_der toy_der;
  IssuerAltName_from_der := @IssuerAltName_from_der toy_der;
  ExtendedKeyUsage_from_der := @ExtendedKeyUsage_from_der toy_der;
  string_from_der := @string_from_der toy_der;
|}.

(** A device that knows the reader's authority, and a request of two documents of which
    only the first is signed. *)
Definition trusting_device : SessionManager := {|
  sm_documents := example_documents; sm_session_transcript := example_transcript;
  sm_sk_device := replicate 32 3%Z; device_message_counter := 5; sm_sk_reader := replicate 32 4%Z;
  reader_message_counter := 7; sm_state := AwaitingRequest; trusted_verifiers := example_registry;
  sm_device_auth_type := Sign1 |}.
Definition reader_signature : MaybeTagged CoseSign1 := {| tagged := false; message := {|
  s1_protected := {| hdr_alg := Some (Assigned ES256); hdr_rest := [] |};
  s1_unprotected := {| hdr_alg := None; hdr_rest := [(LabelInt X5CHAIN_COSE_HEADER_LABEL, Bytes [])] |};
  s1_payload := None; s1_signature := [] |} |}.
Definition signed_request : DeviceRequest := {|
  dr_version := DeviceRequest_VERSION;
  doc_requests := {| nev :=
    [{| reader_auth := Some reader_signature; items_request := tagged_as (mdl_request example_request) |};
     {| reader_auth := None; items_request := tagged_as (mdl_request (asked ["age_over_65"]%string)) |}] |};
  device_request_info := None; reader_auth_all := None |}.
Definition signed_message : bytes := default [] (
  b ← rok (to_vec signed_request); ct ← rok (encrypt_reader_data (replicate 32 4%Z) b 7).2;
  rok (to_vec {| sd_data := Some {| bytestr := ct |}; sd_status := None |})).

Lemma verified_request_witness :
  ∃ self' o d name, handle_request (VK := bytes) (Sig := bytes) 50 trusting_device signed_message = Some (self', o) ∧
    ro_reader_authentication o = Valid ∧ length (ro_items_request o) = 2 ∧
    ro_common_name o = Some name ∧ reader_trusted (VK := bytes) (Sig := bytes) 50 trusting_device d name.
Proof.
  assert ((λ p, (ro_reader_authentication p.2, length (ro_items_request p.2))) <$>
    handle_request (VK := bytes) (Sig := bytes) 50 trusting_device signed_message = Some (Valid, 2)) as Hh
    by (vm_compute; reflexivity).
  destruct (handle_request _ _ _) as [[self' o]|] eqn:Heq; [|discriminate Hh]. injection Hh as Hvalid Hitems.
  destruct (verified_request (VK := bytes) (Sig := bytes) 50 trusting_device signed_message self' o Heq) as [Hiff _].
  destruct (proj1 Hiff Hvalid) as (request & d & ds & name & _ & _ & Hname & Htrusted).
  exists self', o, d, name. exact (conj eq_refl (conj Hvalid (conj Hitems (conj Hname Htrusted)))).
Defined.
End signed_request.

(** ** Raw transcripts *)

(** Enough of CBOR for tagged byte strings and tuples of four. *)
Section raw.
#[local] Instance tag_serde : Serde Value | 0 := {|
  to_vec v := Ok match v with
                 | Tag 24 (Bytes b) => append_byte_string_header [0xd8; 0x18]%Z (Z.of_nat (length b)) ++ b
                 | _ => [0xf6%Z]
                 end;
  from_slice _ := Ok Null |}.
#[local] Instance text_serde : Serde string | 0 := {| to_vec s := Ok (encode_string s); from_slice _ := Err DecodeFailed |}.
#[local] Instance tuple_serde : Serde (DeviceAuthentication SessionTranscript180135) | 0 := {|
  to_vec x :=
    let? l := to_vec (da_label x) in let? t := to_vec (da_transcript x) in
    let? d := to_vec (da_doc_type x) in let? n := to_vec (da_namespaces x) in
    Ok (0x84%Z :: l ++ t ++ d ++ n);
  from_slice _ := Err DecodeFailed |}.

Lemma raw_authentication_agrees_witness :
  ∃ document, signed_document = Some document ∧
    device_authentication_with_raw_session_transcript (VK := bytes) (Sig := bytes) document
      (inner_bytes (st_engagement example_transcript) ++ inner_bytes (st_reader_key example_transcript)) =
    device_authentication (VK := bytes) (Sig := bytes) document example_transcript.
Proof.
  destruct signed_document as [document|] eqn:Hdoc; [|by vm_compute in Hdoc].
  exists document. split; [reflexivity|].
  apply (raw_authentication_agrees (VK := bytes) (Sig := bytes) document example_transcript).
  - intros b c. cbn [to_vec tag_serde]. split; [by intros [= <-]|by intros ->].
  - intros x l t d n [= <-] [= <-] [= <-] [= <-]. reflexivity.
  - reflexivity.
  - reflexivity.
  - reflexivity.
  - reflexivity.
Defined.
End raw.
