(* ===== verification/ChannelExamples.v ===== *)
(** * A run on an adversarial network

    The device and the reader of [PresentationExamples] on a network that replays,
    reflects and injects messages, and the instances of the properties of [Channel]
    at it. *)

From S2P Require Export Channel PresentationExamples.

#[local] Existing Instance toy_aead.
#[local] Existing Instance toy_aead_laws.
#[local] Existing Instance toy_sec1.
#[local] Existing Instance toy_ecdh.
#[local] Existing Instance toy_ecdh_laws.
#[local] Existing Instance latin1_base64.
#[local] Existing Instance latin1_base64_laws.
#[local] Existing Instance toy_sha1.
#[local] Existing Instance toy_sha.
#[local] Existing Instance toy_ecdsa.
#[local] Existing Instance toy_to_be_signed.
#[local] Existing Instance direct_readers.
#[local] Existing Instance signer_der.
#[local] Existing Instance identity_points.
#[local] Existing Instance range_json.
#[local] Existing Instance still_compress.
#[local] Existing Instance echo_hkdf.
#[local] Existing Instance example_mso_serde.
#[local] Existing Instance transcript_serde.
#[local] Existing Instance device_authentication_serde.
#[local] Existing Instance reader_authentication_serde.

(** ** What the example's cipher opens *)

Lemma toy_opens key iv ct p :
  decrypt_with_backend key iv ct = Ok p → drop (length ct - length (iv ++ key)) ct = iv ++ key.
Proof.
  unfold decrypt_with_backend, NativeSessionAeadKey_new. cbn [UnboundKey_new toy_aead].
  case_bool_decide as Hk; cbn [rbind rmap]; [|discriminate].
  unfold open. cbn [native_key open_in_place toy_aead sab_bytes copied_from]. case_bool_decide as Hd; cbn; [done|discriminate].
Qed.

(** A ciphertext ends in the nonce and the key that open it. *)
Definition not_forged (ch : channel) (key msg : bytes) : bool :=
  match carried msg with
  | None => true
  | Some ct =>
      let tail := drop (length ct - (12 + length key)) ct in
      if bool_decide (drop 12 tail = key) then bool_decide ((key, take 12 tail, ct) ∈ sealed ch) else true
  end.
Lemma not_forged_unforged ch key msg : not_forged ch key msg = true → unforged ch key msg.
Proof.
  unfold not_forged, unforged. intros Hnot ct iv p Hct Hiv Hopen. rewrite Hct in Hnot.
  apply toy_opens in Hopen. rewrite length_app, Hiv in Hopen. rewrite Hopen in Hnot.
  rewrite drop_app_length', take_app_length' in Hnot by done. rewrite bool_decide_true in Hnot by done.
  by apply bool_decide_eq_true in Hnot.
Qed.

(** ** The run *)

Abbreviation run := (rtc (channel_step (VK := bytes) (Sig := bytes) 50)).
Abbreviation to_device := (device_after (VK := bytes) (Sig := bytes) 50).
Abbreviation to_reader := (reader_after (VK := bytes) (Sig := bytes) 50).

Definition network_of (dev : SessionManager) : channel := {|
  ch_dev := dev; ch_rdr := example_reader; sealed := []; requested := []; shown := []; permissions := [];
  responded := []; received := [] |}.
Definition network : channel := network_of example_device.
Lemma network_fresh : fresh_channel network.
Proof.
  split; [done|]. split; [split; [apply example_documents_wf|done]|]. split; [done|]. split; [done|].
  split; [intros key iv ct []%elem_of_nil|]. done.
Qed.

(** The reader asks twice; the first request arrives, and once more as a replay; the
    holder answers, the answer is reflected to the device, and reaches the reader. *)
Definition first_request : bytes := default [] (rok (new_request example_reader example_request).2).
Definition asked_once : channel := reader_asks network example_request.
Definition asked_twice : channel := reader_asks asked_once (asked ["age_over_21"]%string).
Definition arrived : channel := to_device asked_twice first_request.
Definition replayed : channel := to_device arrived first_request.
Definition answered_all : channel :=
  sign_after (device_prepares replayed [mdl_request example_request] example_permitted) [].
Definition the_answer : bytes := default [] (retrieve_response (ch_dev answered_all)).2.
Definition reflected : channel := to_device (device_retrieves answered_all) the_answer.
Definition finished : channel := to_reader reflected the_answer.

Lemma run_asked : run network asked_twice.
Proof. do 2 (apply run_ask; [apply asked_wf|]). apply rtc_refl. Qed.
Lemma run_arrived : run network arrived.
Proof. apply run_device; [apply not_forged_unforged; vm_compute; reflexivity|exact run_asked]. Qed.
Lemma run_finished : run network finished.
Proof.
  apply run_reader; [apply not_forged_unforged; vm_compute; reflexivity|].
  apply run_device; [apply not_forged_unforged; vm_compute; reflexivity|].
  apply run_retrieve, run_sign, run_prepare.
  apply run_device; [apply not_forged_unforged; vm_compute; reflexivity|exact run_arrived].
Qed.

Lemma channel_refines_witness :
  run network finished ∧ length (requested finished) = 2 ∧ length (shown finished) = 1 ∧ length (received finished) = 1 ∧
  shown finished `prefix_of` ((λ p, [mdl_request p.1]) <$> requested finished) ∧
  received finished `prefix_of` (fst <$> responded finished) ∧
  rdr_reader_message_counter (ch_rdr finished) = 9%Z ∧ reader_message_counter (ch_dev finished) = 8%Z.
Proof.
  destruct (channel_refines (VK := bytes) (Sig := bytes) 50 network finished network_fresh run_finished)
    as (_ & Hshown & Hreceived & [Hr _] & [Hd _] & _).
  split; [exact run_finished|]. split; [vm_compute; reflexivity|]. split; [vm_compute; reflexivity|].
  split; [vm_compute; reflexivity|]. split; [exact Hshown|]. split; [exact Hreceived|].
  split; [rewrite Hr|rewrite Hd]; vm_compute; reflexivity.
Defined.

(** The first request is accepted once; replayed, and with the answer reflected, the
    device stays as it is. *)
Lemma delivery_spec_witness :
  (∃ o, handle_request (VK := bytes) (Sig := bytes) 50 (ch_dev asked_twice) first_request =
     Some (with_reader_counter 8 example_device, o) ∧ ro_items_request o = [mdl_request example_request]) ∧
  ∃ key p, handle_request (VK := bytes) (Sig := bytes) 50 (ch_dev arrived) first_request =
    Some (ch_dev arrived, request_failed key p).
Proof.
  split.
  - destruct (delivery_spec (VK := bytes) (Sig := bytes) 50 network asked_twice first_request network_fresh run_asked) as [Hdev _].
    destruct Hdev as [(ns & o & (ct & Hns & _) & Hh & Ho & _)|[Hno _]].
    + apply not_forged_unforged. vm_compute. reflexivity.
    + exists o. split; [exact Hh|]. rewrite Ho. cbn in Hns. apply (f_equal (fmap fst)) in Hns. cbn in Hns. by injection Hns as <-.
    + destruct (Hno example_request). exists (default [] (carried first_request)). split; vm_compute; reflexivity.
  - destruct (delivery_spec (VK := bytes) (Sig := bytes) 50 network arrived first_request network_fresh run_arrived) as [Hdev _].
    destruct Hdev as [(ns & o & (ct & Hns & Hct) & _)|[_ Hrefused]]; [|  |exact Hrefused].
    + apply not_forged_unforged. vm_compute. reflexivity.
    + apply (f_equal (fmap (λ p, bool_decide (carried first_request = Some p.2)))) in Hns. cbn [fmap option_fmap option_map snd] in Hns.
      rewrite bool_decide_true in Hns by exact Hct. vm_compute in Hns. discriminate Hns.
Defined.

(** The item that the reader received was permitted. *)
Definition first_item (ch : channel) (ns : string) : option (DeviceResponse * ResponseDocument * IssuerSignedItemBytes) :=
  r ← head (received ch); d ← head (default [] (nev <$> rs_documents r)); i ← head (items_of (rd_issuer_signed d) ns); Some (r, d, i).

Lemma first_item_elem ch ns r d i :
  first_item ch ns = Some (r, d, i) →
  r ∈ received ch ∧ d ∈ default [] (nev <$> rs_documents r) ∧ i ∈ items_of (rd_issuer_signed d) ns.
Proof.
  unfold first_item. destruct (received ch) as [|r' l]; [done|]. cbn [head mbind option_bind].
  destruct (default [] (nev <$> rs_documents r')) as [|d' l'] eqn:Hd; [done|]. cbn [head mbind option_bind].
  destruct (items_of (rd_issuer_signed d') ns) as [|i' l''] eqn:Hi; [done|]. intros [= <- <- <-].
  rewrite Hd, Hi. split_and!; by left.
Qed.

Lemma received_permitted_witness :
  ∃ r d item requests permitted el, r ∈ received finished ∧ (requests, permitted) ∈ permissions finished ∧
    rd_doc_type d = MDL_DOC_TYPE ∧ item ∈ items_of (rd_issuer_signed d) CORE_NAMESPACE ∧
    user_permits permitted MDL_DOC_TYPE CORE_NAMESPACE el.
Proof.
  assert (is_Some (first_item finished CORE_NAMESPACE)) as [[[r d] item] Hfirst] by (vm_compute; eexists; reflexivity).
  pose proof (first_item_elem _ _ _ _ _ Hfirst) as (Hr & Hd & Hitem).
  destruct (received_permitted (VK := bytes) (Sig := bytes) 50 network finished r d CORE_NAMESPACE item
    network_fresh run_finished Hr Hd Hitem) as (requests & permitted & document & el & Hin & _ & Huser & _).
  assert ((λ x : DeviceResponse * ResponseDocument * IssuerSignedItemBytes, rd_doc_type x.1.2) <$>
    first_item finished CORE_NAMESPACE = Some MDL_DOC_TYPE) as Hdt by (vm_compute; reflexivity).
  rewrite Hfirst in Hdt. injection Hdt as Hdt.
  rewrite Hdt in Huser. exists r, d, item, requests, permitted, el.
  exact (conj Hr (conj Hin (conj Hdt (conj Hitem Huser)))).
Defined.

(** ** A session from its QR code on *)

Section established.
#[local] Existing Instance cose_key_serde | 0.
#[local] Existing Instance direct_readers_laws.
#[local] Existing Instance engagement_serde | 0.

Lemma established_session_secure_witness :
  ∃ init rdr msg ident establishment dev outcome,
    example_init = Ok init ∧ example_established = Some (Ok (rdr, msg, ident)) ∧
    process_session_establishment (VK := bytes) (Sig := bytes) 50 (qr_engagement init).1 establishment
      {| anchors := [] |} = Some (Ok (dev, outcome)) ∧ ro_items_request outcome = [mdl_request example_request] ∧
    reader_message_counter dev = 1%Z.
Proof.
  assert (is_ok example_init = true ∧ is_ok <$> example_established = Some true) as [Hi He] by (by vm_compute).
  destruct example_init as [init|] eqn:Hinit; [|discriminate Hi].
  destruct example_established as [[[[rdr msg] ident]|]|] eqn:Hest; [|discriminate He..].
  destruct (qr_engagement init) as [eng uri] eqn:Hqr.
  edestruct (established_session_secure (VK := bytes) (Sig := bytes) 50) as (establishment & dev & outcome & _ & Hp & Ho & _ & Hrun);
    [| |exact example_documents_wf|exact Hinit|exact Hqr| |].
  - split; [split; [discriminate|]; repeat constructor; vm_compute; discriminate|exact I].
  - apply asked_wf.
  - unfold example_established, example_uri in Hest. rewrite Hinit, Hqr in Hest. exact Hest.
  - destruct (Hrun _ (rtc_refl _ _)) as (_ & _ & Hc & _).
    exists init, rdr, msg, ident, establishment, dev, outcome.
    rewrite Hqr. exact (conj eq_refl (conj eq_refl (conj Hp (conj Ho Hc)))).
Defined.
End established.
