(* ===== verification/LifecycleExamples.v ===== *)
(** * A credential from its issuance to its presentation

    One issuance evaluated with the codecs of [Concrete], and the instances of the
    properties of [Lifecycle] at it and at a document with altered items; and the
    instance of the property of [JsonCredential] at a description in JSON. *)

From S2P Require Export JsonCredential ChannelExamples.
From S2P Require Import NamespaceExamples.

(** ** Codes of the security object *)

#[export] Instance DigestAlgorithm_codec : Codec DigestAlgorithm.
Proof.
  refine (codec_iso (λ a, match a with SHA256 => 0 | SHA384 => 1 | SHA512 => 2 end)%Z
    (λ n, match n with 0 => SHA256 | 1 => SHA384 | _ => SHA512 end)%Z _). by intros [].
Defined.
#[export] Instance KeyAuthorizations_codec : Codec KeyAuthorizations.
Proof.
  refine (codec_iso (λ c, (CoseKey.namespaces c, data_elements c))
    (λ '(a, b), {| CoseKey.namespaces := a; data_elements := b |}) _). by intros [].
Defined.
#[export] Instance DeviceKeyInfo_codec : Codec DeviceKeyInfo.
Proof.
  refine (codec_iso (λ c, (device_key c, key_authorizations c, key_info c))
    (λ '(a, b, c), {| device_key := a; key_authorizations := b; key_info := c |}) _). by intros [].
Defined.
#[export] Existing Instance example_rfc3339.
#[export] Existing Instance example_rfc3339_laws.

(** The security object is written with the value of its validity information. *)
Abbreviation mso_wire := (string * DigestAlgorithm * btree string DigestIds * DeviceKeyInfo * string * Value)%type.
#[export] Instance Mso_serde : Serde Mso.Mso := {|
  to_vec m :=
    match ValidityInfo_into_value (Mso.validity_info m) with
    | Some (Ok v) => to_vec (T := mso_wire) (Mso.mso_version m, Mso.digest_algorithm m, Mso.value_digests m,
        Mso.device_key_info m, Mso.mso_doc_type m, v)
    | _ => Err EncodeFailed
    end;
  from_slice b :=
    let? (version, alg, digests, info, doc_type, v) := from_slice (T := mso_wire) b in
    let? w := map_err (λ _, DecodeFailed) (ValidityInfo_try_from v) in
    Ok {| Mso.mso_version := version; Mso.digest_algorithm := alg; Mso.value_digests := digests;
      Mso.device_key_info := info; Mso.mso_doc_type := doc_type; Mso.validity_info := w |};
|}.
#[export] Instance Mso_serde_laws : MsoSerde.
Proof.
  split.
  - intros m v _ Hv. cbn [to_vec Mso_serde]. rewrite Hv. apply codec_total.
  - intros m b _ Hb. cbn [to_vec Mso_serde] in Hb. destruct (ValidityInfo_into_value _) as [[v|]|]; [|discriminate Hb..].
    exists v. split; [reflexivity|]. intros w Hw. apply from_slice_to_vec in Hb. cbn [from_slice Mso_serde]. rewrite Hb.
    cbn [rbind]. by rewrite Hw.
Qed.

(** ** The interfaces at work *)

#[local] Existing Instance toy_aead.
#[local] Existing Instance toy_aead_laws.
#[local] Existing Instance toy_sec1.
#[local] Existing Instance toy_sha1.
#[local] Existing Instance toy_sha2.
#[local] Existing Instance toy_sha2_laws.
#[local] Existing Instance toy_ecdsa.
#[local] Existing Instance toy_to_be_signed.
#[local] Existing Instance signer_der.
#[local] Existing Instance identity_points.
#[local] Existing Instance range_json.
#[local] Existing Instance range_json_laws.
#[local] Existing Instance device_authentication_serde.
#[local] Existing Instance reader_authentication_serde.
#[local] Existing Instance counter_rng.
#[local] Existing Instance counter_rng_laws.
#[local] Existing Instance example_fuel.

(** ** The credential *)

Definition issued_elements : Namespaces :=
  collect [(CORE_NAMESPACE, collect [("family_name"%string, Text "Doe"); ("age_over_18"%string, Bool true)])].
Definition example_issuance : issuance (R := Z) (E := SerialDigestExecutor) := {|
  iss_doc_type := MDL_DOC_TYPE; iss_namespaces := issued_elements; iss_validity := example_validity;
  iss_digest := SHA256;
  iss_key_info := {| device_key := example_device_key; key_authorizations := None; key_info := None |};
  iss_algorithm := ES256; iss_decoys := false; iss_rng := 5%Z; iss_executor := Serial; iss_chain := example_chain;
  iss_signature := []; iss_document_id := [1; 2]%Z |}.
Definition example_issue : option (result (Mdoc * Document) MdocError) :=
  issue (VK := bytes) (Sig := bytes) example_issuance.
Definition credential : option (Mdoc * Document) := match example_issue with Some (Ok p) => Some p | _ => None end.

Lemma example_issued : ∃ mdoc document, example_issue = Some (Ok (mdoc, document)).
Proof.
  assert (bool_decide (is_Some credential) = true) as Hc by (vm_compute; reflexivity).
  unfold credential in Hc. destruct example_issue as [[[mdoc document]|]|]; [by do 2 eexists|discriminate Hc..].
Qed.

Lemma example_key_info : DeviceKeyInfo_wf (iss_key_info example_issuance).
Proof. by split. Qed.
Lemma example_accepted : accepted_issuance (VK := bytes) (Sig := bytes) 50 example_registry example_issuance.
Proof.
  split; [done|]. split; [done|]. split; [split; [done|repeat constructor]|].
    split; [apply example_key_info|]. eexists. split; vm_compute; reflexivity.
Qed.

Lemma example_given ns el v : given issued_elements ns el = Some v → integers_fit v = true.
Proof.
  unfold given, issued_elements. intros Hv. destruct (collect _ !! ns) as [m|] eqn:Hm; [|done]. cbn [mbind option_bind] in Hv.
  apply collect_lookup in Hm as [= -> ->]%list_elem_of_singleton; [|by apply NoDup_singleton].
  apply collect_lookup in Hv; [|by apply (bool_decide_unpack _); vm_compute].
  apply elem_of_cons in Hv as [[= -> ->]|[= -> ->]%list_elem_of_singleton]; reflexivity.
Qed.
Lemma example_shared requests permitted ns el v :
  (el, v) ∈ shared example_issuance requests permitted ns → integers_fit v = true.
Proof.
  intros (el' & _ & Hv)%list_elem_of_omap. cbn [iss_namespaces example_issuance] in Hv.
  destruct (given issued_elements ns el') as [w|] eqn:Hw; [|discriminate Hv]. injection Hv as -> ->. by apply example_given in Hw.
Qed.

(** ** Its presentation *)

(** The example's device and reader, the device with the one document. *)
Definition holder (document : Document) : SessionManager := {|
  sm_documents := {| nem := collect [(MDL_DOC_TYPE, document)] |}; sm_session_transcript := example_transcript;
  sm_sk_device := replicate 32 3%Z; device_message_counter := 5; sm_sk_reader := replicate 32 4%Z;
  reader_message_counter := 7; sm_state := AwaitingRequest; trusted_verifiers := {| anchors := [] |};
  sm_device_auth_type := Sign1 |}.

Lemma holder_document document : nem (sm_documents (holder document)) !! MDL_DOC_TYPE = Some document.
Proof. cbn [holder sm_documents nem]. apply collect_lookup; [by apply NoDup_singleton|by left]. Qed.
Lemma holder_wf document :
  (∀ ns el item, stored document ns el = Some item → Tag24_wf item) → session_wf (holder document).
Proof.
  intros Hwf. split; [|done]. intros dt d ns m el t Hd Hm Ht. cbn [nem holder sm_documents] in Hd.
  apply collect_lookup in Hd as [= -> ->]%list_elem_of_singleton; [|by apply NoDup_singleton].
  apply (Hwf ns el). unfold stored. rewrite Hm. exact Ht.
Qed.
Lemma holder_presentable document :
  Mso.device_key_info (doc_mso document) = iss_key_info example_issuance →
  ∃ key : bytes, presentable (Sig := bytes) (holder document) document key.
Proof.
  intros Hinfo. eexists. split; [apply holder_document|]. split; [done|]. rewrite Hinfo.
  do 3 eexists. split; [reflexivity|]. split; reflexivity.
Qed.
Lemma toy_signed (key : bytes) pds : Forall (λ pd, signed_by (VK := bytes) (Sig := bytes) key pd []) pds.
Proof. apply Forall_forall. intros pd _. by exists []. Qed.

Definition example_asked : RequestNamespaces := asked ["family_name"; "portrait"]%string.

Lemma disclosed_issued_witness :
  ∃ mdoc document pd, example_issue = Some (Ok (mdoc, document)) ∧
    (∃ item, disclosed pd CORE_NAMESPACE = [item] ∧
       carries (doc_mso document) CORE_NAMESPACE "family_name" (Text "Doe") item) ∧
    is_Some (reported pd CORE_NAMESPACE "portrait").
Proof.
  destruct example_issued as (mdoc & document & Hissue). exists mdoc, document.
  assert (Mso.device_key_info (doc_mso document) = iss_key_info example_issuance) as Hinfo by apply (issued_payload _ _ _ Hissue).
  destruct (holder_presentable document Hinfo) as [key Hpres].
  edestruct (sole_prepared (VK := bytes) (Sig := bytes)) with (dev := holder document) (document := document) (namespaces := example_asked)
    (permitted := example_permitted) (signatures := [] : list bytes) as (pd & Hpd & Hprep & _);
    [done|by intros ?..|exact Hpres|apply collect_lookup; [by apply NoDup_singleton|by left]|].
  assert (pd ∈ prepared_documents (DeviceSession_prepare_response (holder document) [mdl_request example_asked] example_permitted))
    as Hin by (change (pd ∈ prepared_documents (turn_prepared (holder document) (example_asked, example_permitted, []))); rewrite Hprep; by left).
  pose proof (prepare_document_from _ _ _ _ Hpd) as [Hdt _].
  assert (nem (session_documents (holder document)) !! iss_doc_type example_issuance = Some document) as Hdoc
    by apply holder_document.
  destruct (disclosed_issued (VK := bytes) (Sig := bytes) example_issuance mdoc document (holder document) [mdl_request example_asked] example_permitted pd
    Hissue Hdoc Hin Hdt) as [_ Hns].
  destruct (Hns CORE_NAMESPACE) as (Hitems & _ & Hreported). exists pd. split; [done|]. split.
  - assert (shared example_issuance [mdl_request example_asked] example_permitted CORE_NAMESPACE = [("family_name"%string, Text "Doe")])
      as Hsh by (vm_compute; reflexivity).
    rewrite Hsh in Hitems. apply Forall2_cons_inv_l in Hitems as (item & l & Hitem & Hnil & ->). inversion Hnil; subst l.
    exists item. split; [reflexivity|exact Hitem].
  - apply Hreported. apply and_assoc. split; [|vm_compute; reflexivity].
    apply shareable_elem, (bool_decide_unpack _). vm_compute. exact I.
Defined.

(** The premises of a presentation, for any document with the example's device key. *)
Lemma example_premises (document : Document) :
  RequestNamespaces_wf example_asked ∧ keys_work (holder document) ∧ linked (holder document) example_reader.
Proof. split; [apply asked_wf|]. split; [exact example_keys_work|done]. Qed.

Lemma issued_credential_accepted_witness :
  ∃ mdoc document dev' rdr' o object, example_issue = Some (Ok (mdoc, document)) ∧
    presentation (VK := bytes) (Sig := bytes) 50 (holder document) example_reader (example_asked, example_permitted, [[]]) =
      Some (dev', rdr', o) ∧
    ao_issuer_authentication o = Valid ∧ ao_device_authentication o = Valid ∧ ao_errors o = ∅ ∧
    response o !! CORE_NAMESPACE = Some (JObject (entries object)) ∧ object !! "family_name"%string = Some (JString "Doe") ∧
    response o !! AAMVA_NAMESPACE = None.
Proof.
  destruct example_issued as (mdoc & document & Hissue).
  assert (Mso.device_key_info (doc_mso document) = iss_key_info example_issuance) as Hinfo by apply (issued_payload _ _ _ Hissue).
  destruct (holder_presentable document Hinfo) as [key Hpres].
  destruct (example_premises document) as (Hasked & Hkeys & Hlinked).
  edestruct (issued_credential_accepted (VK := bytes) (Sig := bytes) 50)
    with (i := example_issuance) (mdoc := mdoc) (document := document) (dev := holder document) (rdr := example_reader) (key := key)
      (namespaces := example_asked) (permitted := example_permitted) (signature := [] : bytes)
    as (dev' & rdr' & o & Ho & _ & Hi & Hd & He & Hr);
    [by intros x|by intros x|by intros x|by intros x|done|by intros x|by intros x|exact Hissue|exact example_accepted|exact Hpres|exact Hlinked| |exact Hkeys|vm_compute; discriminate
    |vm_compute; discriminate|exact Hasked|vm_compute; discriminate|intros ns el w; apply example_shared|apply toy_signed|].
  { apply holder_wf. intros ns el item. apply (issued_wf _ _ _ _ _ _ Hissue). }
  pose proof (Hr CORE_NAMESPACE) as (object & Hobject & Hreports). pose proof (Hr AAMVA_NAMESPACE) as Haamva.
  exists mdoc, document, dev', rdr', o, object. split; [exact Hissue|]. split; [exact Ho|]. split; [exact Hi|]. split; [exact Hd|].
  split; [exact He|]. split; [exact Hobject|]. split; [|exact Haamva].
  apply Hreports. exists (Text "Doe"). split; [|reflexivity]. vm_compute. left.
Defined.

(** The issued document on a network that replays the request to the device. *)
Definition issued_document : Document := match credential with Some (_, document) => document | None => example_document end.
Definition issued_network : channel := network_of (holder issued_document).
Definition issued_request : bytes := default [] (rok (new_request example_reader example_asked).2).
Definition issued_arrived : channel :=
  device_after (VK := bytes) (Sig := bytes) 50 (reader_asks issued_network example_asked) issued_request.
Definition issued_answered : channel :=
  sign_after (device_prepares (device_after (VK := bytes) (Sig := bytes) 50 issued_arrived issued_request)
    [mdl_request example_asked] example_permitted) [].
Definition issued_answer : bytes := default [] (retrieve_response (ch_dev issued_answered)).2.
Definition issued_finished : channel :=
  reader_after (VK := bytes) (Sig := bytes) 50 (device_retrieves issued_answered) issued_answer.

Lemma holder_network_fresh document :
  (∀ ns el item, stored document ns el = Some item → Tag24_wf item) → fresh_channel (network_of (holder document)).
Proof.
  intros Hwf. split; [done|]. split; [by apply holder_wf|]. split; [done|]. split; [done|].
  split; [intros key iv ct []%elem_of_nil|]. done.
Qed.
Definition issued_retrieved : channel := device_retrieves issued_answered.
Lemma run_retrieved : rtc (channel_step (VK := bytes) (Sig := bytes) 50) issued_network issued_retrieved.
Proof.
  apply run_retrieve, run_sign, run_prepare.
  do 2 (apply run_device; [apply not_forged_unforged; vm_compute; reflexivity|]).
  apply run_ask; [apply asked_wf|apply rtc_refl].
Qed.
Lemma answer_unforged : unforged issued_retrieved (rdr_sk_device (ch_rdr issued_retrieved)) issued_answer.
Proof. apply not_forged_unforged. vm_compute. reflexivity. Qed.
Lemma run_issued : rtc (channel_step (VK := bytes) (Sig := bytes) 50) issued_network issued_finished.
Proof. apply run_reader; [exact answer_unforged|exact run_retrieved]. Qed.

Lemma issued_report :
  ∃ rdr o, handle_response (VK := bytes) (Sig := bytes) 50 (ch_rdr issued_retrieved) issued_answer = Some (rdr, o) ∧
    response o !! CORE_NAMESPACE = Some (JObject [("family_name"%string, JString "Doe")]).
Proof.
  assert ((λ p, response p.2 !! CORE_NAMESPACE) <$>
    handle_response (VK := bytes) (Sig := bytes) 50 (ch_rdr issued_retrieved) issued_answer =
    Some (Some (JObject [("family_name"%string, JString "Doe")]))) as Hreport by (vm_compute; reflexivity).
  destruct (handle_response _ _ _) as [[rdr o]|]; [|discriminate Hreport]. injection Hreport as Hj.
  exists rdr, o. exact (conj eq_refl Hj).
Qed.

Lemma reported_issued_witness :
  ∃ rdr o object v,
    handle_response (VK := bytes) (Sig := bytes) 50 (ch_rdr issued_retrieved) issued_answer = Some (rdr, o) ∧
    response o !! CORE_NAMESPACE = Some (JObject (entries object)) ∧
    object !! "family_name"%string = Some (JString "Doe") ∧
    given issued_elements CORE_NAMESPACE "family_name" = Some v ∧ parse_response v = Some (Ok (JString "Doe")).
Proof.
  destruct example_issued as (mdoc & document & Hissue). destruct issued_report as (rdr & o & Hh & Hj).
  assert (issued_document = document) as Hdoc by (unfold issued_document, credential; by rewrite Hissue).
  destruct (reported_issued (VK := bytes) (Sig := bytes) 50 example_issuance mdoc document issued_network issued_retrieved
    issued_answer rdr o CORE_NAMESPACE (JObject [("family_name"%string, JString "Doe")]) Hissue eq_refl)
    as (_ & object & Hobject & Hvalues);
    [rewrite <-Hdoc; apply holder_document| |exact run_retrieved|exact answer_unforged|exact Hh|exact Hj|].
  { apply holder_network_fresh. intros ns el it. rewrite Hdoc. apply (issued_wf _ _ _ _ _ _ Hissue). }
  assert (object !! "family_name"%string = Some (JString "Doe")) as Hname.
  { apply entries_lookup. injection Hobject as <-. by left. }
  destruct (Hvalues _ _ Hname) as (_ & _ & v & _ & _ & _ & Hgiven & Hparse).
  exists rdr, o, object, v. rewrite <-Hobject. exact (conj Hh (conj Hj (conj Hname (conj Hgiven Hparse)))).
Defined.

Lemma received_issued_witness :
  ∃ r d item el v, r ∈ received issued_finished ∧ d ∈ default [] (nev <$> rs_documents r) ∧
    item ∈ items_of (rd_issuer_signed d) CORE_NAMESPACE ∧ given issued_elements CORE_NAMESPACE el = Some v ∧
    carries (doc_mso issued_document) CORE_NAMESPACE el v item.
Proof.
  destruct example_issued as (mdoc & document & Hissue).
  assert (issued_document = document) as Hdoc by (unfold issued_document, credential; by rewrite Hissue).
  assert (is_Some (first_item issued_finished CORE_NAMESPACE)) as [[[r d] item] Hfirst] by (vm_compute; eexists; reflexivity).
  pose proof (first_item_elem _ _ _ _ _ Hfirst) as (Hr & Hd & Hitem).
  assert ((λ x : DeviceResponse * ResponseDocument * IssuerSignedItemBytes, rd_doc_type x.1.2) <$>
    first_item issued_finished CORE_NAMESPACE = Some MDL_DOC_TYPE) as Hdt by (vm_compute; reflexivity).
  rewrite Hfirst in Hdt. injection Hdt as Hdt.
  edestruct (received_issued (VK := bytes) (Sig := bytes) 50 example_issuance mdoc document issued_network issued_finished
    r d CORE_NAMESPACE item Hissue) as (requests & permitted & el & v & _ & _ & _ & Hgiven & Hcarries & _);
    [rewrite <-Hdoc; apply holder_document| |exact run_issued|exact Hr|exact Hd|exact Hdt|exact Hitem|].
  - apply holder_network_fresh. intros ns el it. rewrite Hdoc. apply (issued_wf _ _ _ _ _ _ Hissue).
  - exists r, d, item, el, v. rewrite Hdoc. exact (conj Hr (conj Hd (conj Hitem (conj Hgiven Hcarries)))).
Defined.

(** The issued document with one item of the holder's making. *)
Definition forge (document : Document) : Document := {|
  doc_id := doc_id document; doc_issuer_auth := doc_issuer_auth document; doc_mso := doc_mso document;
  doc_namespaces := {| nem := collect [(CORE_NAMESPACE,
    {| nem := collect [example_item 9 "family_name" (Text "Roe")] |})] |} |}.
Lemma forged_stored document ns el item :
  stored (forge document) ns el = Some item → el = "family_name"%string ∧ item = (example_item 9 "family_name" (Text "Roe")).2.
Proof.
  unfold stored. cbn [forge doc_namespaces nem]. intros Hst. destruct (collect _ !! ns) as [m|] eqn:Hm; [|discriminate Hst].
  apply collect_lookup in Hm as [= -> ->]%list_elem_of_singleton; [|by apply NoDup_singleton].
  cbn [mbind option_bind nem] in Hst. apply collect_lookup in Hst as [= -> ->]%list_elem_of_singleton; [done|apply NoDup_singleton].
Qed.
Lemma forged_held document requests permitted ns el v :
  (el, v) ∈ held (forge document) requests permitted ns → v = Text "Roe".
Proof.
  intros (el' & _ & Hv)%list_elem_of_omap. destruct (stored (forge document) ns el') as [item|] eqn:Hst; [|discriminate Hv].
  apply forged_stored in Hst as [_ ->]. cbn in Hv. by injection Hv.
Qed.

Lemma forged_values_accepted_witness :
  ∃ mdoc document dev' rdr' o object, example_issue = Some (Ok (mdoc, document)) ∧
    presentation (VK := bytes) (Sig := bytes) 50 (holder (forge document)) example_reader
      (example_asked, example_permitted, [[]]) = Some (dev', rdr', o) ∧
    ao_issuer_authentication o = Valid ∧ ao_device_authentication o = Valid ∧ ao_errors o = ∅ ∧
    response o !! CORE_NAMESPACE = Some (JObject (entries object)) ∧ object !! "family_name"%string = Some (JString "Roe").
Proof.
  destruct example_issued as (mdoc & document & Hissue).
  assert (Mso.device_key_info (doc_mso (forge document)) = iss_key_info example_issuance) as Hinfo
    by apply (issued_payload _ _ _ Hissue).
  destruct (holder_presentable (forge document) Hinfo) as [key Hpres].
  destruct (example_premises (forge document)) as (Hasked & Hkeys & Hlinked).
  edestruct (forged_values_accepted (VK := bytes) (Sig := bytes) 50)
    with (i := example_issuance) (mdoc := mdoc) (document := document) (forged := forge document) (dev := holder (forge document))
      (rdr := example_reader) (key := key)
      (namespaces := example_asked) (permitted := example_permitted) (signature := [] : bytes)
    as (dev' & rdr' & o & Ho & _ & Hi & Hd & He & Hr);
    [by intros x|by intros x|by intros x|by intros x|done|by intros x|by intros x|exact Hissue|exact example_accepted|reflexivity|reflexivity
    | |exact Hpres|exact Hlinked| |exact Hkeys|vm_compute; discriminate
    |vm_compute; discriminate|exact Hasked|vm_compute; discriminate|by intros ns el w ->%forged_held|apply toy_signed|].
  { by intros ns el item [-> ->]%forged_stored. }
  { apply holder_wf. intros ns el item [-> ->]%forged_stored. vm_compute. reflexivity. }
  pose proof (Hr CORE_NAMESPACE) as (object & Hobject & Hreports).
  exists mdoc, document, dev', rdr', o, object. split; [exact Hissue|]. split; [exact Ho|]. split; [exact Hi|]. split; [exact Hd|].
  split; [exact He|]. split; [exact Hobject|].
  apply Hreports. exists (Text "Roe"). split; [|reflexivity]. vm_compute. left.
Defined.

(** ** A credential of a description *)

Section described.
#[local] Existing Instance ascii_case.
#[local] Existing Instance calendar.
#[local] Existing Instance plain_base64.

Definition description : list (string * Json) := example_iso "1970-01-01T01:00:00+01:00".
Definition described_issuance (core : OrgIso1801351) (aamva : OrgIso1801351Aamva) : issuance (R := Z) (E := SerialDigestExecutor) := {|
  iss_doc_type := MDL_DOC_TYPE; iss_namespaces := mdl_namespaces core aamva; iss_validity := example_validity;
  iss_digest := SHA256;
  iss_key_info := {| device_key := example_device_key; key_authorizations := None; key_info := None |};
  iss_algorithm := ES256; iss_decoys := true; iss_rng := 5%Z; iss_executor := Serial; iss_chain := example_chain;
  iss_signature := []; iss_document_id := [1; 2]%Z |}.



(** It is issued: every signature of the example's scheme verifies. *)
Lemma described_issued core aamva :
  OrgIso1801351_from_json (JObject description) = Some (Ok core) →
  OrgIso1801351Aamva_from_json (JObject example_aamva) = Some (Ok aamva) →
  ∃ mdoc document, issue (VK := bytes) (Sig := bytes) (described_issuance core aamva) = Some (Ok (mdoc, document)).
Proof.
  intros Hcore Haamva.
  assert (∃ prepared r, issue_prepared (described_issuance core aamva) = Ok (prepared, r)) as (prepared & r & Hp).
  { vm_compute in Hcore. injection Hcore as <-. vm_compute in Haamva. injection Haamva as <-.
    match goal with |- ∃ prepared r, ?x = _ => assert (is_ok x = true) as Hok by (vm_compute; reflexivity) end.
    destruct (issue_prepared _) as [[prepared r]|]; [|discriminate Hok]. exists prepared, r. reflexivity. }
  apply (issue_outcome (VK := bytes) (Sig := bytes) (described_issuance core aamva) prepared r example_signer Hp eq_refl).
  eexists NistP256, Sha256_digest, _, _. split; [reflexivity|]. split; [reflexivity|]. split; reflexivity.
Qed.

Definition described_asked : RequestNamespaces := asked ["age_over_18"; "family_name"; "portrait"]%string.

Lemma described_asks el :
  bool_decide (el ∈ shareable [mdl_request described_asked] example_permitted MDL_DOC_TYPE CORE_NAMESPACE) = true →
  user_permits example_permitted MDL_DOC_TYPE CORE_NAMESPACE el ∧
  reader_requests [mdl_request described_asked] MDL_DOC_TYPE CORE_NAMESPACE el.
Proof. intros Hel. apply shareable_elem. by apply bool_decide_eq_true in Hel. Qed.

Lemma described_credential_reported_witness :
  ∃ core aamva mdoc document dev' rdr' o object,
    OrgIso1801351_from_json (JObject description) = Some (Ok core) ∧
    issue (VK := bytes) (Sig := bytes) (described_issuance core aamva) = Some (Ok (mdoc, document)) ∧
    presentation (VK := bytes) (Sig := bytes) 50 (holder document) example_reader (described_asked, example_permitted, [[]]) =
      Some (dev', rdr', o) ∧
    ao_errors o = ∅ ∧ response o !! CORE_NAMESPACE = Some (JObject (entries object)) ∧
    object !! "family_name"%string = Some (JString "Smith") ∧ object !! "age_over_18"%string = Some (JBool true) ∧
    object !! "given_name"%string = None.
Proof.
  destruct (OrgIso1801351_from_json (JObject description)) as [[core|]|] eqn:Hcore; [|vm_compute in Hcore; discriminate Hcore..].
  destruct (OrgIso1801351Aamva_from_json (JObject example_aamva)) as [[aamva|]|] eqn:Haamva; [|vm_compute in Haamva; discriminate Haamva..].
  destruct (described_issued core aamva Hcore Haamva) as (mdoc & document & Hissue).
  assert (Mso.device_key_info (doc_mso document) = iss_key_info (described_issuance core aamva)) as Hinfo
    by apply (issued_payload _ _ _ Hissue).
  destruct (holder_presentable document Hinfo) as [key Hpres].
  destruct (example_premises document) as (_ & Hkeys & Hlinked).
  edestruct (described_credential_reported (VK := bytes) (Sig := bytes) 50)
    with (i := described_issuance core aamva) (m := description) (a := example_aamva) (core := core) (aamva := aamva)
      (mdoc := mdoc) (document := document) (dev := holder document) (rdr := example_reader) (key := key)
      (namespaces := described_asked) (permitted := example_permitted) (signature := [] : bytes)
    as (dev' & rdr' & o & Ho & _ & _ & He & Hr & _);
    [by intros x|by intros x|by intros x|by intros x|done|by intros x|by intros x
    |apply (bool_decide_unpack _); vm_compute; exact I|exact Hcore|exact Haamva|reflexivity|exact Hissue| |exact Hpres|exact Hlinked|
    |exact Hkeys|vm_compute; discriminate|vm_compute; discriminate| | |apply toy_signed|].
  - split; [done|]. split; [done|]. split; [split; [done|repeat constructor]|].
    split; [apply example_key_info|]. eexists. split; vm_compute; reflexivity.
  - apply holder_wf. intros ns el item. apply (issued_wf _ _ _ _ _ _ Hissue).
  - apply asked_wf.
  - exists "family_name"%string. split; [apply described_asks; vm_compute; reflexivity|vm_compute; by eexists].
  - assert (∀ el, bool_decide (el ∈ shareable [mdl_request described_asked] example_permitted MDL_DOC_TYPE CORE_NAMESPACE) = true →
      is_Some (iso_element description el) → response o !! CORE_NAMESPACE ≠ None) as Hsome.
    { intros el Hel [v Hv] Hnone. rewrite Hnone in Hr. rewrite (Hr el (described_asks el Hel)) in Hv. discriminate Hv. }
    destruct (response o !! CORE_NAMESPACE) as [j|] eqn:Hj;
      [|exfalso; apply (Hsome "family_name"%string); [vm_compute; reflexivity|vm_compute; by eexists|reflexivity]].
    destruct Hr as (object & -> & Hdom & Hvalues).
    exists core, aamva, mdoc, document, dev', rdr', o, object. split; [reflexivity|]. split; [exact Hissue|]. split; [exact Ho|].
    split; [exact He|]. split; [exact Hj|].
    assert (∀ el v, bool_decide (el ∈ shareable [mdl_request described_asked] example_permitted MDL_DOC_TYPE CORE_NAMESPACE) = true →
      json_of (iso_element description el) = Some v → object !! el = Some v) as Hfound.
    { intros el v Hel Hv. assert (is_Some (object !! el)) as [w Hw].
      { apply Hdom. split; [by apply described_asks|]. destruct (iso_element description el); [by eexists|discriminate Hv]. }
      rewrite Hw. apply Hvalues in Hw. rewrite <-Hw. exact Hv. }
    split; [apply Hfound; vm_compute; reflexivity|]. split; [apply Hfound; vm_compute; reflexivity|].
    destruct (object !! "given_name"%string) eqn:Hgiven; [|reflexivity]. exfalso.
    assert (is_Some (object !! "given_name"%string)) as [Hasks _]%Hdom by by eexists.
    apply shareable_elem in Hasks.
    assert (bool_decide ("given_name"%string ∈ shareable [mdl_request described_asked] example_permitted MDL_DOC_TYPE CORE_NAMESPACE) = false)
      as Hno by (vm_compute; reflexivity).
    apply bool_decide_eq_false in Hno. exact (Hno Hasks).
Defined.
End described.
